(* ===== verification/_CoqProject ===== *)
-Q . S2P
Prelude.v
Dll.v
KHeap.v
KList.v
ListProg.v
Tree.v
TreeSearch.v
CString.v
Ram.v
Lock.v
SysMem.v
Malloc.v
Printf.v
PrintfView.v
Ports.v
Console.v
Messages.v
Interrupts.v
Graphics.v
OrderedArrays.v
Threads.v
PageAlloc.v
PagingInit.v
Regions.v
X86Memory.v
Timing.v
ArmPort.v
Tasks.v
Keyboard.v
Fs.v
Vfs.v
VfsPath.v
VfsMount.v
VfsTable.v
VfsOpen.v
FsNodes.v
Initrd.v
InitrdLoad.v
Device.v
DeviceLife.v
PcDevices.v
Startup.v
VTerm.v
