(* ===== verification/Prelude.v ===== *)
(** * Beryllium2 kernel: verification library (root file)

    A model of the kernel's own code under src/kernel: its libraries
    (lists, trees, strings, formatted output, allocator, locks), the memory
    management of its three ports, timers and the tasks they run, keyboard
    input, the text consoles and messages, interrupts, the serial lines, and
    the virtual file system with its file systems, ramdisk and devices.
    All theorems are about definitions that follow the C functions
    statement by statement.

    ** Conventions

    A pointer or word is the [Z] it denotes; every C operation that can wrap
    is followed by [u8], [u16], [u32] or [s32]. A C function is a computation
    of the monad [M S]: it takes the state [S] of its file and returns
    [Done x s], [Fault e] (a null or wild dereference, an index out of range)
    or [Spin] (the code does not return, or the fuel of a loop is used up).
    A file's static variables and the memory it reaches are the fields of
    its state record; [within] runs a component on the part of a larger
    state that belongs to it. Loops are [while], [for_up], [for_down] and
    [loop] with fuel. [word_fuel] is 2^32, the number of values of a C word:
    a loop that runs longer repeats a state. List loops take the number of
    objects of the store ([walk_fuel]), which no acyclic list exceeds. The
    theorems prove results ([Done]) and so that the fuel is enough; the ones
    about endless loops say that every fuel runs out.
    Device registers are ports: a bus ([Bus]) answers each read from the
    accesses made before it, and a program's accesses are recorded in order.
    The messages of [device_start] and [device_stop], of isr.c, of
    x86_early up to the boot loader's check, and of the page fault handler are
    printed with Messages' [klog]; those of the other callers are left out, as
    are the points at which interrupts arrive and memory outside the flat
    32-bit address space.

    ** Parts

    - Prelude: words, the monad, loops and their rules, lists as arrays.
    - Dll: doubly linked segments, shared by lists, heap and regions.
    - KHeap: the store of C structures and the interface [Allocator] that
      says what [malloc] and [free] promise; [Bump] shows that the interface
      can be met, Malloc implements it.
    - KList, ListProg: lib/list.c; [list_rep h l ns] says that [l] is the
      list of the nodes and values [ns]. ListProg proves that programs of
      list operations refine programs on sequences.
    - Tree, TreeSearch: lib/tree.c on the same store, and its searches.
    - CString, Ram: lib/string.c on bytes, and 32-bit words of memory.
    - Lock: lib/lock.c.
    - SysMem: arch/arm/integrator-cp/memory.c and arch/arm/rpi/memory.c, and
      the interface [Sbrk] between the ports and malloc.c.
    - Malloc: malloc.c over any [Sbrk]; the blocks tile the heap.
    - Printf: printf.c, the scanner as a state machine and its renderer;
      PrintfView carries its theorem to any output device that refines a list
      of characters.
    - Ports: arch/x86/ports.c, the serial line, the interval timer's divisor
      and the Bochs adapter's registers. Console: terminal.c, video.c and
      drivers/textmode.c, and printf on them; the screen is the end of a
      tape. Messages: klog.c, error.c over the console.
    - Interrupts: arch/x86/low/gdt.c, idt.c, isr.c, irq.c.
    - Graphics: gterminal.c, framebuffer.c, qemu-PL110.c, the ARM branches of
      video.c, and the font.
    - OrderedArrays: arch/x86/lib/ordered_array.c. Threads: thread.c.
    - ArmPort: arm4-xrq.c and drivers of the Integrator, the Raspberry Pi's
      uart.c.
    - PageAlloc, X86Memory: arch/x86/page_allocator.c, paging.c,
      lib/placement_malloc.c, memory.c; bitmap and page tables in memory.
      PagingInit: paging_init and what the processor's walk then finds.
    - Regions: arch/x86/mman.c (arch/arm/rpi/mman.c is the same text).
    - Timing: timing.c and timer.c; Tasks: wd.c, kmonitor.c, scheduler.c
      and the timers of init/kmain.c, run by Timing's timer table.
    - Keyboard: arch/x86/drivers/keyboard.c, input.c.
    - Fs: the state of the file system code and ownership of blocks;
      Vfs: vfs.c; VfsPath: its canonical paths; VfsMount: its mount tree in
      the store; VfsTable: the tree as a table of paths, vfs_init and
      vfs_mount; VfsOpen: get_mount_point and kopen; FsNodes: fs/*.c; Initrd:
      fs/initrd.c and util/build-initrd.c; InitrdLoad: the one read by the
      other;
      Device: device.c, driver.c; DeviceLife: a device's status over calls.
    - PcDevices: how pit.c, serial.c and keyboard.c register their drivers
      and interrupts, and start.
    - Startup: x86-early.c up to paging, sysinfo.c with cpuid.h's bits, the
      fields of multiboot.h, the page fault handler, init/common.c and
      modules.c.
    - VTerm: vterm.c, its terminal in memory and its copy to the screen.
    ** Theorems

    Heap: [malloc], [free], [calloc] and [realloc] keep the tiling, hand out
    aligned, disjoint blocks of the size asked, first fit, and merge free blocks; and
    what they do at size zero and near 2^32. Lists: refinement of sequences,
    with the fault of a removal at the length, and the operations that do not
    return. Strings: block moves,
    comparison, tokens. Formatted output: [do_printf] equals the renderer,
    [sprintf] writes the rendering and nothing else, numbers read back.
    Memory: frames, placement, regions, page requests, the breaks of the
    ports and what they get wrong. Timers and tasks: registration, periodic
    firing, the watchdog's deadline, the rotation of the thread the
    scheduler selects (the code does not switch to it). Keyboard: a bounded
    queue for every scan code and whatever byte lies behind its array. Files: canonical paths, the
    mount table that [vfs_mount] extends and [kopen] reads, and the ramdisk
    that is unpacked as it was packed.

    Console: each character acts on a scrolling tape of cells, any sequence
    of calls keeps the screen well formed, and [printf] and [klog] put their
    rendering there and on the serial line; the serial lines send what they
    are given as long as they drain; the glyphs drawn on the ARM display.
    Interrupts: what the processor finds in its tables after the set-up,
    the dispatch to handlers and the acknowledgements, the stop at a fault,
    the ARM vectors as branches. Sorted arrays stay sorted. A thread's first
    frame lies outside its stack.
    Trees: searches find the first match in preorder and count every node.
    Start-up: the identity map of [paging_init] as the processor walks it,
    the ramdisk kept through it, the verdict on the boot loader's magic
    number; devices come online when their start routine succeeds, their
    message and then the driver's accesses at the ports, and a device's status
    is an automaton. Virtual terminals refine a sequence of
    characters.

    ** Not modelled

    Assembly (boot code, interrupt stubs, the context switch); kmain, the rest
    of x86_early and the ARM entry functions, which call initialisers modelled
    here in an order of their own; functions that only print listings of
    timers, devices or the mount tree, since the store with its strings and
    the memory of the console are separate parts of this model; bga_init; the
    SPARC port, which is a stub. PROJECT.json lists each part. *)

From Stdlib Require Export ZArith Lia.
From stdpp Require Export base gmap numbers list.

#[global] Set Default Goal Selector "!".
#[global] Open Scope Z_scope.

(** ** Machine words

    The kernel is built for 32-bit targets (i586, ARM): [int], [unsigned],
    [long] and pointers have 32 bits, [char] is a signed byte. A word is the
    integer it denotes; every operation that can wrap is followed by the
    wrap-around of its C type. *)

Definition u8 (z : Z) : Z := z mod 2 ^ 8.
Definition u16 (z : Z) : Z := z mod 2 ^ 16.
Definition u32 (z : Z) : Z := z mod 2 ^ 32.

(** Two's complement reading of the low [w] bits. *)
Definition signed (w z : Z) : Z :=
  let u := z mod 2 ^ w in if u <? 2 ^ (w - 1) then u else u - 2 ^ w.

Definition s8 (z : Z) : Z := signed 8 z.
Definition s32 (z : Z) : Z := signed 32 z.

(** [zify] leaves division and modulo alone; this tactic adds their
    defining equations before calling [lia]. *)
Ltac zdm := Z.div_mod_to_equations; lia.

Section words.
Implicit Types z : Z.

Lemma u8_range z : 0 <= u8 z < 256.
Proof. unfold u8. apply Z.mod_pos_bound. lia. Qed.

Lemma u32_range z : 0 <= u32 z < 2 ^ 32.
Proof. unfold u32. apply Z.mod_pos_bound. lia. Qed.

Lemma u8_small z : 0 <= z < 256 -> u8 z = z.
Proof. intros. unfold u8. apply Z.mod_small. lia. Qed.

Lemma u16_small z : 0 <= z < 65536 -> u16 z = z.
Proof. intros. unfold u16. apply Z.mod_small. lia. Qed.

Lemma u32_small z : 0 <= z < 2 ^ 32 -> u32 z = z.
Proof. intros. unfold u32. apply Z.mod_small. lia. Qed.

Lemma u32_idemp z : u32 (u32 z) = u32 z.
Proof. apply u32_small, u32_range. Qed.

Lemma u8_idemp z : u8 (u8 z) = u8 z.
Proof. apply u8_small, u8_range. Qed.

Lemma s32_small z : - 2 ^ 31 <= z < 2 ^ 31 -> s32 z = z.
Proof.
  intros. unfold s32, signed. change (2 ^ (32 - 1)) with (2 ^ 31).
  destruct (Z.ltb_spec (z mod 2 ^ 32) (2 ^ 31)); zdm.
Qed.

Lemma s32_range z : - 2 ^ 31 <= s32 z < 2 ^ 31.
Proof.
  unfold s32, signed. change (2 ^ (32 - 1)) with (2 ^ 31).
  pose proof (Z.mod_pos_bound z (2 ^ 32) ltac:(lia)).
  destruct (Z.ltb_spec (z mod 2 ^ 32) (2 ^ 31)); lia.
Qed.

Lemma s32_u32 z : s32 (u32 z) = s32 z.
Proof. unfold s32, signed, u32. by rewrite Z.mod_mod. Qed.

Lemma u32_s32 z : u32 (s32 z) = u32 z.
Proof.
  unfold s32, signed, u32. change (2 ^ (32 - 1)) with (2 ^ 31).
  destruct (Z.ltb_spec (z mod 2 ^ 32) (2 ^ 31)); zdm.
Qed.

Lemma u32_add_l z1 z2 : u32 (u32 z1 + z2) = u32 (z1 + z2).
Proof. unfold u32. zdm. Qed.

Lemma u32_add_r z1 z2 : u32 (z1 + u32 z2) = u32 (z1 + z2).
Proof. unfold u32. zdm. Qed.

Lemma u32_sub_l z1 z2 : u32 (u32 z1 - z2) = u32 (z1 - z2).
Proof. unfold u32. zdm. Qed.

(** Fields put side by side with shifts. *)
Lemma land_shiftl_small n c a : 0 <= n -> 0 <= c < 2 ^ n -> Z.land c (Z.shiftl a n) = 0.
Proof.
  intros Hn Hc. apply Z.bits_inj'. intros k Hk. rewrite Z.land_spec, Z.bits_0, Z.shiftl_spec by done.
  destruct (Z_lt_le_dec k n).
  - rewrite (Z.testbit_neg_r a) by lia. apply andb_false_r.
  - by rewrite <- (Z.mod_small c (2 ^ n)), Z.mod_pow2_bits_high by lia.
Qed.

Lemma lor_shiftl n c a : 0 <= n -> 0 <= c < 2 ^ n -> Z.lor c (Z.shiftl a n) = c + a * 2 ^ n.
Proof.
  intros. rewrite <- Z.shiftl_mul_pow2 by done. symmetry.
  by apply Z.add_nocarry_lor, land_shiftl_small.
Qed.

Lemma land_pow2 w i : 0 <= i -> Z.land w (2 ^ i) = if Z.testbit w i then 2 ^ i else 0.
Proof.
  intros. apply Z.bits_inj'. intros k Hk. rewrite Z.land_spec, Z.pow2_bits_eqb by lia.
  destruct (Z.eqb_spec i k) as [->|Hne].
  - destruct (Z.testbit w k) eqn:E; [by rewrite Z.pow2_bits_true|by rewrite Z.bits_0].
  - rewrite andb_false_r. destruct (Z.testbit w i); [by rewrite Z.pow2_bits_false|by rewrite Z.bits_0].
Qed.
End words.

Create HintDb kernel.
Create Rewrite HintDb kernel.
#[export] Hint Resolve u8_range u32_range s32_range : kernel.
#[export] Hint Rewrite u32_idemp u8_idemp u32_s32 u32_add_l u32_add_r u32_sub_l : kernel.

(** ** Outcomes of kernel code

    [Done a s]: returned [a] in state [s]. [Fault f]: the code did what C
    leaves undefined or what faults on the machine (null or wild pointer,
    index outside its array, missing variadic argument). [Halted s]: the
    code stopped the machine on purpose ([panic], [halt]). [Spin]: the code
    did not finish within the fuel its definition was given. *)

Inductive fault :=
  | NullPointer
  | WildPointer (a : Z)
  | OutOfRange (i : Z)
  | MissingArgument
  | DivideByZero.

Inductive outcome (S A : Type) :=
  | Done (a : A) (s : S)
  | Fault (f : fault)
  | Halted (s : S)
  | Spin.
Arguments Done {S A} a s.
Arguments Fault {S A} f.
Arguments Halted {S A} s.
Arguments Spin {S A}.

Definition returned {S A} (o : outcome S A) : bool :=
  match o with Done _ _ => true | _ => false end.

Definition M (S A : Type) : Type := S -> outcome S A.

#[export] Instance M_ret S : MRet (M S) := λ A a s, Done a s.
#[export] Instance M_bind S : MBind (M S) := λ A B f m s,
  match m s with
  | Done a s' => f a s'
  | Fault e => Fault e
  | Halted s' => Halted s'
  | Spin => Spin
  end.

Section monad.
Context {S : Type}.

Definition get : M S S := λ s, Done s s.
Definition put (s : S) : M S unit := λ _, Done tt s.
Definition gets {A} (f : S -> A) : M S A := λ s, Done (f s) s.
Definition modify (f : S -> S) : M S unit := λ s, Done tt (f s).
Definition fail {A} (e : fault) : M S A := λ _, Fault e.
Definition halt_here {A} : M S A := λ s, Halted s.
Definition spin {A} : M S A := λ _, Spin.
Definition of_option {A} (e : fault) (o : option A) : M S A :=
  match o with Some a => mret a | None => fail e end.

(** [loop n body a] runs [body] until it returns [inr], at most [n] times. *)
Fixpoint loop {A B} (n : nat) (body : A -> M S (A + B)) (a : A) : M S B :=
  match n with
  | O => spin
  | Datatypes.S n' =>
      r ← body a;
      match r with inl a' => loop n' body a' | inr b => mret b end
  end.

(** The same with a binary bound, for loops bounded by the address space. *)
Fixpoint iterate {A B} (p : positive) (body : A -> M S (A + B)) (a : A) : M S (A + B) :=
  match p with
  | xH => body a
  | xO q =>
      r ← iterate q body a;
      match r with inl a' => iterate q body a' | inr b => mret (inr b) end
  | xI q =>
      r ← body a;
      match r with
      | inl a1 =>
          r ← iterate q body a1;
          match r with inl a2 => iterate q body a2 | inr b => mret (inr b) end
      | inr b => mret (inr b)
      end
  end.

Definition while {A B} (p : positive) (body : A -> M S (A + B)) (a : A) : M S B :=
  r ← iterate p body a;
  match r with inl _ => spin | inr b => mret b end.

(** [for (i = from; ...; i++)], [n] times *)
Fixpoint for_up (n : nat) (from : Z) (f : Z -> M S unit) : M S unit :=
  match n with
  | O => mret tt
  | Datatypes.S n' => f from;; for_up n' (from + 1) f
  end.

(** [for (i = n; i > 0; --i)] *)
Fixpoint for_down (n : nat) (f : Z -> M S unit) : M S unit :=
  match n with
  | O => mret tt
  | Datatypes.S n' => f (Z.of_nat n);; for_down n' f
  end.
End monad.

(** More iterations than any walk over distinct 32-bit addresses makes. *)
Definition word_fuel : positive := 0x100000000.
Lemma word_fuel_Z : Z.of_nat (Pos.to_nat word_fuel) = 2 ^ 32.
Proof. rewrite positive_nat_Z. reflexivity. Qed.
#[global] Opaque word_fuel.

Section monad_lemmas.
Context {S : Type}.
Implicit Types s : S.

Lemma bind_Done {A B} (m : M S A) (f : A -> M S B) s a s' :
  m s = Done a s' -> (m ≫= f) s = f a s'.
Proof. intros H. unfold mbind, M_bind. by rewrite H. Qed.

Lemma bind_Halted {A B} (m : M S A) (f : A -> M S B) s s' :
  m s = Halted s' -> (m ≫= f) s = Halted s'.
Proof. intros H. unfold mbind, M_bind. by rewrite H. Qed.

Lemma bind_inv {A B} (m : M S A) (f : A -> M S B) s b s' :
  (m ≫= f) s = Done b s' -> ∃ a s1, m s = Done a s1 ∧ f a s1 = Done b s'.
Proof. unfold mbind, M_bind. destruct (m s) eqn:E; intros; naive_solver. Qed.

Lemma bind_assoc {A B C} (m : M S A) (f : A -> M S B) (g : B -> M S C) s :
  ((m ≫= f) ≫= g) s = (m ≫= (λ x, f x ≫= g)) s.
Proof. unfold mbind, M_bind. by destruct (m s). Qed.

Lemma bind_ext {A B} (m1 m2 : M S A) (f g : A -> M S B) s :
  m1 s = m2 s -> (∀ a s', m1 s = Done a s' -> f a s' = g a s') ->
  (m1 ≫= f) s = (m2 ≫= g) s.
Proof. unfold mbind, M_bind. intros <-. destruct (m1 s); eauto. Qed.

Lemma bind_ret {A B} (a : A) (f : A -> M S B) s : (mret a ≫= f) s = f a s.
Proof. done. Qed.

(** Enough fuel: a loop whose body lowers a measure while [P] holds
    returns, and what it returns satisfies [Q]. *)
Lemma loop_total {A B} (body : A -> M S (A + B)) (P : A -> S -> Prop)
    (Q : B -> S -> Prop) (μ : A -> S -> nat) :
  (∀ a s, P a s ->
     ∃ r s', body a s = Done r s' ∧
       match r with
       | inl a' => P a' s' ∧ (μ a' s' < μ a s)%nat
       | inr b => Q b s'
       end) ->
  ∀ n a s, (μ a s < n)%nat -> P a s ->
    ∃ b s', loop n body a s = Done b s' ∧ Q b s'.
Proof.
  intros Hbody n. induction n as [|n IH]; intros a s Hμ HP; [lia|].
  destruct (Hbody a s HP) as (r & s' & Hr & Hcase). simpl.
  rewrite (bind_Done _ _ _ _ _ Hr). destruct r as [a'|b].
  - destruct Hcase as [HP' Hlt]. apply IH; [lia|done].
  - by exists b, s'.
Qed.

(** [iterate] splits like addition of its bounds. *)
Fixpoint iter_nat {A B} (n : nat) (body : A -> M S (A + B)) (a : A) : M S (A + B) :=
  match n with
  | O => mret (inl a)
  | Datatypes.S n' =>
      r ← body a;
      match r with inl a' => iter_nat n' body a' | inr b => mret (inr b) end
  end.

Lemma iter_nat_add {A B} (body : A -> M S (A + B)) n m a s :
  iter_nat (n + m) body a s
  = (r ← iter_nat n body a;
     match r with inl a' => iter_nat m body a' | inr b => mret (inr b) end) s.
Proof.
  revert a s. induction n as [|n IH]; intros a s; [done|]. cbn [plus iter_nat].
  rewrite bind_assoc. apply bind_ext; [done|]. intros [a'|b] s' _; [apply IH|done].
Qed.

Lemma iterate_nat {A B} (body : A -> M S (A + B)) p a s :
  iterate p body a s = iter_nat (Pos.to_nat p) body a s.
Proof.
  assert (∀ q a s, (∀ a s, iterate q body a s = iter_nat (Pos.to_nat q) body a s) ->
    (r ← iterate q body a;
     match r with inl a' => iterate q body a' | inr b => mret (inr b) end) s
    = iter_nat (Pos.to_nat q + Pos.to_nat q) body a s) as Htwice.
  { intros q a' s' Hq. rewrite iter_nat_add.
    apply bind_ext; [apply Hq|]. intros [|] ? _; [apply Hq|done]. }
  revert a s. induction p as [p IH|p IH|]; intros a s; cbn [iterate].
  - replace (Pos.to_nat p~1) with (Datatypes.S (Pos.to_nat p + Pos.to_nat p)) by lia.
    apply bind_ext; [done|]. intros [a'|b] s' _; [by apply Htwice|done].
  - replace (Pos.to_nat p~0) with (Pos.to_nat p + Pos.to_nat p)%nat by lia. by apply Htwice.
  - change (Pos.to_nat 1) with 1%nat. cbn. unfold mbind, M_bind.
    by destruct (body a s) as [[a'|b] s'| | |].
Qed.

Lemma iter_nat_loop {A B} (body : A -> M S (A + B)) n a s :
  loop n body a s
  = (r ← iter_nat n body a; match r with inl _ => spin | inr b => mret b end) s.
Proof.
  revert a s. induction n as [|n IH]; intros a s; [done|]. cbn [loop iter_nat].
  rewrite bind_assoc. apply bind_ext; [done|]. intros [a'|b] s' _; [apply IH|done].
Qed.

Lemma while_loop {A B} p (body : A -> M S (A + B)) a s :
  while p body a s = loop (Pos.to_nat p) body a s.
Proof.
  unfold while. rewrite iter_nat_loop. unfold mbind, M_bind. by rewrite iterate_nat.
Qed.

(** A loop that runs to a known result. *)
Inductive runs {A B} (body : A -> M S (A + B)) : nat -> A -> S -> B -> S -> Prop :=
  | runs_end a s b s' : body a s = Done (inr b) s' -> runs body 1 a s b s'
  | runs_step n a s a1 s1 b s' :
      body a s = Done (inl a1) s1 -> runs body n a1 s1 b s' ->
      runs body (Datatypes.S n) a s b s'.

Lemma runs_loop {A B} (body : A -> M S (A + B)) n m a s b s' :
  runs body n a s b s' -> (n <= m)%nat -> loop m body a s = Done b s'.
Proof.
  intros H. revert m. induction H as [a s b s' H|n a s a1 s1 b s' H _ IH];
    intros [|m] Hm; try lia; cbn [loop]; rewrite (bind_Done _ _ _ _ _ H); [done|].
  apply IH. lia.
Qed.

Lemma runs_while {A B} (body : A -> M S (A + B)) n p a s b s' :
  runs body n a s b s' -> (n <= Pos.to_nat p)%nat -> while p body a s = Done b s'.
Proof. intros. rewrite while_loop. by eapply runs_loop. Qed.

(** Counted loops: an invariant indexed by the counter. *)
Lemma for_up_inv (I : Z -> S -> Prop) n from f s :
  (∀ i s, from <= i < from + Z.of_nat n -> I i s -> ∃ s', f i s = Done tt s' ∧ I (i + 1) s') ->
  I from s -> ∃ s', for_up n from f s = Done tt s' ∧ I (from + Z.of_nat n) s'.
Proof.
  revert from s. induction n as [|n IH]; intros from s Hf HI; cbn [for_up].
  - exists s. by rewrite Z.add_0_r.
  - destruct (Hf from s) as (s1 & Hs1 & HI1); [lia|done|].
    destruct (IH (from + 1) s1) as (s' & Hs' & HI'); [intros; apply Hf; [lia|done]|done|].
    exists s'. rewrite (bind_Done _ _ _ _ _ Hs1). split; [done|].
    by replace (from + Z.of_nat (Datatypes.S n)) with (from + 1 + Z.of_nat n) by lia.
Qed.

Lemma for_down_inv (I : Z -> S -> Prop) n f s :
  (∀ i s, 0 < i <= Z.of_nat n -> I i s -> ∃ s', f i s = Done tt s' ∧ I (i - 1) s') ->
  I (Z.of_nat n) s -> ∃ s', for_down n f s = Done tt s' ∧ I 0 s'.
Proof.
  revert s. induction n as [|n IH]; intros s Hf HI; cbn [for_down]; [by exists s|].
  destruct (Hf (Z.of_nat (Datatypes.S n)) s) as (s1 & Hs1 & HI1); [lia|done|].
  destruct (IH s1) as (s' & Hs' & HI'); [intros; apply Hf; [lia|done]| |].
  { by replace (Z.of_nat (Datatypes.S n) - 1) with (Z.of_nat n) in HI1 by lia. }
  exists s'. by rewrite (bind_Done _ _ _ _ _ Hs1).
Qed.
End monad_lemmas.

(** ** Weakest preconditions

    [wp H m s Q]: from [s], [m] neither faults nor runs for ever; if it
    returns, [Q] holds of the result; it may stop the machine only if [H]. *)

Section wp.
Context {S : Type}.

Definition wp {A} (H : Prop) (m : M S A) (s : S) (Q : A -> S -> Prop) : Prop :=
  match m s with
  | Done a s' => Q a s'
  | Halted _ => H
  | Fault _ | Spin => False
  end.

Lemma wp_done {A} H (m : M S A) s a s' (Q : A -> S -> Prop) :
  m s = Done a s' -> Q a s' -> wp H m s Q.
Proof. unfold wp. by intros ->. Qed.

Lemma wp_ret {A} H (a : A) s (Q : A -> S -> Prop) : Q a s -> wp H (mret a) s Q.
Proof. done. Qed.

Lemma wp_bind {A B} H (m : M S A) (f : A -> M S B) s Q :
  wp H m s (λ a s', wp H (f a) s' Q) -> wp H (m ≫= f) s Q.
Proof. unfold wp, mbind, M_bind. by destruct (m s). Qed.

Lemma wp_step {A B} H (m : M S A) (f : A -> M S B) s a s' Q :
  m s = Done a s' -> wp H (f a) s' Q -> wp H (m ≫= f) s Q.
Proof. intros Hm Hf. apply wp_bind. unfold wp at 1. by rewrite Hm. Qed.

Lemma wp_mono {A} H (m : M S A) s (Q Q' : A -> S -> Prop) :
  wp H m s Q -> (∀ a s', Q a s' -> Q' a s') -> wp H m s Q'.
Proof. unfold wp. destruct (m s); eauto. Qed.

Lemma wp_Done {A} (m : M S A) s Q : wp False m s Q -> ∃ a s', m s = Done a s' ∧ Q a s'.
Proof. unfold wp. destruct (m s); naive_solver. Qed.

Lemma wp_loop {A B} H (body : A -> M S (A + B)) (P : A -> S -> Prop) (μ : A -> S -> nat) Q :
  (∀ a s, P a s -> wp H (body a) s (λ r s',
     match r with inl a' => P a' s' ∧ (μ a' s' < μ a s)%nat | inr b => Q b s' end)) ->
  ∀ n a s, (μ a s < n)%nat -> P a s -> wp H (loop n body a) s Q.
Proof.
  intros Hbody n. induction n as [|n IH]; intros a s Hμ HP; [lia|].
  cbn [loop]. apply wp_bind. eapply wp_mono; [by apply Hbody|].
  intros [a'|b] s' Hr; [|done]. destruct Hr. apply IH; [lia|done].
Qed.

Lemma wp_while {A B} H (body : A -> M S (A + B)) (P : A -> S -> Prop) (μ : A -> S -> nat) Q p a s :
  (∀ a s, P a s -> wp H (body a) s (λ r s',
     match r with inl a' => P a' s' ∧ (μ a' s' < μ a s)%nat | inr b => Q b s' end)) ->
  (μ a s < Pos.to_nat p)%nat -> P a s -> wp H (while p body a) s Q.
Proof.
  intros Hbody Hμ HP. unfold wp. rewrite while_loop.
  by apply (wp_loop H body P μ Q Hbody).
Qed.
End wp.

(** [mstep H] runs the next monadic call of the goal using its known result. *)
Ltac mstep H := rewrite (bind_Done _ _ _ _ _ H); cbn beta.

(** [mrun] runs the state accessors at the head of a block. *)
Ltac mrun :=
  repeat first
    [ rewrite (bind_Done _ _ _ _ _ (eq_refl : get _ = Done _ _)); cbn beta
    | rewrite (bind_Done _ _ _ _ _ (eq_refl : gets _ _ = Done _ _)); cbn beta
    | rewrite (bind_Done _ _ _ _ _ (eq_refl : put _ _ = Done _ _)); cbn beta
    | rewrite (bind_Done _ _ _ _ _ (eq_refl : modify _ _ = Done _ _)); cbn beta
    | rewrite (bind_Done _ _ _ _ _ (eq_refl : mret _ _ = Done _ _)); cbn beta ].

(** ** Components of a state

    Code on one part [T] of a larger state [S]. *)

Section zoom.
Context {S T : Type} (get_part : S -> T) (set_part : T -> S -> S).

Definition zoom {A} (m : M T A) : M S A := λ s,
  match m (get_part s) with
  | Done a t => Done a (set_part t s)
  | Fault f => Fault f
  | Halted t => Halted (set_part t s)
  | Spin => Spin
  end.

Lemma zoom_done {A} (m : M T A) s a t :
  m (get_part s) = Done a t -> zoom m s = Done a (set_part t s).
Proof. unfold zoom. by intros ->. Qed.

Lemma zoom_Halted {A} (m : M T A) s t :
  m (get_part s) = Halted t -> zoom m s = Halted (set_part t s).
Proof. unfold zoom. by intros ->. Qed.
End zoom.

(** A state that has a part [T], for components written for any kernel
    state. *)
Class Has (T S : Type) := {
  part : S -> T;
  set_part : T -> S -> S;
  part_set t s : part (set_part t s) = t;
  set_part_set t t' s : set_part t (set_part t' s) = set_part t s;
  set_part_part s : set_part (part s) s = s
}.
Definition within {T S} `{!Has T S} {A} (m : M T A) : M S A := zoom part set_part m.

Lemma within_done {T S} `{!Has T S} {A} (m : M T A) s a t :
  m (part s) = Done a t -> within m s = Done a (set_part t s).
Proof. apply zoom_done. Qed.

Lemma within_read {T S} `{!Has T S} {A} (m : M T A) s a :
  m (part s) = Done a (part s) -> within m s = Done a s.
Proof. intros H. rewrite (within_done _ _ _ _ H). by rewrite set_part_part. Qed.

#[export] Program Instance has_self {S} : Has S S := { part s := s; set_part t _ := t }.
Solve All Obligations with done.
#[export] Program Instance has_fst {S T} : Has S (S * T) := { part := fst; set_part t s := (t, snd s) }.
Solve All Obligations with (intros; by repeat match goal with s : _ * _ |- _ => destruct s end).
#[export] Program Instance has_snd {S T} : Has T (S * T) := { part := snd; set_part t s := (fst s, t) }.
Solve All Obligations with (intros; by repeat match goal with s : _ * _ |- _ => destruct s end).

(** ** C booleans *)

Definition truth (z : Z) : bool := negb (z =? 0).
Definition b2z (b : bool) : Z := if b then 1 else 0.

(** ** Step sequences *)

Section steps.
Context {A : Type} (R : A -> A -> Prop).

(** Reachability by any number of steps. *)
Inductive steps : A -> A -> Prop :=
  | steps_refl a : steps a a
  | steps_cons a b c : R a b -> steps b c -> steps a c.

Lemma steps_invariant (I : A -> Prop) :
  (∀ a b, I a -> R a b -> I b) -> ∀ a b, steps a b -> I a -> I b.
Proof. intros Hstep a b H. induction H; eauto. Qed.
End steps.

(** ** Arrays: lists indexed by machine integers *)

Section arrays.
Context {A : Type}.
Implicit Types l : list A.

Definition aget l (i : Z) : option A :=
  if decide (0 <= i) then l !! Z.to_nat i else None.
Definition aset (i : Z) (x : A) l : list A :=
  if decide (0 <= i) then <[Z.to_nat i := x]> l else l.

Lemma aget_Some l i x : aget l i = Some x -> 0 <= i < Z.of_nat (length l).
Proof.
  unfold aget. case_decide; [|done]. intros ?%lookup_lt_Some. lia.
Qed.

Lemma aget_lt l i : 0 <= i < Z.of_nat (length l) -> ∃ x, aget l i = Some x.
Proof.
  intros. unfold aget. rewrite decide_True by lia.
  apply lookup_lt_is_Some. lia.
Qed.

Lemma length_aset i x l : length (aset i x l) = length l.
Proof. unfold aset. case_decide; [apply length_insert|done]. Qed.

Lemma aget_aset_eq i x l :
  0 <= i < Z.of_nat (length l) -> aget (aset i x l) i = Some x.
Proof.
  intros. unfold aget, aset. rewrite !decide_True by lia.
  apply list_lookup_insert_eq. lia.
Qed.

Lemma aget_aset_ne i j x l : i ≠ j -> aget (aset i x l) j = aget l j.
Proof.
  intros. unfold aget, aset. repeat case_decide; try done.
  apply list_lookup_insert_ne. lia.
Qed.

Lemma aget_replicate n (x : A) i :
  0 <= i < Z.of_nat n -> aget (replicate n x) i = Some x.
Proof.
  intros. unfold aget. rewrite decide_True by lia.
  apply lookup_replicate_2. lia.
Qed.
End arrays.

#[export] Hint Rewrite @length_aset : kernel.
