(* ===== verification/Dll.v ===== *)
(** * Doubly linked segments

    The kernel links three kinds of records by [next]/[prev] pointers: the
    nodes of lib/list.c, the [Meta] headers of malloc.c and the regions of
    mman.c. This file states once what a well-linked segment of such records
    is ([dseg]) and how writes to [next] and [prev] fields change it. *)

From S2P Require Import Prelude.

(** What the generic lemmas need of a record type: its two links, a way to
    overwrite them and the payload that linking must leave alone. *)
Class Linked (N D : Type) := {
  nnext : N -> Z;
  nprev : N -> Z;
  npay : N -> D;
  set_nnext : Z -> N -> N;
  set_nprev : Z -> N -> N;
  nnext_set_nnext z n : nnext (set_nnext z n) = z;
  nprev_set_nnext z n : nprev (set_nnext z n) = nprev n;
  npay_set_nnext z n : npay (set_nnext z n) = npay n;
  nnext_set_nprev z n : nnext (set_nprev z n) = nnext n;
  nprev_set_nprev z n : nprev (set_nprev z n) = z;
  npay_set_nprev z n : npay (set_nprev z n) = npay n;
  set_nnext_id n : set_nnext (nnext n) n = n;
  set_nprev_id n : set_nprev (nprev n) n = n
}.

Section dseg.
Context {N D : Type} `{Linked N D}.
Implicit Types (lk : Z -> option N) (ns : list (Z * D)).

(** First node of a segment, or what follows it; last node, or what
    precedes it. *)
Definition first_of ns (next : Z) : Z :=
  match ns with [] => next | (a, _) :: _ => a end.
Definition last_of (prev : Z) ns : Z :=
  match last ns with None => prev | Some (a, _) => a end.

Fixpoint dseg lk (prev : Z) ns (next : Z) : Prop :=
  match ns with
  | [] => True
  | (a, d) :: ns' =>
      (∃ n, lk a = Some n ∧ nnext n = first_of ns' next ∧
            nprev n = prev ∧ npay n = d) ∧
      dseg lk a ns' next
  end.

Lemma first_of_app ns1 ns2 next :
  first_of (ns1 ++ ns2) next = first_of ns1 (first_of ns2 next).
Proof. by destruct ns1 as [|[]]. Qed.

Lemma last_of_app prev ns1 ns2 :
  last_of prev (ns1 ++ ns2) = last_of (last_of prev ns1) ns2.
Proof.
  unfold last_of. rewrite last_app.
  by destruct (last ns2) as [[]|].
Qed.

Lemma last_of_nil prev : last_of prev [] = prev.
Proof. done. Qed.

Lemma last_of_snoc prev ns a d : last_of prev (ns ++ [(a, d)]) = a.
Proof. by rewrite last_of_app. Qed.

Lemma last_of_cons prev a d ns : last_of prev ((a, d) :: ns) = last_of a ns.
Proof. change ((a, d) :: ns) with ([(a, d)] ++ ns). by rewrite last_of_app. Qed.

Lemma last_of_in prev ns : ns ≠ [] -> last_of prev ns ∈ ns.*1.
Proof.
  destruct ns as [|[a d] ns] using rev_ind; [done|].
  intros _. rewrite last_of_snoc, fmap_app. set_solver.
Qed.

Lemma first_of_in ns next : ns ≠ [] -> first_of ns next ∈ ns.*1.
Proof. destruct ns as [|[a d] ns]; [done|]. intros _. simpl. set_solver. Qed.

Lemma dseg_app lk prev ns1 ns2 next :
  dseg lk prev (ns1 ++ ns2) next ↔
    dseg lk prev ns1 (first_of ns2 next) ∧ dseg lk (last_of prev ns1) ns2 next.
Proof.
  revert prev. induction ns1 as [|[a d] ns1 IH]; intros prev; simpl.
  - unfold last_of. simpl. naive_solver.
  - rewrite IH, first_of_app, last_of_cons. tauto.
Qed.

(** What surrounds a non-empty segment does not show in its ends. *)
Lemma last_of_default p q ns : ns ≠ [] -> last_of p ns = last_of q ns.
Proof. destruct ns as [|[a d] ns] using rev_ind; [done|]. by rewrite !last_of_snoc. Qed.

Lemma first_of_default p q ns : ns ≠ [] -> first_of ns p = first_of ns q.
Proof. by destruct ns as [|[]]. Qed.

(** Writes outside a segment do not change it. *)
Lemma dseg_frame lk lk' prev ns next :
  (∀ a, a ∈ ns.*1 -> lk' a = lk a) -> dseg lk prev ns next -> dseg lk' prev ns next.
Proof.
  revert prev. induction ns as [|[a d] ns IH]; intros prev Hf; simpl; [done|].
  intros [(n & ? & ?) ?]. split.
  - exists n. rewrite Hf; [done|set_solver].
  - apply IH; [|done]. intros b ?. apply Hf. set_solver.
Qed.

Lemma dseg_lookup lk prev ns next a :
  dseg lk prev ns next -> a ∈ ns.*1 -> is_Some (lk a).
Proof.
  revert prev. induction ns as [|[b d] ns IH]; intros prev; simpl; [set_solver|].
  intros [(n & ? & ?) ?] Ha. rewrite elem_of_cons in Ha.
  destruct Ha as [->|]; [naive_solver|]. by eapply IH.
Qed.

(** The node at the head of the second half of a segment. *)
Lemma dseg_at lk prev ns1 a d ns2 next :
  dseg lk prev (ns1 ++ (a, d) :: ns2) next ->
  ∃ n, lk a = Some n ∧ nnext n = first_of ns2 next ∧
       nprev n = last_of prev ns1 ∧ npay n = d.
Proof. rewrite dseg_app. simpl. tauto. Qed.

(** Rewriting the outer links of a segment: its first node's [prev] and its
    last node's [next], everything else unchanged. *)
Definition relink prev ns next prev' next' (b : Z) (n : N) : N :=
  let n := if decide (b = last_of prev ns) then set_nnext next' n else n in
  if decide (b = first_of ns next) then set_nprev prev' n else n.

Lemma relink_next_only lk prev ns next next' b :
  dseg lk prev ns next -> b ∈ ns.*1 ->
  (if decide (b = last_of prev ns) then set_nnext next' else id) <$> lk b
    = relink prev ns next prev next' b <$> lk b.
Proof.
  intros Hns Hb. unfold relink. destruct (lk b) as [nb|] eqn:Hlb; [|done].
  simpl. f_equal.
  destruct (decide (b = first_of ns next)) as [->|]; [|by case_decide].
  destruct ns as [|[c e] ns]; [set_solver|]. simpl in *.
  destruct Hns as [(n' & Hn' & _ & Hp & _) _].
  assert (nb = n') as -> by congruence. case_decide; rewrite <- Hp; simpl.
  - rewrite <- (nprev_set_nnext next' n'). by rewrite set_nprev_id.
  - by rewrite set_nprev_id.
Qed.

Lemma dseg_relink lk lk' prev ns next prev' next' :
  NoDup ns.*1 ->
  (∀ b, b ∈ ns.*1 -> lk' b = relink prev ns next prev' next' b <$> lk b) ->
  dseg lk prev ns next -> dseg lk' prev' ns next'.
Proof.
  revert prev prev'. induction ns as [|[a d] ns IH]; intros prev prev';
    simpl; [done|].
  rewrite NoDup_cons. intros [Ha Hnd] Hlk [(n & Hn & Hnx & Hpv & Hpay) Hns].
  split.
  - pose proof (Hlk a ltac:(set_solver)) as Hla.
    unfold relink in Hla. rewrite last_of_cons in Hla.
    rewrite Hn in Hla. cbn in Hla. rewrite (decide_True (P := a = a)) in Hla by done.
    eexists. split; [exact Hla|].
    rewrite nnext_set_nprev, nprev_set_nprev, npay_set_nprev.
    destruct ns as [|[b e] ns].
    + case_decide as Hl; [|done].
      by rewrite nnext_set_nnext, npay_set_nnext.
    + rewrite decide_False; [done|].
      intros Heq. apply Ha. rewrite Heq. by apply last_of_in.
  - apply (IH a a); [done| |done]. intros b Hb. rewrite (Hlk b) by set_solver.
    rewrite <- (relink_next_only _ _ _ _ _ _ Hns Hb).
    destruct (lk b); [|done]. unfold relink. rewrite last_of_cons. cbn. f_equal.
    rewrite (decide_False (P := b = a)) by (intros ->; done). by case_decide.
Qed.

Lemma relink_prev_only lk prev ns next prev' b :
  dseg lk prev ns next -> b ∈ ns.*1 ->
  (if decide (b = first_of ns next) then set_nprev prev' else id) <$> lk b
    = relink prev ns next prev' next b <$> lk b.
Proof.
  intros Hns Hb. unfold relink. destruct (lk b) as [nb|] eqn:Hlb; [|done].
  simpl. f_equal.
  destruct (decide (b = last_of prev ns)) as [Hlast|]; [|by case_decide].
  destruct ns as [|[c e] ns _] using rev_ind; [set_solver|].
  rewrite last_of_snoc in Hlast. subst c.
  apply dseg_at in Hns as (n' & Hn' & Hnx & _).
  assert (nb = n') as -> by congruence. simpl in Hnx.
  assert (set_nnext next n' = n') as -> by (by rewrite <- Hnx, set_nnext_id).
  by case_decide.
Qed.

(** A node linked in between two halves of a segment. *)
Lemma dseg_link lk lk' prev ns1 a d ns2 next :
  NoDup (ns1 ++ ns2).*1 ->
  (∃ n, lk' a = Some n ∧ nnext n = first_of ns2 next ∧
        nprev n = last_of prev ns1 ∧ npay n = d) ->
  (∀ b, b ∈ ns1.*1 ->
     lk' b = (if decide (b = last_of prev ns1) then set_nnext a else id) <$> lk b) ->
  (∀ b, b ∈ ns2.*1 ->
     lk' b = (if decide (b = first_of ns2 next) then set_nprev a else id) <$> lk b) ->
  dseg lk prev (ns1 ++ ns2) next -> dseg lk' prev (ns1 ++ (a, d) :: ns2) next.
Proof.
  rewrite fmap_app, NoDup_app. intros (Hnd1 & _ & Hnd2) Hn Hlk1 Hlk2.
  rewrite !dseg_app. simpl. intros [Hns1 Hns2]. split; [|split; [exact Hn|]].
  - eapply dseg_relink; [done| |exact Hns1]. intros b Hb. rewrite (Hlk1 b Hb).
    by apply relink_next_only.
  - eapply dseg_relink; [done| |exact Hns2]. intros b Hb. rewrite (Hlk2 b Hb).
    by apply relink_prev_only.
Qed.

(** A node unlinked from the middle. *)
Lemma dseg_unlink lk lk' prev ns1 a d ns2 next :
  NoDup (ns1 ++ (a, d) :: ns2).*1 ->
  (∀ b, b ∈ ns1.*1 ->
     lk' b = (if decide (b = last_of prev ns1)
              then set_nnext (first_of ns2 next) else id) <$> lk b) ->
  (∀ b, b ∈ ns2.*1 ->
     lk' b = (if decide (b = first_of ns2 next)
              then set_nprev (last_of prev ns1) else id) <$> lk b) ->
  dseg lk prev (ns1 ++ (a, d) :: ns2) next -> dseg lk' prev (ns1 ++ ns2) next.
Proof.
  rewrite fmap_app, NoDup_app, fmap_cons, NoDup_cons.
  intros (Hnd1 & Hdisj & Ha & Hnd2) Hlk1 Hlk2. rewrite !dseg_app. simpl.
  intros (Hns1 & _ & Hns2). split.
  - eapply dseg_relink; [done| |exact Hns1]. intros b Hb. rewrite (Hlk1 b Hb).
    apply relink_next_only; done.
  - eapply dseg_relink; [done| |exact Hns2]. intros b Hb. rewrite (Hlk2 b Hb).
    apply relink_prev_only; done.
Qed.

(** A segment starting at null is empty when all its nodes are non-null. *)
Lemma first_of_null ns : 0 ∉ ns.*1 -> first_of ns 0 = 0 -> ns = [].
Proof. destruct ns as [|[a d] ns]; [done|]. simpl. set_solver. Qed.

Lemma last_of_null ns : 0 ∉ ns.*1 -> last_of 0 ns = 0 -> ns = [].
Proof.
  intros H0 Hl. destruct (decide (ns = [])) as [|Hne]; [done|].
  pose proof (last_of_in 0 ns Hne). congruence.
Qed.

Lemma elem_of_mid ns1 a (d : D) ns2 : a ∈ (ns1 ++ (a, d) :: ns2).*1.
Proof. rewrite fmap_app. set_solver. Qed.

(** What surrounds a node of a duplicate-free segment. *)
Lemma nodup_mid ns1 a (d : D) ns2 :
  NoDup (ns1 ++ (a, d) :: ns2).*1 ->
  NoDup ns1.*1 ∧ NoDup ns2.*1 ∧ a ∉ ns1.*1 ∧ a ∉ ns2.*1 ∧
  (∀ b, b ∈ ns1.*1 -> b ∉ ns2.*1).
Proof.
  rewrite fmap_app, NoDup_app, fmap_cons, NoDup_cons.
  intros (? & Hd & ? & ?). repeat split; try done.
  - intros Hx. apply (Hd _ Hx). set_solver.
  - intros b Hb Hx. apply (Hd _ Hb). set_solver.
Qed.

(** Payloads and addresses determine the segment positions. *)
Lemma split_at_addr (a : Z) ns :
  a ∈ ns.*1 -> ∃ ns1 d ns2, ns = ns1 ++ (a, d) :: ns2.
Proof.
  intros (x & -> & Hx)%list_elem_of_fmap.
  apply list_elem_of_split in Hx as (l1 & l2 & ->). destruct x as [a d].
  by exists l1, d, l2.
Qed.
End dseg.

#[global] Arguments last_of : simpl never.
