(* ===== verification/KHeap.v ===== *)
(** * Kernel objects

    The C structures the generic components share (lists, trees), the store
    that holds them and the interface of the allocator they are built on.
    Pointers are addresses ([Z], null is 0), so aliasing is the aliasing of
    the code: two pointers with the same address see each other's writes. *)

From stdpp Require Import strings.
From S2P Require Import Prelude.

(** ** Structures (kernel/includes/lib/list.h, tree.h) *)

Record list_node := ListNode { ln_next : Z; ln_prev : Z; ln_value : Z }.
Record list_t := ListT { l_head : Z; l_tail : Z; l_length : Z }.
Record tree_node := TreeNode { tn_value : Z; tn_children : Z; tn_parent : Z }.
Record tree_t := TreeT { t_nodes : Z; t_root : Z }.

Definition set_next (z : Z) (n : list_node) := ListNode z (ln_prev n) (ln_value n).
Definition set_prev (z : Z) (n : list_node) := ListNode (ln_next n) z (ln_value n).
Definition set_value (z : Z) (n : list_node) := ListNode (ln_next n) (ln_prev n) z.
Definition set_head (z : Z) (l : list_t) := ListT z (l_tail l) (l_length l).
Definition set_tail (z : Z) (l : list_t) := ListT (l_head l) z (l_length l).
Definition set_length (z : Z) (l : list_t) := ListT (l_head l) (l_tail l) z.
Definition set_tvalue (z : Z) (n : tree_node) := TreeNode z (tn_children n) (tn_parent n).
Definition set_children (z : Z) (n : tree_node) := TreeNode (tn_value n) z (tn_parent n).
Definition set_parent (z : Z) (n : tree_node) := TreeNode (tn_value n) (tn_children n) z.
Definition set_nodes (z : Z) (t : tree_t) := TreeT z (t_root t).
Definition set_root (z : Z) (t : tree_t) := TreeT (t_nodes t) z.

(** [OData] is an object the generic components only pass around: a string,
    a device, a mount entry. *)
Inductive obj :=
  | ONode (n : list_node)
  | OList (l : list_t)
  | OTreeNode (n : tree_node)
  | OTree (t : tree_t)
  | OData (bytes : list Z).

(** Structures that live in the store. *)
Class IsObj (T : Type) := {
  to_obj : T -> obj;
  of_obj : obj -> option T;
  of_to_obj t : of_obj (to_obj t) = Some t
}.
#[global] Arguments to_obj : simpl never.
#[global] Arguments of_obj : simpl never.

#[export] Instance list_node_obj : IsObj list_node := {|
  to_obj := ONode; of_obj := λ o, match o with ONode n => Some n | _ => None end;
  of_to_obj := λ _, eq_refl |}.
#[export] Instance list_t_obj : IsObj list_t := {|
  to_obj := OList; of_obj := λ o, match o with OList l => Some l | _ => None end;
  of_to_obj := λ _, eq_refl |}.
#[export] Instance tree_node_obj : IsObj tree_node := {|
  to_obj := OTreeNode; of_obj := λ o, match o with OTreeNode n => Some n | _ => None end;
  of_to_obj := λ _, eq_refl |}.
#[export] Instance tree_t_obj : IsObj tree_t := {|
  to_obj := OTree; of_obj := λ o, match o with OTree t => Some t | _ => None end;
  of_to_obj := λ _, eq_refl |}.

(** ** The allocator interface

    What malloc.c promises to its clients. [am_live] maps the address of
    every allocated block to its size in bytes, which may exceed the size
    asked for. *)
Definition small_block : Z := 512.
(** A longer request overflows the size computations of malloc.c. *)
Definition max_request : Z := 2 ^ 32 - 20.

Class Allocator (AS : Type) := {
  am_malloc : Z -> M AS Z;
  am_free : Z -> M AS unit;
  am_ok : AS -> Prop;
  am_live : AS -> gmap Z Z;
  (** content of a word of a fresh block, which malloc does not clear *)
  am_junk : Z;
  (** the next [n] requests of at most [small_block] bytes will be granted *)
  am_room : nat -> AS -> Prop;
  (** the static data of the kernel ends here; allocated blocks lie above it *)
  am_base : Z;
  (** [malloc] returns null and allocates nothing, or a fresh block that
      overlaps no allocated block. *)
  am_malloc_null a sz a' :
    am_ok a -> 0 < sz <= max_request -> am_malloc sz a = Done 0 a' -> am_ok a' ∧ am_live a' = am_live a;
  am_malloc_fresh a sz p a' :
    am_ok a -> 0 <= sz <= max_request -> am_malloc sz a = Done p a' -> p ≠ 0 ->
    am_ok a' ∧ ∃ n, sz <= n ∧ am_live a !! p = None ∧ am_live a' = <[p := n]> (am_live a) ∧
      ∀ q k, am_live a !! q = Some k -> p + n <= q ∨ q + k <= p;
  am_free_live a p sz :
    am_ok a -> am_live a !! p = Some sz ->
    ∃ a', am_free p a = Done tt a' ∧ am_ok a' ∧ am_live a' = delete p (am_live a) ∧
      ∀ n, am_room n a -> am_room n a';
  am_base_pos : 0 <= am_base;
  am_range a p n : am_ok a -> am_live a !! p = Some n -> am_base < p ∧ 0 <= n ∧ p + n <= 2 ^ 32;
  am_disjoint a p n q k :
    am_ok a -> am_live a !! p = Some n -> am_live a !! q = Some k -> p ≠ q -> p + n <= q ∨ q + k <= p;
  am_room_S n a : am_room (S n) a -> am_room n a;
  am_room_top a p n : am_ok a -> am_room 1 a -> am_live a !! p = Some n -> p + n < 2 ^ 32;
  am_malloc_room a n sz :
    am_ok a -> am_room (S n) a -> 0 <= sz <= small_block ->
    ∃ p a', am_malloc sz a = Done p a' ∧ p ≠ 0 ∧ am_room n a'
}.

(** ** Kernel state *)

Inductive event :=
  | EKlog (mode : Z) (title : string)
  | EPrintf (fmt : string).

Record kstate (AS : Type) := KState {
  heap : gmap Z obj;
  astate : AS;
  console : list event
}.
Arguments KState {AS} _ _ _.
Arguments heap {AS} _.
Arguments astate {AS} _.
Arguments console {AS} _.

Section heap_ops.
Context {AS : Type} `{!Allocator AS}.
Implicit Types s : kstate AS.

Definition set_heap (h : gmap Z obj) s : kstate AS := KState h (astate s) (console s).
Definition kobj {T} `{!IsObj T} (h : gmap Z obj) (a : Z) : option T := h !! a ≫= of_obj.

Definition klog (mode : Z) (title : string) : M (kstate AS) unit :=
  modify (λ s, KState (heap s) (astate s) (console s ++ [EKlog mode title])).
Definition printf (fmt : string) : M (kstate AS) unit :=
  modify (λ s, KState (heap s) (astate s) (console s ++ [EPrintf fmt])).

(** [*p] *)
Definition load {T} `{!IsObj T} (a : Z) : M (kstate AS) T :=
  if a =? 0 then fail NullPointer
  else s ← get; of_option (WildPointer a) (kobj (heap s) a).

(** [p->field = e], as an update of the structure at [p] *)
Definition upd {T} `{!IsObj T} (a : Z) (f : T -> T) : M (kstate AS) unit :=
  x ← load a; modify (λ s, set_heap (<[a := to_obj (f x)]> (heap s)) s).

(** [malloc(sizeof(T))]; the fresh object holds whatever [o] says. *)
Definition kmalloc (sz : Z) (o : obj) : M (kstate AS) Z := λ s,
  match am_malloc sz (astate s) with
  | Done p a =>
      if p =? 0 then Done 0 (KState (heap s) a (console s))
      else Done p (KState (<[p := o]> (heap s)) a (console s))
  | Fault f => Fault f
  | Halted a => Halted (KState (heap s) a (console s))
  | Spin => Spin
  end.

(** [free(p)]: freeing null does nothing, freeing what is not an object
    (again) is an error. *)
Definition kfree (a : Z) : M (kstate AS) unit := λ s,
  if a =? 0 then Done tt s
  else match heap s !! a with
  | None => Fault (WildPointer a)
  | Some _ =>
      match am_free a (astate s) with
      | Done _ al => Done tt (KState (delete a (heap s)) al (console s))
      | Fault f => Fault f
      | Halted al => Halted (KState (heap s) al (console s))
      | Spin => Spin
      end
  end.

(** Every object of the store lies in an allocated block, and the store
    has no object at the null address. *)
Definition kst_ok s : Prop :=
  am_ok (astate s) ∧
  (∀ a, is_Some (heap s !! a) -> is_Some (am_live (astate s) !! a)) ∧
  heap s !! 0 = None.

Lemma load_done {T} `{!IsObj T} a (x : T) s :
  a ≠ 0 -> kobj (heap s) a = Some x -> load a s = Done x s.
Proof.
  intros Ha Hx. unfold load. destruct (Z.eqb_spec a 0) as [|_]; [done|].
  mrun. unfold of_option. by rewrite Hx.
Qed.

Lemma load_null {T} `{!IsObj T} s : load (T := T) 0 s = Fault NullPointer.
Proof. done. Qed.

Lemma upd_done {T} `{!IsObj T} a (f : T -> T) x s :
  a ≠ 0 -> kobj (heap s) a = Some x ->
  upd a f s = Done tt (set_heap (<[a := to_obj (f x)]> (heap s)) s).
Proof. intros Ha Hx. unfold upd. by mstep (load_done _ _ _ Ha Hx). Qed.

Lemma kmalloc_done sz o p a s :
  am_malloc sz (astate s) = Done p a -> p ≠ 0 ->
  kmalloc sz o s = Done p (KState (<[p := o]> (heap s)) a (console s)).
Proof.
  intros Hm Hp. unfold kmalloc. rewrite Hm. by destruct (Z.eqb_spec p 0).
Qed.

(** A successful allocation in a well-formed state. *)
Lemma kmalloc_ok sz o p a s :
  kst_ok s -> 0 <= sz <= max_request -> am_malloc sz (astate s) = Done p a -> p ≠ 0 ->
  heap s !! p = None ∧ kst_ok (KState (<[p := o]> (heap s)) a (console s)).
Proof.
  intros (Hok & Hlive & H0) Hsz Hm Hp.
  destruct (am_malloc_fresh _ _ _ _ Hok Hsz Hm Hp) as (Hok' & n & _ & Hfresh & Heq & _).
  assert (heap s !! p = None) as Hnone.
  { apply eq_None_not_Some. intros Hs%Hlive. rewrite Hfresh in Hs. by destruct Hs. }
  split; [done|]. split; [done|]. simpl. split.
  - intros b. rewrite Heq. rewrite !lookup_insert. case_decide; [done|apply Hlive].
  - rewrite lookup_insert_ne; done.
Qed.

(** Updates keep the state well-formed. *)
Lemma kst_ok_set a o s :
  kst_ok s -> is_Some (heap s !! a) -> kst_ok (set_heap (<[a := o]> (heap s)) s).
Proof.
  intros (Hok & Hlive & H0) Ha. split; [done|]. simpl. split.
  - intros b. rewrite lookup_insert. case_decide as Hab; [subst; intros; by apply Hlive|apply Hlive].
  - rewrite lookup_insert_ne; [done|]. intros ->. rewrite H0 in Ha. by destruct Ha.
Qed.

Lemma kfree_ok a s :
  kst_ok s -> is_Some (heap s !! a) ->
  ∃ s', kfree a s = Done tt s' ∧ kst_ok s' ∧ heap s' = delete a (heap s) ∧
        console s' = console s ∧
        ∀ n, am_room n (astate s) -> am_room n (astate s').
Proof.
  intros (Hok & Hlive & H0) Ha. pose proof (Hlive _ Ha) as [sz Hsz].
  destruct (am_free_live _ _ _ Hok Hsz) as (al & Hf & Hok' & Heq & Hroom).
  unfold kfree. destruct (Z.eqb_spec a 0) as [->|Hne].
  { rewrite H0 in Ha. by destruct Ha. }
  destruct Ha as [o Ho]. rewrite Ho, Hf. eexists; split; [done|].
  repeat split; simpl; try done.
  - intros b. rewrite Heq, !lookup_delete. case_decide; [by intros []|apply Hlive].
  - by rewrite lookup_delete_ne.
Qed.

Lemma kobj_insert_eq {T} `{!IsObj T} h a (x : T) : kobj (<[a := to_obj x]> h) a = Some x.
Proof. unfold kobj. rewrite lookup_insert_eq. apply of_to_obj. Qed.

Lemma kobj_insert_ne {T} `{!IsObj T} h a b o :
  a ≠ b -> kobj (T := T) (<[a := o]> h) b = kobj h b.
Proof. intros. unfold kobj. by rewrite lookup_insert_ne. Qed.

Lemma kobj_Some {T} `{!IsObj T} h a (x : T) : kobj h a = Some x -> is_Some (h !! a).
Proof. unfold kobj. destruct (h !! a); naive_solver. Qed.

(** [hframe fp h h']: going from [h] to [h'] rewrote objects at addresses
    of [fp] only, and neither created nor removed one. *)
Record hframe (fp : list Z) (h h' : gmap Z obj) : Prop := {
  hframe_out a : a ∉ fp -> h' !! a = h !! a;
  hframe_dom a : is_Some (h' !! a) ↔ is_Some (h !! a)
}.

Lemma hframe_refl fp h : hframe fp h h.
Proof. by split. Qed.

Lemma hframe_trans fp h1 h2 h3 : hframe fp h1 h2 -> hframe fp h2 h3 -> hframe fp h1 h3.
Proof.
  intros [F1 D1] [F2 D2]. split.
  - intros a Ha. by rewrite F2, F1.
  - intros a. by rewrite D2, D1.
Qed.

Lemma hframe_set fp h h1 a o :
  is_Some (h !! a) -> a ∈ fp -> hframe fp h h1 -> hframe fp h (<[a := o]> h1).
Proof.
  intros Hx Ha [F D]. split; simpl.
  - intros b Hb. rewrite lookup_insert_ne; [by apply F|]. by intros ->.
  - intros b. rewrite lookup_insert. case_decide as Hab; [|apply D].
    subst. split; [done|]. by intros _; eexists.
Qed.

Lemma hframe_mono fp fp' h h' :
  (∀ a, a ∈ fp -> a ∈ fp') -> hframe fp h h' -> hframe fp' h h'.
Proof. intros Hsub [F D]. split; [|done]. intros a Ha. apply F. set_solver. Qed.

Lemma hframe_kst_ok fp s h' : hframe fp (heap s) h' -> kst_ok s -> kst_ok (set_heap h' s).
Proof.
  intros [F D] (Hok & Hlive & H0). split; [done|]. split; simpl.
  - intros a Ha. apply Hlive. by apply D.
  - apply eq_None_not_Some. rewrite D, H0. by intros [].
Qed.

(** Structures of different types have different addresses. *)
Lemma kobj_ne {T U} `{!IsObj T, !IsObj U} h a b (x : T) (y : U) :
  kobj h a = Some x -> kobj h b = Some y ->
  (∀ o, of_obj (T := T) o = Some x -> of_obj (T := U) o = Some y -> False) -> a ≠ b.
Proof.
  unfold kobj. intros Hx Hy Hno ->. destruct (h !! b); simpl in *; [|done]. by eapply Hno.
Qed.
End heap_ops.

(** Object lookups in a store written to a known number of times. *)
Ltac kobj_solve :=
  cbn [heap];
  repeat (first [ rewrite kobj_insert_eq
                | rewrite kobj_insert_ne by congruence ]);
  first [ eassumption | reflexivity | done | idtac ].

(** Run the [load] or [upd] at the head of the goal. *)
Ltac kstep :=
  rewrite ?bind_assoc, ?bind_ret;
  lazymatch goal with
  | |- context [mbind _ ?m _] =>
      lazymatch m with
      | load _ => erewrite (bind_Done m); [|eapply load_done; [congruence|kobj_solve]]
      | upd _ _ => erewrite (bind_Done m); [|eapply upd_done; [congruence|kobj_solve]]
      end
  | |- context [upd ?a ?f ?s] =>
      erewrite (upd_done a f _ s); [|congruence|kobj_solve]
  end; unfold set_heap; cbn [heap astate console].

(** Membership in a footprint written as conses and appends. *)
Ltac mem_solve :=
  repeat first [ rewrite fmap_app | rewrite fmap_cons | rewrite elem_of_cons
               | rewrite elem_of_app ]; cbn [fst]; tauto.

(** Discharge [hframe] for a store written to a known number of times. *)
Ltac hframe_solve :=
  repeat (apply hframe_set;
    [match goal with H : kobj _ ?a = Some _ |- is_Some (_ !! ?a) => exact (kobj_Some _ _ _ H) end
    |mem_solve|]); apply hframe_refl.

#[export] Hint Rewrite @kobj_insert_eq : kernel.

(** ** A concrete allocator for examples

    Hands out increasing addresses and never reuses one; it is not kernel
    code, it instantiates the interface where a closed example needs one. *)
Module Bump.
Record bump := BumpState { brk : Z; live : gmap Z Z }.

Definition malloc (sz : Z) : M bump Z := λ s,
  if brk s + Z.max 1 sz <=? 2 ^ 32
  then Done (brk s) (BumpState (brk s + Z.max 1 sz) (<[brk s := sz]> (live s)))
  else Done 0 s.
Definition free (p : Z) : M bump unit := λ s,
  Done tt (BumpState (brk s) (delete p (live s))).
Definition base : Z := 0xFFF.
Definition apart (l : gmap Z Z) : Prop :=
  ∀ p n q k, l !! p = Some n -> l !! q = Some k -> p ≠ q -> p + n <= q ∨ q + k <= p.
Definition ok (s : bump) : Prop :=
  base < brk s <= 2 ^ 32 ∧
  (∀ q n, live s !! q = Some n -> base < q < brk s ∧ 0 <= n ∧ q + n <= brk s) ∧ apart (live s).

Lemma apart_insert l b sz :
  (∀ q n, l !! q = Some n -> q + n <= b) -> apart l -> apart (<[b := sz]> l).
Proof.
  intros Hb Hl p n q k. rewrite !lookup_insert. repeat case_decide; subst; try done.
  - intros [= <-] Hq _. apply Hb in Hq. lia.
  - intros Hp [= <-] _. apply Hb in Hp. lia.
  - by apply Hl.
Qed.

#[export] Program Instance allocator : Allocator bump := {
  am_malloc := malloc; am_free := free; am_ok := ok; am_live := live; am_junk := 0xCC;
  am_room := λ n s, brk s + small_block * Z.of_nat n <= 2 ^ 32; am_base := base
}.
Next Obligation.
  intros [b l] sz s' Hok _. pose proof Hok as [Hb _]. unfold malloc. cbn in *. unfold base in Hb.
  case_match; intros [=]; [lia|by subst].
Qed.
Next Obligation.
  intros [b l] sz p s' (Hb & Hl & Hap) Hsz. unfold malloc. cbn in *.
  destruct (Z.leb_spec (b + Z.max 1 sz) (2 ^ 32)) as [Hle|]; [|by intros [=]].
  intros [= <- <-] _. cbn.
  assert (l !! b = None) as Hnone.
  { apply eq_None_not_Some. intros [n Hn]. apply Hl in Hn. lia. }
  split.
  - split; [cbn; lia|]. split; [|apply apart_insert; [intros q n Hn%Hl; lia|done]].
    intros q n. cbn. rewrite lookup_insert. case_decide; [|intros Hn%Hl; lia].
    intros [= <-]. unfold base in *. lia.
  - exists sz. split; [done|]. split; [done|]. split; [done|]. intros q n Hn%Hl. lia.
Qed.
Next Obligation.
  intros [b l] p sz (Hb & Hl & Hap) Hp. eexists. split; [done|]. split; [|done].
  split; [done|]. split.
  - intros q n. cbn. rewrite lookup_delete. case_decide; [done|apply Hl].
  - intros q n r k. cbn. rewrite !lookup_delete. repeat case_decide; try done. apply Hap.
Qed.
Next Obligation. done. Qed.
Next Obligation. intros [b l] p n (Hb & Hl & _) Hp%Hl. cbn in *. lia. Qed.
Next Obligation. intros [b l] p n q k (_ & _ & Hap). apply Hap. Qed.
Next Obligation. intros n [b l]. unfold small_block. cbn. lia. Qed.
Next Obligation. intros [b l] p n (Hb & Hl & _) Hroom Hp%Hl. unfold small_block in *. cbn in *. lia. Qed.
Next Obligation.
  intros [b l] n sz (Hb & _ & _) Hroom Hsz. unfold small_block, base in *. cbn in *.
  unfold malloc. cbn. rewrite (proj2 (Z.leb_le _ _)) by lia. eexists _, _. split; [done|]. cbn. lia.
Qed.

Definition start : kstate bump := KState ∅ (BumpState 0x1000 ∅) [].
Lemma start_ok : kst_ok start.
Proof.
  split; [|split].
  - split; [unfold base; cbn; lia|]. by split; intros p n ?.
  - intros a [o Ho]. done.
  - done.
Qed.
End Bump.
