(* ===== verification/KList.v ===== *)
(** * Linked lists (kernel/lib/list.c)

    The operations of list.c on the kernel store, what they do to the
    sequence of (node, value) pairs a list holds, and the refinement of
    whole programs of list operations to operations on sequences. *)

From S2P Require Import Prelude Dll KHeap.

#[export] Instance list_node_linked : Linked list_node Z := {|
  nnext := ln_next; nprev := ln_prev; npay := ln_value;
  set_nnext := set_next; set_nprev := set_prev;
  nnext_set_nnext _ _ := eq_refl; nprev_set_nnext _ _ := eq_refl;
  npay_set_nnext _ _ := eq_refl; nnext_set_nprev _ _ := eq_refl;
  nprev_set_nprev _ _ := eq_refl; npay_set_nprev _ _ := eq_refl;
  set_nnext_id n := ltac:(by destruct n); set_nprev_id n := ltac:(by destruct n)
|}.

Section list_ops.
Context {AS : Type} `{!Allocator AS}.
Local Abbreviation K := (M (kstate AS)).

(** Enough iterations to walk any acyclic chain of the store. *)
Definition walk_fuel : K nat := gets (λ s, S (size (heap s))).

Definition list_append (list node : Z) : K unit :=
  upd node (set_next 0);;
  l ← load list;
  (if l_tail l =? 0 then
     upd list (set_head node);; upd node (set_prev 0)
   else
     upd (l_tail l) (set_next node);; upd node (set_prev (l_tail l)));;
  upd list (set_tail node);;
  upd list (λ l, set_length (u32 (l_length l + 1)) l).

(** [malloc(sizeof(list_node_t))] and the three field writes that
    [list_insert] and [list_insert_after] share. *)
Definition new_node (item : Z) : K Z :=
  node ← kmalloc 12 (ONode (ListNode am_junk am_junk am_junk));
  upd node (set_value item);;
  upd node (set_next 0);;
  upd node (set_prev 0);;
  mret node.

Definition list_insert (list item : Z) : K Z :=
  node ← new_node item;
  list_append list node;;
  mret node.

Definition list_append_after (list before node : Z) : K unit :=
  l ← load list;
  if l_tail l =? 0 then list_append list node
  else if before =? 0 then
    upd node (set_next (l_head l));;
    upd (l_head l) (set_prev node);;
    upd list (set_head node);;
    upd list (λ l, set_length (u32 (l_length l + 1)) l)
  else
    (if before =? l_tail l then upd list (set_tail node)
     else
       b ← load before;
       upd (ln_next b) (set_prev node);;
       upd node (set_next (ln_next b)));;
    upd node (set_prev before);;
    upd before (set_next node);;
    upd list (λ l, set_length (u32 (l_length l + 1)) l).

Definition list_insert_after (list before item : Z) : K Z :=
  node ← new_node item;
  list_append_after list before node;;
  mret node.

Definition list_create : K Z :=
  out ← kmalloc 12 (OList (ListT am_junk am_junk am_junk));
  upd out (set_head 0);;
  upd out (set_tail 0);;
  upd out (set_length 0);;
  mret out.

(** The [foreach] macro: walk the nodes from [item] until [f] stops. *)
Fixpoint foreach {A B} (n : nat) (f : A -> Z -> list_node -> K (A + B)) (a : A)
    (item : Z) : K (A + B) :=
  match n with
  | O => spin
  | S n' =>
      if item =? 0 then mret (inl a)
      else
        i ← load item;
        r ← f a item i;
        match r with
        | inr b => mret (inr b)
        | inl a' => i' ← load item; foreach n' f a' (ln_next i')
        end
  end.

Definition list_find (list value : Z) : K Z :=
  l ← load list;
  n ← walk_fuel;
  r ← foreach n (λ _ item i, mret (if ln_value i =? value then inr item else inl tt))
        tt (l_head l);
  mret (match r with inr item => item | inl _ => 0 end).

Definition list_index_of (list value : Z) : K Z :=
  l ← load list;
  n ← walk_fuel;
  r ← foreach n (λ i _ item, mret (if ln_value item =? value then inr i else inl (s32 (i + 1))))
        0 (l_head l);
  mret (match r with inr i => i | inl _ => -1 end).

Definition list_delete (list node : Z) : K unit :=
  l ← load list;
  (if node =? l_head l then nd ← load node; upd list (set_head (ln_next nd))
   else mret tt);;
  l ← load list;
  (if node =? l_tail l then nd ← load node; upd list (set_tail (ln_prev nd))
   else mret tt);;
  nd ← load node;
  (if ln_prev nd =? 0 then mret tt else upd (ln_prev nd) (set_next (ln_next nd)));;
  nd ← load node;
  (if ln_next nd =? 0 then mret tt else upd (ln_next nd) (set_prev (ln_prev nd)));;
  upd node (set_prev 0);;
  upd node (set_next 0);;
  upd list (λ l, set_length (u32 (l_length l - 1)) l).

(** [n = n->next], [k] times *)
Fixpoint advance (k : nat) (n : Z) : K Z :=
  match k with
  | O => mret n
  | S k' => nd ← load n; advance k' (ln_next nd)
  end.

Definition list_remove (list index : Z) : K unit :=
  l ← load list;
  if l_length l <? index then mret tt
  else
    n ← advance (Z.to_nat index) (l_head l);
    list_delete list n.

Definition list_pop (list : Z) : K Z :=
  l ← load list;
  if l_tail l =? 0 then mret 0
  else
    list_delete list (l_tail l);;
    mret (l_tail l).

Definition list_dequeue (list : Z) : K Z :=
  l ← load list;
  if l_head l =? 0 then mret 0
  else
    list_delete list (l_head l);;
    mret (l_head l).

(** The contents of the list, not its nodes. *)
Definition list_destroy (list : Z) : K unit :=
  l ← load list;
  n ← walk_fuel;
  _ ← foreach (B := False) n (λ _ _ i, kfree (ln_value i);; mret (inl tt)) tt (l_head l);
  mret tt.

Fixpoint list_free_loop (n : nat) (node : Z) : K unit :=
  match n with
  | O => spin
  | S n' =>
      if node =? 0 then mret tt
      else nd ← load node; kfree node;; list_free_loop n' (ln_next nd)
  end.

Definition list_free (list : Z) : K unit :=
  l ← load list;
  n ← walk_fuel;
  list_free_loop n (l_head l).

(** list_copy never advances [node]: the loop runs until the fuel is spent
    unless the list is empty. *)
Fixpoint list_copy_loop (fuel : nat) (out node : Z) : K unit :=
  match fuel with
  | O => spin
  | S fuel' =>
      if node =? 0 then mret tt
      else
        nd ← load node;
        _ ← list_insert out (ln_value nd);
        list_copy_loop fuel' out node
  end.

Definition list_copy (fuel : nat) (original : Z) : K Z :=
  out ← list_create;
  l ← load original;
  list_copy_loop fuel out (l_head l);;
  mret out.

Definition list_merge (target source : Z) : K unit :=
  t ← load target;
  s ← load source;
  (if l_tail t =? 0 then upd target (set_head (l_head s))
   else upd (l_tail t) (set_next (l_head s)));;
  (if l_tail s =? 0 then mret tt else upd target (set_tail (l_tail s)));;
  upd target (λ t, set_length (u32 (l_length t + l_length s)) t);;
  kfree source.
End list_ops.

(** ** Representation *)

(** The list object at [l] holds the nodes [ns], as (address, value). *)
Record list_rep (h : gmap Z obj) (l : Z) (ns : list (Z * Z)) : Prop := {
  rep_nonnull : l ≠ 0;
  rep_obj : kobj h l = Some (ListT (first_of ns 0) (last_of 0 ns) (u32 (Z.of_nat (length ns))));
  rep_dseg : dseg (N := list_node) (kobj h) 0 ns 0;
  rep_nodup : NoDup ns.*1;
  rep_nodes : 0 ∉ ns.*1
}.

(** Run the branches of [list_delete] whose conditions are known. *)
Ltac run_delete :=
  repeat (first
    [ progress cbn [l_head l_tail l_length first_of ln_prev ln_next set_prev set_next
                    set_head set_tail set_length]
    | rewrite last_of_nil
    | rewrite Z.eqb_refl
    | rewrite (proj2 (Z.eqb_neq _ _)) by congruence
    | kstep ]).

Section list_rep_facts.
Context {AS : Type} `{!Allocator AS}.
Implicit Types (s : kstate AS) (h : gmap Z obj) (ns : list (Z * Z)).

Lemma list_node_ne h l n (lt : list_t) (nd : list_node) :
  kobj h l = Some lt -> kobj h n = Some nd -> l ≠ n.
Proof. intros Hl Hn. apply (kobj_ne h l n lt nd Hl Hn). by intros []. Qed.

Lemma list_rep_node h l ns a :
  list_rep h l ns -> a ∈ ns.*1 -> ∃ nd : list_node, kobj h a = Some nd ∧ a ≠ 0 ∧ l ≠ a.
Proof.
  intros [? Hl Hseg _ Hnz] Ha. destruct (dseg_lookup _ _ _ _ _ Hseg Ha) as [nd Hnd].
  exists nd. split; [done|]. split; [set_solver|]. by eapply list_node_ne.
Qed.

Lemma list_rep_at h l ns1 a v ns2 :
  list_rep h l (ns1 ++ (a, v) :: ns2) ->
  kobj h a = Some (ListNode (first_of ns2 0) (last_of 0 ns1) v).
Proof.
  intros [_ _ Hseg _ _]. apply dseg_at in Hseg as ([nx pv vl] & -> & Hx & Hp & Hv).
  simpl in *. by subst.
Qed.

Lemma list_rep_frame h h' l ns :
  h' !! l = h !! l -> (∀ a, a ∈ ns.*1 -> h' !! a = h !! a) ->
  list_rep h l ns -> list_rep h' l ns.
Proof.
  intros Hl Hns [? Hobj Hseg ? ?]. split; try done.
  - unfold kobj in *. by rewrite Hl.
  - eapply dseg_frame; [|done]. intros a Ha. unfold kobj. by rewrite Hns.
Qed.

(** A fresh node is not a node of the list. *)
Lemma list_rep_fresh h l ns a : list_rep h l ns -> h !! a = None -> a ≠ l ∧ a ∉ ns.*1.
Proof.
  intros Hrep Ha. split.
  - intros ->. pose proof (rep_obj _ _ _ Hrep) as Hl. unfold kobj in Hl. by rewrite Ha in Hl.
  - intros Hin. destruct (list_rep_node _ _ _ _ Hrep Hin) as (nd & Hnd & _).
    unfold kobj in Hnd. by rewrite Ha in Hnd.
Qed.

(** [list_append] puts a detached node behind the last one. *)
Lemma list_append_spec s l ns node nd :
  list_rep (heap s) l ns -> kobj (heap s) node = Some nd -> node ≠ 0 -> node ∉ ns.*1 ->
  ∃ h', list_append l node s = Done tt (set_heap h' s) ∧
    list_rep h' l (ns ++ [(node, ln_value nd)]) ∧ hframe (l :: node :: ns.*1) (heap s) h'.
Proof.
  intros Hrep Hnode Hn0 Hnotin. pose proof Hrep as [Hl0 Hl Hseg Hnd Hnz].
  pose proof (list_node_ne _ _ _ _ _ Hl Hnode) as Hne.
  unfold list_append. kstep. kstep. cbn [l_tail].
  destruct (Z.eqb_spec (last_of 0 ns) 0) as [Hlast|Hlast].
  - apply last_of_null in Hlast; [|done]. subst ns.
    kstep. kstep. kstep. kstep. eexists. split; [done|]. split; [|hframe_solve].
    split; try done.
    + kobj_solve.
    + split; [|done]. eexists. split; [kobj_solve|]. done.
    + apply NoDup_singleton.
    + set_solver.
  - assert (ns ≠ []) as Hne'. { by intros ->. }
    pose proof (last_of_in 0 ns Hne') as Hin.
    destruct (list_rep_node _ _ _ _ Hrep Hin) as (ndl & Hndl & _ & Hlne).
    assert (node ≠ last_of 0 ns) by (intros ->; done).
    kstep. kstep. kstep. kstep. eexists. split; [done|]. split; [|hframe_solve].
    split; try done.
    + kobj_solve. rewrite first_of_app, last_of_snoc, length_app.
      unfold set_length, set_tail. cbn [l_head l_tail l_length length].
      rewrite u32_add_l. do 2 f_equal; [by destruct ns as [|[]]|f_equal; lia].
    + rewrite <- (app_nil_r ns) in Hseg. eapply dseg_link; [| | | |exact Hseg].
      * by rewrite app_nil_r.
      * eexists. split; [kobj_solve|]. done.
      * intros b Hb. destruct (list_rep_node _ _ _ _ Hrep Hb) as (ndb & Hndb & ? & ?).
        case_decide; subst; kobj_solve; [by rewrite Hndl|by rewrite Hndb].
      * intros b Hb. set_solver.
    + rewrite fmap_app, NoDup_app. split; [done|]. split; [set_solver|apply NoDup_singleton].
    + rewrite fmap_app. set_solver.
Qed.

Lemma new_node_spec s item p a :
  am_malloc 12 (astate s) = Done p a -> p ≠ 0 ->
  new_node item s
    = Done p (KState (<[p := to_obj (ListNode 0 0 item)]> (heap s)) a (console s)).
Proof.
  intros Hm Hp. unfold new_node. rewrite (bind_Done _ _ _ _ _ (kmalloc_done _ _ _ _ _ Hm Hp)).
  change (ONode ?n) with (to_obj n). kstep. kstep. kstep.
  unfold set_prev, set_next, set_value. cbn. by rewrite !insert_insert_eq.
Qed.

(** What [list_insert] and [list_insert_after] have in common: a fresh node
    handed to a linking operation [f]. *)
Lemma insert_with (f : Z -> M (kstate AS) unit) s l ns ns' item p a :
  kst_ok s -> list_rep (heap s) l ns -> am_malloc 12 (astate s) = Done p a -> p ≠ 0 ->
  (∀ s1, list_rep (heap s1) l ns -> kobj (heap s1) p = Some (ListNode 0 0 item) ->
     p ∉ ns.*1 ->
     ∃ h', f p s1 = Done tt (set_heap h' s1) ∧ list_rep h' l ns' ∧
       hframe (l :: p :: ns.*1) (heap s1) h') ->
  ∃ h', (node ← new_node item; f node;; mret node) s = Done p (KState h' a (console s)) ∧
    list_rep h' l ns' ∧ kst_ok (KState h' a (console s)) ∧ heap s !! p = None ∧
    ∀ b, b ∉ l :: p :: ns.*1 -> h' !! b = heap s !! b.
Proof.
  intros Hok Hrep Hm Hp Hf.
  destruct (kmalloc_ok 12 (to_obj (ListNode 0 0 item)) _ _ _ Hok ltac:(by vm_compute) Hm Hp)
    as [Hfresh Hok'].
  destruct (list_rep_fresh _ _ _ _ Hrep Hfresh) as [Hpl Hpns].
  set (s1 := KState (<[p := to_obj (ListNode 0 0 item)]> (heap s)) a (console s)) in *.
  destruct (Hf s1) as (h' & Hrun & Hrep' & Hfr); [|unfold s1; cbn; kobj_solve|done|].
  { eapply list_rep_frame; [| |exact Hrep]; cbn.
    - by rewrite lookup_insert_ne.
    - intros b Hb. rewrite lookup_insert_ne; [done|]. by intros ->. }
  exists h'. split.
  { rewrite (bind_Done _ _ _ _ _ (new_node_spec _ item _ _ Hm Hp)).
    by rewrite (bind_Done _ _ _ _ _ Hrun). }
  split; [done|]. split; [by apply (hframe_kst_ok _ s1 h' Hfr)|].
  split; [done|]. intros b Hb. rewrite (hframe_out _ _ _ Hfr) by done.
  cbn. rewrite lookup_insert_ne; [done|]. set_solver.
Qed.

Lemma list_insert_spec s l ns item p a :
  kst_ok s -> list_rep (heap s) l ns -> am_malloc 12 (astate s) = Done p a -> p ≠ 0 ->
  ∃ h', list_insert l item s = Done p (KState h' a (console s)) ∧
    list_rep h' l (ns ++ [(p, item)]) ∧ kst_ok (KState h' a (console s)) ∧
    heap s !! p = None ∧
    ∀ b, b ∉ l :: p :: ns.*1 -> h' !! b = heap s !! b.
Proof.
  intros Hok Hrep Hm Hp. apply (insert_with (list_append l) s l ns); try done.
  intros s1 Hrep1 Hnode Hnotin. by apply (list_append_spec _ _ _ _ _ Hrep1 Hnode).
Qed.

(** The neighbours of a node of the list. *)
Lemma list_rep_pred h l ns1 a v ns2 :
  list_rep h l (ns1 ++ (a, v) :: ns2) -> ns1 ≠ [] ->
  ∃ np : list_node, kobj h (last_of 0 ns1) = Some np ∧ last_of 0 ns1 ≠ 0 ∧
    l ≠ last_of 0 ns1 ∧ a ≠ last_of 0 ns1 ∧ (last_of 0 ns1 ∉ ns2.*1) ∧ last_of 0 ns1 ∈ ns1.*1.
Proof.
  intros Hrep Hne. pose proof (last_of_in 0 ns1 Hne) as Hin.
  destruct (nodup_mid _ _ _ _ (rep_nodup _ _ _ Hrep)) as (_ & _ & Ha1 & _ & Hdisj).
  destruct (list_rep_node _ _ _ (last_of 0 ns1) Hrep) as (np & ? & ? & ?);
    [rewrite fmap_app; set_solver|].
  exists np. repeat split; try done; [by intros ->|by apply Hdisj].
Qed.

Lemma list_rep_succ h l ns1 a v ns2 :
  list_rep h l (ns1 ++ (a, v) :: ns2) -> ns2 ≠ [] ->
  ∃ nn : list_node, kobj h (first_of ns2 0) = Some nn ∧ first_of ns2 0 ≠ 0 ∧
    l ≠ first_of ns2 0 ∧ a ≠ first_of ns2 0 ∧ (first_of ns2 0 ∉ ns1.*1) ∧
    first_of ns2 0 ∈ ns2.*1.
Proof.
  intros Hrep Hne. pose proof (first_of_in ns2 0 Hne) as Hin.
  destruct (nodup_mid _ _ _ _ (rep_nodup _ _ _ Hrep)) as (_ & _ & _ & Ha2 & Hdisj).
  destruct (list_rep_node _ _ _ (first_of ns2 0) Hrep) as (nn & ? & ? & ?);
    [rewrite fmap_app; set_solver|].
  exists nn. repeat split; try done; [by intros ->|].
  intros Hx. by apply (Hdisj _ Hx).
Qed.

Lemma list_rep_mid h l ns1 a v ns2 :
  list_rep h l (ns1 ++ (a, v) :: ns2) ->
  (∀ b, b ∈ ns1.*1 -> b ≠ first_of ns2 0) ∧ (∀ b, b ∈ ns2.*1 -> b ≠ last_of 0 ns1) ∧
  ∀ b, b ∈ ns1.*1 ∨ b ∈ ns2.*1 ->
    a ≠ b ∧ l ≠ b ∧ ∃ nb : list_node, kobj h b = Some nb.
Proof.
  intros Hrep. pose proof (rep_nodes _ _ _ Hrep) as Hnz.
  destruct (nodup_mid _ _ _ _ (rep_nodup _ _ _ Hrep)) as (_ & _ & Ha1 & Ha2 & Hdisj).
  rewrite fmap_app, fmap_cons in Hnz. split; [|split].
  - intros b Hb ->. destruct (decide (ns2 = [])) as [->|Hne]; [set_solver|].
    exact (Hdisj _ Hb (first_of_in _ _ Hne)).
  - intros b Hb ->. destruct (decide (ns1 = [])) as [->|Hne].
    + rewrite last_of_nil in Hb. set_solver.
    + exact (Hdisj _ (last_of_in _ _ Hne) Hb).
  - intros b Hb. destruct (list_rep_node _ _ _ b Hrep) as (nb & ? & ? & ?).
    + rewrite fmap_app. set_solver.
    + split; [|eauto]. intros ->. tauto.
Qed.

Lemma list_rep_unlinked h h' l ns1 a v ns2 :
  list_rep h l (ns1 ++ (a, v) :: ns2) ->
  kobj h' l = Some (ListT (first_of ns1 (first_of ns2 0)) (last_of (last_of 0 ns1) ns2)
                      (u32 (Z.of_nat (length (ns1 ++ ns2))))) ->
  (∀ b, b ∈ ns1.*1 -> kobj h' b = (if decide (b = last_of 0 ns1)
     then set_next (first_of ns2 0) else id) <$> kobj h b) ->
  (∀ b, b ∈ ns2.*1 -> kobj h' b = (if decide (b = first_of ns2 0)
     then set_prev (last_of 0 ns1) else id) <$> kobj h b) ->
  list_rep h' l (ns1 ++ ns2).
Proof.
  intros [Hl0 Hl Hseg Hnd Hnz] Hl' H1 H2. split; [done| | | |].
  - by rewrite first_of_app, last_of_app.
  - by eapply dseg_unlink.
  - destruct (nodup_mid _ _ _ _ Hnd) as (? & ? & _ & _ & ?). by rewrite fmap_app, NoDup_app.
  - rewrite fmap_app in *. set_solver.
Qed.

(** The final states of [list_delete]'s branches. *)
Ltac delete_post Hrep Hlen :=
  destruct (list_rep_mid _ _ _ _ _ _ Hrep) as (Hsucc & Hpred & Hkeep);
  eexists; split; [done|]; split; [|split; [by kobj_solve|hframe_solve]];
  apply (list_rep_unlinked _ _ _ _ _ _ _ Hrep);
  [ kobj_solve; unfold set_length, set_head, set_tail; cbn [l_head l_tail];
    rewrite Hlen; do 2 f_equal;
    first [done | by apply last_of_default | by apply first_of_default]
  | intros b Hb; destruct (Hkeep b ltac:(tauto)) as (? & ? & nb & Hnb);
    pose proof (Hsucc _ Hb);
    case_decide; subst; kobj_solve; rewrite ?Hnb; solve [done|set_solver]
  | intros b Hb; destruct (Hkeep b ltac:(tauto)) as (? & ? & nb & Hnb);
    pose proof (Hpred _ Hb);
    case_decide; subst; kobj_solve; rewrite ?Hnb; solve [done|set_solver] ].

(** [list_delete] unlinks a node, which keeps its value. *)
Lemma list_delete_spec s l ns1 a v ns2 :
  list_rep (heap s) l (ns1 ++ (a, v) :: ns2) ->
  ∃ h', list_delete l a s = Done tt (set_heap h' s) ∧
    list_rep h' l (ns1 ++ ns2) ∧ kobj h' a = Some (ListNode 0 0 v) ∧
    hframe (l :: (ns1 ++ (a, v) :: ns2).*1) (heap s) h'.
Proof.
  intros Hrep. pose proof Hrep as [Hl0 Hl _ Hnd Hnz].
  pose proof (list_rep_at _ _ _ _ _ _ Hrep) as Ha.
  destruct (list_rep_node _ _ _ a Hrep) as (_ & _ & Ha0 & Hla); [apply elem_of_mid|].
  destruct (nodup_mid _ _ _ _ Hnd) as (_ & _ & Ha1 & Ha2 & Hdisj).
  rewrite first_of_app, last_of_app, last_of_cons in Hl. cbn [first_of] in Hl.
  assert (Hlen : u32 (u32 (Z.of_nat (length (ns1 ++ (a, v) :: ns2))) - 1)
                 = u32 (Z.of_nat (length (ns1 ++ ns2)))).
  { rewrite u32_sub_l, !length_app. f_equal. cbn. lia. }
  unfold list_delete.
  destruct (decide (ns1 = [])) as [->|Hne1]; destruct (decide (ns2 = [])) as [->|Hne2].
  - run_delete. delete_post Hrep Hlen.
  - destruct (list_rep_succ _ _ _ _ _ _ Hrep Hne2) as (nn & Hnn & ? & ? & ? & ? & ?).
    assert (a ≠ last_of a ns2). { pose proof (last_of_in a ns2 Hne2). congruence. }
    run_delete. delete_post Hrep Hlen.
  - destruct (list_rep_pred _ _ _ _ _ _ Hrep Hne1) as (np & Hnp & ? & ? & ? & ? & ?).
    assert (a ≠ first_of ns1 a). { pose proof (first_of_in ns1 a Hne1). congruence. }
    run_delete. delete_post Hrep Hlen.
  - destruct (list_rep_succ _ _ _ _ _ _ Hrep Hne2) as (nn & Hnn & ? & ? & ? & ? & ?).
    destruct (list_rep_pred _ _ _ _ _ _ Hrep Hne1) as (np & Hnp & ? & ? & ? & ? & ?).
    assert (a ≠ last_of a ns2). { pose proof (last_of_in a ns2 Hne2). congruence. }
    assert (a ≠ first_of ns1 a). { pose proof (first_of_in ns1 a Hne1). congruence. }
    assert (last_of 0 ns1 ≠ first_of ns2 0) by congruence.
    run_delete. delete_post Hrep Hlen.
Qed.

(** [list_pop] and [list_dequeue] take a node off either end. *)
Lemma list_pop_spec s l ns a v :
  list_rep (heap s) l (ns ++ [(a, v)]) ->
  ∃ h', list_pop l s = Done a (set_heap h' s) ∧ list_rep h' l ns ∧
    kobj h' a = Some (ListNode 0 0 v) ∧ hframe (l :: (ns ++ [(a, v)]).*1) (heap s) h'.
Proof.
  intros Hrep. destruct (list_delete_spec _ _ _ _ _ _ Hrep) as (h' & Hrun & Hrep' & Ha & Hfr).
  rewrite app_nil_r in Hrep'. exists h'. split; [|done].
  destruct (list_rep_node _ _ _ a Hrep) as (_ & _ & Ha0 & _); [apply elem_of_mid|].
  pose proof Hrep as [Hl0 Hl _ _ _]. rewrite last_of_snoc in Hl.
  unfold list_pop. kstep. cbn [l_tail]. rewrite (proj2 (Z.eqb_neq _ _)) by done.
  by rewrite (bind_Done _ _ _ _ _ Hrun).
Qed.

Lemma list_dequeue_spec s l ns a v :
  list_rep (heap s) l ((a, v) :: ns) ->
  ∃ h', list_dequeue l s = Done a (set_heap h' s) ∧ list_rep h' l ns ∧
    kobj h' a = Some (ListNode 0 0 v) ∧ hframe (l :: ((a, v) :: ns).*1) (heap s) h'.
Proof.
  intros Hrep. destruct (list_delete_spec s l [] _ _ _ Hrep) as (h' & Hrun & Hrep' & Ha & Hfr).
  exists h'. split; [|done].
  destruct (list_rep_node _ _ _ a Hrep) as (_ & _ & Ha0 & _); [cbn; set_solver|].
  pose proof Hrep as [Hl0 Hl _ _ _].
  unfold list_dequeue. kstep. cbn [l_head first_of]. rewrite (proj2 (Z.eqb_neq _ _)) by done.
  by rewrite (bind_Done _ _ _ _ _ Hrun).
Qed.

Lemma list_take_empty s l :
  list_rep (heap s) l [] -> list_pop l s = Done 0 s ∧ list_dequeue l s = Done 0 s.
Proof.
  intros [Hl0 Hl _ _ _]. unfold list_pop, list_dequeue. split; kstep; by destruct s.
Qed.
End list_rep_facts.

(** ** Traversals *)

(** The [foreach] walk over a sequence of nodes, the body reading only the
    address and the value of each node. *)
Fixpoint visit {A B} (g : A -> Z -> Z -> A + B) (a : A) (ns : list (Z * Z)) : A + B :=
  match ns with
  | [] => inl a
  | (x, v) :: ns' => match g a x v with inr b => inr b | inl a' => visit g a' ns' end
  end.

(** Address of the first node with value [v], null if there is none; its
    position. *)
Fixpoint first_with (v : Z) (ns : list (Z * Z)) : Z :=
  match ns with
  | [] => 0
  | (a, w) :: ns' => if w =? v then a else first_with v ns'
  end.
Fixpoint index_with (v : Z) (vs : list Z) : option nat :=
  match vs with
  | [] => None
  | w :: vs' => if w =? v then Some 0%nat else S <$> index_with v vs'
  end.

Section traversals.
Context {AS : Type} `{!Allocator AS}.
Implicit Types (s : kstate AS) (h : gmap Z obj) (ns : list (Z * Z)).

Lemma length_size_heap (h : gmap Z obj) (xs : list Z) :
  NoDup xs -> (∀ a, a ∈ xs -> is_Some (h !! a)) -> (length xs <= size h)%nat.
Proof.
  intros Hnd Hin. rewrite <- (size_list_to_set (C := gset Z) xs Hnd), <- (size_dom h).
  apply subseteq_size. intros a Ha%elem_of_list_to_set. by apply elem_of_dom, Hin.
Qed.

Lemma list_rep_length h l ns : list_rep h l ns -> (length ns <= size h)%nat.
Proof.
  intros Hrep. rewrite <- (length_fmap fst ns). apply length_size_heap.
  - apply (rep_nodup _ _ _ Hrep).
  - intros a Ha. destruct (list_rep_node _ _ _ _ Hrep Ha) as (nd & Hnd & _).
    exact (kobj_Some _ _ _ Hnd).
Qed.

Lemma foreach_visit {A B} (g : A -> Z -> Z -> A + B) s ns prev a n :
  (length ns < n)%nat -> 0 ∉ ns.*1 -> dseg (N := list_node) (kobj (heap s)) prev ns 0 ->
  foreach n (λ a item i, mret (g a item (ln_value i))) a (first_of ns 0) s
    = Done (visit g a ns) s.
Proof.
  revert ns prev a. induction n as [|n IH]; intros ns prev a Hlen Hnz Hseg; [lia|].
  destruct ns as [|[x v] ns]; [done|]. cbn in Hseg, Hlen, Hnz.
  destruct Hseg as [(nd & Hnd & Hnx & _ & Hv) Hseg]. cbn in Hnx, Hv.
  assert (x ≠ 0) as Hx0 by set_solver.
  cbn [foreach first_of]. rewrite (proj2 (Z.eqb_neq _ _)) by done.
  rewrite (bind_Done _ _ _ _ _ (load_done _ _ _ Hx0 Hnd)), bind_ret, Hv. cbn [visit].
  destruct (g a x v); [|done].
  rewrite (bind_Done _ _ _ _ _ (load_done _ _ _ Hx0 Hnd)), Hnx.
  apply (IH _ x); [lia|set_solver|done].
Qed.

Lemma visit_first v ns :
  visit (λ _ item w, if w =? v then inr item else inl tt) tt ns
    = if bool_decide (v ∈ ns.*2) then inr (first_with v ns) else inl tt.
Proof.
  induction ns as [|[a w] ns IH]; [done|]. cbn [visit first_with].
  rewrite fmap_cons. cbn [snd]. destruct (Z.eqb_spec w v) as [->|Hne].
  - by rewrite bool_decide_eq_true_2 by set_solver.
  - rewrite IH. do 2 case_bool_decide; set_solver.
Qed.

Lemma list_find_spec s l ns v :
  list_rep (heap s) l ns -> list_find l v s = Done (first_with v ns) s.
Proof.
  intros Hrep. pose proof Hrep as [Hl0 Hl Hseg Hnd Hnz].
  unfold list_find. kstep. unfold walk_fuel. mrun. cbn [l_head].
  pose proof (list_rep_length _ _ _ Hrep).
  pose proof (foreach_visit (λ _ item w, if w =? v then inr item else inl tt)
    s ns 0 tt (S (size (heap s))) ltac:(lia) Hnz Hseg) as Hrun.
  rewrite (bind_Done _ _ _ _ _ Hrun), visit_first.
  case_bool_decide as Hin; [done|]. unfold mret, M_ret. f_equal.
  clear -Hin. induction ns as [|[a w] ns IH]; [done|]. cbn [first_with].
  rewrite fmap_cons in Hin. cbn in Hin.
  rewrite (proj2 (Z.eqb_neq _ _)) by set_solver. apply IH. set_solver.
Qed.

Lemma visit_index v ns i :
  0 <= i -> i + Z.of_nat (length ns) < 2 ^ 31 ->
  visit (λ i _ w, if w =? v then inr i else inl (s32 (i + 1))) i ns
    = match index_with v ns.*2 with
      | Some k => inr (i + Z.of_nat k)
      | None => inl (i + Z.of_nat (length ns))
      end.
Proof.
  revert i. induction ns as [|[a w] ns IH]; intros i Hi Hlen; cbn in *; [f_equal; lia|].
  destruct (w =? v); [f_equal; lia|].
  rewrite s32_small by lia. rewrite IH by lia.
  destruct (index_with v ns.*2); cbn; f_equal; lia.
Qed.

Lemma list_index_of_spec s l ns v :
  list_rep (heap s) l ns -> Z.of_nat (length ns) < 2 ^ 31 ->
  list_index_of l v s
    = Done (match index_with v ns.*2 with Some k => Z.of_nat k | None => -1 end) s.
Proof.
  intros Hrep Hlen. pose proof Hrep as [Hl0 Hl Hseg Hnd Hnz].
  unfold list_index_of. kstep. unfold walk_fuel. mrun. cbn [l_head].
  pose proof (list_rep_length _ _ _ Hrep).
  pose proof (foreach_visit (λ i _ w, if w =? v then inr i else inl (s32 (i + 1)))
    s ns 0 0 (S (size (heap s))) ltac:(lia) Hnz Hseg) as Hrun.
  rewrite (bind_Done _ _ _ _ _ Hrun), visit_index by lia.
  by destruct (index_with v ns.*2).
Qed.

(** [list_remove] below the length deletes the node at that position. *)
Lemma advance_spec s ns1 ns2 prev :
  0 ∉ (ns1 ++ ns2).*1 -> dseg (N := list_node) (kobj (heap s)) prev (ns1 ++ ns2) 0 ->
  advance (length ns1) (first_of (ns1 ++ ns2) 0) s = Done (first_of ns2 0) s.
Proof.
  revert prev. induction ns1 as [|[x v] ns1 IH]; intros prev Hnz Hseg; [done|].
  cbn in Hnz, Hseg. destruct Hseg as [(nd & Hnd & Hnx & _ & _) Hseg].
  cbn. assert (x ≠ 0) as Hx0 by set_solver.
  rewrite (bind_Done _ _ _ _ _ (load_done _ _ _ Hx0 Hnd)).
  cbn in Hnx. rewrite Hnx. apply (IH x); [set_solver|done].
Qed.

Lemma list_remove_spec s l ns1 a v ns2 :
  list_rep (heap s) l (ns1 ++ (a, v) :: ns2) ->
  Z.of_nat (length (ns1 ++ (a, v) :: ns2)) < 2 ^ 32 ->
  ∃ h', list_remove l (Z.of_nat (length ns1)) s = Done tt (set_heap h' s) ∧
    list_rep h' l (ns1 ++ ns2) ∧ hframe (l :: (ns1 ++ (a, v) :: ns2).*1) (heap s) h'.
Proof.
  intros Hrep Hlen. destruct (list_delete_spec _ _ _ _ _ _ Hrep) as (h' & Hrun & Hrep' & _ & Hfr).
  exists h'. split; [|done]. pose proof Hrep as [Hl0 Hl Hseg _ Hnz].
  unfold list_remove. kstep. cbn [l_length l_head].
  rewrite u32_small by lia. rewrite (proj2 (Z.ltb_ge _ _)).
  2: { rewrite length_app. cbn [length]. lia. }
  rewrite Nat2Z.id. by rewrite (bind_Done _ _ _ _ _ (advance_spec _ _ _ _ Hnz Hseg)).
Qed.

Lemma list_remove_above s l ns (i : nat) :
  list_rep (heap s) l ns -> Z.of_nat (length ns) < 2 ^ 32 -> (length ns < i)%nat ->
  list_remove l (Z.of_nat i) s = Done tt s.
Proof.
  intros Hrep Hlen Hi. pose proof Hrep as [Hl0 Hl _ _ _]. unfold list_remove. kstep. cbn [l_length].
  by rewrite u32_small, (proj2 (Z.ltb_lt _ _)) by lia.
Qed.

(** The bound test of [list_remove] lets [index == length] through, and the
    walk then ends on null. *)
Lemma list_remove_at_length s l ns :
  list_rep (heap s) l ns -> Z.of_nat (length ns) < 2 ^ 32 ->
  list_remove l (Z.of_nat (length ns)) s = Fault NullPointer.
Proof.
  intros Hrep Hlen. pose proof Hrep as [Hl0 Hl Hseg _ Hnz].
  unfold list_remove. kstep. cbn [l_length l_head].
  rewrite u32_small, Z.ltb_irrefl, Nat2Z.id by lia.
  rewrite <- (app_nil_r ns) in Hseg, Hnz.
  pose proof (advance_spec s ns [] 0 Hnz Hseg) as Hadv. rewrite app_nil_r in Hadv.
  rewrite (bind_Done _ _ _ _ _ Hadv). cbn [first_of].
  unfold list_delete. kstep. cbn [l_head]. destruct (Z.eqb_spec 0 (first_of ns 0)) as [He|He].
  - done.
  - rewrite bind_ret. kstep. cbn [l_tail].
    destruct (Z.eqb_spec 0 (last_of 0 ns)); done.
Qed.
End traversals.

(** ** Creation, positional insertion, destruction, copy and merge *)

Section more_ops.
Context {AS : Type} `{!Allocator AS}.
Implicit Types (s : kstate AS) (h : gmap Z obj) (ns : list (Z * Z)).

Lemma list_create_spec s p a :
  kst_ok s -> am_malloc 12 (astate s) = Done p a -> p ≠ 0 ->
  let s' := KState (<[p := to_obj (ListT 0 0 0)]> (heap s)) a (console s) in
  list_create s = Done p s' ∧ list_rep (heap s') p [] ∧ kst_ok s' ∧ heap s !! p = None.
Proof.
  intros Hok Hm Hp s'. subst s'.
  destruct (kmalloc_ok 12 (to_obj (ListT 0 0 0)) _ _ _ Hok ltac:(by vm_compute) Hm Hp) as [? ?].
  split; [|split; [|done]].
  - unfold list_create. rewrite (bind_Done _ _ _ _ _ (kmalloc_done _ _ _ _ _ Hm Hp)).
    change (OList ?n) with (to_obj n). kstep. kstep. kstep.
    unfold set_head, set_tail, set_length. cbn. by rewrite !insert_insert_eq.
  - split; cbn; [done|by kobj_solve|done|by apply NoDup_nil|set_solver].
Qed.

(** Linking a node in; the counterpart of [list_rep_unlinked]. *)
Lemma list_rep_linked h h' l ns1 a v ns2 :
  list_rep h l (ns1 ++ ns2) -> a ∉ (ns1 ++ ns2).*1 -> a ≠ 0 ->
  kobj h' l = Some (ListT (first_of ns1 a) (last_of a ns2)
                      (u32 (Z.of_nat (length (ns1 ++ (a, v) :: ns2))))) ->
  kobj h' a = Some (ListNode (first_of ns2 0) (last_of 0 ns1) v) ->
  (∀ c, c ∈ ns1.*1 -> kobj h' c = (if decide (c = last_of 0 ns1)
     then set_next a else id) <$> kobj h c) ->
  (∀ c, c ∈ ns2.*1 -> kobj h' c = (if decide (c = first_of ns2 0)
     then set_prev a else id) <$> kobj h c) ->
  list_rep h' l (ns1 ++ (a, v) :: ns2).
Proof.
  intros [Hl0 Hl Hseg Hnd Hnz] Ha Ha0 Hl' Ha' H1 H2. split; [done| | | |].
  - by rewrite first_of_app, last_of_app, last_of_cons.
  - eapply dseg_link; [done|by eexists|exact H1|exact H2|done].
  - rewrite fmap_app in Ha, Hnd |- *. rewrite fmap_cons. cbn.
    rewrite <- Permutation_middle. by apply NoDup_cons.
  - rewrite fmap_app in Hnz |- *. rewrite fmap_cons. cbn.
    rewrite elem_of_app in *. rewrite elem_of_cons. clear -Hnz Ha0. naive_solver.
Qed.

(** A new node in front of a non-empty list ([before == NULL]). *)
Lemma list_append_front_spec s l ns node nd :
  list_rep (heap s) l ns -> ns ≠ [] ->
  kobj (heap s) node = Some nd -> node ≠ 0 -> node ∉ ns.*1 -> ln_prev nd = 0 ->
  ∃ h', list_append_after l 0 node s = Done tt (set_heap h' s) ∧
    list_rep h' l ((node, ln_value nd) :: ns) ∧ hframe (l :: node :: ns.*1) (heap s) h'.
Proof.
  intros Hrep Hne Hnode Hn0 Hnotin Hpv0. pose proof Hrep as [Hl0 Hl _ _ Hnz].
  pose proof (list_node_ne _ _ _ _ _ Hl Hnode) as Hnl.
  pose proof (first_of_in ns 0 Hne) as Hfin. pose proof (last_of_in 0 ns Hne) as Hlin.
  destruct (list_rep_node _ _ _ _ Hrep Hfin) as (nf & Hnf & Hf0 & Hlf).
  assert (node ≠ first_of ns 0) by (intros ->; done).
  assert (last_of 0 ns ≠ 0) by (intros He; rewrite He in Hlin; done).
  unfold list_append_after. kstep. cbn [l_tail l_head].
  rewrite (proj2 (Z.eqb_neq _ 0)) by done. rewrite Z.eqb_refl.
  kstep. kstep. kstep. kstep. eexists. split; [done|]. split; [|hframe_solve].
  apply (list_rep_linked (heap s) _ l [] node _ ns); try done.
  - kobj_solve. unfold set_length, set_head. cbn. rewrite u32_add_l. do 2 f_equal.
    + by apply last_of_default.
    + f_equal. lia.
  - kobj_solve. unfold set_next. cbn. by rewrite Hpv0.
  - intros c Hc. by apply elem_of_nil in Hc.
  - intros c Hc. destruct (list_rep_node _ _ _ _ Hrep Hc) as (nc & Hnc & ? & ?).
    assert (node ≠ c) by (intros ->; done).
    case_decide; subst; kobj_solve; by rewrite ?Hnf, ?Hnc.
Qed.

(** The nodes in front of the new one, in both branches. *)
Ltac append_after_before Hb Hkeep Hnc Hsucc :=
  let c := fresh "c" in let Hc := fresh "Hc" in let Hcb := fresh "Hcb" in
  intros c Hc; rewrite last_of_snoc;
  case_decide as Hcb; [subst c; kobj_solve; by rewrite Hb|];
  rewrite fmap_app, elem_of_app in Hc;
  destruct Hc as [Hc|Hc]; [|by apply list_elem_of_singleton in Hc];
  let nc := fresh "nc" in let Hc' := fresh "Hc'" in
  destruct (Hkeep c ltac:(tauto)) as (? & ? & nc & Hc');
  pose proof (Hnc c ltac:(tauto)); pose proof (Hsucc c Hc);
  kobj_solve; by rewrite Hc'.

(** A new node behind node [b] of the list. *)
Lemma list_append_after_spec s l ns1 b w ns2 node nd :
  list_rep (heap s) l (ns1 ++ (b, w) :: ns2) ->
  kobj (heap s) node = Some nd -> node ≠ 0 -> node ∉ (ns1 ++ (b, w) :: ns2).*1 ->
  ln_next nd = 0 ->
  ∃ h', list_append_after l b node s = Done tt (set_heap h' s) ∧
    list_rep h' l (ns1 ++ (b, w) :: (node, ln_value nd) :: ns2) ∧
    hframe (l :: node :: (ns1 ++ (b, w) :: ns2).*1) (heap s) h'.
Proof.
  intros Hrep Hnode Hn0 Hnotin Hnx0. pose proof Hrep as [Hl0 Hl _ Hnd Hnz].
  pose proof (list_rep_at _ _ _ _ _ _ Hrep) as Hb.
  pose proof (list_node_ne _ _ _ _ _ Hl Hnode) as Hnl.
  destruct (list_rep_node _ _ _ b Hrep) as (_ & _ & Hb0 & Hlb); [apply elem_of_mid|].
  destruct (list_rep_mid _ _ _ _ _ _ Hrep) as (Hsucc & _ & Hkeep).
  assert (Hnb : node ≠ b) by (intros ->; apply Hnotin, elem_of_mid).
  assert (Hnc : ∀ c, c ∈ ns1.*1 ∨ c ∈ ns2.*1 -> node ≠ c).
  { intros c Hc ->. apply Hnotin. mem_solve. }
  assert (Hlast : last_of 0 (ns1 ++ (b, w) :: ns2) = last_of b ns2)
    by by rewrite last_of_app, last_of_cons.
  assert (Hlast0 : last_of b ns2 ≠ 0).
  { rewrite <- Hlast. intros Heq%last_of_null; [by destruct ns1|done]. }
  rewrite Hlast in Hl.
  assert (Hlen : u32 (u32 (Z.of_nat (length (ns1 ++ (b, w) :: ns2))) + 1)
     = u32 (Z.of_nat (length ((ns1 ++ [(b, w)]) ++ (node, ln_value nd) :: ns2)))).
  { rewrite u32_add_l, !length_app. f_equal. cbn. lia. }
  change (ns1 ++ (b, w) :: (node, ln_value nd) :: ns2)
    with (ns1 ++ [(b, w)] ++ (node, ln_value nd) :: ns2). rewrite app_assoc.
  assert (Heq : ns1 ++ (b, w) :: ns2 = (ns1 ++ [(b, w)]) ++ ns2) by by rewrite <- app_assoc.
  unfold list_append_after. kstep. cbn [l_tail l_head].
  rewrite (proj2 (Z.eqb_neq _ 0)) by done. rewrite (proj2 (Z.eqb_neq b 0)) by done.
  destruct (decide (ns2 = [])) as [->|Hne2].
  - rewrite last_of_nil, Z.eqb_refl. kstep. kstep. kstep. kstep.
    eexists. split; [done|]. split; [|hframe_solve]. rewrite Heq in Hrep, Hnotin.
    apply (list_rep_linked _ _ _ _ _ _ _ Hrep Hnotin Hn0).
    + kobj_solve. unfold set_length, set_tail. cbn [l_head l_tail l_length].
      rewrite Hlen, !first_of_app. done.
    + kobj_solve. unfold set_prev. by rewrite Hnx0, last_of_snoc.
    + append_after_before Hb Hkeep Hnc Hsucc.
    + intros c Hc. by apply elem_of_nil in Hc.
  - assert (b ≠ last_of b ns2).
    { pose proof (last_of_in b ns2 Hne2). by destruct (Hkeep (last_of b ns2) ltac:(tauto)). }
    destruct (list_rep_succ _ _ _ _ _ _ Hrep Hne2) as (nf & Hnf & ? & ? & ? & ? & Hfin).
    pose proof (Hnc (first_of ns2 0) ltac:(tauto)).
    rewrite (proj2 (Z.eqb_neq b _)) by done. kstep. cbn [ln_next].
    kstep. kstep. kstep. kstep. kstep.
    eexists. split; [done|]. split; [|hframe_solve]. rewrite Heq in Hrep, Hnotin.
    apply (list_rep_linked _ _ _ _ _ _ _ Hrep Hnotin Hn0).
    + kobj_solve. unfold set_length. cbn [l_head l_tail l_length].
      rewrite Hlen, !first_of_app. do 2 f_equal. by apply last_of_default.
    + kobj_solve. unfold set_prev, set_next. cbn. by rewrite last_of_snoc.
    + append_after_before Hb Hkeep Hnc Hsucc.
    + intros c Hc. destruct (Hkeep c ltac:(tauto)) as (? & ? & nc & Hc').
      pose proof (Hnc c ltac:(tauto)).
      case_decide; subst; kobj_solve; rewrite ?Hnf, ?Hc'; done.
Qed.

Lemma list_insert_front_spec s l ns item p a :
  kst_ok s -> list_rep (heap s) l ns -> am_malloc 12 (astate s) = Done p a -> p ≠ 0 ->
  ∃ h', list_insert_after l 0 item s = Done p (KState h' a (console s)) ∧
    list_rep h' l ((p, item) :: ns) ∧ kst_ok (KState h' a (console s)) ∧
    heap s !! p = None ∧ ∀ b, b ∉ l :: p :: ns.*1 -> h' !! b = heap s !! b.
Proof.
  intros Hok Hrep Hm Hp. apply (insert_with (list_append_after l 0) s l ns); try done.
  intros s1 Hrep1 Hnode Hnotin. destruct (decide (ns = [])) as [->|Hne].
  - pose proof Hrep1 as [Hl0 Hl _ _ _]. unfold list_append_after. kstep.
    by apply (list_append_spec _ _ _ _ _ Hrep1 Hnode).
  - by apply (list_append_front_spec _ _ _ _ _ Hrep1 Hne Hnode).
Qed.

Lemma list_insert_after_spec s l ns1 b w ns2 item p a :
  kst_ok s -> list_rep (heap s) l (ns1 ++ (b, w) :: ns2) ->
  am_malloc 12 (astate s) = Done p a -> p ≠ 0 ->
  ∃ h', list_insert_after l b item s = Done p (KState h' a (console s)) ∧
    list_rep h' l (ns1 ++ (b, w) :: (p, item) :: ns2) ∧
    kst_ok (KState h' a (console s)) ∧ heap s !! p = None ∧
    ∀ c, c ∉ l :: p :: (ns1 ++ (b, w) :: ns2).*1 -> h' !! c = heap s !! c.
Proof.
  intros Hok Hrep Hm Hp. eapply (insert_with (list_append_after l b)); try done.
  intros s1 Hrep1 Hnode Hnotin.
  by apply (list_append_after_spec _ _ _ _ _ _ _ _ Hrep1 Hnode Hp Hnotin).
Qed.

(** Freeing an unlinked node leaves the list alone. *)
Lemma list_rep_kfree s l ns a (nd : list_node) :
  kst_ok s -> list_rep (heap s) l ns -> kobj (heap s) a = Some nd -> a ∉ ns.*1 ->
  ∃ s', kfree a s = Done tt s' ∧ kst_ok s' ∧ list_rep (heap s') l ns ∧
    heap s' = delete a (heap s) ∧ ∀ n, am_room n (astate s) -> am_room n (astate s').
Proof.
  intros Hok Hrep Ha Hnotin.
  destruct (kfree_ok a s Hok (kobj_Some _ _ _ Ha)) as (s' & Hrun & Hok' & Hh & _ & Hroom).
  exists s'. split; [done|]. split; [done|]. split; [|done]. rewrite Hh.
  pose proof (list_node_ne _ _ _ _ _ (rep_obj _ _ _ Hrep) Ha) as Hne.
  eapply list_rep_frame; [| |exact Hrep].
  - by rewrite lookup_delete_ne.
  - intros b Hb. rewrite lookup_delete_ne; [done|]. by intros ->.
Qed.

(** [list_free] gives back every node, and touches nothing afterwards. *)
Lemma list_free_loop_spec ns s prev n :
  (length ns < n)%nat -> kst_ok s -> NoDup ns.*1 -> 0 ∉ ns.*1 ->
  dseg (N := list_node) (kobj (heap s)) prev ns 0 ->
  ∃ s', list_free_loop n (first_of ns 0) s = Done tt s' ∧ kst_ok s' ∧
    heap s' = filter (λ x, x.1 ∉ ns.*1) (heap s).
Proof.
  revert ns s prev. induction n as [|n IH]; intros ns s prev Hlen Hok Hnd Hnz Hseg; [lia|].
  destruct ns as [|[x v] ns].
  - exists s. split; [done|]. split; [done|]. symmetry. apply map_filter_id. set_solver.
  - cbn in Hlen, Hseg, Hnz, Hnd. apply NoDup_cons in Hnd as [Hx Hnd].
    destruct Hseg as [(nd & Hn & Hnx & _ & _) Hseg]. cbn in Hnx.
    assert (x ≠ 0) as Hx0 by set_solver.
    destruct (kfree_ok x s Hok (kobj_Some _ _ _ Hn)) as (s1 & Hrun & Hok1 & Hh1 & _).
    destruct (IH ns s1 x) as (s' & Hrun' & Hok' & Hh'); [lia|done|done|set_solver| |].
    { eapply dseg_frame; [|exact Hseg]. intros b Hb. unfold kobj. rewrite Hh1.
      rewrite lookup_delete_ne; [done|]. by intros ->. }
    exists s'. split.
    { cbn [list_free_loop first_of]. rewrite (proj2 (Z.eqb_neq _ _)) by done.
      rewrite (bind_Done _ _ _ _ _ (load_done _ _ _ Hx0 Hn)), Hnx.
      by rewrite (bind_Done _ _ _ _ _ Hrun). }
    split; [done|]. rewrite Hh', Hh1. apply map_eq. intros b.
    apply option_eq. intros o. rewrite !map_lookup_filter_Some, lookup_delete_Some.
    cbn. rewrite not_elem_of_cons. naive_solver.
Qed.

Lemma list_free_spec s l ns :
  kst_ok s -> list_rep (heap s) l ns ->
  ∃ s', list_free l s = Done tt s' ∧ kst_ok s' ∧
    heap s' = filter (λ x, x.1 ∉ ns.*1) (heap s).
Proof.
  intros Hok Hrep. pose proof Hrep as [Hl0 Hl Hseg Hnd Hnz].
  unfold list_free. kstep. unfold walk_fuel. mrun. cbn [l_head].
  pose proof (list_rep_length _ _ _ Hrep).
  by apply (list_free_loop_spec ns s 0); [lia|..].
Qed.
End more_ops.

(** ** Freeing

    [freed xs s s']: [s'] is [s] with the objects at [xs] given back. *)

Section freeing.
Context {AS : Type} `{!Allocator AS}.
Implicit Types (s : kstate AS) (ns : list (Z * Z)).

Record freed (xs : list Z) s s' : Prop := {
  freed_ok : kst_ok s -> kst_ok s';
  freed_heap a : heap s' !! a = if decide (a ∈ xs) then None else heap s !! a;
  freed_live a : am_live (astate s') !! a = if decide (a ∈ xs) then None else am_live (astate s) !! a;
  freed_room n : am_room n (astate s) -> am_room n (astate s')
}.

Lemma freed_nil s : freed [] s s.
Proof. done. Qed.

Lemma freed_cons x xs s1 s2 s3 : freed [x] s1 s2 -> freed xs s2 s3 -> freed (x :: xs) s1 s3.
Proof.
  intros [A1 B1 C1 D1] [A2 B2 C2 D2]. split; [auto|..|auto].
  - intros a. rewrite B2, B1. repeat case_decide; set_solver.
  - intros a. rewrite C2, C1. repeat case_decide; set_solver.
Qed.

Lemma kfree_freed a s :
  kst_ok s -> is_Some (heap s !! a) -> ∃ s', kfree a s = Done tt s' ∧ freed [a] s s'.
Proof.
  intros Hok Ha. destruct (kfree_ok a s Hok Ha) as (s' & Hrun & Hok' & Hh & _).
  pose proof Hok as (Hal & Hl & H0). destruct (Hl a Ha) as [k Hk].
  destruct (am_free_live _ _ _ Hal Hk) as (al & Hf & _ & Hdel & Hroom).
  exists s'. split; [done|]. unfold kfree in Hrun.
  destruct (Z.eqb_spec a 0) as [->|]; [rewrite H0 in Ha; by destruct Ha|].
  destruct Ha as [o Ho]. rewrite Ho, Hf in Hrun. injection Hrun as <-. cbn in *.
  split; [done|..|done]; intros b; cbn; [|rewrite Hdel]; rewrite lookup_delete; repeat case_decide; set_solver.
Qed.

(** The [foreach] walk that frees the value of every node. *)
Lemma destroy_loop ns s prev n :
  (length ns < n)%nat -> kst_ok s -> NoDup ns.*2 -> 0 ∉ ns.*1 ->
  (∀ v, v ∈ ns.*2 -> is_Some (heap s !! v) ∧ v ∉ ns.*1) ->
  dseg (N := list_node) (kobj (heap s)) prev ns 0 ->
  ∃ s', foreach (B := False) n (λ _ _ i, kfree (ln_value i);; mret (inl tt)) tt (first_of ns 0) s
      = Done (inl tt) s' ∧ freed ns.*2 s s'.
Proof.
  revert ns s prev. induction n as [|n IH]; intros ns s prev Hlen Hok Hnd Hnz Hv Hseg; [lia|].
  destruct ns as [|[x v] ns]; [by exists s|].
  cbn in Hlen, Hseg, Hnz, Hnd, Hv. apply NoDup_cons in Hnd as [Hx Hnd].
  destruct Hseg as [(nd & Hn & Hnx & _ & Hval) Hseg]. cbn in Hnx, Hval.
  assert (Hx0 : x ≠ 0) by set_solver.
  destruct (kfree_freed v s Hok) as (s1 & Hrun & Hfr); [apply Hv; set_solver|].
  assert (Hkeep : ∀ b, b ≠ v -> kobj (T := list_node) (heap s1) b = kobj (heap s) b).
  { intros b Hb. unfold kobj. rewrite (freed_heap _ _ _ Hfr), decide_False by set_solver. done. }
  destruct (Hv v) as [_ Hvn]; [set_solver|].
  destruct (IH ns s1 x) as (s' & Hrun' & Hfr'); [lia|by apply Hfr|done|set_solver| | |].
  { intros w Hw. destruct (Hv w) as [? ?]; [set_solver|]. rewrite (freed_heap _ _ _ Hfr).
    rewrite decide_False by set_solver. split; [done|set_solver]. }
  { eapply dseg_frame; [|exact Hseg]. intros b Hb. apply Hkeep. set_solver. }
  exists s'. split; [|by eapply freed_cons].
  cbn [foreach first_of]. rewrite (proj2 (Z.eqb_neq _ _)) by done.
  rewrite (bind_Done _ _ _ _ _ (load_done _ _ _ Hx0 Hn)), bind_assoc, Hval.
  rewrite (bind_Done _ _ _ _ _ Hrun), bind_ret.
  assert (Hn1 : kobj (heap s1) x = Some nd) by (rewrite Hkeep by set_solver; done).
  by rewrite (bind_Done _ _ _ _ _ (load_done _ _ _ Hx0 Hn1)), Hnx.
Qed.

Lemma list_destroy_spec s l ns :
  kst_ok s -> list_rep (heap s) l ns -> NoDup ns.*2 ->
  (∀ v, v ∈ ns.*2 -> is_Some (heap s !! v) ∧ v ∉ ns.*1) ->
  ∃ s', list_destroy l s = Done tt s' ∧ freed ns.*2 s s'.
Proof.
  intros Hok Hrep Hnd Hv. pose proof Hrep as [Hl0 Hl Hseg _ Hnz].
  unfold list_destroy. kstep. unfold walk_fuel. mrun. cbn [l_head].
  pose proof (list_rep_length _ _ _ Hrep).
  destruct (destroy_loop ns s 0 (S (size (heap s)))) as (s' & Hrun & Hfr); [lia|done..|].
  exists s'. by rewrite (bind_Done _ _ _ _ _ Hrun).
Qed.

Lemma free_loop ns s prev n :
  (length ns < n)%nat -> kst_ok s -> NoDup ns.*1 -> 0 ∉ ns.*1 ->
  dseg (N := list_node) (kobj (heap s)) prev ns 0 ->
  ∃ s', list_free_loop n (first_of ns 0) s = Done tt s' ∧ freed ns.*1 s s'.
Proof.
  revert ns s prev. induction n as [|n IH]; intros ns s prev Hlen Hok Hnd Hnz Hseg; [lia|].
  destruct ns as [|[x v] ns]; [by exists s|].
  cbn in Hlen, Hseg, Hnz, Hnd. apply NoDup_cons in Hnd as [Hx Hnd].
  destruct Hseg as [(nd & Hn & Hnx & _ & _) Hseg]. cbn in Hnx.
  assert (Hx0 : x ≠ 0) by set_solver.
  destruct (kfree_freed x s Hok (kobj_Some _ _ _ Hn)) as (s1 & Hrun & Hfr).
  destruct (IH ns s1 x) as (s' & Hrun' & Hfr'); [lia|by apply Hfr|done|set_solver| |].
  { eapply dseg_frame; [|exact Hseg]. intros b Hb. unfold kobj.
    rewrite (freed_heap _ _ _ Hfr), decide_False by set_solver. done. }
  exists s'. split; [|by eapply freed_cons].
  cbn [list_free_loop first_of]. rewrite (proj2 (Z.eqb_neq _ _)) by done.
  rewrite (bind_Done _ _ _ _ _ (load_done _ _ _ Hx0 Hn)), Hnx.
  by rewrite (bind_Done _ _ _ _ _ Hrun).
Qed.

Lemma list_free_freed s l ns :
  kst_ok s -> list_rep (heap s) l ns -> ∃ s', list_free l s = Done tt s' ∧ freed ns.*1 s s'.
Proof.
  intros Hok Hrep. pose proof Hrep as [Hl0 Hl Hseg Hnd Hnz].
  unfold list_free. kstep. unfold walk_fuel. mrun. cbn [l_head].
  pose proof (list_rep_length _ _ _ Hrep). by apply (free_loop ns s 0); [lia|..].
Qed.
End freeing.
