(* ===== verification/ListProg.v ===== *)
(** * Programs of list operations

    A client of list.c: each command is the idiom other kernel files use
    ([free(list_pop(list))], [list_delete(list, list_find(list, v))], ...),
    against its meaning on sequences of values. Whole command sequences
    refine the sequence program, release what they unlink and leave every
    other object of the store alone. *)

From S2P Require Import Prelude Dll KHeap KList.

Inductive list_cmd :=
  | CmdInsert (v : Z)
  | CmdInsertFront (v : Z)
  | CmdInsertAfter (w v : Z)
  | CmdPop
  | CmdDequeue
  | CmdIndexOf (v : Z)
  | CmdDelete (v : Z)
  | CmdRemove (i : nat).

Section commands.
Context {AS : Type} `{!Allocator AS}.
Local Abbreviation K := (M (kstate AS)).
Implicit Types (s : kstate AS) (ns : list (Z * Z)).

Definition take_value (n : Z) : K (option Z) :=
  if n =? 0 then mret None else nd ← load n; kfree n;; mret (Some (ln_value nd)).

Definition exec (l : Z) (c : list_cmd) : K (option Z) :=
  match c with
  | CmdInsert v => _ ← list_insert l v; mret None
  | CmdInsertFront v => _ ← list_insert_after l 0 v; mret None
  | CmdInsertAfter w v =>
      b ← list_find l w;
      if b =? 0 then mret None else _ ← list_insert_after l b v; mret (Some w)
  | CmdPop => n ← list_pop l; take_value n
  | CmdDequeue => n ← list_dequeue l; take_value n
  | CmdIndexOf v => i ← list_index_of l v; mret (Some i)
  | CmdDelete v =>
      b ← list_find l v;
      if b =? 0 then mret None else list_delete l b;; take_value b
  | CmdRemove i => list_remove l (Z.of_nat i);; mret None
  end.

(** The meaning of a command on the sequence of values. Removing past the
    end changes nothing; removing at the end is a fault of the code. *)
Fixpoint insert_after (w v : Z) (vs : list Z) : list Z :=
  match vs with
  | [] => []
  | x :: vs' => if x =? w then x :: v :: vs' else x :: insert_after w v vs'
  end.
Fixpoint delete_first (v : Z) (vs : list Z) : list Z :=
  match vs with
  | [] => []
  | x :: vs' => if x =? v then vs' else x :: delete_first v vs'
  end.

Definition meaning (c : list_cmd) (vs : list Z) : list Z * option Z :=
  match c with
  | CmdInsert v => (vs ++ [v], None)
  | CmdInsertFront v => (v :: vs, None)
  | CmdInsertAfter w v =>
      if bool_decide (w ∈ vs) then (insert_after w v vs, Some w) else (vs, None)
  | CmdPop => (removelast vs, last vs)
  | CmdDequeue => (tail vs, head vs)
  | CmdIndexOf v =>
      (vs, Some (match index_with v vs with Some k => Z.of_nat k | None => -1 end))
  | CmdDelete v =>
      if bool_decide (v ∈ vs) then (delete_first v vs, Some v) else (vs, None)
  | CmdRemove i => (take i vs ++ drop (S i) vs, None)
  end.
Definition faults (c : list_cmd) (vs : list Z) : bool :=
  match c with CmdRemove i => (i =? length vs)%nat | _ => false end.

Fixpoint exec_all (l : Z) (cs : list list_cmd) : K (list (option Z)) :=
  match cs with
  | [] => mret []
  | c :: cs' => r ← exec l c; rs ← exec_all l cs'; mret (r :: rs)
  end.
(** None: some command faults. *)
Fixpoint meaning_all (cs : list list_cmd) (vs : list Z) : option (list Z * list (option Z)) :=
  match cs with
  | [] => Some (vs, [])
  | c :: cs' =>
      if faults c vs then None
      else
        let '(vs1, r) := meaning c vs in
        match meaning_all cs' vs1 with Some (vs2, rs) => Some (vs2, r :: rs) | None => None end
  end.

(** Going from [h] to [h'] rewrote the list at [l] and its nodes only; a
    node the list gained is a fresh object. *)
Definition kept (l : Z) (ns ns' : list (Z * Z)) (h h' : gmap Z obj) : Prop :=
  ∀ a o, a ≠ l -> a ∉ ns.*1 -> h !! a = Some o -> h' !! a = Some o ∧ a ∉ ns'.*1.

(** From [s], where the list at [l] has the nodes [ns], [m] returns [r] and
    leaves a list that holds [vs], with room for [k] more blocks. *)
Definition refines {R} (k : nat) (m : K R) (l : Z) s (ns : list (Z * Z))
    (vs : list Z) (r : R) : Prop :=
  ∃ s' ns', m s = Done r s' ∧ kst_ok s' ∧ list_rep (heap s') l ns' ∧ ns'.*2 = vs ∧
    kept l ns ns' (heap s) (heap s') ∧ am_room k (astate s').

Lemma kept_refl l ns h : kept l ns ns h h.
Proof. by intros a o. Qed.

Lemma kept_trans l ns1 ns2 ns3 h1 h2 h3 :
  kept l ns1 ns2 h1 h2 -> kept l ns2 ns3 h2 h3 -> kept l ns1 ns3 h1 h3.
Proof.
  intros H1 H2 a o Hl Hn Ho. destruct (H1 a o Hl Hn Ho) as [Ho2 Hn2]. by apply H2.
Qed.

Lemma kept_fresh l ns ns' p h h' :
  h !! p = None -> (∀ b, b ∉ l :: p :: ns.*1 -> h' !! b = h !! b) ->
  (∀ b, b ∈ ns'.*1 -> b = p ∨ b ∈ ns.*1) -> kept l ns ns' h h'.
Proof.
  intros Hp Hfr Hsub a o Hl Hn Ho. assert (a ≠ p) by congruence.
  split; [|by intros [?|?]%Hsub]. rewrite Hfr; [done|]. by rewrite !not_elem_of_cons.
Qed.

Lemma kept_hframe l ns ns' h h' :
  hframe (l :: ns.*1) h h' -> (∀ b, b ∈ ns'.*1 -> b ∈ ns.*1) -> kept l ns ns' h h'.
Proof.
  intros [Hfr _] Hsub a o Hl Hn Ho. split; [|by intros ?%Hsub].
  rewrite Hfr; [done|]. by rewrite not_elem_of_cons.
Qed.

Lemma kept_delete l ns ns' h h' a :
  a ∈ ns.*1 -> kept l ns ns' h h' -> kept l ns ns' h (delete a h').
Proof.
  intros Ha Hk b o Hl Hn Ho. destruct (Hk b o Hl Hn Ho) as [Hb ?]. split; [|done].
  rewrite lookup_delete_ne; [done|]. by intros ->.
Qed.

(** A step with a known result, then the rest. *)
Lemma refines_bind {A R} k (m : K A) (f : A -> K R) l s s1 ns ns1 a vs r :
  m s = Done a s1 -> kept l ns ns1 (heap s) (heap s1) ->
  refines k (f a) l s1 ns1 vs r -> refines k (m ≫= f) l s ns vs r.
Proof.
  intros Hm Hk (s' & ns' & Hf & Hok & Hrep & Hvs & Hk' & Hroom).
  exists s', ns'. rewrite (bind_Done _ _ _ _ _ Hm). repeat (split; [done|]).
  split; [|done]. by eapply kept_trans.
Qed.

Lemma refines_ret {R} k l s ns (r : R) :
  kst_ok s -> list_rep (heap s) l ns -> am_room (S k) (astate s) ->
  refines k (mret r) l s ns ns.*2 r.
Proof.
  intros. exists s, ns. do 4 (split; [done|]). split; [apply kept_refl|by apply am_room_S].
Qed.

Lemma first_with_split v ns :
  v ∈ ns.*2 -> ∃ ns1 a ns2, ns = ns1 ++ (a, v) :: ns2 ∧ (v ∉ ns1.*2) ∧ first_with v ns = a.
Proof.
  induction ns as [|[a w] ns IH]; [set_solver|]. cbn. destruct (Z.eqb_spec w v) as [->|Hne].
  - intros _. exists [], a, ns. set_solver.
  - intros Hin. destruct IH as (ns1 & b & ns2 & -> & Hn & Hf); [set_solver|].
    exists ((a, w) :: ns1), b, ns2. set_solver.
Qed.

Lemma first_with_none v ns : v ∉ ns.*2 -> first_with v ns = 0.
Proof.
  induction ns as [|[a w] ns IH]; [done|]. cbn. intros Hn.
  rewrite (proj2 (Z.eqb_neq _ _)) by set_solver. apply IH. set_solver.
Qed.

Lemma insert_after_split w v vs1 vs2 :
  w ∉ vs1 -> insert_after w v (vs1 ++ w :: vs2) = vs1 ++ w :: v :: vs2.
Proof.
  induction vs1 as [|x vs1 IH]; cbn; [by rewrite Z.eqb_refl|]. intros Hn.
  rewrite (proj2 (Z.eqb_neq _ _)) by set_solver. rewrite IH; [done|set_solver].
Qed.

Lemma delete_first_split v vs1 vs2 :
  v ∉ vs1 -> delete_first v (vs1 ++ v :: vs2) = vs1 ++ vs2.
Proof.
  induction vs1 as [|x vs1 IH]; cbn; [by rewrite Z.eqb_refl|]. intros Hn.
  rewrite (proj2 (Z.eqb_neq _ _)) by set_solver. rewrite IH; [done|set_solver].
Qed.

(** After unlinking, the node that came off is freed. *)
Lemma take_value_spec l s ns a v :
  kst_ok s -> list_rep (heap s) l ns -> kobj (heap s) a = Some (ListNode 0 0 v) ->
  a ≠ 0 -> a ∉ ns.*1 ->
  ∃ s', take_value a s = Done (Some v) s' ∧ kst_ok s' ∧ list_rep (heap s') l ns ∧
    heap s' = delete a (heap s) ∧ ∀ n, am_room n (astate s) -> am_room n (astate s').
Proof.
  intros Hok Hrep Ha Ha0 Hnotin.
  destruct (list_rep_kfree _ _ _ _ _ Hok Hrep Ha Hnotin) as (s' & Hrun & Hspec).
  exists s'. split; [|done].
  unfold take_value. rewrite (proj2 (Z.eqb_neq _ _)) by done.
  rewrite (bind_Done _ _ _ _ _ (load_done _ _ _ Ha0 Ha)).
  by rewrite (bind_Done _ _ _ _ _ Hrun).
Qed.

(** Unlinking (by [m]) the node [a] of the list and taking its value. *)
Lemma refines_unlink {A} k (m : K A) (f : A -> K (option Z)) l s ns1 a v ns2 x h' :
  kst_ok s -> list_rep (heap s) l (ns1 ++ (a, v) :: ns2) -> am_room (S k) (astate s) ->
  m s = Done x (set_heap h' s) -> list_rep h' l (ns1 ++ ns2) ->
  kobj h' a = Some (ListNode 0 0 v) ->
  hframe (l :: (ns1 ++ (a, v) :: ns2).*1) (heap s) h' ->
  (∀ s, f x s = take_value a s) ->
  refines k (m ≫= f) l s (ns1 ++ (a, v) :: ns2) (ns1 ++ ns2).*2 (Some v).
Proof.
  intros Hok Hrep Hroom Hrun Hrep' Ha Hfr Hf.
  destruct (list_rep_node _ _ _ a Hrep) as (_ & _ & Ha0 & _); [apply elem_of_mid|].
  destruct (nodup_mid _ _ _ _ (rep_nodup _ _ _ Hrep)) as (_ & _ & Ha1 & Ha2 & _).
  destruct (take_value_spec l (set_heap h' s) (ns1 ++ ns2) a v)
    as (s' & Htake & Hok' & Hrep'' & Hh & Hr); [by eapply hframe_kst_ok|done..| |].
  { rewrite fmap_app, elem_of_app. tauto. }
  exists s', (ns1 ++ ns2). rewrite (bind_Done _ _ _ _ _ Hrun), Hf.
  do 4 (split; [done|]). split; [|by apply am_room_S, Hr].
  rewrite Hh. apply kept_delete; [apply elem_of_mid|]. apply kept_hframe; [done|].
  intros b. rewrite !fmap_app, !fmap_cons, !elem_of_app, elem_of_cons. cbn. tauto.
Qed.

(** A fresh node linked in by [f]. *)
Lemma refines_insertion {R} k (f : Z -> K unit) (g : Z -> K R) l s ns
    (ns' : Z -> list (Z * Z)) item vs r :
  kst_ok s -> list_rep (heap s) l ns -> am_room (S k) (astate s) ->
  (∀ p a, am_malloc 12 (astate s) = Done p a -> p ≠ 0 ->
     ∃ h', (node ← new_node item; f node;; mret node) s = Done p (KState h' a (console s)) ∧
       list_rep h' l (ns' p) ∧ kst_ok (KState h' a (console s)) ∧ heap s !! p = None ∧
       ∀ b, b ∉ l :: p :: ns.*1 -> h' !! b = heap s !! b) ->
  (∀ p, (ns' p).*2 = vs) -> (∀ p b, b ∈ (ns' p).*1 -> b = p ∨ b ∈ ns.*1) ->
  (∀ p s', g p s' = Done r s') ->
  refines k ((node ← new_node item; f node;; mret node) ≫= g) l s ns vs r.
Proof.
  intros Hok Hrep Hroom Hins Hvs Hsub Hg.
  destruct (am_malloc_room (astate s) k 12) as (p & a & Hm & Hp & Hroom');
    [apply Hok|done|by vm_compute|].
  destruct (Hins _ _ Hm Hp) as (h' & Hrun & Hrep' & Hok' & Hfresh & Hfr).
  exists (KState h' a (console s)), (ns' p). rewrite (bind_Done _ _ _ _ _ Hrun).
  split; [apply Hg|]. do 3 (split; [done|]). split; [|done].
  eapply kept_fresh; [exact Hfresh|done|]. by apply Hsub.
Qed.

Lemma exec_insert_after k l s ns w v :
  kst_ok s -> list_rep (heap s) l ns -> am_room (S k) (astate s) ->
  refines k (exec l (CmdInsertAfter w v)) l s ns
    (meaning (CmdInsertAfter w v) ns.*2).1 (meaning (CmdInsertAfter w v) ns.*2).2.
Proof.
  intros Hok Hrep Hroom. cbn [exec meaning].
  eapply refines_bind; [by eapply list_find_spec|apply kept_refl|]. case_bool_decide as Hin.
  - destruct (first_with_split _ _ Hin) as (ns1 & b & ns2 & -> & Hn & ->).
    destruct (list_rep_node _ _ _ b Hrep) as (_ & _ & Hb0 & _); [apply elem_of_mid|].
    rewrite (proj2 (Z.eqb_neq _ _)) by done. cbn [fst snd].
    apply (refines_insertion _ (list_append_after l b) _ _ _ _
      (λ p, ns1 ++ (b, w) :: (p, v) :: ns2) v _ _ Hok Hrep Hroom); [|intros p|intros p c|done].
    + intros p a Hm Hp. by apply list_insert_after_spec.
    + rewrite !fmap_app, !fmap_cons. cbn. by rewrite insert_after_split.
    + rewrite !fmap_app, !fmap_cons, !elem_of_app, !elem_of_cons. cbn. tauto.
  - rewrite first_with_none by done. by apply refines_ret.
Qed.

Lemma exec_delete k l s ns v :
  kst_ok s -> list_rep (heap s) l ns -> am_room (S k) (astate s) ->
  refines k (exec l (CmdDelete v)) l s ns
    (meaning (CmdDelete v) ns.*2).1 (meaning (CmdDelete v) ns.*2).2.
Proof.
  intros Hok Hrep Hroom. cbn [exec meaning].
  eapply refines_bind; [by eapply list_find_spec|apply kept_refl|]. case_bool_decide as Hin.
  - destruct (first_with_split _ _ Hin) as (ns1 & b & ns2 & -> & Hn & ->).
    destruct (list_rep_node _ _ _ b Hrep) as (_ & _ & Hb0 & _); [apply elem_of_mid|].
    rewrite (proj2 (Z.eqb_neq _ _)) by done. cbn [fst snd].
    rewrite fmap_app, fmap_cons. cbn. rewrite delete_first_split by done.
    rewrite <- fmap_app.
    destruct (list_delete_spec _ _ _ _ _ _ Hrep) as (h' & Hrun & Hrep' & Ha & Hfr).
    by eapply refines_unlink.
  - rewrite first_with_none by done. by apply refines_ret.
Qed.

Lemma exec_pop k l s ns :
  kst_ok s -> list_rep (heap s) l ns -> am_room (S k) (astate s) ->
  refines k (exec l CmdPop) l s ns (removelast ns.*2) (last ns.*2).
Proof.
  intros Hok Hrep Hroom. cbn [exec]. destruct ns as [|[a v] ns _] using rev_ind.
  - eapply refines_bind; [by eapply list_take_empty|apply kept_refl|]. by apply refines_ret.
  - destruct (list_pop_spec _ _ _ _ _ Hrep) as (h' & Hrun & Hrep' & Ha & Hfr).
    rewrite fmap_app. cbn. rewrite removelast_last, last_snoc.
    rewrite <- (app_nil_r ns) in Hrep'. rewrite <- (app_nil_r ns) at 2.
    by eapply refines_unlink.
Qed.

Lemma exec_dequeue k l s ns :
  kst_ok s -> list_rep (heap s) l ns -> am_room (S k) (astate s) ->
  refines k (exec l CmdDequeue) l s ns (tail ns.*2) (head ns.*2).
Proof.
  intros Hok Hrep Hroom. cbn [exec]. destruct ns as [|[a v] ns].
  - eapply refines_bind; [by eapply list_take_empty|apply kept_refl|]. by apply refines_ret.
  - destruct (list_dequeue_spec _ _ _ _ _ Hrep) as (h' & Hrun & Hrep' & Ha & Hfr).
    by apply (refines_unlink k _ _ l s [] a v ns a h').
Qed.

Lemma exec_remove k l s ns i :
  kst_ok s -> list_rep (heap s) l ns -> Z.of_nat (length ns) < 2 ^ 31 -> am_room (S k) (astate s) ->
  faults (CmdRemove i) ns.*2 = false ->
  refines k (exec l (CmdRemove i)) l s ns
    (meaning (CmdRemove i) ns.*2).1 (meaning (CmdRemove i) ns.*2).2.
Proof.
  intros Hok Hrep Hlen Hroom. cbn [faults exec meaning fst snd]. rewrite length_fmap.
  intros Hne%Nat.eqb_neq. destruct (decide (length ns < i)%nat) as [Hgt|Hle].
  - rewrite take_ge, drop_ge, app_nil_r by (rewrite length_fmap; lia).
    eapply refines_bind; [apply (list_remove_above _ _ ns); [done|lia|done]|apply kept_refl|]. by apply refines_ret.
  - destruct (lookup_lt_is_Some_2 ns i ltac:(lia)) as [[a v] Hi].
    pose proof (take_drop_middle _ _ _ Hi) as Heq.
    assert (Hti : length (take i ns) = i) by (rewrite length_take; lia).
    rewrite <- Heq in Hrep. destruct (list_remove_spec _ _ _ _ _ _ Hrep) as (h' & Hrun & Hrep' & Hfr).
    { rewrite Heq. lia. }
    rewrite Hti in Hrun. rewrite Heq in Hfr.
    exists (set_heap h' s), (take i ns ++ drop (S i) ns). rewrite (bind_Done _ _ _ _ _ Hrun).
    split; [done|]. split; [by eapply hframe_kst_ok|]. split; [done|].
    split; [by rewrite fmap_app, <- fmap_take, <- fmap_drop|]. split; [|by apply am_room_S].
    apply kept_hframe; [done|]. intros b. rewrite fmap_app, elem_of_app, fmap_take, fmap_drop.
    intros [Hb|Hb]; [by eapply subseteq_take|by eapply subseteq_drop].
Qed.

Lemma exec_refines k c l s ns :
  kst_ok s -> list_rep (heap s) l ns -> Z.of_nat (length ns) < 2 ^ 31 ->
  am_room (S k) (astate s) -> faults c ns.*2 = false ->
  refines k (exec l c) l s ns (meaning c ns.*2).1 (meaning c ns.*2).2.
Proof.
  intros Hok Hrep Hlen Hroom Hall. destruct c as [v|v|w v| | |v|v|i].
  - apply (refines_insertion _ (list_append l) _ _ _ _ (λ p, ns ++ [(p, v)]) v _ _ Hok Hrep Hroom);
      [|intros p; by rewrite fmap_app|intros p b|done].
    + intros p a Hm Hp. by apply list_insert_spec.
    + rewrite fmap_app, elem_of_app. cbn. rewrite elem_of_cons, elem_of_nil. tauto.
  - apply (refines_insertion _ (list_append_after l 0) _ _ _ _ (λ p, (p, v) :: ns) v _ _ Hok Hrep Hroom);
      [|done|intros p b|done].
    + intros p a Hm Hp. by apply list_insert_front_spec.
    + cbn. by rewrite elem_of_cons.
  - by apply exec_insert_after.
  - by apply exec_pop.
  - by apply exec_dequeue.
  - eapply refines_bind; [by eapply list_index_of_spec|apply kept_refl|]. by apply refines_ret.
  - by apply exec_delete.
  - by apply exec_remove.
Qed.

Lemma exec_faults c l s ns :
  list_rep (heap s) l ns -> Z.of_nat (length ns) < 2 ^ 31 -> faults c ns.*2 = true ->
  exec l c s = Fault NullPointer.
Proof.
  intros Hrep Hlen. destruct c as [v|v|w v| | |v|v|i]; try done. cbn [faults]. rewrite length_fmap.
  intros ->%Nat.eqb_eq. cbn [exec]. unfold mbind, M_bind. rewrite (list_remove_at_length _ _ _ Hrep); [done|lia].
Qed.

Lemma length_meaning c (vs : list Z) : (length (meaning c vs).1 <= S (length vs))%nat.
Proof.
  assert (∀ w v vs, length (insert_after w v vs) <= S (length vs))%nat.
  { intros w v l. induction l as [|x l IH]; cbn; [lia|]. destruct (x =? w); cbn; lia. }
  assert (∀ v vs, length (delete_first v vs) <= length vs)%nat.
  { intros v l. induction l as [|x l IH]; cbn; [lia|]. destruct (x =? v); cbn; lia. }
  destruct c; cbn; try case_bool_decide; cbn; eauto; try lia.
  - rewrite length_app. cbn. lia.
  - destruct vs as [|x vs _] using rev_ind; [cbn; lia|].
    rewrite removelast_last, length_app. lia.
  - destruct vs; cbn; lia.
  - rewrite length_app, length_take, length_drop. lia.
Qed.

(** What [m] does when its meaning is [o]: it refines it, or faults. *)
Definition refines_or_faults {R} (k : nat) (m : K R) (l : Z) s (ns : list (Z * Z))
    (o : option (list Z * R)) : Prop :=
  match o with Some (vs, r) => refines k m l s ns vs r | None => m s = Fault NullPointer end.

Lemma exec_all_refines cs k l s ns :
  kst_ok s -> list_rep (heap s) l ns ->
  Z.of_nat (length ns + length cs) < 2 ^ 31 -> am_room (length cs + S k) (astate s) ->
  refines_or_faults k (exec_all l cs) l s ns (meaning_all cs ns.*2).
Proof.
  revert s ns. induction cs as [|c cs IH]; intros s ns Hok Hrep Hlen Hroom.
  - by apply refines_ret.
  - cbn [length plus] in Hlen, Hroom. cbn [exec_all meaning_all]. destruct (faults c ns.*2) eqn:Hf.
    + cbn [refines_or_faults]. unfold mbind, M_bind. rewrite (exec_faults c l s ns Hrep ltac:(lia) Hf). done.
    + pose proof (exec_refines _ c l s ns Hok Hrep ltac:(lia) Hroom Hf)
        as (s1 & ns1 & Hrun & Hok1 & Hrep1 & Heq & Hk & Hroom1).
      pose proof (length_meaning c ns.*2) as Hlm. rewrite length_fmap in Hlm.
      destruct (meaning c ns.*2) as [vs1 r]. cbn [fst snd] in *. subst vs1. rewrite length_fmap in Hlm.
      pose proof (IH s1 ns1 Hok1 Hrep1 ltac:(lia) Hroom1) as Hrest.
      destruct (meaning_all cs ns1.*2) as [[vs2 rs]|]; cbn [refines_or_faults] in *.
      * eapply refines_bind; [exact Hrun|exact Hk|]. destruct Hrest as (s2 & ns2 & Hrun2 & Hr).
        exists s2, ns2. split; [by mstep Hrun2|done].
      * mstep Hrun. unfold mbind, M_bind. by rewrite Hrest.
Qed.
End commands.

(** ** Properties *)

Section list_properties.
Context {AS : Type} `{!Allocator AS}.
Implicit Types (s : kstate AS) (ns : list (Z * Z)).

(** C3: every sequence of list commands on a well-formed list, with memory
    for its insertions, does what the sequence program does. If the program
    removes at an index that is the length at that moment, the code faults
    there (list.c:111 tests [>] for [>=]). Otherwise it returns, with the
    results the sequence program computes, leaves a well-formed list holding
    the values the sequence program leaves, and rewrites no object outside
    the list. *)
Theorem list_program_refines cs l s ns
    (Hok : kst_ok s) (Hrep : list_rep (heap s) l ns)
    (Hlen : Z.of_nat (length ns + length cs) < 2 ^ 31)
    (Hroom : am_room (length cs + 1) (astate s)) :
  match meaning_all cs ns.*2 with
  | None => exec_all l cs s = Fault NullPointer
  | Some (vs, rs) =>
      ∃ s' ns', exec_all l cs s = Done rs s' ∧
        kst_ok s' ∧ list_rep (heap s') l ns' ∧ ns'.*2 = vs ∧
        ∀ a o, a ≠ l -> a ∉ ns.*1 -> heap s !! a = Some o -> heap s' !! a = Some o
  end.
Proof.
  pose proof (exec_all_refines cs 0 l s ns Hok Hrep Hlen Hroom) as Hall.
  destruct (meaning_all cs ns.*2) as [[vs rs]|]; [|exact Hall].
  destruct Hall as (s' & ns' & ? & ? & ? & ? & Hk & _).
  exists s', ns'. do 4 (split; [done|]). intros a o ? ? ?. by apply Hk.
Qed.

(** [list_remove] accepts [index == length] and then dereferences a null
    pointer, on every well-formed list (list.c:111 tests [>] for [>=]). *)
Theorem list_remove_off_by_one s l ns
    (Hrep : list_rep (heap s) l ns) (Hlen : Z.of_nat (length ns) < 2 ^ 32) :
  list_remove l (Z.of_nat (length ns)) s = Fault NullPointer.
Proof. by apply list_remove_at_length. Qed.

Lemma list_copy_loop_stuck fuel out node s s' :
  node ≠ 0 -> list_copy_loop fuel out node s ≠ Done tt s'.
Proof.
  intros Hn. revert s. induction fuel as [|fuel IH]; intros s; [done|].
  cbn [list_copy_loop]. rewrite (proj2 (Z.eqb_neq _ _)) by done.
  intros (nd & s1 & _ & (p & s2 & _ & H)%bind_inv)%bind_inv. by eapply IH.
Qed.

(** [list_copy] returns for no non-empty list, however long it runs
    (list.c:162 never advances [node]). *)
Theorem list_copy_never_returns fuel l s ns
    (Hok : kst_ok s) (Hrep : list_rep (heap s) l ns) (Hne : ns ≠ []) :
  returned (list_copy fuel l s) = false.
Proof.
  destruct (list_copy fuel l s) as [p s'| | |] eqn:Hcopy; try done. exfalso. revert Hcopy.
  unfold list_copy. intros (out & s1 & Hc & (lt & s2 & Hl & (u & s3 & Hloop & _)%bind_inv)%bind_inv)%bind_inv.
  destruct (am_malloc 12 (astate s)) as [q a| | |] eqn:Hm;
    [|by unfold list_create, kmalloc, mbind, M_bind in Hc; rewrite Hm in Hc..].
  destruct (decide (q = 0)) as [->|Hq].
  { unfold list_create, kmalloc, mbind, M_bind in Hc. by rewrite Hm in Hc. }
  destruct (list_create_spec _ _ _ Hok Hm Hq) as (Hrun & _ & _ & Hfresh).
  rewrite Hrun in Hc. injection Hc as <- <-.
  pose proof Hrep as [Hl0 Hlo _ _ Hnz]. cbn [heap] in Hl.
  assert (Hql : q ≠ l).
  { intros ->. apply kobj_Some in Hlo. rewrite Hfresh in Hlo. by destruct Hlo. }
  erewrite load_done in Hl; [|done|by kobj_solve]. injection Hl as <- <-.
  destruct u. apply list_copy_loop_stuck in Hloop; [done|]. cbn.
  destruct ns as [|[b w] ns]; [done|]. cbn. set_solver.
Qed.

(** C40: [list_free] returns, gives back every node of the list and reads or
    writes no node after it was freed; the rest of the store is untouched. *)
Theorem list_free_releases s l ns
    (Hok : kst_ok s) (Hrep : list_rep (heap s) l ns) :
  ∃ s', list_free l s = Done tt s' ∧ kst_ok s' ∧
    (∀ a, a ∈ ns.*1 -> heap s' !! a = None) ∧
    (∀ a, a ∉ ns.*1 -> heap s' !! a = heap s !! a).
Proof.
  destruct (list_free_spec _ _ _ Hok Hrep) as (s' & Hrun & Hok' & Hh).
  exists s'. do 2 (split; [done|]). rewrite Hh. split; intros a Ha.
  - apply map_lookup_filter_None. right. intros o _ Hn. by apply Hn.
  - destruct (heap s !! a) as [o|] eqn:Ho.
    + by apply map_lookup_filter_Some.
    + apply map_lookup_filter_None. by left.
Qed.
End list_properties.

(** ** Examples on the concrete allocator *)

Section list_examples.
#[local] Existing Instance Bump.allocator.

(** A list of two values, and the store it lives in. *)
Definition example_list : kstate Bump.bump := KState
  {[ 0x1000 := to_obj (ListT 0x2000 0x3000 2);
     0x2000 := to_obj (ListNode 0x3000 0 7);
     0x3000 := to_obj (ListNode 0 0x2000 8) ]}
  (Bump.BumpState 0x4000 {[ 0x1000 := 12; 0x2000 := 12; 0x3000 := 12 ]}) [].
Definition example_nodes : list (Z * Z) := [(0x2000, 7); (0x3000, 8)].

Lemma example_list_rep : list_rep (heap example_list) 0x1000 example_nodes.
Proof.
  split; [done|done| | |].
  - repeat split; cbn; eexists; repeat split; reflexivity.
  - apply (bool_decide_unpack _). by vm_compute.
  - apply (bool_decide_unpack _). by vm_compute.
Qed.

Lemma example_list_ok : kst_ok example_list.
Proof.
  assert (∀ q n, (Bump.live (astate example_list)) !! q = Some n -> n = 12 ∧ (q = 0x1000 ∨ q = 0x2000 ∨ q = 0x3000)).
  { intros q n. cbn. rewrite !lookup_insert_Some, lookup_singleton_Some. lia. }
  split; [split; [|split]|split; [|done]].
  - unfold Bump.base. cbn. lia.
  - intros q n ?%H. unfold Bump.base. cbn. lia.
  - intros p n q k ?%H ?%H. lia.
  - intros a. cbn. rewrite !lookup_insert_is_Some', !lookup_singleton_is_Some. tauto.
Qed.

Definition example_cmds : list list_cmd :=
  [CmdInsert 9; CmdInsertAfter 7 5; CmdRemove 9; CmdIndexOf 5; CmdDequeue; CmdDelete 8; CmdInsertFront 1; CmdRemove 1; CmdPop].

(** A program that returns, and one that removes at the length. *)
Lemma list_program_refines_witness :
  (∃ s' ns', exec_all 0x1000 example_cmds example_list
      = Done [None; Some 7; None; Some 1; Some 7; Some 8; None; None; Some 9] s' ∧
    kst_ok s' ∧ list_rep (heap s') 0x1000 ns' ∧ ns'.*2 = [1] ∧
    ∀ a o, a ≠ 0x1000 -> a ∉ example_nodes.*1 ->
      heap example_list !! a = Some o -> heap s' !! a = Some o) ∧
  exec_all 0x1000 [CmdPop; CmdRemove 1] example_list = Fault NullPointer.
Proof.
  split.
  - by apply (list_program_refines example_cmds 0x1000 example_list example_nodes
      example_list_ok example_list_rep).
  - by apply (list_program_refines [CmdPop; CmdRemove 1] 0x1000 example_list example_nodes
      example_list_ok example_list_rep).
Defined.

Lemma list_remove_off_by_one_witness :
  list_remove 0x1000 2 example_list = Fault NullPointer.
Proof. apply (list_remove_off_by_one _ _ _ example_list_rep). by vm_compute. Defined.

Lemma list_copy_never_returns_witness :
  returned (list_copy 1000 0x1000 example_list) = false.
Proof. by apply (list_copy_never_returns 1000 _ _ _ example_list_ok example_list_rep). Defined.

Lemma list_free_releases_witness :
  ∃ s', list_free 0x1000 example_list = Done tt s' ∧ kst_ok s' ∧
    (∀ a, a ∈ example_nodes.*1 -> heap s' !! a = None) ∧
    (∀ a, a ∉ example_nodes.*1 -> heap s' !! a = heap example_list !! a).
Proof. apply (list_free_releases _ _ _ example_list_ok example_list_rep). Defined.
End list_examples.
