(* ===== verification/Tree.v ===== *)
(** * Trees (kernel/lib/tree.c)

    The operations of tree.c on the kernel store. The children of a node are
    a list of list.c whose values are the child nodes. A search takes its
    comparator from the caller, which may read more than the store, so the
    search runs on any state that has the store as a part. *)

From S2P Require Import Prelude Dll KHeap KList.

Section each.
Context {AS : Type} `{!Allocator AS} {S : Type} `{!Has (kstate AS) S}.

Definition kheap (s : S) : gmap Z obj := heap (part (T := kstate AS) s).

(** The [foreach] macro around a body that runs on the larger state. *)
Fixpoint each {A B} (n : nat) (f : A -> Z -> list_node -> M S (A + B)) (a : A)
    (item : Z) : M S (A + B) :=
  match n with
  | O => spin
  | Datatypes.S n' =>
      if item =? 0 then mret (inl a)
      else
        i ← within (load item);
        r ← f a item i;
        match r with
        | inr b => mret (inr b)
        | inl a' => i' ← within (load (T := list_node) item); each n' f a' (ln_next i')
        end
  end.

(** [foreach(child, list)] from the head of the list *)
Definition each_of {A B} (list : Z) (f : A -> Z -> list_node -> M S (A + B)) (a : A) : M S (A + B) :=
  l ← within (load list);
  n ← within walk_fuel;
  each n f a (l_head l).
End each.

Section tree_ops.
Context {AS : Type} `{!Allocator AS}.
Local Abbreviation K := (M (kstate AS)).

Definition tree_create : K Z :=
  out ← kmalloc 8 (OTree (TreeT am_junk am_junk));
  upd out (set_nodes 0);;
  upd out (set_root 0);;
  mret out.

Definition tree_node_create (value : Z) : K Z :=
  out ← kmalloc 12 (OTreeNode (TreeNode am_junk am_junk am_junk));
  upd out (set_tvalue value);;
  l ← list_create;
  upd out (set_children l);;
  upd out (set_parent 0);;
  mret out.

Definition tree_set_root (tree value : Z) : K unit :=
  root ← tree_node_create value;
  upd tree (set_root root);;
  upd tree (set_nodes 1).

(** The recursion goes down the tree, whose height the number of objects
    bounds; [fuel] is that number. *)
Fixpoint tree_node_destroy (fuel : nat) (node : Z) : K unit :=
  match fuel with
  | O => spin
  | S fuel' =>
      nd ← load node;
      _ ← each_of (A := unit) (B := False) (tn_children nd) (λ _ _ child, tree_node_destroy fuel' (ln_value child);; mret (inl tt)) tt;
      nd ← load node;
      kfree (tn_value nd)
  end.
Definition tree_destroy (tree : Z) : K unit :=
  t ← load tree;
  n ← walk_fuel;
  if t_root t =? 0 then mret tt else tree_node_destroy n (t_root t).

Fixpoint tree_node_free (fuel : nat) (node : Z) : K unit :=
  match fuel with
  | O => spin
  | S fuel' =>
      if node =? 0 then mret tt
      else
        nd ← load node;
        _ ← each_of (A := unit) (B := False) (tn_children nd) (λ _ _ child, tree_node_free fuel' (ln_value child);; mret (inl tt)) tt;
        kfree node
  end.
Definition tree_free (tree : Z) : K unit :=
  t ← load tree;
  n ← walk_fuel;
  tree_node_free n (t_root t).

Definition tree_node_insert_child_node (tree parent node : Z) : K unit :=
  p ← load parent;
  _ ← list_insert (tn_children p) node;
  upd node (set_parent parent);;
  upd tree (λ t, set_nodes (u32 (t_nodes t + 1)) t).

Definition tree_node_insert_child (tree parent value : Z) : K Z :=
  out ← tree_node_create value;
  tree_node_insert_child_node tree parent out;;
  mret out.

Fixpoint tree_node_find_parent (fuel : nat) (haystack needle : Z) : K Z :=
  match fuel with
  | O => spin
  | S fuel' =>
      hay ← load haystack;
      r ← each_of (tn_children hay) (λ found _ child,
        if ln_value child =? needle then mret (inr haystack)
        else
          found ← tree_node_find_parent fuel' (ln_value child) needle;
          mret (if found =? 0 then inl found else inr found)) 0;
      mret (match r with inr found => found | inl found => found end)
  end.
Definition tree_find_parent (tree node : Z) : K Z :=
  t ← load tree;
  n ← walk_fuel;
  if t_root t =? 0 then mret 0 else tree_node_find_parent n (t_root t) node.

Fixpoint tree_count_children (fuel : nat) (node : Z) : K Z :=
  match fuel with
  | O => spin
  | S fuel' =>
      if node =? 0 then mret 0
      else
        nd ← load node;
        if tn_children nd =? 0 then mret 0
        else
          l ← load (tn_children nd);
          r ← each_of (B := Z) (tn_children nd) (λ out _ child,
            k ← tree_count_children fuel' (ln_value child);
            mret (inl (u32 (out + k)))) (l_length l);
          mret (match r with inl out | inr out => out end)
  end.

Definition tree_node_parent_remove (tree parent node : Z) : K unit :=
  n ← walk_fuel;
  k ← tree_count_children n node;
  upd tree (λ t, set_nodes (u32 (t_nodes t - (k + 1))) t);;
  p ← load parent;
  item ← list_find (tn_children p) node;
  list_delete (tn_children p) item;;
  n ← walk_fuel;
  tree_node_free n node.

(** For the root the code goes on with the null parent after freeing. *)
Definition tree_node_remove (tree node : Z) : K unit :=
  nd ← load node;
  let parent := tn_parent nd in
  (if parent =? 0 then
     t ← load tree;
     if node =? t_root t then
       upd tree (set_nodes 0);;
       upd tree (set_root 0);;
       n ← walk_fuel;
       tree_node_free n node
     else mret tt
   else mret tt);;
  tree_node_parent_remove tree parent node.

Definition tree_remove (tree node : Z) : K unit :=
  nd ← load node;
  let parent := tn_parent nd in
  if parent =? 0 then mret tt
  else
    upd tree (λ t, set_nodes (u32 (t_nodes t - 1)) t);;
    p ← load parent;
    item ← list_find (tn_children p) node;
    list_delete (tn_children p) item;;
    _ ← each_of (A := unit) (B := False) (tn_children nd) (λ _ _ child, upd (ln_value child) (set_parent parent);; mret (inl tt)) tt;
    p ← load parent;
    list_merge (tn_children p) (tn_children nd);;
    kfree node.
End tree_ops.

Section tree_search.
Context {AS : Type} `{!Allocator AS} {S : Type} `{!Has (kstate AS) S}.

Fixpoint tree_node_find (fuel : nat) (comparator : Z -> Z -> M S Z) (node search : Z) : M S Z :=
  match fuel with
  | O => spin
  | Datatypes.S fuel' =>
      nd ← within (load node);
      c ← comparator (tn_value nd) search;
      if truth c then mret node
      else
        r ← each_of (A := unit) (tn_children nd) (λ _ _ child,
          found ← tree_node_find fuel' comparator (ln_value child) search;
          mret (if found =? 0 then inl tt else inr found)) tt;
        mret (match r with inr found => found | inl _ => 0 end)
  end.

Definition tree_find (tree value : Z) (comparator : Z -> Z -> M S Z) : M S Z :=
  t ← within (load tree);
  n ← within walk_fuel;
  tree_node_find n comparator (t_root t) value.
End tree_search.

(** ** Walking the list of children *)

Section each_facts.
Context {AS : Type} `{!Allocator AS} {S : Type} `{!Has (kstate AS) S}.

Lemma within_load {T} `{!IsObj T} a (x : T) (s : S) :
  a ≠ 0 -> kobj (kheap s) a = Some x -> within (load a) s = Done x s.
Proof. intros. apply within_read. by apply load_done. Qed.

(** A walk whose body keeps the list as it is: an invariant over the nodes
    visited so far. *)
Lemma each_inv {A B} (f : A -> Z -> list_node -> M S (A + B)) (I : A -> list (Z * Z) -> S -> Prop) l ns :
  (∀ a dn s, I a dn s -> list_rep (kheap s) l ns) ->
  (∀ a dn x v rest s, ns = dn ++ (x, v) :: rest -> I a dn s ->
    ∃ a' s', f a x (ListNode (first_of rest 0) (last_of 0 dn) v) s = Done (inl a') s' ∧
      I a' (dn ++ [(x, v)]) s') ->
  ∀ rest dn n a s, ns = dn ++ rest -> (length rest < n)%nat -> I a dn s ->
    ∃ a' s', each n f a (first_of rest 0) s = Done (inl a') s' ∧ I a' ns s'.
Proof.
  intros Hrep Hf rest. induction rest as [|[x v] rest IH]; intros dn n a s Hns Hn HI;
    (destruct n as [|n]; [cbn in Hn; lia|]).
  - rewrite app_nil_r in Hns. subst dn. by exists a, s.
  - pose proof (Hrep _ _ _ HI) as Hr. rewrite Hns in Hr. pose proof (list_rep_at _ _ _ _ _ _ Hr) as Hx.
    assert (Hx0 : x ≠ 0).
    { pose proof (rep_nodes _ _ _ Hr). intros ->. set_solver. }
    destruct (Hf _ _ _ _ _ _ Hns HI) as (a1 & s1 & Hrun & HI1).
    pose proof (Hrep _ _ _ HI1) as Hr1. rewrite Hns in Hr1.
    pose proof (list_rep_at _ _ _ _ _ _ Hr1) as Hx1.
    destruct (IH (dn ++ [(x, v)]) n a1 s1) as (a' & s' & Hrun' & HI'); [by rewrite <- app_assoc|cbn in Hn; lia|done|].
    exists a', s'. split; [|done]. cbn [each first_of]. rewrite (proj2 (Z.eqb_neq _ _)) by done.
    mstep (within_load _ _ _ Hx0 Hx). mstep Hrun.
    by mstep (within_load _ _ _ Hx0 Hx1).
Qed.

Lemma each_of_inv {A B} (f : A -> Z -> list_node -> M S (A + B)) (I : A -> list (Z * Z) -> S -> Prop) l ns a s :
  (∀ a dn s, I a dn s -> list_rep (kheap s) l ns) ->
  (∀ a dn x v rest s, ns = dn ++ (x, v) :: rest -> I a dn s ->
    ∃ a' s', f a x (ListNode (first_of rest 0) (last_of 0 dn) v) s = Done (inl a') s' ∧
      I a' (dn ++ [(x, v)]) s') ->
  I a [] s -> ∃ a' s', each_of l f a s = Done (inl a') s' ∧ I a' ns s'.
Proof.
  intros Hrep Hf HI. pose proof (Hrep _ _ _ HI) as Hr. pose proof Hr as [Hl0 Hl _ _ _].
  unfold each_of. mstep (within_load _ _ _ Hl0 Hl).
  mstep (within_read walk_fuel s (Datatypes.S (size (kheap s))) eq_refl). cbn [l_head].
  pose proof (list_rep_length _ _ _ Hr).
  apply (each_inv f I l ns Hrep Hf ns []); [done|lia|done].
Qed.

(** A walk that changes nothing and stops at the first hit: [outs] says what
    the body returns at each node. *)
Lemma each_of_find {A B} {a : A} (f : A -> Z -> list_node -> M S (A + B)) (outs : list (option B)) l ns s :
  list_rep (kheap s) l ns -> length outs = length ns ->
  (∀ dn x v rest o, ns = dn ++ (x, v) :: rest -> outs !! length dn = Some o ->
    f a x (ListNode (first_of rest 0) (last_of 0 dn) v) s
      = Done (match o with Some b => inr b | None => inl a end) s) ->
  each_of l f a s = Done (match omap id outs with b :: _ => inr b | [] => inl a end) s.
Proof.
  intros Hr Hlen Hf. pose proof Hr as [Hl0 Hl _ _ Hnz].
  unfold each_of. mstep (within_load _ _ _ Hl0 Hl).
  mstep (within_read walk_fuel s (Datatypes.S (size (kheap s))) eq_refl). cbn [l_head].
  pose proof (list_rep_length _ _ _ Hr) as Hsz.
  assert (∀ rest os dn n, ns = dn ++ rest -> (length rest < n)%nat -> drop (length dn) outs = os ->
    each n f a (first_of rest 0) s = Done (match omap id os with b :: _ => inr b | [] => inl a end) s) as Hgo.
  { intros rest. induction rest as [|[x v] rest IH]; intros os dn n Hns Hn Hos;
      (destruct n as [|n]; [cbn in Hn; lia|]).
    - rewrite drop_ge in Hos by (rewrite Hlen, Hns, app_nil_r; done). by subst os.
    - assert (Hlt : (length dn < length outs)%nat) by (rewrite Hlen, Hns, length_app; cbn; lia).
      destruct (lookup_lt_is_Some_2 _ _ Hlt) as [o Ho]. rewrite (drop_S _ _ _ Ho) in Hos. subst os.
      rewrite Hns in Hr. pose proof (list_rep_at _ _ _ _ _ _ Hr) as Hx.
      assert (Hx0 : x ≠ 0) by (pose proof (rep_nodes _ _ _ Hr); intros ->; set_solver).
      cbn [each first_of]. rewrite (proj2 (Z.eqb_neq _ _)) by done.
      mstep (within_load _ _ _ Hx0 Hx). mstep (Hf _ _ _ _ _ Hns Ho).
      destruct o as [b|]; [done|]. mstep (within_load _ _ _ Hx0 Hx). cbn [ln_next].
      change (omap id (None :: ?l)) with (omap id l). apply (IH _ (dn ++ [(x, v)])); [by rewrite <- app_assoc|cbn in Hn; lia|].
      rewrite length_app. cbn. by rewrite Nat.add_1_r. }
  apply (Hgo ns outs []); [done|lia|done].
Qed.
End each_facts.
