(* ===== verification/TreeSearch.v ===== *)
(** * Searching trees (kernel/lib/tree.c)

    What the queries of tree.c return on a tree of the store: a search
    finds the first node in preorder, the parent search the node it is
    given a child of, and the count the number of descendants. None of them
    changes anything, and the fuel of their recursion, the number of
    objects, is enough. *)

From S2P Require Import Prelude Dll KHeap KList Tree.

(** ** Trees of the store *)

(** A node: its address, its value, the list of its children, and the
    children with their list nodes. *)
Inductive ktree := KNode (addr value cl : Z) (kids : list (Z * ktree)).

Definition kaddr (t : ktree) : Z := let 'KNode a _ _ _ := t in a.

Section ktree_induction.
Context (P : ktree -> Prop) (Hnode : ∀ a v l ks, Forall (λ k, P k.2) ks -> P (KNode a v l ks)).
Fixpoint ktree_rose (t : ktree) : P t :=
  let 'KNode a v l ks := t in
  Hnode a v l ks
    ((fix go ks := match ks return Forall (λ k, P k.2) ks with
      | [] => Forall_nil_2 _
      | k :: ks => Forall_cons_2 _ k ks (ktree_rose k.2) (go ks)
      end) ks).
End ktree_induction.

(** The nodes in preorder, as (address, value). *)
Fixpoint preorder (t : ktree) : list (Z * Z) :=
  let 'KNode a v _ ks := t in
  (a, v) :: (fix go (ks : list (Z * ktree)) := match ks with [] => [] | k :: ks => preorder k.2 ++ go ks end) ks.
Definition preorders (ks : list (Z * ktree)) : list (Z * Z) := concat (preorder <$> ks.*2).

(** The edges in preorder, as (child, parent). *)
Fixpoint edges (t : ktree) : list (Z * Z) :=
  let 'KNode a _ _ ks := t in
  (fix go (ks : list (Z * ktree)) := match ks with [] => [] | k :: ks => (kaddr k.2, a) :: edges k.2 ++ go ks end) ks.

Lemma preorder_unfold a v l ks : preorder (KNode a v l ks) = (a, v) :: preorders ks.
Proof. cbn [preorder]. f_equal. unfold preorders. induction ks as [|[x k] ks IH]; [done|]. cbn. by rewrite IH. Qed.
Lemma preorders_cons x k ks : preorders ((x, k) :: ks) = preorder k ++ preorders ks.
Proof. done. Qed.
Lemma edges_unfold a v l ks : edges (KNode a v l ks) = concat ((λ k, (kaddr k.2, a) :: edges k.2) <$> ks).
Proof. cbn [edges]. induction ks as [|[x k] ks IH]; [done|]. cbn. by rewrite IH. Qed.

Definition kid_values (ks : list (Z * ktree)) : list (Z * Z) := (λ k, (k.1, kaddr k.2)) <$> ks.

(** The tree [t] is in the store. *)
Fixpoint tree_rep (h : gmap Z obj) (t : ktree) : Prop :=
  let 'KNode a v l ks := t in
  a ≠ 0 ∧ (∃ p, kobj h a = Some (TreeNode v l p)) ∧ list_rep h l (kid_values ks) ∧
  (fix go (ks : list (Z * ktree)) := match ks with [] => True | k :: ks => tree_rep h k.2 ∧ go ks end) ks.

Lemma tree_rep_unfold h a v l ks :
  tree_rep h (KNode a v l ks) <->
  a ≠ 0 ∧ (∃ p, kobj h a = Some (TreeNode v l p)) ∧ list_rep h l (kid_values ks) ∧ Forall (λ k, tree_rep h k.2) ks.
Proof.
  cbn [tree_rep]. split; intros (? & ? & ? & Hg); (split; [done|split; [done|split; [done|]]]).
  - clear -Hg. induction ks as [|k ks IH]; [done|]. destruct Hg. constructor; auto.
  - clear -Hg. induction Hg as [|k ks]; [done|]. by split.
Qed.

Lemma tree_rep_nodes h t : tree_rep h t -> Forall (λ x, x.1 ≠ 0 ∧ is_Some (h !! x.1)) (preorder t).
Proof.
  induction t as [a v l ks IH] using ktree_rose. rewrite tree_rep_unfold, preorder_unfold.
  intros (H0 & (p & Hp) & _ & Hks). constructor; [split; [done|exact (kobj_Some _ _ _ Hp)]|].
  clear -IH Hks. induction IH as [|[x k] ks Hk _ IHk]; [constructor|]. inversion_clear Hks.
  rewrite preorders_cons. apply Forall_app. auto.
Qed.

Lemma tree_rep_value h t a v : tree_rep h t -> (a, v) ∈ preorder t -> ∃ l p, kobj h a = Some (TreeNode v l p).
Proof.
  induction t as [b w l ks IH] using ktree_rose. rewrite tree_rep_unfold, preorder_unfold.
  intros (H0 & (p & Hp) & _ & Hks) [[= -> ->]|Hin]%elem_of_cons; [by exists l, p|].
  induction ks as [|[x k] ks IHk]; [by apply elem_of_nil in Hin|]. rewrite preorders_cons, elem_of_app in Hin.
  inversion_clear Hks. inversion_clear IH. destruct Hin; auto.
Qed.

Lemma kids_size x k ks : (x, k) ∈ ks -> (length (preorder k) <= length (preorders ks))%nat.
Proof.
  intros (ks1 & ks2 & ->)%list_elem_of_split. unfold preorders. rewrite !fmap_app, concat_app, length_app. cbn.
  rewrite length_app. lia.
Qed.

(** The objects of the store are enough fuel for a tree of distinct nodes. *)
Lemma tree_rep_size h t : tree_rep h t -> NoDup (preorder t).*1 -> (length (preorder t) <= size h)%nat.
Proof.
  intros Ht Hnd. rewrite <- (length_fmap fst (preorder t)). apply length_size_heap; [done|].
  intros a ([b v] & -> & Hx)%list_elem_of_fmap. pose proof (tree_rep_nodes h t Ht) as Hall.
  rewrite Forall_forall in Hall. by apply (Hall (b, v)).
Qed.

(** The first of some pairs that satisfies a test on the second component
    (on the first, for edges). *)
Definition hit (p : Z -> bool) (l : list (Z * Z)) : option Z := fst <$> head (List.filter (λ x, p x.2) l).
Definition parent_in (c : Z) (l : list (Z * Z)) : option Z := snd <$> head (List.filter (λ x, x.1 =? c) l).

Lemma head_filter_app {A} (p : A -> bool) l1 l2 :
  head (List.filter p (l1 ++ l2)) = match head (List.filter p l1) with Some x => Some x | None => head (List.filter p l2) end.
Proof. rewrite List.filter_app. by destruct (List.filter p l1). Qed.

Lemma head_concat {A} (p : A -> bool) (ls : list (list A)) :
  head (List.filter p (concat ls)) = head (omap (λ l, head (List.filter p l)) ls).
Proof.
  induction ls as [|l ls IH]; [done|]. cbn [concat]. rewrite head_filter_app, IH. cbn [omap list_omap].
  by destruct (head (List.filter p l)).
Qed.

(** ** The queries *)

Section search.
Context {AS : Type} `{!Allocator AS} {S : Type} `{!Has (kstate AS) S}.
Implicit Types s : S.

Lemma kid_at ks dn x v rest :
  kid_values ks = dn ++ (x, v) :: rest -> ∃ k, ks !! length dn = Some (x, k) ∧ v = kaddr k.
Proof.
  intros Hk. assert (kid_values ks !! length dn = Some (x, v)) as Hl.
  { rewrite Hk, lookup_app_r, Nat.sub_diag by lia. done. }
  unfold kid_values in Hl. rewrite list_lookup_fmap in Hl.
  destruct (ks !! length dn) as [[y k]|]; [|done]. injection Hl as <- <-. by exists k.
Qed.

Lemma hit_nonzero h p t a : tree_rep h t -> hit p (preorder t) = Some a -> a ≠ 0.
Proof.
  intros Ht. pose proof (tree_rep_nodes h t Ht) as Hall. unfold hit.
  destruct (head _) as [[b v]|] eqn:Hh; [|done]. intros [= <-].
  assert ((b, v) ∈ preorder t) as Hin.
  { assert ((b, v) ∈ List.filter (λ x, p x.2) (preorder t)) as Hf by (destruct (List.filter _ _); [done|injection Hh as ->; by left]).
    rewrite list_elem_of_In in Hf. apply List.filter_In in Hf as [Hf _]. by apply list_elem_of_In. }
  rewrite Forall_forall in Hall. by apply (Hall (b, v)).
Qed.

(** A comparator that tests the value and changes nothing. *)
Definition compares (comparator : Z -> Z -> M S Z) (search : Z) (p : Z -> bool) s (vs : list Z) : Prop :=
  ∀ v, v ∈ vs -> ∃ c, comparator v search s = Done c s ∧ truth c = p v.

Lemma compares_kid comparator search p s v a ks x k :
  (x, k) ∈ ks -> compares comparator search p s ((a, v) :: preorders ks).*2 -> compares comparator search p s (preorder k).*2.
Proof.
  intros Hin Hc w Hw. apply Hc. cbn. right. apply list_elem_of_split in Hin as (ks1 & ks2 & ->).
  unfold preorders. rewrite !fmap_app, concat_app, fmap_app. cbn. rewrite fmap_app, !elem_of_app. tauto.
Qed.

Lemma hit_cons p a v l : hit p ((a, v) :: l) = if p v then Some a else hit p l.
Proof. unfold hit. cbn [List.filter snd]. by destruct (p v). Qed.

Lemma hit_preorders p ks : hit p (preorders ks) = head (omap id ((λ k, hit p (preorder k.2)) <$> ks)).
Proof.
  unfold hit, preorders. rewrite head_concat. induction ks as [|[x k] ks IH]; [done|]. cbn.
  destruct (head (List.filter _ (preorder k))); [done|]. exact IH.
Qed.

(** A walk over the children that stops at the first result. *)
Lemma children_find {A} {a : A} l ks (g : Z * ktree -> option Z) (f : A -> Z -> list_node -> M S (A + Z)) s :
  list_rep (kheap s) l (kid_values ks) ->
  (∀ x k i, ks !! i = Some (x, k) -> ∀ nx pv,
     f a x (ListNode nx pv (kaddr k)) s = Done (match g (x, k) with Some b => inr b | None => inl a end) s) ->
  each_of l f a s = Done (match head (omap id (g <$> ks)) with Some b => inr b | None => inl a end) s.
Proof.
  intros Hl Hf.
  assert (Hlen : length (g <$> ks) = length (kid_values ks)) by (unfold kid_values; by rewrite !length_fmap).
  rewrite (each_of_find f (g <$> ks) l (kid_values ks) s Hl Hlen (λ dn x w rest o Hk Ho, ltac:(
    destruct (kid_at _ _ _ _ _ Hk) as (k & Hki & ->); rewrite list_lookup_fmap, Hki in Ho; injection Ho as <-;
    exact (Hf x k _ Hki _ _)))).
  by destruct (omap id (g <$> ks)).
Qed.

Lemma tree_node_find_spec comparator search p s t : ∀ n,
  tree_rep (kheap s) t -> compares comparator search p s (preorder t).*2 -> (length (preorder t) <= n)%nat ->
  tree_node_find n comparator (kaddr t) search s = Done (default 0 (hit p (preorder t))) s.
Proof.
  induction t as [a v l ks IH] using ktree_rose. intros n Ht Hc Hn. pose proof Ht as Ht'.
  rewrite tree_rep_unfold in Ht. destruct Ht as (Ha & (par & Hp) & Hl & Hks).
  rewrite preorder_unfold in *. destruct n as [|n]; [cbn in Hn; lia|]. cbn [length] in Hn. cbn [tree_node_find kaddr].
  mstep (within_load a _ s Ha Hp). destruct (Hc v) as (c & Hcmp & Hv); [by left|]. mstep Hcmp.
  rewrite hit_cons, <- Hv. destruct (truth c) eqn:Etc; [done|]. cbn [tn_children].
  etrans; [eapply bind_Done, (children_find l ks (λ k, hit p (preorder k.2))); [exact Hl|]|];
    [|unfold mret, M_ret; rewrite hit_preorders; by destruct (head _)].
  intros x k i Hki nx pv. cbn [ln_value].
  rewrite Forall_lookup in IH, Hks. pose proof (Hks _ _ Hki) as Hrk. cbn [snd] in Hrk.
  assert (Hin : (x, k) ∈ ks) by (by eapply list_elem_of_lookup_2).
  rewrite (bind_Done _ _ _ _ _ (IH _ _ Hki n Hrk (compares_kid _ _ _ _ _ _ _ _ _ Hin Hc) ltac:(pose proof (kids_size _ _ _ Hin); cbn [snd]; lia))).
  cbn [snd]. destruct (hit p (preorder k)) as [b|] eqn:Hh; cbn; [|done]. by rewrite (proj2 (Z.eqb_neq b 0)) by exact (hit_nonzero _ _ _ _ Hrk Hh).
Qed.

Lemma tree_find_spec comparator search p s tr nodes t :
  tr ≠ 0 -> kobj (kheap s) tr = Some (TreeT nodes (kaddr t)) -> tree_rep (kheap s) t -> NoDup (preorder t).*1 ->
  compares comparator search p s (preorder t).*2 ->
  tree_find tr search comparator s = Done (default 0 (hit p (preorder t))) s.
Proof.
  intros Htr Htree Ht Hnd Hc. pose proof (tree_rep_size _ _ Ht Hnd).
  unfold tree_find. mstep (within_load tr _ s Htr Htree).
  mstep (within_read walk_fuel s (Datatypes.S (size (kheap s))) eq_refl). cbn [t_root].
  apply tree_node_find_spec; [done|done|lia].
Qed.

(** The search for a parent visits the edges. *)
Lemma parent_edges c a v l ks :
  parent_in c (edges (KNode a v l ks)) =
  head (omap id ((λ k, if kaddr k.2 =? c then Some a else parent_in c (edges k.2)) <$> ks)).
Proof.
  unfold parent_in. rewrite edges_unfold, head_concat. induction ks as [|[x k] ks IH]; [done|]. cbn.
  destruct (kaddr k =? c); [done|]. cbn. destruct (head (List.filter _ (edges k))); [done|]. exact IH.
Qed.

Lemma parent_nonzero h c t p : tree_rep h t -> parent_in c (edges t) = Some p -> p ≠ 0.
Proof.
  induction t as [a v l ks IH] using ktree_rose. rewrite tree_rep_unfold, parent_edges. intros (Ha & _ & _ & Hks) Hp.
  induction ks as [|[x k] ks IHk]; [done|]. cbn in Hp. inversion_clear Hks as [|? ? Hk Hks']. inversion_clear IH as [|? ? Hi IH'].
  destruct (kaddr k =? c); [by injection Hp as <-|]. cbn in Hp.
  destruct (parent_in c (edges k)) eqn:E; [injection Hp as <-; by apply Hi|]. by apply IHk.
Qed.
End search.

Section store.
Context {AS : Type} `{!Allocator AS}.
Implicit Types s : kstate AS.

Lemma store_load {T} `{!IsObj T} a (x : T) s : a ≠ 0 -> kobj (heap s) a = Some x -> load a s = Done x s.
Proof. apply load_done. Qed.

Lemma tree_node_find_parent_spec c s t : ∀ n,
  tree_rep (heap s) t -> (length (preorder t) <= n)%nat ->
  tree_node_find_parent n (kaddr t) c s = Done (default 0 (parent_in c (edges t))) s.
Proof.
  induction t as [a v l ks IH] using ktree_rose. intros n Ht Hn.
  rewrite tree_rep_unfold in Ht. destruct Ht as (Ha & (par & Hp) & Hl & Hks).
  rewrite preorder_unfold in Hn. destruct n as [|n]; [cbn in Hn; lia|]. cbn [length] in Hn. cbn [tree_node_find_parent kaddr].
  mstep (store_load a _ s Ha Hp). cbn [tn_children].
  etrans; [eapply bind_Done, (children_find l ks
    (λ k, if kaddr k.2 =? c then Some a else parent_in c (edges k.2))); [exact Hl|]|];
    [|unfold mret, M_ret; rewrite parent_edges; by destruct (head _)].
  intros x k i Hki nx pv. cbn [ln_value snd]. destruct (kaddr k =? c); [done|].
  rewrite Forall_lookup in IH, Hks. pose proof (Hks _ _ Hki) as Hrk. cbn [snd] in Hrk.
  assert (Hin : (x, k) ∈ ks) by (by eapply list_elem_of_lookup_2).
  rewrite (bind_Done _ _ _ _ _ (IH _ _ Hki n Hrk ltac:(pose proof (kids_size _ _ _ Hin); cbn [snd]; lia))).
  cbn [snd]. destruct (parent_in c (edges k)) as [b|] eqn:Hh; cbn; [|done].
  by rewrite (proj2 (Z.eqb_neq b 0)) by exact (parent_nonzero _ _ _ _ Hrk Hh).
Qed.

(** A walk over the children that collects a number. *)
Lemma children_sum {B} l ks (g : ktree -> Z) (f : Z -> Z -> list_node -> M (kstate AS) (Z + B)) s a :
  list_rep (heap s) l (kid_values ks) ->
  (∀ x k i, ks !! i = Some (x, k) -> ∀ a nx pv, f a x (ListNode nx pv (kaddr k)) s = Done (inl (u32 (a + g k))) s) ->
  each_of l f (u32 a) s = Done (inl (u32 (a + foldr Z.add 0 (g <$> ks.*2)))) s.
Proof.
  intros Hl Hf.
  set (sum := λ dn : list (Z * Z), u32 (a + foldr Z.add 0 (g <$> (take (length dn) ks).*2))).
  destruct (each_of_inv f (λ b dn s', s' = s ∧ b = sum dn) l (kid_values ks) (u32 a) s) as (b & s' & E & -> & ->).
  - by intros b dn s' [-> _].
  - intros b dn x v rest s' Hk [-> ->]. destruct (kid_at _ _ _ _ _ Hk) as (k & Hki & ->).
    eexists _, s. split; [apply (Hf x k _ Hki)|]. split; [done|]. unfold sum.
    rewrite u32_add_l, length_app, Nat.add_1_r, (take_S_r _ _ _ Hki), !fmap_app, foldr_app. cbn.
    f_equal. clear. induction ((g <$> _)) as [|y ys IH]; cbn; lia.
  - split; [done|]. unfold sum. cbn. by rewrite Z.add_0_r.
  - rewrite E. unfold sum, kid_values. rewrite length_fmap, take_ge by lia. done.
Qed.

Definition descendants (t : ktree) : Z := Z.of_nat (length (preorder t)) - 1.

Lemma preorders_sum ks :
  Z.of_nat (length (preorders ks)) = Z.of_nat (length ks) + foldr Z.add 0 (descendants <$> ks.*2).
Proof.
  induction ks as [|[x k] ks IH]; [done|]. rewrite preorders_cons, length_app. cbn. unfold descendants at 1. lia.
Qed.

Lemma tree_count_spec s t : ∀ n,
  tree_rep (heap s) t -> (length (preorder t) <= n)%nat ->
  tree_count_children n (kaddr t) s = Done (u32 (descendants t)) s.
Proof.
  induction t as [a v l ks IH] using ktree_rose. intros n Ht Hn.
  rewrite tree_rep_unfold in Ht. destruct Ht as (Ha & (par & Hp) & Hl & Hks).
  unfold descendants. rewrite preorder_unfold in *. destruct n as [|n]; [cbn in Hn; lia|]. cbn [length] in Hn. cbn [tree_count_children kaddr].
  rewrite (proj2 (Z.eqb_neq a 0)) by done. mstep (store_load a _ s Ha Hp). cbn [tn_children].
  pose proof Hl as [Hl0 Hlo _ _ _]. rewrite (proj2 (Z.eqb_neq l 0)) by done.
  mstep (store_load l _ s Hl0 Hlo). cbn [l_length].
  etrans; [eapply bind_Done, (children_sum l ks descendants); [exact Hl|]|].
  - intros x k i Hki b nx pv. cbn [ln_value]. rewrite Forall_lookup in IH, Hks.
    assert (Hin : (x, k) ∈ ks) by (by eapply list_elem_of_lookup_2).
    rewrite (bind_Done _ _ _ _ _ (IH _ _ Hki n (Hks _ _ Hki) ltac:(pose proof (kids_size _ _ _ Hin); cbn [snd]; lia))).
    unfold mret, M_ret. cbn [snd]. by rewrite u32_add_r.
  - unfold mret, M_ret. cbn [length]. rewrite Nat2Z.inj_succ, preorders_sum. unfold kid_values. rewrite length_fmap. do 2 f_equal. lia.
Qed.

(** C15: the queries on a tree of distinct nodes. [tree_find] returns the
    first node in preorder whose value the comparator accepts and null if it
    accepts none; [tree_find_parent] returns the parent of the node it is
    given, null for the root and for a node elsewhere;
    [tree_count_children] counts the descendants. The store is unchanged. *)
Theorem tree_queries s tr nodes t cmp search p c
    (Htr : tr ≠ 0) (Htree : kobj (heap s) tr = Some (TreeT nodes (kaddr t)))
    (Ht : tree_rep (heap s) t) (Hnd : NoDup (preorder t).*1)
    (Hcmp : compares (S := kstate AS) cmp search p s (preorder t).*2) :
  tree_find tr search cmp s = Done (default 0 (hit p (preorder t))) s ∧
  tree_find_parent tr c s = Done (default 0 (parent_in c (edges t))) s ∧
  tree_count_children (S (size (heap s))) (kaddr t) s = Done (u32 (Z.of_nat (length (preorder t)) - 1)) s.
Proof.
  pose proof (tree_rep_size _ _ Ht Hnd) as Hsz.
  split; [|split; [|apply tree_count_spec; [done|lia]]].
  - exact (tree_find_spec (S := kstate AS) cmp search p s tr nodes t Htr Htree Ht Hnd Hcmp).
  - unfold tree_find_parent. mstep (store_load tr _ s Htr Htree).
    rewrite (bind_Done _ _ _ _ _ (eq_refl : walk_fuel s = Done (S (size (heap s))) s)). cbn [t_root].
    pose proof (tree_rep_nodes _ _ Ht) as Hall. destruct t as [a v l ks]. cbn [kaddr].
    rewrite preorder_unfold in Hall. inversion_clear Hall as [|? ? [Ha _] _]. cbn in Ha. rewrite (proj2 (Z.eqb_neq a 0)) by done.
    apply (tree_node_find_parent_spec c s (KNode a v l ks)); [done|lia].
Qed.
End store.

(** ** An example *)

Section tree_examples.
#[local] Existing Instance Bump.allocator.

(** A root with value 7 and a child with value 9 *)
Definition small_tree : ktree := KNode 0x2000 7 0x3000 [(0x4000, KNode 0x5000 9 0x6000 [])].
Definition tree_store : kstate Bump.bump := KState
  (list_to_map [(0x1000, OTree (TreeT 2 0x2000)); (0x2000, OTreeNode (TreeNode 7 0x3000 0));
    (0x3000, OList (ListT 0x4000 0x4000 1)); (0x4000, ONode (ListNode 0 0 0x5000));
    (0x5000, OTreeNode (TreeNode 9 0x6000 0x2000)); (0x6000, OList (ListT 0 0 0))])
  (Bump.BumpState 0x7000 ∅) [].
Definition same_value (v search : Z) : M (kstate Bump.bump) Z := mret (if v =? search then 1 else 0).

Lemma small_tree_rep : tree_rep (heap tree_store) small_tree.
Proof.
  split; [done|]. split; [by exists 0|]. split.
  - split; [done|reflexivity| |by apply (bool_decide_unpack _); vm_compute|by apply (bool_decide_unpack _); vm_compute].
    repeat split; cbn; eexists; repeat split; reflexivity.
  - split; [|done]. split; [done|]. split; [by exists 0x2000|]. split; [|done].
    split; [done|reflexivity|done|constructor|by intros ?%elem_of_nil].
Qed.

Lemma tree_queries_witness :
  tree_find 0x1000 9 same_value tree_store = Done 0x5000 tree_store ∧
  tree_find_parent 0x1000 0x5000 tree_store = Done 0x2000 tree_store ∧
  tree_count_children 7 0x2000 tree_store = Done 1 tree_store.
Proof.
  destruct (tree_queries tree_store 0x1000 2 small_tree same_value 9 (λ v, v =? 9) 0x5000) as (H1 & H2 & H3).
  - done.
  - reflexivity.
  - apply small_tree_rep.
  - by apply (bool_decide_unpack _); vm_compute.
  - intros v _. eexists. split; [reflexivity|]. by destruct (v =? 9).
  - split; [exact H1|]. split; [exact H2|exact H3].
Defined.
End tree_examples.
