(* ===== verification/CString.v ===== *)
(** * Memory and string routines (kernel/lib/string.c)

    The routines on byte-addressed memory, and what each does to it: block
    copies under the overlaps they allow, comparison, and the splitting of a
    string into tokens by repeated calls of [strtok_r]. *)

From S2P Require Import Prelude.

(** ** Byte-addressed memory

    The interface the routines are verified against: a read or a write of an
    unmapped address fails, a write changes the byte it names only. *)
Class ByteMem (B : Type) := {
  rd : B -> Z -> option Z;
  wr : B -> Z -> Z -> option B;
  wr_mapped m a v : is_Some (rd m a) -> is_Some (wr m a v);
  wr_rd_eq m a v m' : wr m a v = Some m' -> rd m' a = Some v;
  wr_rd_ne m a v m' b : wr m a v = Some m' -> a ≠ b -> rd m' b = rd m b
}.

(** Some addresses mapped, the others not. *)
#[export] Program Instance sparse_mem : ByteMem (gmap Z Z) := {
  rd m a := m !! a;
  wr m a v := match m !! a with Some _ => Some (<[a := v]> m) | None => None end
}.
Next Obligation. intros m a v [x Hx]. cbn. rewrite Hx. by eexists. Qed.
Next Obligation.
  intros m a v m'. cbn. destruct (m !! a); [|done]. intros [= <-]. apply lookup_insert_eq.
Qed.
Next Obligation.
  intros m a v m' b. cbn. destruct (m !! a); [|done]. intros [= <-] ?. by apply lookup_insert_ne.
Qed.

(** Every address mapped: physical memory; a byte never written reads 0. *)
Record ram := Ram { ram_bytes : gmap Z Z }.
#[export] Program Instance ram_mem : ByteMem ram := {
  rd m a := Some (default 0 (ram_bytes m !! a));
  wr m a v := Some (Ram (<[a := v]> (ram_bytes m)))
}.
Next Obligation. done. Qed.
Next Obligation. intros m a v m' [= <-]. cbn. by rewrite lookup_insert_eq. Qed.
Next Obligation. intros m a v m' b [= <-] ?. cbn. by rewrite lookup_insert_ne. Qed.

Section routines.
Context {B : Type} `{!ByteMem B}.
Local Abbreviation MB := (M B).

Definition load8 (a : Z) : MB Z :=
  m ← get; of_option (WildPointer a) (rd m (u32 a)).
Definition store8 (a v : Z) : MB unit :=
  m ← get; m' ← of_option (WildPointer a) (wr m (u32 a) (u8 v)); put m'.

(** little-endian words *)
Definition load32 (a : Z) : MB Z :=
  b0 ← load8 a; b1 ← load8 (a + 1); b2 ← load8 (a + 2); b3 ← load8 (a + 3);
  mret (b0 + 2 ^ 8 * b1 + 2 ^ 16 * b2 + 2 ^ 24 * b3).
Definition byte_of (k v : Z) : Z := u8 (Z.shiftr v (8 * k)).
Definition store32 (a v : Z) : MB unit :=
  store8 a (byte_of 0 v);; store8 (a + 1) (byte_of 1 v);;
  store8 (a + 2) (byte_of 2 v);; store8 (a + 3) (byte_of 3 v).

Definition strcmp (s1 s2 : Z) : MB Z :=
  p ← while word_fuel (λ '(s1, s2),
    c1 ← load8 s1; c2 ← load8 s2;
    mret (if (c1 =? c2) && negb (c1 =? 0) then inl (s1 + 1, s2 + 1) else inr (s1, s2)))
    (s1, s2);
  c1 ← load8 (fst p); c2 ← load8 (snd p);
  mret (if c1 =? c2 then 0 else s8 c1 - s8 c2).

Definition memcpy (dest src n : Z) : MB Z :=
  let num_dwords := n / 4 in
  let num_bytes := n mod 4 in
  let dest8 := dest + num_dwords * 4 in
  let src8 := src + num_dwords * 4 in
  for_up (Z.to_nat num_dwords) 0 (λ i, v ← load32 (src + 4 * i); store32 (dest + 4 * i) v);;
  for_up (Z.to_nat num_bytes) 0 (λ i, v ← load8 (src8 + i); store8 (dest8 + i) v);;
  mret dest.

Definition memset_word (val : Z) : Z :=
  u32 (Z.lor (Z.lor (Z.lor val (Z.shiftl val 8)) (Z.shiftl val 16)) (Z.shiftl val 24)).
Definition memset (dest val n : Z) : MB Z :=
  let num_dwords := n / 4 in
  let num_bytes := n mod 4 in
  let dest8 := dest + num_dwords * 4 in
  let val8 := u8 val in
  let val32 := memset_word val in
  for_up (Z.to_nat num_dwords) 0 (λ i, store32 (dest + 4 * i) val32);;
  for_up (Z.to_nat num_bytes) 0 (λ i, store8 (dest8 + i) val8);;
  mret dest.

Definition memmove (dest src n : Z) : MB unit :=
  if src <? dest then
    for_down (Z.to_nat n) (λ i, v ← load8 (src + (i - 1)); store8 (dest + (i - 1)) v)
  else
    for_up (Z.to_nat n) 0 (λ i, v ← load8 (src + i); store8 (dest + i) v).

Definition strlen (str : Z) : MB Z :=
  while word_fuel (λ '(wrk, retval),
    c ← load8 wrk; mret (if c =? 0 then inr retval else inl (wrk + 1, s32 (retval + 1))))
    (str, 0).

Definition strcpy (dest src : Z) : MB Z :=
  len ← strlen src;
  _ ← memcpy dest src (u32 (len + 1));
  mret dest.

(** the inner loop of [strspn] and [strpbrk]: the first character of
    [accept] equal to [*str], or the terminator *)
Definition scan_accept (str accept : Z) : MB Z :=
  while word_fuel (λ acc,
    c ← load8 acc;
    if c =? 0 then mret (inr acc)
    else s ← load8 str; mret (if s =? c then inr acc else inl (acc + 1))) accept.

Definition strspn (str accept : Z) : MB Z :=
  e ← while word_fuel (λ p,
    c ← load8 p;
    if c =? 0 then mret (inr p)
    else
      acc ← scan_accept p accept;
      a ← load8 acc;
      mret (if a =? 0 then inr p else inl (p + 1))) str;
  mret (u32 (e - str)).

Definition strpbrk (str accept : Z) : MB Z :=
  c ← load8 str;
  if c =? 0 then mret 0
  else
    r ← while word_fuel (λ '(p, acc),
      c ← load8 p;
      if c =? 0 then mret (inr (p, acc))
      else
        acc ← scan_accept p accept;
        a ← load8 acc;
        mret (if a =? 0 then inl (p + 1, acc) else inr (p, acc))) (str, accept);
    a ← load8 (snd r);
    mret (if a =? 0 then 0 else u32 (fst r)).

Definition lfind (str accept : Z) : MB Z :=
  i ← while word_fuel (λ i,
    c ← load8 (str + i); mret (if c =? accept then inr i else inl (i + 1))) 0;
  mret (u32 (str + i)).

(** [*saveptr], the caller's local variable, is passed and returned. *)
Definition strtok_r (str delim saveptr : Z) : MB (Z * Z) :=
  let str := if str =? 0 then saveptr else str in
  k ← strspn str delim;
  let str := u32 (str + k) in
  c ← load8 str;
  if c =? 0 then mret (0, str)
  else
    let token := str in
    str ← strpbrk token delim;
    if str =? 0 then
      e ← lfind token 0; mret (token, e)
    else
      store8 str 0;; mret (token, u32 (str + 1)).

(** The loop of a client: [strtok_r(str, ...)], then
    [strtok_r(NULL, ...)] until it returns null. *)
Fixpoint strtok_all (fuel : nat) (str delim saveptr : Z) : MB (list Z) :=
  match fuel with
  | O => spin
  | S fuel' =>
      r ← strtok_r str delim saveptr;
      if fst r =? 0 then mret []
      else ts ← strtok_all fuel' 0 delim (snd r); mret (fst r :: ts)
  end.
End routines.

(** ** Block operations *)

Section blocks.
Context {B : Type} `{!ByteMem B}.
Implicit Types m : B.

(** Every address of the block is mapped, and it does not wrap around. *)
Definition mapped m (a n : Z) : Prop :=
  0 <= a ∧ a + n <= 2 ^ 32 ∧ ∀ i, 0 <= i < n -> is_Some (rd m (a + i)).

(** [m'] is [m] with the block [dest .. dest + n - 1] replaced. *)
Definition filled (dest n : Z) (f : Z -> option Z) m m' : Prop :=
  ∀ b, rd m' b = if decide (dest <= b < dest + n) then f (b - dest) else rd m b.

Lemma load8_ok m a v : 0 <= a < 2 ^ 32 -> rd m a = Some v -> load8 a m = Done v m.
Proof. intros. unfold load8. mrun. rewrite u32_small by lia. by rewrite H0. Qed.

Lemma store8_ok m a v :
  0 <= a < 2 ^ 32 -> is_Some (rd m a) ->
  ∃ m', store8 a v m = Done tt m' ∧
    ∀ b, rd m' b = if b =? a then Some (u8 v) else rd m b.
Proof.
  intros Ha Hm. unfold store8. mrun. rewrite u32_small by lia.
  destruct (wr_mapped m a (u8 v) Hm) as [m' Hm']. rewrite Hm'. exists m'.
  split; [done|]. intros b. destruct (Z.eqb_spec b a) as [->|Hne].
  - by eapply wr_rd_eq.
  - by eapply wr_rd_ne.
Qed.

Lemma byte_of_word b0 b1 b2 b3 k :
  0 <= b0 < 256 -> 0 <= b1 < 256 -> 0 <= b2 < 256 -> 0 <= b3 < 256 -> 0 <= k < 4 ->
  byte_of k (b0 + 2 ^ 8 * b1 + 2 ^ 16 * b2 + 2 ^ 24 * b3)
  = if k =? 0 then b0 else if k =? 1 then b1 else if k =? 2 then b2 else b3.
Proof.
  intros. unfold byte_of, u8. rewrite Z.shiftr_div_pow2 by lia.
  assert (k = 0 ∨ k = 1 ∨ k = 2 ∨ k = 3) as [->|[->|[->| ->]]] by lia; cbn -[Z.div Z.modulo Z.add Z.mul];
    change (2 ^ 8) with 256; change (2 ^ 16) with 65536; change (2 ^ 24) with 16777216;
    change (2 ^ (8 * 0)) with 1; change (2 ^ (8 * 1)) with 256; change (2 ^ (8 * 2)) with 65536;
    change (2 ^ (8 * 3)) with 16777216; zdm.
Qed.

Lemma store32_ok m a v :
  mapped m a 4 ->
  ∃ m', store32 a v m = Done tt m' ∧ filled a 4 (λ k, Some (byte_of k v)) m m'.
Proof.
  intros (Ha & Hend & Hm).
  assert (∀ k, 0 <= k < 4 -> is_Some (rd m (a + k))) as Hk by (intros; by apply Hm).
  pose proof (Hk 0 ltac:(lia)) as Hk0. rewrite Z.add_0_r in Hk0.
  unfold store32.
  destruct (store8_ok m a (byte_of 0 v)) as (m1 & E1 & H1); [lia|done|]. mstep E1.
  destruct (store8_ok m1 (a + 1) (byte_of 1 v)) as (m2 & E2 & H2); [lia| |mstep E2].
  { rewrite H1. case_match; [done|by apply Hk]. }
  destruct (store8_ok m2 (a + 2) (byte_of 2 v)) as (m3 & E3 & H3); [lia| |mstep E3].
  { rewrite H2, H1. repeat case_match; [done..|by apply Hk]. }
  destruct (store8_ok m3 (a + 3) (byte_of 3 v)) as (m4 & E4 & H4); [lia| |].
  { rewrite H3, H2, H1. repeat case_match; [done..|by apply Hk]. }
  exists m4. split; [done|]. intros b. rewrite H4, H3, H2, H1.
  assert (∀ k, u8 (byte_of k v) = byte_of k v) as Hb by (intros; apply u8_idemp).
  rewrite !Hb.
  destruct (Z.eqb_spec b (a + 3)) as [->|]; [rewrite decide_True by lia; do 2 f_equal; lia|].
  destruct (Z.eqb_spec b (a + 2)) as [->|]; [rewrite decide_True by lia; do 2 f_equal; lia|].
  destruct (Z.eqb_spec b (a + 1)) as [->|]; [rewrite decide_True by lia; do 2 f_equal; lia|].
  destruct (Z.eqb_spec b a) as [->|]; [rewrite decide_True by lia; do 2 f_equal; lia|].
  by rewrite decide_False by lia.
Qed.

Lemma filled_mapped dest n f m m' a k :
  (∀ i, 0 <= i < n -> is_Some (f i)) -> filled dest n f m m' -> mapped m a k -> mapped m' a k.
Proof.
  intros Hf Hfill (? & ? & Hm). split_and!; [done..|]. intros i Hi. rewrite Hfill.
  case_decide; [apply Hf; lia|by apply Hm].
Qed.

(** Two adjacent pieces make a block. *)
Lemma filled_app dest n1 n2 f m m1 m2 :
  0 <= n1 -> 0 <= n2 -> filled dest n1 f m m1 ->
  filled (dest + n1) n2 (λ i, f (n1 + i)) m1 m2 -> filled dest (n1 + n2) f m m2.
Proof.
  intros ? ? H1 H2 b. rewrite H2, H1.
  destruct (decide (dest + n1 <= b < dest + n1 + n2)).
  - rewrite decide_True by lia. f_equal. lia.
  - case_decide; [by rewrite decide_True by lia|by rewrite decide_False by lia].
Qed.

Lemma filled_nil dest f m : filled dest 0 f m m.
Proof. intros b. by rewrite decide_False by lia. Qed.

(** A loop that fills [step] bytes per iteration. *)
Lemma for_up_fill (g : Z -> M B unit) dest (step : Z) n f m :
  0 < step ->
  (∀ i m1, 0 <= i < Z.of_nat n -> filled dest (step * i) f m m1 ->
     ∃ m2, g i m1 = Done tt m2 ∧
       filled (dest + step * i) step (λ k, f (step * i + k)) m1 m2) ->
  ∃ m', for_up n 0 g m = Done tt m' ∧ filled dest (step * Z.of_nat n) f m m'.
Proof.
  intros Hstep Hg.
  destruct (for_up_inv (λ i m1, 0 <= i ∧ filled dest (step * i) f m m1) n 0 g m)
    as (m' & Hrun & _ & Hfill).
  - intros i m1 Hi [_ Hm1]. destruct (Hg i m1 ltac:(lia) Hm1) as (m2 & Hrun & Hfill).
    exists m2. split; [done|]. split; [lia|].
    replace (step * (i + 1)) with (step * i + step) by lia.
    apply filled_app with m1; [nia|lia|done..].
  - rewrite Z.mul_0_r. split; [lia|apply filled_nil].
  - exists m'. by rewrite Z.add_0_l in Hfill.
Qed.

(** The block is mapped and holds bytes. *)
Definition readable m (a n : Z) : Prop :=
  0 <= a ∧ a + n <= 2 ^ 32 ∧ ∀ i, 0 <= i < n -> ∃ x, rd m (a + i) = Some x ∧ 0 <= x < 256.

Lemma copy_byte m src dest :
  readable m src 1 -> mapped m dest 1 ->
  ∃ m', (v ← load8 src; store8 dest v) m = Done tt m' ∧
    filled dest 1 (λ k, rd m (src + k)) m m'.
Proof.
  intros (? & ? & Hs) (? & ? & Hd).
  destruct (Hs 0) as (x & Hx & Hxr); [lia|]. rewrite Z.add_0_r in Hx.
  pose proof (Hd 0 ltac:(lia)) as Hd0. rewrite Z.add_0_r in Hd0.
  mstep (load8_ok m src x ltac:(lia) Hx).
  destruct (store8_ok m dest x) as (m' & E & H'); [lia|done|].
  exists m'. split; [done|]. intros b. rewrite H', u8_small by lia.
  destruct (Z.eqb_spec b dest) as [->|].
  - rewrite decide_True by lia. rewrite <- Hx. f_equal. lia.
  - by rewrite decide_False by lia.
Qed.

Lemma copy_word m src dest :
  readable m src 4 -> mapped m dest 4 ->
  ∃ m', (v ← load32 src; store32 dest v) m = Done tt m' ∧
    filled dest 4 (λ k, rd m (src + k)) m m'.
Proof.
  intros (? & ? & Hs) Hd.
  destruct (Hs 0) as (b0 & Hb0 & ?); [lia|]. rewrite Z.add_0_r in Hb0.
  destruct (Hs 1) as (b1 & Hb1 & ?); [lia|]. destruct (Hs 2) as (b2 & Hb2 & ?); [lia|].
  destruct (Hs 3) as (b3 & Hb3 & ?); [lia|].
  unfold load32. rewrite bind_assoc. mstep (load8_ok m src b0 ltac:(lia) Hb0).
  rewrite bind_assoc. mstep (load8_ok m (src + 1) b1 ltac:(lia) Hb1).
  rewrite bind_assoc. mstep (load8_ok m (src + 2) b2 ltac:(lia) Hb2).
  rewrite bind_assoc. mstep (load8_ok m (src + 3) b3 ltac:(lia) Hb3).
  rewrite bind_ret.
  destruct (store32_ok m dest (b0 + 2 ^ 8 * b1 + 2 ^ 16 * b2 + 2 ^ 24 * b3) Hd) as (m' & E & H').
  exists m'. split; [done|]. intros b. rewrite H'. case_decide as Hb; [|done].
  rewrite byte_of_word by lia.
  assert (b = dest ∨ b = dest + 1 ∨ b = dest + 2 ∨ b = dest + 3) as [->|[->|[->| ->]]] by lia.
  all: rewrite ?Z.sub_diag, ?Z.add_simpl_l, ?Z.add_0_r; cbn; congruence.
Qed.

Lemma mapped_sub m a n off k :
  0 <= off -> off + k <= n -> mapped m a n -> mapped m (a + off) k.
Proof.
  intros ? ? (? & ? & Hm). split_and!; [lia..|]. intros i Hi.
  rewrite <- Z.add_assoc. apply Hm. lia.
Qed.

(** Reading [m1] where it still agrees with [m]. *)
Lemma readable_sub m m1 a n off k :
  0 <= off -> off + k <= n -> (∀ i, off <= i < off + k -> rd m1 (a + i) = rd m (a + i)) ->
  readable m a n -> readable m1 (a + off) k.
Proof.
  intros ? ? Heq (? & ? & Hm). split_and!; [lia..|]. intros i Hi.
  rewrite <- Z.add_assoc, Heq by lia. apply Hm. lia.
Qed.

Lemma filled_ext dest n f g m m' :
  (∀ i, 0 <= i < n -> f i = g i) -> filled dest n f m m' -> filled dest n g m m'.
Proof. intros Hfg Hf b. rewrite Hf. case_decide; [apply Hfg; lia|done]. Qed.

Lemma memcpy_spec m dest src n :
  0 <= n -> readable m src n -> mapped m dest n -> dest <= src ∨ src + n <= dest ->
  ∃ m', memcpy dest src n m = Done dest m' ∧ filled dest n (λ i, rd m (src + i)) m m'.
Proof.
  intros Hn Hs Hd Hov. pose proof Hs as (? & ? & Hbytes). unfold memcpy.
  assert (Hdiv : n = 4 * (n / 4) + n mod 4) by (apply Z.div_mod; lia).
  pose proof (Z.mod_pos_bound n 4 ltac:(lia)). pose proof (Z.div_pos n 4 ltac:(lia) ltac:(lia)).
  set (q := n / 4) in *. set (r := n mod 4) in *.
  (** the source is intact where it is still to be read *)
  assert (Hsrc : ∀ k m1, 0 <= k <= n -> filled dest k (λ i, rd m (src + i)) m m1 ->
    ∀ i, k <= i < n -> rd m1 (src + i) = rd m (src + i)).
  { intros k m1 Hk Hm1 i Hi. rewrite Hm1. by rewrite decide_False by lia. }
  assert (Hmap : ∀ k m1, 0 <= k <= n -> filled dest k (λ i, rd m (src + i)) m m1 ->
    mapped m1 dest n).
  { intros k m1 Hk Hm1. eapply filled_mapped; [|exact Hm1|done]. intros i Hi.
    destruct (Hbytes i) as (x & Hx & _); [lia|]. by eexists. }
  destruct (for_up_fill (λ i, v ← load32 (src + 4 * i); store32 (dest + 4 * i) v)
    dest 4 (Z.to_nat q) (λ i, rd m (src + i)) m) as (m1 & E1 & G1); [lia| |].
  { intros i m1 Hi Hm1. rewrite Z2Nat.id in Hi by lia.
    destruct (copy_word m1 (src + 4 * i) (dest + 4 * i)) as (m2 & E2 & G2).
    - apply (readable_sub m m1 src n); [lia..| |done]. intros; eapply Hsrc; [|done|]; lia.
    - apply (mapped_sub m1 dest n); [lia..|]. eapply Hmap; [|done]; lia.
    - exists m2. split; [done|]. eapply filled_ext; [|exact G2]. intros k Hk. cbn.
      rewrite <- Z.add_assoc. eapply Hsrc; [|done|]; lia. }
  rewrite Z2Nat.id in G1 by lia. mstep E1.
  destruct (for_up_fill (λ i, v ← load8 (src + q * 4 + i); store8 (dest + q * 4 + i) v)
    (dest + 4 * q) 1 (Z.to_nat r) (λ i, rd m (src + (4 * q + i))) m1) as (m2 & E2 & G2); [lia| |].
  { intros i m2 Hi Hm2. rewrite Z2Nat.id in Hi by lia. rewrite Z.mul_1_l in *.
    assert (Hm2' : filled dest (4 * q + i) (λ i, rd m (src + i)) m m2).
    { by eapply filled_app; [lia|lia|exact G1|]. }
    replace (src + q * 4 + i) with (src + (4 * q + i)) by lia.
    replace (dest + q * 4 + i) with (dest + (4 * q + i)) by lia.
    destruct (copy_byte m2 (src + (4 * q + i)) (dest + (4 * q + i))) as (m3 & E3 & G3).
    - apply (readable_sub m m2 src n); [lia..| |done]. intros; eapply Hsrc; [|done|]; lia.
    - apply (mapped_sub m2 dest n); [lia..|]. eapply Hmap; [|done]; lia.
    - exists m3. split; [done|]. rewrite Z.add_assoc in G3.

      eapply filled_ext; [|exact G3]. intros k Hk. cbn.
      rewrite <- (Z.add_assoc src), <- (Z.add_assoc (4 * q)). eapply Hsrc; [|done|]; lia. }
  mstep E2. exists m2. split; [done|]. rewrite Z2Nat.id, Z.mul_1_l in G2 by lia.
  rewrite Hdiv. eapply filled_app; [lia|lia|exact G1|exact G2].
Qed.

Lemma filled_app_down dest n1 n2 f m m1 m2 :
  0 <= n1 -> 0 <= n2 -> filled (dest + n1) n2 (λ i, f (n1 + i)) m m1 ->
  filled dest n1 f m1 m2 -> filled dest (n1 + n2) f m m2.
Proof.
  intros ? ? H1 H2 b. rewrite H2, H1. repeat case_decide; try lia; try done. f_equal. lia.
Qed.

Lemma memmove_spec m dest src n :
  0 <= n -> readable m src n -> mapped m dest n ->
  ∃ m', memmove dest src n m = Done tt m' ∧ filled dest n (λ i, rd m (src + i)) m m'.
Proof.
  intros Hn Hs Hd. pose proof Hs as (? & ? & Hbytes). unfold memmove.
  assert (Hmap : ∀ a k m1, dest <= a -> a + k <= dest + n ->
    filled a k (λ i, rd m (src + (a - dest + i))) m m1 -> mapped m1 dest n).
  { intros a k m1 ? ? Hm1. eapply filled_mapped; [|exact Hm1|done]. intros i Hi. cbn.
    destruct (Hbytes (a - dest + i)) as (x & Hx & _); [lia|]. by eexists. }
  destruct (Z.ltb_spec src dest).
  - destruct (for_down_inv (λ i m1, filled (dest + i) (n - i) (λ k, rd m (src + (i + k))) m m1)
      (Z.to_nat n) (λ i, v ← load8 (src + (i - 1)); store8 (dest + (i - 1)) v) m)
      as (m' & E & F).
    + intros i m1 Hi F1. rewrite Z2Nat.id in Hi by lia.
      destruct (copy_byte m1 (src + (i - 1)) (dest + (i - 1))) as (m2 & E2 & F2).
      * apply (readable_sub m m1 src n); [lia..| |done]. intros k Hk. rewrite F1.
        by rewrite decide_False by lia.
      * apply (mapped_sub m1 dest n); [lia..|]. apply (Hmap (dest + i) (n - i)); [lia..|].
        eapply filled_ext; [|exact F1]. intros k Hk. cbn. do 2 f_equal. lia.
      * exists m2. split; [done|]. replace (n - (i - 1)) with (1 + (n - i)) by lia.
        eapply filled_app_down; [lia..| |].
        -- replace (dest + (i - 1) + 1) with (dest + i) by lia. eapply filled_ext; [|exact F1].
           intros k Hk. cbn. do 2 f_equal. lia.
        -- eapply filled_ext; [|exact F2]. intros k Hk. cbn. rewrite F1.
           rewrite decide_False by lia. f_equal. lia.
    + rewrite Z2Nat.id, Z.sub_diag by lia. apply filled_nil.
    + exists m'. split; [done|]. by rewrite Z.add_0_r, Z.sub_0_r in F.
  - destruct (for_up_fill (λ i, v ← load8 (src + i); store8 (dest + i) v)
      dest 1 (Z.to_nat n) (λ i, rd m (src + i)) m) as (m' & E & F); [lia| |].
    + intros i m1 Hi F1. rewrite Z2Nat.id in Hi by lia. rewrite Z.mul_1_l in *.
      destruct (copy_byte m1 (src + i) (dest + i)) as (m2 & E2 & F2).
      * apply (readable_sub m m1 src n); [lia..| |done]. intros k Hk. rewrite F1.
        by rewrite decide_False by lia.
      * apply (mapped_sub m1 dest n); [lia..|]. apply (Hmap dest i); [lia..|].
        eapply filled_ext; [|exact F1]. intros k Hk. cbn. do 2 f_equal. lia.
      * exists m2. split; [done|]. eapply filled_ext; [|exact F2]. intros k Hk. cbn.
        rewrite F1, decide_False by lia. f_equal. lia.
    + exists m'. split; [done|]. by rewrite Z2Nat.id, Z.mul_1_l in F by lia.
Qed.

(** Every byte value is repeated four times in the word [memset] writes. *)
Lemma memset_word_bytes val k : 0 <= val < 256 -> 0 <= k < 4 -> byte_of k (memset_word val) = val.
Proof.
  intros Hv Hk.
  assert (forallb (λ v, forallb (λ k, byte_of k (memset_word v) =? v) (seqZ 0 4)) (seqZ 0 256)
          = true) as Hall by (by vm_compute).
  rewrite forallb_forall in Hall. specialize (Hall val).
  rewrite forallb_forall in Hall. apply Z.eqb_eq, Hall; apply list_elem_of_In, elem_of_seqZ; lia.
Qed.

Lemma memset_spec m dest val n :
  0 <= n -> 0 <= val < 256 -> mapped m dest n ->
  ∃ m', memset dest val n m = Done dest m' ∧ filled dest n (λ _, Some val) m m'.
Proof.
  intros Hn Hval Hd. pose proof Hd as (? & ? & _). unfold memset. rewrite u8_small by lia.
  assert (Hdiv : n = 4 * (n / 4) + n mod 4) by (apply Z.div_mod; lia).
  pose proof (Z.mod_pos_bound n 4 ltac:(lia)). pose proof (Z.div_pos n 4 ltac:(lia) ltac:(lia)).
  set (q := n / 4) in *. set (r := n mod 4) in *.
  assert (Hmap : ∀ k m1, filled dest k (λ _, Some val) m m1 -> mapped m1 dest n).
  { intros k m1 F. by eapply filled_mapped; [|exact F|]. }
  destruct (for_up_fill (λ i, store32 (dest + 4 * i) (memset_word val))
    dest 4 (Z.to_nat q) (λ _, Some val) m) as (m1 & E1 & F1); [lia| |].
  { intros i m1 Hi G1. rewrite Z2Nat.id in Hi by lia.
    destruct (store32_ok m1 (dest + 4 * i) (memset_word val)) as (m2 & E2 & F2).
    - apply (mapped_sub m1 dest n); [lia..|by eapply Hmap].
    - exists m2. split; [done|]. eapply filled_ext; [|exact F2]. intros k Hk. cbn.
      by rewrite memset_word_bytes. }
  rewrite Z2Nat.id in F1 by lia. mstep E1.
  destruct (for_up_fill (λ i, store8 (dest + q * 4 + i) val)
    (dest + 4 * q) 1 (Z.to_nat r) (λ _, Some val) m1) as (m2 & E2 & F2); [lia| |].
  { intros i m2 Hi G2. rewrite Z2Nat.id in Hi by lia. rewrite Z.mul_1_l in *.
    assert (G2' : filled dest (4 * q + i) (λ _, Some val) m m2).
    { by eapply filled_app; [lia|lia|exact F1|]. }
    replace (dest + q * 4 + i) with (dest + 4 * q + i) by lia.
    destruct (Hmap _ _ G2') as (_ & _ & Hm2).
    destruct (store8_ok m2 (dest + 4 * q + i) val) as (m3 & E3 & F3); [lia| |].
    { rewrite <- Z.add_assoc. apply Hm2. lia. }
    exists m3. split; [done|]. intros b. rewrite F3, u8_small by lia.
    destruct (Z.eqb_spec b (dest + 4 * q + i)); repeat case_decide; (done || lia). }
  mstep E2. exists m2. split; [done|]. rewrite Z2Nat.id, Z.mul_1_l in F2 by lia.
  rewrite Hdiv. eapply filled_app; [lia|lia|exact F1|exact F2].
Qed.
End blocks.

(** ** Strings *)

Section strings.
Context {B : Type} `{!ByteMem B}.
Implicit Types (m : B) (l ds : list Z).

(** The characters [l] and a terminator at [a]. *)
Fixpoint cstr m (a : Z) l : Prop :=
  match l with
  | [] => 0 <= a < 2 ^ 32 ∧ rd m a = Some 0
  | x :: l' => 0 <= a ∧ rd m a = Some x ∧ 0 < x < 256 ∧ cstr m (a + 1) l'
  end.

Definition char_at l (i : nat) : Z := default 0 (l !! i).

Lemma cstr_range m a l : cstr m a l -> 0 <= a ∧ a + Z.of_nat (length l) < 2 ^ 32.
Proof.
  revert a. induction l as [|x l IH]; intros a; cbn [cstr length]; [lia|].
  intros (? & _ & _ & Hl). apply IH in Hl. lia.
Qed.

Lemma cstr_drop m a l k :
  (k <= length l)%nat -> cstr m a l -> cstr m (a + Z.of_nat k) (drop k l).
Proof.
  revert a l. induction k as [|k IH]; intros a l Hk Hl.
  - by rewrite Z.add_0_r, drop_0.
  - destruct l as [|x l]; cbn in Hk; [lia|]. destruct Hl as (_ & _ & _ & Hl). cbn [drop].
    replace (a + Z.of_nat (S k)) with (a + 1 + Z.of_nat k) by lia. apply IH; [lia|done].
Qed.

(** The first byte of a string. *)
Lemma cstr_head m a l : cstr m a l -> load8 a m = Done (char_at l 0) m.
Proof.
  intros Hl. pose proof (cstr_range _ _ _ Hl). destruct l as [|x l].
  - destruct Hl. by apply load8_ok.
  - destruct Hl as (? & ? & _). apply load8_ok; [lia|done].
Qed.

Lemma cstr_load m a l i :
  (i <= length l)%nat -> cstr m a l -> load8 (a + Z.of_nat i) m = Done (char_at l i) m.
Proof.
  intros Hi Hl. erewrite cstr_head; [|by eapply cstr_drop]. unfold char_at.
  by rewrite lookup_drop, Nat.add_0_r.
Qed.

Lemma cstr_frame m m' a l :
  (∀ i, 0 <= i <= Z.of_nat (length l) -> rd m' (a + i) = rd m (a + i)) ->
  cstr m a l -> cstr m' a l.
Proof.
  revert a. induction l as [|x l IH]; intros a Heq; cbn [cstr length] in *.
  - intros [? Ha]. split; [done|]. specialize (Heq 0 ltac:(lia)). rewrite !Z.add_0_r in Heq. congruence.
  - intros (? & Ha & ? & Hl). pose proof (Heq 0 ltac:(lia)) as Hz0. rewrite !Z.add_0_r in Hz0.
    split; [done|]. split; [congruence|]. split; [done|]. apply IH; [|done].
    intros i Hi. rewrite <- !Z.add_assoc. apply Heq. lia.
Qed.

(** A block that holds the characters and the terminator is the string. *)
Lemma cstr_copy m m' a b l :
  0 <= b -> b + Z.of_nat (length l) < 2 ^ 32 ->
  (∀ i, 0 <= i <= Z.of_nat (length l) -> rd m' (b + i) = rd m (a + i)) ->
  cstr m a l -> cstr m' b l.
Proof.
  revert a b. induction l as [|x l IH]; intros a b Hb Hend Heq; cbn [cstr length] in *.
  - intros [? Ha]. split; [lia|]. specialize (Heq 0 ltac:(lia)). rewrite !Z.add_0_r in Heq. congruence.
  - intros (? & Ha & ? & Hl). pose proof (Heq 0 ltac:(lia)) as Hz0. rewrite !Z.add_0_r in Hz0.
    split; [done|]. split; [congruence|]. split; [done|]. eapply IH; [lia|lia| |exact Hl].
    intros i Hi. rewrite <- !Z.add_assoc. apply Heq. lia.
Qed.

Lemma cstr_readable m a l : cstr m a l -> readable m a (Z.of_nat (length l) + 1).
Proof.
  intros Hl. pose proof (cstr_range _ _ _ Hl) as [? ?]. split; [done|]. split; [lia|].
  intros i Hi. pose proof (cstr_drop m a l (Z.to_nat i) ltac:(lia) Hl) as Hd.
  rewrite Z2Nat.id in Hd by lia. destruct (drop (Z.to_nat i) l) as [|x l'].
  - destruct Hd. exists 0. split; [done|lia].
  - destruct Hd as (_ & ? & ? & _). exists x. split; [done|lia].
Qed.

(** Loops over a string of [n] iterations that end at [inr]. *)
Lemma runs_for {A C} (body : A -> M B (A + C)) (st : nat -> A) n m c :
  (∀ i, (i < n)%nat -> body (st i) m = Done (inl (st (S i))) m) ->
  body (st n) m = Done (inr c) m -> runs body (S n) (st 0%nat) m c m.
Proof.
  revert st. induction n as [|n IH]; intros st Hst Hend; [by constructor|].
  eapply runs_step; [apply Hst; lia|]. apply (IH (λ i, st (S i))); [|done].
  intros i Hi. apply Hst. lia.
Qed.

Lemma while_for {A C} (body : A -> M B (A + C)) (st : nat -> A) n a m c :
  a = st 0%nat -> Z.of_nat n < 2 ^ 32 ->
  (∀ i, (i < n)%nat -> body (st i) m = Done (inl (st (S i))) m) ->
  body (st n) m = Done (inr c) m -> while word_fuel body a m = Done c m.
Proof.
  intros -> Hn Hst Hend. eapply runs_while; [by apply runs_for|].
  pose proof word_fuel_Z. lia.
Qed.

Lemma char_at_lt l i : Forall (λ x, 0 < x < 256) l -> (i < length l)%nat -> 0 < char_at l i < 256.
Proof.
  intros Hl Hi. destruct (lookup_lt_is_Some_2 l i Hi) as [x Hx]. unfold char_at. rewrite Hx. cbn.
  by eapply Forall_lookup_1 in Hl.
Qed.

Lemma cstr_chars m a l : cstr m a l -> Forall (λ x, 0 < x < 256) l.
Proof. revert a. induction l as [|x l IH]; intros a; [done|]. intros (_ & _ & ? & ?). eauto. Qed.

Lemma char_at_end l : char_at l (length l) = 0.
Proof. unfold char_at. by rewrite lookup_ge_None_2 by lia. Qed.

Lemma strlen_spec m a l :
  cstr m a l -> Z.of_nat (length l) < 2 ^ 31 -> strlen a m = Done (Z.of_nat (length l)) m.
Proof.
  intros Hl Hlen. unfold strlen.
  apply (while_for _ (λ i, (a + Z.of_nat i, Z.of_nat i)) (length l)); [f_equal; lia|lia| |].
  - intros i Hi. mstep (cstr_load m a l i ltac:(lia) Hl).
    pose proof (char_at_lt l i (cstr_chars _ _ _ Hl) Hi).
    rewrite (proj2 (Z.eqb_neq _ _)) by lia. rewrite s32_small by lia.
    unfold mret, M_ret. do 3 f_equal; lia.
  - mstep (cstr_load m a l (length l) ltac:(lia) Hl). by rewrite char_at_end.
Qed.

(** What [strcmp] computes. *)
Fixpoint compare_chars (l1 l2 : list Z) : Z :=
  match l1, l2 with
  | x :: l1', y :: l2' => if x =? y then compare_chars l1' l2' else s8 x - s8 y
  | x :: _, [] => s8 x
  | [], y :: _ => - s8 y
  | [], [] => 0
  end.

Lemma s8_inj x y : 0 <= x < 256 -> 0 <= y < 256 -> s8 x = s8 y -> x = y.
Proof.
  intros ? ?. unfold s8, signed. change (2 ^ (8 - 1)) with 128. change (2 ^ 8) with 256.
  rewrite !Z.mod_small by lia. repeat case_match; lia.
Qed.

Lemma compare_chars_zero l1 l2 :
  Forall (λ x, 0 < x < 256) l1 -> Forall (λ x, 0 < x < 256) l2 ->
  compare_chars l1 l2 = 0 <-> l1 = l2.
Proof.
  intros H1. revert l2. induction H1 as [|x l1 Hx H1 IH]; intros [|y l2] H2; cbn; [done|..].
  - inversion H2; subst. split; [|done]. intros Hz.
    assert (y = 0) by (apply s8_inj; [lia|lia|]; change (s8 0) with 0; lia). lia.
  - split; [|done]. intros Hz.
    assert (x = 0) by (apply s8_inj; [lia|lia|]; change (s8 0) with 0; lia). lia.
  - inversion H2; subst. destruct (Z.eqb_spec x y) as [->|Hne].
    + rewrite IH by done. naive_solver.
    + split; [|congruence]. intros Hz. assert (x = y) by (apply s8_inj; lia). done.
Qed.

Lemma compare_chars_split l1 l2 : ∃ n,
  (n <= length l1)%nat ∧ (n <= length l2)%nat ∧
  (∀ i, (i < n)%nat -> char_at l1 i = char_at l2 i) ∧
  (char_at l1 n ≠ char_at l2 n ∨ n = length l1 ∨ n = length l2) ∧
  (Forall (λ x, 0 < x < 256) l1 -> Forall (λ x, 0 < x < 256) l2 ->
    compare_chars l1 l2 = if char_at l1 n =? char_at l2 n then 0 else s8 (char_at l1 n) - s8 (char_at l2 n)).
Proof.
  revert l2. induction l1 as [|x l1 IH]; intros [|y l2].
  - exists 0%nat. cbn -[Z.eqb]. split_and!; [lia|lia|lia|lia|done].
  - exists 0%nat. cbn -[Z.eqb]. split_and!; [lia|lia|lia|lia|]. intros _ Hy. inversion Hy; subst.
    rewrite (proj2 (Z.eqb_neq _ _)) by lia. change (s8 0) with 0. lia.
  - exists 0%nat. cbn -[Z.eqb]. split_and!; [lia|lia|lia|lia|]. intros Hx _. inversion Hx; subst.
    rewrite (proj2 (Z.eqb_neq _ _)) by lia. change (s8 0) with 0. lia.
  - destruct (Z.eq_dec x y) as [->|Hne].
    + destruct (IH l2) as (n & ? & ? & Heq & Hst & Hcmp). exists (S n). cbn [length].
      split; [lia|]. split; [lia|]. split.
      { intros [|i] Hi; [done|]. apply (Heq i). lia. }
      split; [destruct Hst as [?|[->| ->]]; auto|]. intros H1 H2.
      inversion H1; inversion H2; subst. cbn -[Z.eqb]. rewrite Z.eqb_refl. by apply Hcmp.
    + exists 0%nat. cbn -[Z.eqb]. split_and!; [lia|lia|lia|by left|]. intros _ _.
      by rewrite (proj2 (Z.eqb_neq _ _)).
Qed.

Lemma strcmp_spec m a1 a2 l1 l2 :
  cstr m a1 l1 -> cstr m a2 l2 -> strcmp a1 a2 m = Done (compare_chars l1 l2) m.
Proof.
  intros H1 H2. destruct (compare_chars_split l1 l2) as (n & Hn1 & Hn2 & Heq & Hst & Hcmp).
  pose proof (cstr_range _ _ _ H1) as [? ?].
  assert (∀ i, (i <= n)%nat -> load8 (a1 + Z.of_nat i) m = Done (char_at l1 i) m) as L1
    by (intros; apply cstr_load; [lia|done]).
  assert (∀ i, (i <= n)%nat -> load8 (a2 + Z.of_nat i) m = Done (char_at l2 i) m) as L2
    by (intros; apply cstr_load; [lia|done]).
  unfold strcmp. erewrite bind_Done.
  2: { apply (while_for _ (λ i, (a1 + Z.of_nat i, a2 + Z.of_nat i)) n); [f_equal; lia|lia| |].
    - intros i Hi. mstep (L1 i ltac:(lia)). mstep (L2 i ltac:(lia)).
      rewrite Heq, Z.eqb_refl by done.
      pose proof (char_at_lt l2 i (cstr_chars _ _ _ H2) ltac:(lia)).
      rewrite (proj2 (Z.eqb_neq _ _)) by lia. cbn. unfold mret, M_ret. do 3 f_equal; lia.
    - mstep (L1 n ltac:(lia)). mstep (L2 n ltac:(lia)).
      destruct (Z.eqb_spec (char_at l1 n) (char_at l2 n)) as [He|He]; [|done].
      destruct Hst as [?|[->| ->]]; [done|..].
      + by rewrite char_at_end.
      + by rewrite He, char_at_end. }
  cbn [fst snd]. mstep (L1 n ltac:(lia)). mstep (L2 n ltac:(lia)). unfold mret, M_ret.
  by rewrite Hcmp by (by eapply cstr_chars).
Qed.

Lemma strcpy_spec m dest src l :
  cstr m src l -> Z.of_nat (length l) < 2 ^ 31 - 1 ->
  let n := Z.of_nat (length l) + 1 in
  mapped m dest n -> dest <= src ∨ src + n <= dest ->
  ∃ m', strcpy dest src m = Done dest m' ∧ cstr m' dest l ∧
    filled dest n (λ i, rd m (src + i)) m m'.
Proof.
  intros Hl Hlen n Hd Hov. unfold strcpy. mstep (strlen_spec _ _ _ Hl ltac:(lia)).
  rewrite u32_small by lia. fold n.
  destruct (memcpy_spec m dest src n) as (m' & Hrun & Hf); [lia|by apply cstr_readable|done..|].
  exists m'. rewrite (bind_Done _ _ _ _ _ Hrun). split; [done|]. split; [|done].
  destruct Hd as (? & ? & _). eapply (cstr_copy m m' src); [lia|lia| |done].
  intros i Hi. rewrite Hf, decide_True by lia. f_equal. lia.
Qed.
End strings.

(** ** Tokens *)

Section tokens.
Context {B : Type} `{!ByteMem B}.
Implicit Types (m : B) (l ds : list Z).

#[local] Arguments char_at : simpl never.

Definition in_set ds (x : Z) : bool := bool_decide (x ∈ ds).

(** Length of the longest prefix whose elements satisfy [p]. *)
Fixpoint span (p : Z -> bool) l : nat :=
  match l with [] => O | x :: l' => if p x then S (span p l') else O end.

(** The maximal runs of characters outside [ds]; [cur] is the run being read. *)
Fixpoint words ds (cur l : list Z) : list (list Z) :=
  match l with
  | [] => match cur with [] => [] | _ => [cur] end
  | x :: l' =>
      if in_set ds x then
        match cur with [] => words ds [] l' | _ => cur :: words ds [] l' end
      else words ds (cur ++ [x]) l'
  end.

Lemma span_le p l : (span p l <= length l)%nat.
Proof. induction l as [|x l IH]; cbn; [lia|]. case_match; lia. Qed.

Lemma span_in p l i : (i < span p l)%nat -> p (char_at l i) = true.
Proof.
  revert i. induction l as [|x l IH]; intros i; cbn; [lia|]. destruct (p x) eqn:Hp; [|lia].
  destruct i as [|i]; [done|]. intros. apply (IH i). lia.
Qed.

Lemma span_out p l : (span p l < length l)%nat -> p (char_at l (span p l)) = false.
Proof.
  induction l as [|x l IH]; cbn; [lia|]. destruct (p x) eqn:Hp; [|done].
  intros. apply IH. lia.
Qed.

Lemma drop_span_in ds l : words ds [] (drop (span (in_set ds) l) l) = words ds [] l.
Proof. induction l as [|x l IH]; [done|]. cbn. destruct (in_set ds x) eqn:E; [done|]. cbn. by rewrite E. Qed.

Lemma words_run ds cur l :
  let t := span (λ x, negb (in_set ds x)) l in
  words ds cur l = match drop t l with
    | [] => match cur ++ l with [] => [] | w => [w] end
    | _ :: rest => match cur ++ take t l with [] => words ds [] rest | w => w :: words ds [] rest end
    end.
Proof.
  revert cur. induction l as [|x l IH]; intros cur; cbn; [by rewrite app_nil_r; destruct cur|].
  destruct (in_set ds x); cbn; [rewrite app_nil_r; by destruct cur|]. rewrite IH. cbn.
  set (t := span _ l). by rewrite <- !app_assoc.
Qed.

(** One token off the front. *)
Lemma words_step ds l :
  let rest := drop (span (in_set ds) l) l in
  let t := span (λ x, negb (in_set ds x)) rest in
  words ds [] l = match rest with [] => [] | _ => take t rest :: words ds [] (drop (S t) rest) end.
Proof.
  intros rest t. rewrite <- drop_span_in. fold rest.
  destruct rest as [|x r] eqn:Hr; [done|].
  assert (Hx : in_set ds x = false).
  { pose proof (f_equal length Hr) as Hlen. unfold rest in *. rewrite length_drop in Hlen. cbn in Hlen.
    pose proof (span_out (in_set ds) l ltac:(lia)) as Ho. unfold char_at in Ho.
    rewrite <- (Nat.add_0_r (span _ l)), <- lookup_drop, Hr in Ho. done. }
  rewrite (words_run ds []). fold t. cbn [app].
  destruct (drop t (x :: r)) as [|d r'] eqn:Hd.
  - pose proof (take_drop t (x :: r)) as Htd. rewrite Hd, app_nil_r in Htd. rewrite Htd.
    rewrite (drop_ge (x :: r) (S t)); [done|].
    pose proof (length_drop (x :: r) t) as Hlen. rewrite Hd in Hlen. cbn in *. lia.
  - replace (drop (S t) (x :: r)) with r'.
    2: { by rewrite <- Nat.add_1_r, <- drop_drop, Hd. }
    unfold t. cbn. rewrite Hx. done.
Qed.

Lemma span_all p l : (∀ x, x ∈ l -> p x = true) -> span p l = length l.
Proof.
  induction l as [|x l IH]; [done|]. intros Hp. cbn. rewrite Hp by (by left).
  f_equal. apply IH. intros y Hy. apply Hp. by right.
Qed.

Lemma char_at_cons x l i : char_at (x :: l) (S i) = char_at l i.
Proof. done. Qed.

Lemma scan_accept_spec m p accept ds x :
  load8 p m = Done x m -> x ≠ 0 -> cstr m accept ds ->
  let n := span (λ c, negb (c =? x)) ds in
  scan_accept p accept m = Done (accept + Z.of_nat n) m ∧
  load8 (accept + Z.of_nat n) m = Done (if in_set ds x then x else 0) m.
Proof.
  intros Hp Hx Hds n. pose proof (span_le (λ c, negb (c =? x)) ds) as Hn. fold n in Hn.
  pose proof (cstr_range _ _ _ Hds) as [? ?].
  assert (∀ i, (i <= n)%nat -> load8 (accept + Z.of_nat i) m = Done (char_at ds i) m) as L
    by (intros; apply cstr_load; [lia|done]).
  assert (Hlast : char_at ds n = if in_set ds x then x else 0).
  { clear -Hx. subst n. unfold in_set. induction ds as [|c ds IH]; [done|]. cbn.
    destruct (Z.eqb_spec c x) as [->|Hne]; cbn.
    - rewrite bool_decide_true by (by left). done.
    - rewrite char_at_cons, IH. rewrite (bool_decide_ext (x ∈ c :: ds) (x ∈ ds)); [done|].
      rewrite elem_of_cons. naive_solver. }
  split; [|by rewrite L, Hlast by lia].
  unfold scan_accept.
  apply (while_for _ (λ i, accept + Z.of_nat i) n); [lia|lia| |].
  - intros i Hi. mstep (L i ltac:(lia)).
    pose proof (char_at_lt ds i (cstr_chars _ _ _ Hds) ltac:(lia)).
    rewrite (proj2 (Z.eqb_neq _ _)) by lia. mstep Hp.
    pose proof (span_in _ _ _ Hi) as Hneq. cbn in Hneq. apply negb_true_iff, Z.eqb_neq in Hneq.
    rewrite (proj2 (Z.eqb_neq _ _)) by done. unfold mret, M_ret. do 2 f_equal. lia.
  - mstep (L n ltac:(lia)). destruct (Z.eqb_spec (char_at ds n) 0); [done|]. mstep Hp.
    rewrite Hlast in *. case_match; [|done]. by rewrite Z.eqb_refl.
Qed.

Lemma strspn_spec m a accept l ds :
  cstr m a l -> cstr m accept ds ->
  strspn a accept m = Done (Z.of_nat (span (in_set ds) l)) m.
Proof.
  intros Hl Hds. pose proof (cstr_range _ _ _ Hl) as [? ?].
  set (n := span (in_set ds) l). pose proof (span_le (in_set ds) l) as Hn. fold n in Hn.
  assert (∀ i, (i <= n)%nat -> load8 (a + Z.of_nat i) m = Done (char_at l i) m) as L
    by (intros; apply cstr_load; [lia|done]).
  unfold strspn. erewrite bind_Done.
  2: { apply (while_for _ (λ i, a + Z.of_nat i) n a m (a + Z.of_nat n)); [lia|lia| |].
    - intros i Hi. mstep (L i ltac:(lia)).
      pose proof (char_at_lt l i (cstr_chars _ _ _ Hl) ltac:(lia)).
      rewrite (proj2 (Z.eqb_neq _ _)) by lia.
      destruct (scan_accept_spec m _ accept ds _ (L i ltac:(lia)) ltac:(lia) Hds) as [Hs Ha].
      mstep Hs. mstep Ha. rewrite (span_in _ _ _ Hi).
      rewrite (proj2 (Z.eqb_neq _ _)) by lia. unfold mret, M_ret. do 2 f_equal. lia.
    - mstep (L n ltac:(lia)). destruct (Z.eqb_spec (char_at l n) 0) as [|Hne]; [done|].
      destruct (scan_accept_spec m _ accept ds _ (L n ltac:(lia)) Hne Hds) as [Hs Ha].
      mstep Hs. mstep Ha. unfold n at 1. rewrite span_out; [done|].
      destruct (decide (span (in_set ds) l < length l)%nat); [done|].
      exfalso. apply Hne. replace n with (length l) by lia. apply char_at_end. }
  unfold mret, M_ret. f_equal. rewrite u32_small; lia.
Qed.

Lemma strpbrk_spec m a accept l ds :
  cstr m a l -> cstr m accept ds ->
  let n := span (λ x, negb (in_set ds x)) l in
  strpbrk a accept m
    = Done (if decide (n < length l)%nat then a + Z.of_nat n else 0) m.
Proof.
  intros Hl Hds n. pose proof (cstr_range _ _ _ Hl) as [? ?].
  pose proof (span_le (λ x, negb (in_set ds x)) l) as Hn. fold n in Hn.
  assert (∀ i, (i <= n)%nat -> load8 (a + Z.of_nat i) m = Done (char_at l i) m) as L
    by (intros; apply cstr_load; [lia|done]).
  unfold strpbrk. rewrite (bind_Done _ _ _ _ _ (cstr_head _ _ _ Hl)).
  destruct l as [|x0 l0]; [done|]. set (l := x0 :: l0) in *.
  pose proof (char_at_lt l 0 (cstr_chars _ _ _ Hl) ltac:(cbn; lia)).
  rewrite (proj2 (Z.eqb_neq _ _)) by lia.
  set (acc := λ i : nat, match i with O => accept | S _ => accept + Z.of_nat (length ds) end).
  assert (Hch : ∀ i, (i < length l)%nat -> char_at l i ≠ 0).
  { intros i Hi. pose proof (char_at_lt l i (cstr_chars _ _ _ Hl) Hi). lia. }
  assert (Hbody : ∀ i, (i < n)%nat ->
    scan_accept (a + Z.of_nat i) accept m = Done (accept + Z.of_nat (length ds)) m ∧
    load8 (accept + Z.of_nat (length ds)) m = Done 0 m).
  { intros i Hi. pose proof (span_in _ _ _ Hi) as Hneg. cbv beta in Hneg.
    apply negb_true_iff in Hneg.
    destruct (scan_accept_spec m _ accept ds _ (L i ltac:(lia)) (Hch i ltac:(lia)) Hds) as [Hs Ha].
    rewrite Hneg in Ha. rewrite span_all in Hs, Ha; [done|..].
    all: intros c Hc; apply negb_true_iff, Z.eqb_neq; intros ->;
      unfold in_set in Hneg; by apply bool_decide_eq_false in Hneg. }
  set (fin := if decide (n < length l)%nat
              then (a + Z.of_nat n, accept + Z.of_nat (span (λ c, negb (c =? char_at l n)) ds))
              else (a + Z.of_nat n, acc n)).
  erewrite (bind_Done _ _ _ fin).
  2: { apply (while_for _ (λ i, (a + Z.of_nat i, acc i)) n); [f_equal; lia|lia| |].
    - intros i Hi. mstep (L i ltac:(lia)). rewrite (proj2 (Z.eqb_neq _ _)) by (apply Hch; lia).
      destruct (Hbody i Hi) as [Hs Ha]. mstep Hs. mstep Ha.
      unfold mret, M_ret. do 3 f_equal. lia.
    - mstep (L n ltac:(lia)). subst fin. destruct (decide (n < length l)%nat) as [Hlt|Hge].
      + rewrite (proj2 (Z.eqb_neq _ _)) by (apply Hch; lia).
        destruct (scan_accept_spec m _ accept ds _ (L n ltac:(lia)) (Hch n Hlt) Hds) as [Hs Ha].
        mstep Hs. mstep Ha. pose proof (span_out _ _ Hlt) as Ho. cbv beta in Ho.
        apply negb_false_iff in Ho. fold n in Ho. rewrite Ho.
        by rewrite (proj2 (Z.eqb_neq _ _)) by (by apply Hch).
      + replace (char_at l n) with 0; [done|]. replace n with (length l) by lia.
        by rewrite char_at_end. }
  subst fin. destruct (decide (n < length l)%nat) as [Hlt|Hge]; cbn [fst snd].
  - destruct (scan_accept_spec m _ accept ds _ (L n ltac:(lia)) (Hch n Hlt) Hds) as [Hs Ha].
    pose proof (span_out _ _ Hlt) as Ho. cbv beta in Ho.
    apply negb_false_iff in Ho. fold n in Ho. rewrite Ho in Ha. mstep Ha.
    rewrite (proj2 (Z.eqb_neq _ _)) by (by apply Hch). unfold mret, M_ret. f_equal.
    apply u32_small. lia.
  - destruct n as [|n']; [cbn in Hge; lia|]. cbn [acc].
    destruct (Hbody 0%nat ltac:(lia)) as [_ Ha]. by mstep Ha.
Qed.

Lemma lfind_end m a l : cstr m a l -> lfind a 0 m = Done (a + Z.of_nat (length l)) m.
Proof.
  intros Hl. pose proof (cstr_range _ _ _ Hl) as [? ?].
  unfold lfind. erewrite bind_Done.
  2: { apply (while_for _ Z.of_nat (length l) 0 m (Z.of_nat (length l))); [done|lia| |].
    - intros i Hi. mstep (cstr_load m a l i ltac:(lia) Hl).
      pose proof (char_at_lt l i (cstr_chars _ _ _ Hl) Hi).
      rewrite (proj2 (Z.eqb_neq _ _)) by lia. unfold mret, M_ret. do 2 f_equal. lia.
    - mstep (cstr_load m a l (length l) ltac:(lia) Hl). by rewrite char_at_end. }
  unfold mret, M_ret. f_equal. apply u32_small. lia.
Qed.

(** Writing the terminator over character [t] cuts the string in two. *)
Lemma cstr_cut m m' a l t :
  (t < length l)%nat -> cstr m a l ->
  (∀ b, rd m' b = if b =? a + Z.of_nat t then Some 0 else rd m b) ->
  cstr m' a (take t l) ∧ cstr m' (a + Z.of_nat t + 1) (drop (S t) l).
Proof.
  revert a l. induction t as [|t IH]; intros a l Ht Hl Hm'; destruct l as [|x l]; cbn in Ht; [lia| |lia|].
  - rewrite Z.add_0_r in *. destruct Hl as (? & ? & ? & Hl). pose proof (cstr_range _ _ _ Hl).
    cbn [take drop cstr]. rewrite drop_0. split.
    + split; [lia|]. by rewrite Hm', Z.eqb_refl.
    + eapply cstr_frame; [|exact Hl]. intros i Hi. rewrite Hm'.
      by rewrite (proj2 (Z.eqb_neq _ _)) by lia.
  - destruct Hl as (? & Hx & ? & Hl).
    replace (a + Z.of_nat (S t)) with (a + 1 + Z.of_nat t) in * by lia.
    destruct (IH (a + 1) l ltac:(lia) Hl Hm') as [Ht1 Ht2]. cbn [take drop cstr].
    split; [|done]. split; [done|]. split; [|done]. rewrite Hm'.
    by rewrite (proj2 (Z.eqb_neq _ _)) by lia.
Qed.

Lemma match_nil {A} (l : list A) (P Q : Prop) :
  (l = [] -> P) -> (l ≠ [] -> Q) -> match l with [] => P | _ => Q end.
Proof. destruct l; auto. Qed.

(** One call: null at the end of the string, or the next token, cut off. *)
Lemma strtok_r_spec m str delim save ds l :
  let a := if str =? 0 then save else str in
  cstr m a l -> a ≠ 0 -> cstr m delim ds ->
  let k := span (in_set ds) l in
  let rest := drop k l in
  let t := span (λ x, negb (in_set ds x)) rest in
  let token := a + Z.of_nat k in
  match rest with
  | [] => strtok_r str delim save m = Done (0, token) m
  | _ =>
      ∃ m' save', strtok_r str delim save m = Done (token, save') m' ∧
        cstr m' token (take t rest) ∧ cstr m' save' (drop (S t) rest) ∧
        token + Z.of_nat t <= save' ∧
        (token + Z.of_nat t < save' ∨ length (drop (S t) rest) = O) ∧ save' + Z.of_nat (length (drop (S t) rest)) = a + Z.of_nat (length l) ∧
        (∀ b, ¬ (token <= b < a + Z.of_nat (length l)) -> rd m' b = rd m b) ∧
        ∀ b, b < token + Z.of_nat t -> rd m' b = rd m b
  end.
Proof.
  intros a Hl Ha Hds k rest t token. pose proof (cstr_range _ _ _ Hl) as [? ?].
  assert (Hk : (k <= length l)%nat) by apply span_le.
  assert (Hrest : cstr m token rest) by (by apply cstr_drop).
  assert (Hlr : length rest = (length l - k)%nat) by apply length_drop.
  unfold strtok_r. fold a. mstep (strspn_spec _ _ _ _ _ Hl Hds).
  rewrite u32_small by lia. fold k. fold token.
  rewrite (bind_Done _ _ _ _ _ (cstr_head _ _ _ Hrest)).
  apply match_nil; intros Hr; [by rewrite Hr|].
  assert (length rest ≠ 0%nat) by (by destruct rest).
  pose proof (char_at_lt rest 0 (cstr_chars _ _ _ Hrest) ltac:(lia)).
  rewrite (proj2 (Z.eqb_neq _ _)) by lia.
  mstep (strpbrk_spec _ _ _ _ _ Hrest Hds). fold t.
  pose proof (span_le (λ x, negb (in_set ds x)) rest) as Ht. fold t in Ht.
  destruct (decide (t < length rest)%nat) as [Hlt|Hge].
  - rewrite (proj2 (Z.eqb_neq _ _)) by lia.
    destruct (store8_ok m (token + Z.of_nat t) 0) as (m' & E & Hm'); [lia| |].
    { destruct (cstr_readable _ _ _ Hrest) as (_ & _ & Hrd).
      destruct (Hrd (Z.of_nat t)) as (y & Hy & _); [lia|]. by eexists. }
    change (u8 0) with 0 in Hm'. mstep E. exists m', (token + Z.of_nat t + 1).
    destruct (cstr_cut _ _ _ _ _ Hlt Hrest Hm') as [? ?].
    split; [unfold mret, M_ret; do 2 f_equal; apply u32_small; lia|].
    split; [done|]. split; [done|]. split; [lia|]. split; [by left; lia|].
    split; [rewrite length_drop; lia|].
    split; intros b Hb; rewrite Hm'; by rewrite (proj2 (Z.eqb_neq _ _)) by lia.
  - cbn. mstep (lfind_end _ _ _ Hrest). exists m, (token + Z.of_nat (length rest)).
    split; [done|]. rewrite take_ge, drop_ge by lia. split; [done|].
    split; [rewrite <- (drop_all rest); by apply cstr_drop|].
    split; [lia|]. split; [by right|]. split; [cbn; lia|done].
Qed.

(** All calls: the tokens are the words of the string. *)
Lemma strtok_all_spec fuel m str delim save ds l :
  let a := if str =? 0 then save else str in
  (length l < fuel)%nat -> cstr m a l -> a ≠ 0 -> cstr m delim ds ->
  delim + Z.of_nat (length ds) < a ∨ a + Z.of_nat (length l) < delim ->
  ∃ ts m', strtok_all fuel str delim save m = Done ts m' ∧
    Forall2 (cstr m') ts (words ds [] l) ∧
    ∀ b, ¬ (a <= b < a + Z.of_nat (length l)) -> rd m' b = rd m b.
Proof.
  revert m str save l. induction fuel as [|fuel IH]; intros m str save l a Hf Hl Ha Hds Hdis; [lia|].
  pose proof (strtok_r_spec m str delim save ds l Hl Ha Hds) as Hr. fold a in Hr.
  pose proof (cstr_range _ _ _ Hl) as [? ?].
  pose proof (cstr_range _ _ _ Hds) as [? ?].
  cbn [strtok_all]. rewrite words_step. cbv zeta in Hr |- *.
  set (rest := drop _ l) in *. set (t := span _ rest) in *.
  assert (Hk : (span (in_set ds) l <= length l)%nat) by apply span_le.
  assert (Hlr : (length rest <= length l)%nat) by (unfold rest; rewrite length_drop; lia).
  destruct rest as [|x r] eqn:Hrest.
  - exists [], m. mstep Hr. cbn. split; [done|]. by split; [constructor|].
  - rewrite <- Hrest in *. destruct Hr as (m1 & save1 & Hrun & Htok & Hrem & Hle & Hlt & Hend & Hout & Hlow).
    mstep Hrun. cbn [fst snd]. rewrite (proj2 (Z.eqb_neq _ _)) by lia.
    assert (Hdrop : (length (drop (S t) rest) < length l)%nat).
    { rewrite length_drop. assert (length rest ≠ 0%nat) by (rewrite Hrest; done). lia. }
    destruct (IH m1 0 save1 (drop (S t) rest)) as (ts & m2 & Hrun2 & Hts & Hout2);
      [lia|done|rewrite Z.eqb_refl; lia| |rewrite Z.eqb_refl; lia|].
    { eapply cstr_frame; [|exact Hds]. intros i Hi. apply Hout. lia. }
    rewrite Z.eqb_refl in *.
    exists (a + Z.of_nat (span (in_set ds) l) :: ts), m2. mstep Hrun2. split; [done|]. split.
    + constructor; [|done]. eapply cstr_frame; [|exact Htok]. intros i Hi. apply Hout2.
      rewrite length_take in Hi. lia.
    + intros b Hb. rewrite Hout2 by lia. apply Hout. lia.
Qed.
End tokens.

(** ** Properties *)

Section string_properties.
Context {B : Type} `{!ByteMem B}.
Implicit Types m : B.

(** C19: splitting a string by repeated [strtok_r] calls returns the maximal
    runs of non-delimiter characters, in order, each a terminated string of
    the final memory; no byte outside the string changes. *)
Theorem strtok_splits m str delim ds l fuel
    (Hstr : cstr m str l) (Hnull : str ≠ 0) (Hds : cstr m delim ds)
    (Hdis : delim + Z.of_nat (length ds) < str ∨ str + Z.of_nat (length l) < delim)
    (Hfuel : (length l < fuel)%nat) :
  ∃ ts m', strtok_all fuel str delim 0 m = Done ts m' ∧
    Forall2 (cstr m') ts (words ds [] l) ∧
    ∀ b, ¬ (str <= b < str + Z.of_nat (length l)) -> rd m' b = rd m b.
Proof.
  pose proof (strtok_all_spec fuel m str delim 0 ds l) as Hs. cbv zeta in Hs.
  rewrite (proj2 (Z.eqb_neq _ _)) in Hs by done. by apply Hs.
Qed.

(** [memmove] copies the block whatever the overlap of source and
    destination: afterwards the destination holds what the source held
    before, and every other byte is unchanged. *)
Theorem memmove_correct m dest src n
    (Hn : 0 <= n) (Hs : readable m src n) (Hd : mapped m dest n) :
  ∃ m', memmove dest src n m = Done tt m' ∧
    (∀ i, 0 <= i < n -> rd m' (dest + i) = rd m (src + i)) ∧
    (∀ b, ¬ (dest <= b < dest + n) -> rd m' b = rd m b).
Proof.
  destruct (memmove_spec m dest src n Hn Hs Hd) as (m' & Hrun & Hf).
  exists m'. split; [done|]. split; intros b Hb; rewrite Hf.
  - rewrite decide_True by lia. f_equal. lia.
  - by rewrite decide_False.
Qed.

(** [memcpy], which moves words and then the remaining bytes, copies the
    block when the regions are disjoint or the destination is below. *)
Theorem memcpy_correct m dest src n
    (Hn : 0 <= n) (Hs : readable m src n) (Hd : mapped m dest n)
    (Hov : dest <= src ∨ src + n <= dest) :
  ∃ m', memcpy dest src n m = Done dest m' ∧
    (∀ i, 0 <= i < n -> rd m' (dest + i) = rd m (src + i)) ∧
    (∀ b, ¬ (dest <= b < dest + n) -> rd m' b = rd m b).
Proof.
  destruct (memcpy_spec m dest src n Hn Hs Hd Hov) as (m' & Hrun & Hf).
  exists m'. split; [done|]. split; intros b Hb; rewrite Hf.
  - rewrite decide_True by lia. f_equal. lia.
  - by rewrite decide_False.
Qed.

(** [strcmp] returns on every two strings, returns 0 exactly when they
    are equal, and otherwise the difference of the first two characters
    that differ, read as signed bytes. *)
Theorem strcmp_correct m a1 a2 l1 l2 (H1 : cstr m a1 l1) (H2 : cstr m a2 l2) :
  ∃ r, strcmp a1 a2 m = Done r m ∧ (r = 0 <-> l1 = l2) ∧
    ∃ n, (∀ i, (i < n)%nat -> char_at l1 i = char_at l2 i) ∧
      (l1 ≠ l2 -> r = s8 (char_at l1 n) - s8 (char_at l2 n)).
Proof.
  exists (compare_chars l1 l2). split; [by apply strcmp_spec|].
  pose proof (cstr_chars _ _ _ H1) as F1. pose proof (cstr_chars _ _ _ H2) as F2.
  split; [by apply compare_chars_zero|].
  destruct (compare_chars_split l1 l2) as (n & _ & _ & Heq & _ & Hcmp).
  exists n. split; [done|]. intros Hne. rewrite (Hcmp F1 F2).
  destruct (Z.eqb_spec (char_at l1 n) (char_at l2 n)) as [He|]; [|done].
  exfalso. apply Hne, compare_chars_zero; [done..|]. by apply Hcmp.
Qed.

(** [memset] with a byte value fills the block and nothing else. *)
Theorem memset_correct m dest val n
    (Hn : 0 <= n) (Hval : 0 <= val < 256) (Hd : mapped m dest n) :
  ∃ m', memset dest val n m = Done dest m' ∧
    (∀ i, 0 <= i < n -> rd m' (dest + i) = Some val) ∧
    (∀ b, ¬ (dest <= b < dest + n) -> rd m' b = rd m b).
Proof.
  destruct (memset_spec m dest val n Hn Hval Hd) as (m' & Hrun & Hf).
  exists m'. split; [done|]. split; intros b Hb; rewrite Hf.
  - by rewrite decide_True by lia.
  - by rewrite decide_False.
Qed.
End string_properties.

(** ** Examples *)

Section string_examples.
Definition poke (a : Z) (l : list Z) (m : gmap Z Z) : gmap Z Z :=
  list_to_map (imap (λ i x, (a + Z.of_nat i, x)) l) ∪ m.

(** "//dev/tty" at 0x100, "/" at 0x200 *)
Definition path_chars : list Z := [47; 47; 100; 101; 118; 47; 116; 116; 121].
Definition path_mem : gmap Z Z := poke 0x200 [47; 0] (poke 0x100 (path_chars ++ [0]) ∅).

Lemma path_cstr : cstr path_mem 0x100 path_chars.
Proof. cbn [cstr path_chars]. repeat split; vm_compute; congruence. Qed.
Lemma delim_cstr : cstr path_mem 0x200 [47].
Proof. cbn [cstr]. repeat split; vm_compute; congruence. Qed.

Lemma strtok_splits_witness :
  ∃ ts m', strtok_all 10 0x100 0x200 0 path_mem = Done ts m' ∧
    Forall2 (cstr m') ts [[100; 101; 118]; [116; 116; 121]] ∧
    ∀ b, ¬ (0x100 <= b < 0x109) -> rd m' b = rd path_mem b.
Proof.
  apply (strtok_splits path_mem 0x100 0x200 [47] path_chars 10 path_cstr ltac:(lia) delim_cstr).
  - right. cbn. lia.
  - cbn. lia.
Defined.

Definition flat : ram := Ram path_mem.
Lemma flat_readable : readable flat 0x100 10.
Proof.
  split; [lia|]. split; [lia|]. intros i Hi. exists (default 0 (path_mem !! (0x100 + i))).
  split; [done|]. assert (Hall : forallb (λ i, let x := default 0 (path_mem !! (0x100 + i)) in
    (0 <=? x) && (x <? 256)) (seqZ 0 10) = true) by (by vm_compute).
  rewrite forallb_forall in Hall. specialize (Hall i). cbv zeta in Hall.
  rewrite andb_true_iff in Hall. destruct Hall; [|lia].
  apply list_elem_of_In, elem_of_seqZ. lia.
Qed.
Lemma flat_mapped a n : 0 <= a -> a + n <= 2 ^ 32 -> mapped flat a n.
Proof. intros. split; [done|]. split; [done|]. intros i Hi. by eexists. Qed.

Lemma memmove_correct_witness :
  ∃ m', memmove 0x103 0x100 10 flat = Done tt m' ∧
    (∀ i, 0 <= i < 10 -> rd m' (0x103 + i) = rd flat (0x100 + i)) ∧
    (∀ b, ¬ (0x103 <= b < 0x103 + 10) -> rd m' b = rd flat b).
Proof.
  apply (memmove_correct flat 0x103 0x100 10 ltac:(lia) flat_readable).
  apply flat_mapped; lia.
Defined.

Lemma memcpy_correct_witness :
  ∃ m', memcpy 0xFF 0x100 10 flat = Done 0xFF m' ∧
    (∀ i, 0 <= i < 10 -> rd m' (0xFF + i) = rd flat (0x100 + i)) ∧
    (∀ b, ¬ (0xFF <= b < 0xFF + 10) -> rd m' b = rd flat b).
Proof.
  apply (memcpy_correct flat 0xFF 0x100 10 ltac:(lia) flat_readable).
  - apply flat_mapped; lia.
  - left. lia.
Defined.

Lemma strcmp_correct_witness :
  ∃ r, strcmp 0x100 0x200 path_mem = Done r path_mem ∧ (r = 0 <-> path_chars = [47]) ∧
    ∃ n, (∀ i, (i < n)%nat -> char_at path_chars i = char_at [47] i) ∧
      (path_chars ≠ [47] -> r = s8 (char_at path_chars n) - s8 (char_at [47] n)).
Proof. apply (strcmp_correct path_mem _ _ _ _ path_cstr delim_cstr). Defined.

Lemma memset_correct_witness :
  ∃ m', memset 0x201 0xAB 7 flat = Done 0x201 m' ∧
    (∀ i, 0 <= i < 7 -> rd m' (0x201 + i) = Some 0xAB) ∧
    (∀ b, ¬ (0x201 <= b < 0x201 + 7) -> rd m' b = rd flat b).
Proof. apply (memset_correct flat 0x201 0xAB 7); [lia|lia|apply flat_mapped; lia]. Defined.

(** Outside 0..255 the words and the trailing bytes disagree: [memset]
    with 0x100 writes a 1 into the words. *)
Lemma memset_wide_value :
  match memset 0x300 0x100 5 flat with
  | Done _ m' => rd m' 0x301 = Some 1 ∧ rd m' 0x304 = Some 0
  | _ => False
  end.
Proof. by vm_compute. Qed.
End string_examples.
