(* ===== verification/Ram.v ===== *)
(** * Words of physical memory

    The 32-bit words of a [ram], every address of which is mapped: what the
    components that keep their data in raw memory (bitmaps, page tables)
    read and write. *)

From S2P Require Import Prelude CString.

Section words.
Implicit Types m : ram.

Definition byte m (a : Z) : Z := default 0 (ram_bytes m !! u32 a).
Definition word m (a : Z) : Z :=
  byte m a + 2 ^ 8 * byte m (a + 1) + 2 ^ 16 * byte m (a + 2) + 2 ^ 24 * byte m (a + 3).
Definition set_byte (a v : Z) m : ram := Ram (<[u32 a := u8 v]> (ram_bytes m)).
Definition set_word (a v : Z) m : ram :=
  set_byte (a + 3) (byte_of 3 v) (set_byte (a + 2) (byte_of 2 v)
    (set_byte (a + 1) (byte_of 1 v) (set_byte a (byte_of 0 v) m))).

(** halfwords *)
Definition load16 (a : Z) : M ram Z := b0 ← load8 a; b1 ← load8 (a + 1); mret (b0 + 2 ^ 8 * b1).
Definition store16 (a v : Z) : M ram unit := store8 a (byte_of 0 v);; store8 (a + 1) (byte_of 1 v).
Definition word16 m (a : Z) : Z := byte m a + 2 ^ 8 * byte m (a + 1).
Definition set_word16 (a v : Z) m : ram := set_byte (a + 1) (byte_of 1 v) (set_byte a (byte_of 0 v) m).

(** Bytes are bytes. *)
Definition ram_ok m : Prop := ∀ a, 0 <= byte m a < 256.

Lemma ram_mapped m a n : 0 <= a -> a + n <= 2 ^ 32 -> mapped m a n.
Proof. intros. split; [done|]. split; [done|]. intros i _. by eexists. Qed.

Lemma load32_word a m : load32 a m = Done (word m a) m.
Proof. done. Qed.

Lemma store32_word a v m : store32 a v m = Done tt (set_word a v m).
Proof. done. Qed.

Lemma byte_set_eq a v m : byte (set_byte a v m) a = u8 v.
Proof. unfold byte, set_byte. cbn. by rewrite lookup_insert_eq. Qed.

Lemma byte_set_ne a b v m : u32 a ≠ u32 b -> byte (set_byte a v m) b = byte m b.
Proof. intros. unfold byte, set_byte. cbn. by rewrite lookup_insert_ne. Qed.

Lemma set_byte_ok a v m : ram_ok m -> ram_ok (set_byte a v m).
Proof.
  intros Hm b. destruct (decide (u32 a = u32 b)) as [He|].
  - replace (byte (set_byte a v m) b) with (u8 v); [apply u8_range|].
    unfold byte, set_byte. cbn. by rewrite <- He, lookup_insert_eq.
  - rewrite byte_set_ne by done. apply Hm.
Qed.

Lemma set_word_ok a v m : ram_ok m -> ram_ok (set_word a v m).
Proof. intros. by repeat apply set_byte_ok. Qed.

Lemma word_range m a : ram_ok m -> 0 <= word m a < 2 ^ 32.
Proof.
  intros Hm. unfold word.
  pose proof (Hm a). pose proof (Hm (a + 1)). pose proof (Hm (a + 2)). pose proof (Hm (a + 3)). lia.
Qed.

Lemma u32_inj a b : 0 <= a < 2 ^ 32 -> 0 <= b < 2 ^ 32 -> u32 a = u32 b -> a = b.
Proof. intros. rewrite <- (u32_small a), <- (u32_small b) by lia. done. Qed.

(** Adding less than a word changes the address. *)
Lemma u32_ne a b : a ≠ b -> Z.abs (a - b) < 2 ^ 32 -> u32 a ≠ u32 b.
Proof. intros ? ? H. unfold u32 in H. zdm. Qed.

Lemma bytes_word v : byte_of 0 v + 2 ^ 8 * byte_of 1 v + 2 ^ 16 * byte_of 2 v + 2 ^ 24 * byte_of 3 v = u32 v.
Proof.
  unfold byte_of, u8, u32. rewrite !Z.shiftr_div_pow2 by lia.
  change (2 ^ (8 * 0)) with 1; change (2 ^ (8 * 1)) with 256; change (2 ^ (8 * 2)) with 65536;
    change (2 ^ (8 * 3)) with 16777216; change (2 ^ 8) with 256; change (2 ^ 16) with 65536;
    change (2 ^ 24) with 16777216; change (2 ^ 32) with 4294967296. zdm.
Qed.

Lemma word_set_eq a v m : word (set_word a v m) a = u32 v.
Proof.
  rewrite <- bytes_word. unfold word, set_word.
  assert (∀ i j, i ≠ j -> Z.abs (i - j) < 4 -> u32 (a + i) ≠ u32 (a + j)) as Hne
    by (intros; apply u32_ne; lia).
  pose proof (Hne 3 0 ltac:(lia) ltac:(lia)). pose proof (Hne 2 0 ltac:(lia) ltac:(lia)).
  pose proof (Hne 1 0 ltac:(lia) ltac:(lia)). pose proof (Hne 3 1 ltac:(lia) ltac:(lia)).
  pose proof (Hne 2 1 ltac:(lia) ltac:(lia)). pose proof (Hne 3 2 ltac:(lia) ltac:(lia)).
  rewrite !Z.add_0_r in *.
  repeat first [rewrite byte_set_eq|rewrite byte_set_ne by done].
  unfold byte_of. by rewrite !u8_idemp.
Qed.

Lemma byte_set_word_ne a v m b :
  (∀ k, 0 <= k < 4 -> u32 (a + k) ≠ u32 b) -> byte (set_word a v m) b = byte m b.
Proof.
  intros Hne. pose proof (Hne 0 ltac:(lia)) as H0. rewrite Z.add_0_r in H0. unfold set_word.
  rewrite byte_set_ne by (apply Hne; lia). rewrite byte_set_ne by (apply Hne; lia).
  rewrite byte_set_ne by (apply Hne; lia). by rewrite byte_set_ne.
Qed.

(** Words that do not overlap. *)
Lemma word_set_ne a b v m :
  4 <= Z.abs (a - b) -> Z.abs (a - b) + 4 <= 2 ^ 32 -> word (set_word a v m) b = word m b.
Proof.
  intros H1 H2. unfold word.
  rewrite !byte_set_word_ne; [done|..]; intros; apply u32_ne; lia.
Qed.

Lemma load16_word a m : load16 a m = Done (word16 m a) m.
Proof. done. Qed.

Lemma store16_word a v m : store16 a v m = Done tt (set_word16 a v m).
Proof. done. Qed.

Lemma set_word16_ok a v m : ram_ok m -> ram_ok (set_word16 a v m).
Proof. intros. by repeat apply set_byte_ok. Qed.

Lemma word16_range m a : ram_ok m -> 0 <= word16 m a < 2 ^ 16.
Proof. intros Hm. pose proof (Hm a). pose proof (Hm (a + 1)). unfold word16. lia. Qed.

Lemma word16_set_eq a v m : word16 (set_word16 a v m) a = u16 v.
Proof.
  unfold word16, set_word16. rewrite byte_set_ne, !byte_set_eq by (apply u32_ne; lia).
  unfold byte_of. rewrite !u8_idemp. unfold u8, u16. rewrite !Z.shiftr_div_pow2 by lia.
  change (2 ^ (8 * 0)) with 1; change (2 ^ (8 * 1)) with 256; change (2 ^ 8) with 256;
    change (2 ^ 16) with 65536. zdm.
Qed.

Lemma word16_set_ne a b v m :
  2 <= Z.abs (a - b) -> Z.abs (a - b) + 2 <= 2 ^ 32 -> word16 (set_word16 a v m) b = word16 m b.
Proof. intros. unfold word16, set_word16. by rewrite !byte_set_ne by (apply u32_ne; lia). Qed.

(** What a copy into mapped memory leaves alone, whatever it copies. *)
Lemma word_eq a m m' :
  0 <= a -> a + 4 <= 2 ^ 32 -> (∀ b, a <= b < a + 4 -> rd m' b = rd m b) -> word m' a = word m a.
Proof.
  intros ? ? Hrd. assert (∀ b, a <= b < a + 4 -> byte m' b = byte m b) as Hb.
  { intros b Hb. specialize (Hrd b Hb). injection Hrd as Hrd. unfold byte. by rewrite u32_small by lia. }
  unfold word. by rewrite !Hb by lia.
Qed.

Lemma rd_set_byte a v m b : 0 <= a < 2 ^ 32 -> b ≠ a -> rd (set_byte a v m) b = rd m b.
Proof. intros Ha Hb. cbn. by rewrite u32_small, lookup_insert_ne by (done || lia). Qed.

Lemma rd_set_word16 a v m b :
  0 <= a -> a + 1 < 2 ^ 32 -> ¬ (a <= b < a + 2) -> rd (set_word16 a v m) b = rd m b.
Proof. intros. unfold set_word16. by rewrite !rd_set_byte by lia. Qed.

Lemma memcpy_ram m dest src n :
  0 <= n -> 0 <= dest -> dest + n <= 2 ^ 32 ->
  ∃ d, memcpy dest src n m = Done dest d ∧ ∀ b, ¬ (dest <= b < dest + n) -> rd d b = rd m b.
Proof.
  intros Hn Hd Hend. unfold memcpy.
  assert (Hdiv : n = 4 * (n / 4) + n mod 4) by (apply Z.div_mod; lia).
  pose proof (Z.mod_pos_bound n 4 ltac:(lia)). pose proof (Z.div_pos n 4 ltac:(lia) ltac:(lia)).
  set (q := n / 4) in *. set (r := n mod 4) in *.
  set (I := λ (_ : Z) (d : ram), ∀ b, ¬ (dest <= b < dest + n) -> rd d b = rd m b).
  destruct (for_up_inv I (Z.to_nat q) 0 (λ i, v ← load32 (src + 4 * i); store32 (dest + 4 * i) v) m)
    as (m1 & E1 & H1); [|by intros b|].
  { intros i d Hi HI. exists (set_word (dest + 4 * i) (word d (src + 4 * i)) d). split; [reflexivity|].
    intros b Hb. unfold set_word.
    rewrite !rd_set_byte by lia. by apply HI. }
  destruct (for_up_inv I (Z.to_nat r) 0 (λ i, v ← load8 (src + q * 4 + i); store8 (dest + q * 4 + i) v) m1)
    as (m2 & E2 & H2); [|exact H1|].
  { intros i d Hi HI. exists (set_byte (dest + q * 4 + i) (byte d (src + q * 4 + i)) d). split; [reflexivity|].
    intros b Hb.
    rewrite rd_set_byte by lia. by apply HI. }
  exists m2. mstep E1. mstep E2. done.
Qed.
End words.

#[export] Hint Resolve set_word_ok word_range : kernel.
