(* ===== verification/Lock.v ===== *)
(** * Mutexes (kernel/lib/lock.c)

    The three operations take the pointer by value and never touch the mutex
    it points to, so they carry no state. *)

From S2P Require Import Prelude.

Section lock.
Context {S : Type}.

(** [while(mutex)]: nothing in the loop changes [mutex]. *)
Definition mutex_wait (fuel : positive) (mutex : Z) : M S unit :=
  while fuel (λ _, mret (if truth mutex then inl tt else inr tt)) tt.

Definition mutex_lock (mutex : Z) : M S unit :=
  (if truth mutex then mutex_wait word_fuel mutex else mret tt);;
  mret tt. (* mutex = (mutex_t* )1 assigns the parameter *)

Definition mutex_unlock (mutex : Z) : M S unit :=
  if truth mutex then mret tt (* mutex = 0 *) else mret tt.

Definition mutex_init (mutex : Z) : M S unit :=
  if negb (mutex =? 0) then (if truth mutex then mret tt (* mutex = 0 *) else mret tt)
  else mret tt.

Lemma mutex_lock_null s : mutex_lock 0 s = Done tt s.
Proof. done. Qed.
Lemma mutex_unlock_done m s : mutex_unlock m s = Done tt s.
Proof. unfold mutex_unlock. by destruct (truth m). Qed.
Lemma mutex_init_done m s : mutex_init m s = Done tt s.
Proof. unfold mutex_init. by destruct (m =? 0), (truth m). Qed.

(** A mutex excludes nobody. Locking the null mutex (the value of every
    mutex variable of the kernel) returns at once however often it is locked,
    and locking any other one never returns, locked or not: no execution
    of the wait loop, however long, ends. *)
Theorem mutex_lock_no_exclusion s :
  (mutex_lock 0;; mutex_lock 0) s = Done tt s ∧
  ∀ mutex fuel, mutex ≠ 0 -> mutex_wait fuel mutex s = Spin.
Proof.
  split; [done|]. intros mutex fuel Hm. unfold mutex_wait. rewrite while_loop.
  assert (truth mutex = true) as -> by (unfold truth; by rewrite (proj2 (Z.eqb_neq _ _))).
  induction (Pos.to_nat fuel) as [|n IH]; [done|]. exact IH.
Qed.
End lock.

#[export] Hint Rewrite @mutex_lock_null @mutex_unlock_done @mutex_init_done : kernel.
