(* ===== verification/SysMem.v ===== *)
(** * The program break (kernel/arch/arm/integrator-cp/memory.c)

    What malloc.c asks of the architecture's memory.c, as an interface, and
    the ARM integrator-cp implementation of it. *)

From S2P Require Import Prelude Lock.

(** The heap grows upwards from a break that [sbrk(0)] reports; an unwrapped
    break of [2 ^ 32] is reported as 0. *)
Class Sbrk (MS : Type) := {
  sbrk_ : Z -> M MS Z;
  sb_ok : MS -> Prop;
  sb_end : MS -> Z;
  sb_end_range m : sb_ok m -> 0 < sb_end m <= 2 ^ 32;
  sbrk_query m : sb_ok m -> sbrk_ 0 m = Done (u32 (sb_end m)) m;
  (** growing by a page fails ((void* )-1), stops the machine, or extends
      the heap by at least a page *)
  sbrk_grow m : sb_ok m ->
    wp True (sbrk_ 0x1000) m (λ p m',
      sb_ok m' ∧ sb_end m <= sb_end m' ∧
      (p ≠ 0xFFFFFFFF -> sb_end m + 0x1000 <= sb_end m'));
  sbrk_room m : sb_ok m -> sb_end m + 0x1000 <= 2 ^ 32 ->
    wp False (sbrk_ 0x1000) m (λ p m', p ≠ 0xFFFFFFFF ∧ sb_ok m' ∧ sb_end m' = sb_end m + 0x1000)
}.

Module Arm.
(** [mem_allocate_starting], [kernel_reserved_area] *)
Record arm_memory := ArmMemory { mem_allocate_starting : Z; kernel_reserved_area : Z }.
Local Abbreviation K := (M arm_memory).

(** The static initialisers. *)
Definition arm_boot : arm_memory := ArmMemory 0x10000 0.
(** [mmac_lock], never assigned *)
Definition mmac_lock : Z := 0.

Definition memory_mult_alloc_pages (pages : Z) : K Z :=
  to ← gets mem_allocate_starting;
  modify (λ m, ArmMemory (u32 (mem_allocate_starting m + pages * 0x1000))
                         (kernel_reserved_area m));;
  mret to.

(** [panic] stops the machine. *)
Definition memallocp (pages : Z) : K Z :=
  if pages <=? 0 then mret 0
  else
    mutex_lock mmac_lock;;
    ptr ← memory_mult_alloc_pages pages;
    (if ptr =? 0 then halt_here else mret tt);;
    mutex_unlock mmac_lock;;
    mret ptr.

Definition memory_init : K unit :=
  p ← memallocp 1;
  modify (λ m, ArmMemory (mem_allocate_starting m) p).

Definition sbrk (amount : Z) : K Z :=
  if amount =? 0 then gets mem_allocate_starting
  else
    let actual_amount := amount / 0x1000 in
    let actual_amount := if actual_amount =? 0 then actual_amount + 1 else actual_amount in
    memallocp (s32 actual_amount).

Definition brk (end_data_segment : Z) : K Z := mret 0.

(** The break is a page boundary, and 0 only after wrapping around. *)
Definition arm_ok (m : arm_memory) : Prop :=
  0 <= mem_allocate_starting m < 2 ^ 32 ∧ mem_allocate_starting m mod 0x1000 = 0.
Definition arm_end (m : arm_memory) : Z :=
  if mem_allocate_starting m =? 0 then 2 ^ 32 else mem_allocate_starting m.

Lemma memallocp_spec m pages :
  0 < pages ->
  memallocp pages m =
    let m' := ArmMemory (u32 (mem_allocate_starting m + pages * 0x1000)) (kernel_reserved_area m) in
    if mem_allocate_starting m =? 0 then Halted m' else Done (mem_allocate_starting m) m'.
Proof.
  intros Hp. unfold memallocp. rewrite (proj2 (Z.leb_gt _ _)) by lia.
  mstep (mutex_lock_null m). unfold memory_mult_alloc_pages. rewrite bind_assoc. mrun.
  rewrite bind_assoc. mrun. rewrite bind_ret. cbn [mem_allocate_starting].
  destruct (mem_allocate_starting m =? 0); done.
Qed.

Lemma sbrk_page m :
  arm_ok m -> wp (arm_end m = 2 ^ 32) (sbrk 0x1000) m (λ p m',
    p ≠ 0xFFFFFFFF ∧ arm_ok m' ∧ arm_end m' = arm_end m + 0x1000).
Proof.
  intros [Hr Hal]. unfold wp. change (sbrk 0x1000) with (memallocp 1).
  rewrite memallocp_spec by lia. cbv zeta. unfold arm_end, arm_ok in *.
  destruct (Z.eqb_spec (mem_allocate_starting m) 0) as [Hz|Hz]; [done|].
  cbn [mem_allocate_starting]. set (b := mem_allocate_starting m) in *.
  assert (b <= 2 ^ 32 - 0x1000) by zdm.
  split; [zdm|]. unfold u32. rewrite Z.mul_1_l.
  destruct (Z.eq_dec b (2 ^ 32 - 0x1000)) as [->|Hne]; [done|].
  rewrite Z.mod_small by lia. split; [split; [lia|zdm]|].
  by rewrite (proj2 (Z.eqb_neq _ _)) by lia.
Qed.

#[export] Program Instance arm_sbrk : Sbrk arm_memory := {
  sbrk_ := sbrk; sb_ok := arm_ok; sb_end := arm_end
}.
Next Obligation.
  intros m [Hr _]. unfold arm_end. destruct (Z.eqb_spec (mem_allocate_starting m) 0); lia.
Qed.
Next Obligation.
  intros m [Hr _]. unfold sbrk, arm_end. cbn. unfold gets.
  destruct (Z.eqb_spec (mem_allocate_starting m) 0) as [->|]; [done|]. by rewrite u32_small.
Qed.
Next Obligation.
  intros m Hm. pose proof (sbrk_page m Hm) as Hp. unfold wp in *.
  destruct (sbrk 0x1000 m) as [p m'| | |]; try done. destruct Hp as (? & ? & ->).
  split; [done|lia].
Qed.
Next Obligation.
  intros m Hm Hroom. pose proof (sbrk_page m Hm) as Hp. unfold wp in *.
  destruct (sbrk 0x1000 m) as [p m'| | |]; [done|done| |done]. rewrite Hp in Hroom. lia.
Qed.

Lemma arm_boot_ok : arm_ok arm_boot.
Proof. by split. Qed.
End Arm.

(** ** The Raspberry Pi (kernel/arch/arm/rpi/memory.c)

    The counter has 64 bits and the allocator returns null instead of
    stopping when it reaches the end of the address space. *)
Module Rpi.
Definition u64 (z : Z) : Z := z mod 2 ^ 64.

Record rpi_memory := RpiMemory { mem_allocate_starting : Z; kernel_reserved_area : Z }.
Local Abbreviation K := (M rpi_memory).

Definition rpi_boot : rpi_memory := RpiMemory 0x10000 0.
Definition mmac_lock : Z := 0.

Definition memory_mult_alloc_pages (pages : Z) : K Z :=
  start ← gets mem_allocate_starting;
  let to := s32 start in
  modify (λ m, RpiMemory (u64 (mem_allocate_starting m + s32 (pages * 0x1000)))
                         (kernel_reserved_area m));;
  mret (u32 to).

(** A null pointer is only reported on the console. *)
Definition memallocp (pages : Z) : K Z :=
  if pages <=? 0 then mret 0
  else
    mutex_lock mmac_lock;;
    ptr ← memory_mult_alloc_pages pages;
    mutex_unlock mmac_lock;;
    mret ptr.

Definition memory_dealloc_pages (pages : Z) : K unit := mret tt.

Definition memory_init : K unit :=
  mutex_init mmac_lock;;
  mutex_lock mmac_lock;;
  mutex_unlock mmac_lock;;
  p ← memallocp 1;
  modify (λ m, RpiMemory (mem_allocate_starting m) p).

Definition sbrk (amount : Z) : K Z :=
  if amount =? 0 then s ← gets mem_allocate_starting; mret (u32 s)
  else
    let actual_amount := amount / 0x1000 in
    let actual_amount := if actual_amount =? 0 then actual_amount + 1 else actual_amount in
    memallocp (s32 actual_amount).

Definition brk (end_data_segment : Z) : K Z := mret 0.

Lemma rpi_sbrk_page m :
  sbrk 0x1000 m = Done (u32 (mem_allocate_starting m))
    (RpiMemory (u64 (mem_allocate_starting m + 0x1000)) (kernel_reserved_area m)).
Proof.
  change (sbrk 0x1000 m) with (memallocp 1 m). unfold memallocp. cbn [Z.leb Z.compare].
  mstep (mutex_lock_null m). unfold memory_mult_alloc_pages. rewrite !bind_assoc. mrun.
  rewrite bind_assoc. mrun. cbv zeta. by rewrite u32_s32.
Qed.

(** Growing the break page by page. *)
Fixpoint grow (n : nat) : K (list Z) :=
  match n with
  | O => mret []
  | S n' => p ← sbrk 0x1000; ps ← grow n'; mret (p :: ps)
  end.

Lemma rpi_grow_spec n : ∀ m,
  mem_allocate_starting m + 0x1000 * Z.of_nat n < 2 ^ 64 -> 0 <= mem_allocate_starting m ->
  grow n m = Done ((λ i, u32 (mem_allocate_starting m + 0x1000 * Z.of_nat i)) <$> seq 0 n)
    (RpiMemory (mem_allocate_starting m + 0x1000 * Z.of_nat n) (kernel_reserved_area m)).
Proof.
  induction n as [|n IH]; intros m Hm Hpos.
  - cbn. unfold mret, M_ret. rewrite Z.add_0_r. by destruct m.
  - cbn [grow]. mstep (rpi_sbrk_page m). unfold u64 at 1. rewrite Z.mod_small by lia.
    assert (Hg : grow n (RpiMemory (mem_allocate_starting m + 0x1000) (kernel_reserved_area m))
      = Done ((λ i, u32 (mem_allocate_starting m + 0x1000 * Z.of_nat i)) <$> seq 1 n)
          (RpiMemory (mem_allocate_starting m + 0x1000 * Z.of_nat (S n)) (kernel_reserved_area m))).
    { rewrite IH by (cbn; lia). cbn [mem_allocate_starting kernel_reserved_area]. f_equal.
      - rewrite <- seq_shift, <- list_fmap_compose. apply list_fmap_ext. intros i x _. cbn. f_equal. lia.
      - f_equal. lia. }
    mstep Hg. cbn [seq]. rewrite fmap_cons, Z.add_0_r. done.
Qed.

(** On the Raspberry Pi [sbrk] never reports that memory is exhausted:
    from a page-aligned break every page-sized growth succeeds, for any
    number of steps, and past 4 GB the addresses start again at 0. *)
Theorem sbrk_never_fails n m
    (Hm : 0 <= mem_allocate_starting m) (Hal : mem_allocate_starting m mod 0x1000 = 0)
    (Hn : mem_allocate_starting m + 0x1000 * Z.of_nat n < 2 ^ 64) :
  ∃ ps m', grow n m = Done ps m' ∧ Forall (λ p, p ≠ 0xFFFFFFFF) ps ∧
    ∀ i, (i < n)%nat -> ps !! i = Some ((mem_allocate_starting m + 0x1000 * Z.of_nat i) mod 2 ^ 32).
Proof.
  eexists _, _. split; [by apply rpi_grow_spec|]. split.
  - apply Forall_fmap, Forall_forall. intros i _. cbn. unfold u32. zdm.
  - intros i Hi. by rewrite list_lookup_fmap, lookup_seq_lt by lia.
Qed.

(** The break reaches 4 GB: the next page is page 0. *)
Lemma sbrk_never_fails_witness :
  ∃ ps m', grow 2 (RpiMemory 0xFFFFF000 0x10000) = Done ps m' ∧ Forall (λ p, p ≠ 0xFFFFFFFF) ps ∧
    ∀ i, (i < 2)%nat -> ps !! i = Some ((0xFFFFF000 + 0x1000 * Z.of_nat i) mod 2 ^ 32).
Proof. by apply (sbrk_never_fails 2 (RpiMemory 0xFFFFF000 0x10000)). Defined.
End Rpi.
