(* ===== verification/Malloc.v ===== *)
(** * The kernel allocator (kernel/malloc.c)

    First-fit allocation over a doubly linked list of block headers, with
    splitting and coalescing. The blocks tile the heap; no two adjacent
    blocks are free. The implementation discharges the [Allocator] interface
    of KHeap for every implementation of [Sbrk]. *)

From S2P Require Import Prelude Dll KHeap CString Ram SysMem.

(** [struct Meta]: 16 bytes on the 32-bit targets *)
Record meta := Meta { m_size : Z; m_free : Z; m_prev : Z; m_next : Z }.
Definition sizeof_meta : Z := 16.
Definition PAGE_SIZE : Z := 0x1000.

Definition set_msize (z : Z) (m : meta) := Meta z (m_free m) (m_prev m) (m_next m).
Definition set_free (z : Z) (m : meta) := Meta (m_size m) z (m_prev m) (m_next m).
Definition set_mprev (z : Z) (m : meta) := Meta (m_size m) (m_free m) z (m_next m).
Definition set_mnext (z : Z) (m : meta) := Meta (m_size m) (m_free m) (m_prev m) z.
Definition add_msize (z : Z) (m : meta) := Meta (u32 (m_size m + z)) (m_free m) (m_prev m) (m_next m).

#[export] Instance meta_linked : Linked meta (Z * Z) := {|
  nnext := m_next; nprev := m_prev; npay m := (m_size m, m_free m);
  set_nnext := set_mnext; set_nprev := set_mprev;
  nnext_set_nnext _ _ := eq_refl; nprev_set_nnext _ _ := eq_refl;
  npay_set_nnext _ _ := eq_refl; nnext_set_nprev _ _ := eq_refl;
  nprev_set_nprev _ _ := eq_refl; npay_set_nprev _ _ := eq_refl;
  set_nnext_id n := ltac:(by destruct n); set_nprev_id n := ltac:(by destruct n)
|}.

(** What is not decided by the source: where the linker puts the sentinels
    [head] and [tail], and what memory holds at boot. *)
Class Statics := {
  head_addr : Z;
  tail_addr : Z;
  (** what a word of memory holds before it is first written *)
  ram_junk : Z;
  statics_pos : 0 < head_addr;
  statics_ne : head_addr < tail_addr
}.

Record mstate (MS : Type) := MState {
  metas : gmap Z meta;  (** block headers, wherever one was ever written *)
  alloc_end : Z;
  data : ram;           (** the contents of memory apart from the headers *)
  sys : MS
}.
Arguments MState {MS} _ _ _ _.
Arguments metas {MS} _.
Arguments alloc_end {MS} _.
Arguments data {MS} _.
Arguments sys {MS} _.

Section malloc.
Context {MS : Type} `{!Sbrk MS} `{!Statics}.
Local Abbreviation K := (M (mstate MS)).

Definition junk_meta : meta := Meta ram_junk ram_junk ram_junk ram_junk.

Definition set_metas (h : gmap Z meta) (s : mstate MS) :=
  MState h (alloc_end s) (data s) (sys s).

(** [*block]; a header is read only where one was written before. *)
Definition ldm (a : Z) : K meta :=
  if a =? 0 then fail NullPointer
  else s ← get; of_option (WildPointer a) (metas s !! a).

(** [block->field = e]; the other fields keep what memory holds there. *)
Definition stm (a : Z) (f : meta -> meta) : K unit :=
  if a =? 0 then fail NullPointer
  else modify (λ s, set_metas (<[a := f (default junk_meta (metas s !! a))]> (metas s)) s).

Definition sbrk (n : Z) : K Z := λ s,
  match sbrk_ n (sys s) with
  | Done p m => Done p (MState (metas s) (alloc_end s) (data s) m)
  | Fault f => Fault f
  | Halted m => Halted (MState (metas s) (alloc_end s) (data s) m)
  | Spin => Spin
  end.

(** A routine of string.c on the contents of memory. *)
Definition on_data {A} (m : M ram A) : K A := λ s,
  match m (data s) with
  | Done x d => Done x (MState (metas s) (alloc_end s) d (sys s))
  | Fault f => Fault f
  | Halted d => Halted (MState (metas s) (alloc_end s) d (sys s))
  | Spin => Spin
  end.

(** The first-fit search of [malloc]. *)
Definition search (size : Z) : K (option Z) :=
  while word_fuel (λ block,
    b ← ldm block;
    if m_next b =? tail_addr then mret (inr None)
    else
      let block := m_next b in
      b ← ldm block;
      mret (if truth (m_free b) && (size <=? m_size b) then inr (Some block) else inl block))
    head_addr.

(** The new free block made from the end of [block]. *)
Definition split (block size : Z) : K unit :=
  let newBlock := u32 (block + size + sizeof_meta) in
  b ← ldm block;
  stm newBlock (set_msize (u32 (m_size b - size - sizeof_meta)));;
  n ← ldm newBlock;
  stm block (λ b, set_msize (u32 (m_size b - (m_size n + sizeof_meta))) b);;
  b ← ldm block;
  stm (m_next b) (set_mprev newBlock);;
  stm newBlock (set_mprev block);;
  b ← ldm block;
  stm newBlock (set_mnext (m_next b));;
  stm block (set_mnext newBlock);;
  stm newBlock (set_free 1);;
  n ← ldm newBlock;
  nx ← ldm (m_next n);
  if truth (m_free nx) then
    stm newBlock (add_msize (m_size nx + sizeof_meta));;
    n ← ldm newBlock; nx ← ldm (m_next n);
    stm (m_next nx) (set_mprev newBlock);;
    n ← ldm newBlock; nx ← ldm (m_next n);
    stm newBlock (set_mnext (m_next nx))
  else mret tt.

(** [while (sbrk(0) - alloc_end < size + sizeof(Meta)) ...]; false when
    [sbrk] failed *)
Definition grow (size : Z) : K bool :=
  while word_fuel (λ _ : unit,
    brk ← sbrk 0;
    s ← get;
    if u32 (brk - alloc_end s) <? u32 (size + sizeof_meta) then
      p ← sbrk PAGE_SIZE;
      mret (if p =? 0xFFFFFFFF then inr false else inl tt)
    else mret (inr true)) tt.

Definition set_alloc_end (z : Z) : K unit :=
  modify (λ s, MState (metas s) z (data s) (sys s)).

(** A new block at the end of the heap. *)
Definition extend (size : Z) : K Z :=
  s ← get;
  (if alloc_end s =? 0 then brk ← sbrk 0; set_alloc_end brk else mret tt);;
  ok ← grow size;
  if negb ok then mret 0
  else
    s ← get;
    let newBlock := alloc_end s in
    stm newBlock (set_mnext tail_addr);;
    t ← ldm tail_addr;
    stm newBlock (set_mprev (m_prev t));;
    n ← ldm newBlock;
    stm (m_prev n) (set_mnext newBlock);;
    stm tail_addr (set_mprev newBlock);;
    stm newBlock (set_free 0);;
    stm newBlock (set_msize size);;
    set_alloc_end (u32 (alloc_end s + (size + sizeof_meta)));;
    mret (u32 (newBlock + sizeof_meta)).

(** long word align *)
Definition align (size : Z) : Z :=
  if negb (size mod 4 =? 0) then u32 (size + (4 - size mod 4)) else size.

Definition malloc (size : Z) : K Z :=
  let size := align size in
  found ← search size;
  match found with
  | Some block =>
      stm block (set_free 0);;
      b ← ldm block;
      (if 4 + sizeof_meta <=? u32 (m_size b - size) then split block size else mret tt);;
      mret (u32 (block + sizeof_meta))
  | None => extend size
  end.

Definition free (ptr : Z) : K unit :=
  if ptr =? 0 then mret tt
  else
    let block := u32 (ptr - sizeof_meta) in
    stm block (set_free 1);;
    b ← ldm block;
    p ← ldm (m_prev b);
    block ←
      (if truth (m_free p) then
         stm (m_next b) (set_mprev (m_prev b));;
         b ← ldm block;
         stm (m_prev b) (set_mnext (m_next b));;
         b ← ldm block;
         stm (m_prev b) (add_msize (m_size b + sizeof_meta));;
         b ← ldm block;
         mret (m_prev b)
       else mret block);
    b ← ldm block;
    n ← ldm (m_next b);
    if truth (m_free n) then
      stm (m_next n) (set_mprev block);;
      b ← ldm block; n ← ldm (m_next b);
      stm block (add_msize (m_size n + sizeof_meta));;
      b ← ldm block; n ← ldm (m_next b);
      stm block (set_mnext (m_next n))
    else mret tt.

Definition calloc (num_of_elts elt_size : Z) : K Z :=
  let size := u32 (num_of_elts * elt_size) in
  ptr ← malloc size;
  (if negb (ptr =? 0) then _ ← on_data (memset ptr 0 size); mret tt else mret tt);;
  mret ptr.

Definition realloc (pointer size : Z) : K Z :=
  new_block ← malloc size;
  (if negb (pointer =? 0) && (size =? 0) then free pointer else mret tt);;
  (if negb (pointer =? 0) && negb (new_block =? 0) then
     old_block ← ldm (u32 (pointer - sizeof_meta));
     let min := if size <? m_size old_block then size else m_size old_block in
     _ ← on_data (memcpy new_block pointer min);
     free pointer
   else mret tt);;
  mret new_block.

(** string.c's [strdup] *)
Definition strdup (s : Z) : K Z :=
  len ← on_data (strlen s);
  d ← malloc (u32 (len + 1));
  if d =? 0 then mret 0 else _ ← on_data (strcpy d s); mret d.
End malloc.

(** ** Representation *)

Section blocks.
Context `{!Statics}.
Implicit Types (ns pre post X : list (Z * (Z * Z))) (h : gmap Z meta).

Definition seg h prev ns next : Prop := dseg (N := meta) (λ a, h !! a) prev ns next.

(** Blocks, as (header address, (size, free)), laid end to end; sizes are
    multiples of a word. *)
Fixpoint tiles (a : Z) ns (e : Z) : Prop :=
  match ns with
  | [] => a = e
  | (b, (sz, f)) :: ns' =>
      b = a ∧ (0 <= sz ∧ sz mod 4 = 0) ∧ (f = 0 ∨ f = 1) ∧ tiles (a + sizeof_meta + sz) ns' e
  end.

Fixpoint no_adjacent_free (prev : bool) ns : Prop :=
  match ns with
  | [] => True
  | (_, (_, f)) :: ns' => prev && truth f = false ∧ no_adjacent_free (truth f) ns'
  end.

Definition free_flag (x : option (Z * (Z * Z))) : bool :=
  match x with Some (_, (_, f)) => truth f | None => false end.

(** The blocks between the two sentinels. *)
Definition chain ns : list (Z * (Z * Z)) :=
  (head_addr, (0, 0)) :: ns ++ [(tail_addr, (0, 0))].

(** Allocated blocks by the address given to the client. *)
Definition used ns : gmap Z Z :=
  list_to_map (omap (λ '(b, (sz, f)), if truth f then None else Some (b + sizeof_meta, sz)) ns).

Lemma tiles_app a ns1 ns2 e :
  tiles a (ns1 ++ ns2) e <-> ∃ c, tiles a ns1 c ∧ tiles c ns2 e.
Proof.
  revert a. induction ns1 as [|[b [sz f]] ns1 IH]; intros a; cbn; [naive_solver|].
  rewrite IH. naive_solver.
Qed.

Lemma tiles_le a ns e : tiles a ns e -> a <= e.
Proof.
  revert a. induction ns as [|[b [sz f]] ns IH]; intros a; cbn; [lia|].
  unfold sizeof_meta. intros (_ & ? & _ & Hle%IH). lia.
Qed.

Lemma tiles_in a ns e b sz f :
  tiles a ns e -> (b, (sz, f)) ∈ ns -> a <= b ∧ 0 <= sz ∧ b + sizeof_meta + sz <= e.
Proof.
  revert a. induction ns as [|[c [sz' f']] ns IH]; intros a; [set_solver|].
  cbn. intros (-> & ? & _ & Ht) [Heq|Hin]%elem_of_cons; unfold sizeof_meta in *.
  - injection Heq as -> -> ->. apply tiles_le in Ht. lia.
  - destruct (IH _ Ht Hin). lia.
Qed.

Lemma tiles_addr a ns e b : tiles a ns e -> b ∈ ns.*1 -> a <= b < e.
Proof.
  intros Ht ([c [sz f]] & -> & Hin)%list_elem_of_fmap. cbn.
  destruct (tiles_in _ _ _ _ _ _ Ht Hin). unfold sizeof_meta in *. lia.
Qed.

Lemma tiles_nodup a ns e : tiles a ns e -> NoDup ns.*1.
Proof.
  revert a. induction ns as [|[b [sz f]] ns IH]; intros a; cbn; [constructor|].
  intros (-> & ? & _ & Ht). constructor; [|by eapply IH].
  intros Hin. pose proof (tiles_addr _ _ _ _ Ht Hin). unfold sizeof_meta in *. lia.
Qed.

Lemma no_adj_app p ns1 ns2 :
  no_adjacent_free p (ns1 ++ ns2) <->
  no_adjacent_free p ns1 ∧
  no_adjacent_free (match last ns1 with Some x => free_flag (Some x) | None => p end) ns2.
Proof.
  revert p. induction ns1 as [|[b [sz f]] ns1 IH]; intros p; cbn; [tauto|].
  rewrite IH, last_cons. destruct (last ns1); cbn; tauto.
Qed.

Lemma chain_nodup a ns e : tail_addr < a -> tiles a ns e -> NoDup (chain ns).*1.
Proof.
  intros Ha Ht. pose proof statics_ne. unfold chain. rewrite fmap_cons, fmap_app. cbn.
  constructor.
  - rewrite elem_of_app, elem_of_cons, elem_of_nil. intros [Hin|[Heq|[]]]; [|lia].
    pose proof (tiles_addr _ _ _ _ Ht Hin). lia.
  - apply NoDup_app. split; [by eapply tiles_nodup|]. split; [|repeat constructor; set_solver].
    intros b Hb. rewrite elem_of_cons, elem_of_nil. intros [->|[]].
    pose proof (tiles_addr _ _ _ _ Ht Hb). lia.
Qed.

(** The blocks that surround a place of the list, sentinels included. *)
Lemma chain_around ns1 ns2 : ∃ pre p dp n dn post,
  (∀ X, chain (ns1 ++ X ++ ns2) = pre ++ ((p, dp) :: X ++ [(n, dn)]) ++ post) ∧
  (dp = (0, 0) ∧ ns1 = [] ∧ p = head_addr ∨ ∃ ns1', ns1 = ns1' ++ [(p, dp)]) ∧
  (dn = (0, 0) ∧ ns2 = [] ∧ n = tail_addr ∧ post = [] ∨
   ∃ ns2', ns2 = (n, dn) :: ns2' ∧ post = ns2' ++ [(tail_addr, (0, 0))]).
Proof.
  assert (∃ pre p dp, (head_addr, (0, 0)) :: ns1 = pre ++ [(p, dp)] ∧
    (dp = (0, 0) ∧ ns1 = [] ∧ p = head_addr ∨ ∃ ns1', ns1 = ns1' ++ [(p, dp)]))
    as (pre & p & dp & Hp & Hpc).
  { destruct ns1 as [|[q d] ns1' _] using rev_ind.
    - exists [], head_addr, (0, 0). split; [done|by left].
    - exists ((head_addr, (0, 0)) :: ns1'), q, d. split; [done|]. right. by exists ns1'. }
  assert (∃ n dn post, ns2 ++ [(tail_addr, (0, 0))] = (n, dn) :: post ∧
    (dn = (0, 0) ∧ ns2 = [] ∧ n = tail_addr ∧ post = [] ∨
     ∃ ns2', ns2 = (n, dn) :: ns2' ∧ post = ns2' ++ [(tail_addr, (0, 0))]))
    as (n & dn & post & Hn & Hnc).
  { destruct ns2 as [|[q d] ns2'].
    - exists tail_addr, (0, 0), []. split; [done|by left].
    - exists q, d, (ns2' ++ [(tail_addr, (0, 0))]). split; [done|]. right. by exists ns2'. }
  exists pre, p, dp, n, dn, post. split; [|done]. intros X. unfold chain.
  rewrite <- !app_assoc. change ((head_addr, (0, 0)) :: ns1 ++ ?Y) with (((head_addr, (0, 0)) :: ns1) ++ Y).
  rewrite Hp, <- !app_assoc, Hn. cbn. by rewrite <- app_assoc.
Qed.

(** Replacing a stretch of the list by another with the same ends. *)
Lemma dseg_replace h h' pre X X' post :
  X ≠ [] -> X' ≠ [] -> first_of X 0 = first_of X' 0 -> last_of 0 X = last_of 0 X' ->
  (∀ b, b ∈ pre.*1 ++ post.*1 -> h' !! b = h !! b) ->
  seg h 0 (pre ++ X ++ post) 0 -> seg h' (last_of 0 pre) X' (first_of post 0) ->
  seg h' 0 (pre ++ X' ++ post) 0.
Proof.
  intros HX HX' Hfirst Hlast Heq. unfold seg. rewrite !dseg_app.
  intros (Hpre & _ & Hpost) Hmid.
  assert (∀ q ns, ns ≠ [] -> last_of q ns = last_of 0 ns) as Hl
    by (intros; by apply last_of_default).
  split; [|split; [done|]].
  - rewrite first_of_app, <- (first_of_default 0 _ X'), <- Hfirst by done.
    rewrite first_of_app, <- (first_of_default 0 _ X) in Hpre by done.
    eapply dseg_frame; [|exact Hpre]. intros b Hb. apply Heq. apply elem_of_app. by left.
  - rewrite (Hl _ X') by done. rewrite (Hl _ X) in Hpost by done. rewrite <- Hlast.
    eapply dseg_frame; [|exact Hpost]. intros b Hb. apply Heq. apply elem_of_app. by right.
Qed.

(** The headers of three consecutive blocks. *)
Lemma seg_mid h pre p sp fp b sb fb n sn fn post :
  seg h 0 (pre ++ [(p, (sp, fp)); (b, (sb, fb)); (n, (sn, fn))] ++ post) 0 ->
  h !! p = Some (Meta sp fp (last_of 0 pre) b) ∧ h !! b = Some (Meta sb fb p n) ∧
  h !! n = Some (Meta sn fn b (first_of post 0)).
Proof.
  unfold seg. rewrite dseg_app. cbn.
  intros [_ ((m1 & -> & ? & ? & ?) & (m2 & -> & ? & ? & ?) & (m3 & -> & ? & ? & ?) & _)].
  destruct m1, m2, m3; cbn in *. naive_solver.
Qed.
End blocks.

(** ** What the pointer updates do to the list of blocks *)

Section chain_updates.
Context `{!Statics}.
Implicit Types (ns X Y : list (Z * (Z * Z))) (h : gmap Z meta).

Definition rep h ns : Prop := seg h 0 (chain ns) 0 ∧ NoDup (chain ns).*1.

(** The blocks [Y] replaced by [Y'], the neighbours relinked. *)
Lemma rep_change h h' ns1 Y Y' ns2 :
  rep h (ns1 ++ Y ++ ns2) -> NoDup (chain (ns1 ++ Y' ++ ns2)).*1 ->
  (∀ pre p dp n dn post,
     (∀ X, chain (ns1 ++ X ++ ns2) = pre ++ ((p, dp) :: X ++ [(n, dn)]) ++ post) ->
     seg h (last_of 0 pre) ((p, dp) :: Y ++ [(n, dn)]) (first_of post 0) ->
     NoDup (p :: Y.*1 ++ [n]) ->
     (ns2 = [] -> n = tail_addr ∧ post = []) ->
     seg h' (last_of 0 pre) ((p, dp) :: Y' ++ [(n, dn)]) (first_of post 0) ∧
     ∀ b, b ∉ p :: Y.*1 ++ Y'.*1 ++ [n] -> h' !! b = h !! b) ->
  rep h' (ns1 ++ Y' ++ ns2).
Proof.
  intros [Hseg Hnd] Hnd' Hstep. split; [|done].
  destruct (chain_around ns1 ns2) as (pre & p & dp & n & dn & post & Hc & _ & Hend).
  assert (ns2 = [] -> n = tail_addr ∧ post = []) as Hnil by (intros ->; destruct Hend as [(_ & _ & ? & ?)|(? & ? & _)]; done).
  pose proof Hseg as Hall. rewrite Hc in Hseg, Hnd, Hnd'. rewrite Hc.
  rewrite Hc in Hall. unfold seg in Hall. rewrite !dseg_app in Hall.
  destruct Hall as (_ & Hmid & _).
  assert (Hperm : ∀ W, NoDup (pre ++ ((p, dp) :: W ++ [(n, dn)]) ++ post).*1 ->
    NoDup (p :: W.*1 ++ [n]) ∧ ∀ b, b ∈ pre.*1 ++ post.*1 -> b ∉ p :: W.*1 ++ [n]).
  { intros W. replace ((pre ++ ((p, dp) :: W ++ [(n, dn)]) ++ post).*1)
      with (pre.*1 ++ (p :: W.*1 ++ [n]) ++ post.*1)
      by (rewrite !fmap_app, fmap_cons, fmap_app; done).
    intros (_ & Hd1 & (HW & Hd2 & _)%NoDup_app)%NoDup_app. split; [done|].
    intros b [Hb|Hb]%elem_of_app Hin.
    - apply (Hd1 b Hb). apply elem_of_app. by left.
    - by apply (Hd2 b Hin). }
  destruct (Hperm Y Hnd) as [HY HYo]. destruct (Hperm Y' Hnd') as [_ HY'o].
  destruct (Hstep pre p dp n dn post Hc Hmid HY Hnil) as [Hmid' Hout].
  eapply dseg_replace; [|by intros ?| | | |exact Hseg|exact Hmid'].
  - done.
  - done.
  - rewrite !last_of_cons, !last_of_snoc. done.
  - intros b Hb. apply Hout. specialize (HYo b Hb). specialize (HY'o b Hb).
    rewrite !elem_of_cons, !elem_of_app in *. tauto.
Qed.

(** The neighbours of a block. *)
Lemma rep_neighbours h ns1 b sb fb ns2 :
  rep h (ns1 ++ [(b, (sb, fb))] ++ ns2) -> ∃ p sp fp pp n sn fn nn,
    h !! p = Some (Meta sp fp pp b) ∧ h !! b = Some (Meta sb fb p n) ∧
    h !! n = Some (Meta sn fn b nn) ∧ p ≠ b ∧ n ≠ b ∧ p ≠ n ∧
    (ns1 = [] ∧ p = head_addr ∧ sp = 0 ∧ fp = 0 ∨ ∃ ns1', ns1 = ns1' ++ [(p, (sp, fp))]) ∧
    (ns2 = [] ∧ n = tail_addr ∧ sn = 0 ∧ fn = 0 ∨ ∃ ns2', ns2 = (n, (sn, fn)) :: ns2').
Proof.
  intros [Hseg Hnd].
  destruct (chain_around ns1 ns2) as (pre & p & [sp fp] & n & [sn fn] & post & Hc & Hp & Hn).
  rewrite Hc in Hseg, Hnd. destruct (seg_mid _ _ _ _ _ _ _ _ _ _ _ _ Hseg) as (H1 & H2 & H3).
  rewrite !fmap_app in Hnd. apply NoDup_app in Hnd as (_ & _ & Hnd). cbn in Hnd.
  rewrite !NoDup_cons, !elem_of_cons in Hnd.
  exists p, sp, fp, (last_of 0 pre), n, sn, fn, (first_of post 0).
  split; [done|]. split; [done|]. split; [done|]. split; [naive_solver|].
  split; [naive_solver|]. split; [naive_solver|]. split.
  - destruct Hp as [(Heq & -> & ->)|Hp]; [left; naive_solver|by right].
  - destruct Hn as [(Heq & -> & -> & _)|(ns2' & -> & _)]; [left; naive_solver|right; by eexists].
Qed.

Lemma chain_perm ns1 Y ns2 b :
  b ∈ (chain (ns1 ++ Y ++ ns2)).*1 <-> b ∈ (chain (ns1 ++ ns2)).*1 ∨ b ∈ Y.*1.
Proof. unfold chain. cbn. rewrite !fmap_app, !elem_of_cons, !elem_of_app. tauto. Qed.

Lemma rep_flag h h' ns1 b sb fb fb' ns2 p n :
  rep h (ns1 ++ [(b, (sb, fb))] ++ ns2) -> h !! b = Some (Meta sb fb p n) ->
  h' !! b = Some (Meta sb fb' p n) -> (∀ c, c ≠ b -> h' !! c = h !! c) ->
  rep h' (ns1 ++ [(b, (sb, fb'))] ++ ns2).
Proof.
  intros Hrep Hb Hb' Hout. pose proof Hrep as [_ Hnd].
  eapply rep_change; [exact Hrep| |].
  { unfold chain in *. rewrite !fmap_cons, !fmap_app in *. exact Hnd. }
  intros pre q [sp fp] m [sn fn] post _ Hmid. cbn. intros Hne _.
  assert (q ≠ b ∧ m ≠ b) as [? ?].
  { apply NoDup_cons in Hne as [H1 [H2 _]%NoDup_cons]. split; intros ->; set_solver. }
  cbn in Hmid. split.
  - destruct Hmid as ((m1 & E1 & ? & ? & ?) & (m2 & E2 & ? & ? & ?) & (m3 & E3 & ? & ? & ?) & _).
    cbn. split; [exists m1; by rewrite Hout|].
    split; [|split; [exists m3; by rewrite Hout|done]].
    eexists. split; [exact Hb'|]. rewrite Hb in E2. injection E2 as <-. done.
  - intros c Hc. apply Hout. intros ->. apply Hc. set_solver.
Qed.

(** Two blocks joined. *)
Lemma rep_merge h h' ns1 b sb fb n sn fn ns2 p q sq fq nq s' :
  rep h (ns1 ++ [(b, (sb, fb)); (n, (sn, fn))] ++ ns2) ->
  NoDup (chain (ns1 ++ [(b, (s', fb))] ++ ns2)).*1 ->
  h !! b = Some (Meta sb fb p n) -> h !! n = Some (Meta sn fn b q) ->
  h !! q = Some (Meta sq fq n nq) ->
  h' !! b = Some (Meta s' fb p q) -> h' !! q = Some (Meta sq fq b nq) ->
  (∀ c, c ≠ b -> c ≠ q -> h' !! c = h !! c) ->
  rep h' (ns1 ++ [(b, (s', fb))] ++ ns2).
Proof.
  intros Hrep Hnd' Hb Hn Hq Hb' Hq' Hout.
  eapply rep_change; [exact Hrep|exact Hnd'|].
  intros pre p0 [sp fp] q0 [sq0 fq0] post _ Hmid Hne _. unfold seg in *. cbn in Hmid, Hne |- *.
  destruct Hmid as ((m1 & E1 & N1 & P1 & D1) & (m2 & E2 & N2 & P2 & D2) &
    (m3 & E3 & N3 & P3 & D3) & (m4 & E4 & N4 & P4 & D4) & _).
  rewrite Hb in E2. injection E2 as <-. rewrite Hn in E3. injection E3 as <-.
  cbn in N2, P2, N3, P3. subst p0 q0. rewrite Hq in E4. injection E4 as <-. cbn in N4, D4.
  apply NoDup_cons in Hne as [Hp0 Hne]. rewrite !elem_of_cons in Hp0. split.
  - split; [exists m1; rewrite Hout by (intros ->; tauto); done|].
    split; [eexists; split; [exact Hb'|done]|].
    split; [eexists; split; [exact Hq'|done]|done].
  - intros c. rewrite !elem_of_cons. intros Hc. apply Hout; intros ->; tauto.
Qed.

(** One block cut in two; the new header's address is not in the list. *)
Lemma rep_split h h' ns1 b sb fb ns2 p n sn fn nn s1 f1 nb s2 f2 :
  rep h (ns1 ++ [(b, (sb, fb))] ++ ns2) ->
  NoDup (chain (ns1 ++ [(b, (s1, f1)); (nb, (s2, f2))] ++ ns2)).*1 ->
  h !! b = Some (Meta sb fb p n) -> h !! n = Some (Meta sn fn b nn) ->
  h' !! b = Some (Meta s1 f1 p nb) -> h' !! nb = Some (Meta s2 f2 b n) ->
  h' !! n = Some (Meta sn fn nb nn) ->
  (∀ c, c ≠ b -> c ≠ nb -> c ≠ n -> h' !! c = h !! c) ->
  rep h' (ns1 ++ [(b, (s1, f1)); (nb, (s2, f2))] ++ ns2).
Proof.
  intros Hrep Hnd' Hb Hn Hb' Hnb' Hn' Hout.
  eapply rep_change; [exact Hrep|exact Hnd'|].
  intros pre p0 [sp fp] n0 [sn0 fn0] post Hc Hmid Hne _. unfold seg in *. cbn in Hmid, Hne |- *.
  destruct Hmid as ((m1 & E1 & N1 & P1 & D1) & (m2 & E2 & N2 & P2 & D2) &
    (m3 & E3 & N3 & P3 & D3) & _).
  rewrite Hb in E2. injection E2 as <-. cbn in N2, P2. subst p0 n0.
  rewrite Hn in E3. injection E3 as <-. cbn in N3, D3.
  assert (p ≠ nb) as Hpnb.
  { rewrite Hc, !fmap_app in Hnd'. apply NoDup_app in Hnd' as (_ & _ & Hnd').
    apply NoDup_app in Hnd' as (Hnd' & _). cbn in Hnd'. apply NoDup_cons in Hnd' as [Hx _].
    intros ->. apply Hx. set_solver. }
  apply NoDup_cons in Hne as [Hp0 Hne]. rewrite !elem_of_cons in Hp0. split.
  - split; [exists m1; rewrite Hout by (intros ->; tauto); done|].
    split; [eexists; split; [exact Hb'|done]|].
    split; [eexists; split; [exact Hnb'|done]|].
    split; [eexists; split; [exact Hn'|done]|done].
  - intros c. rewrite !elem_of_cons. intros Hcn. apply Hout; intros ->; tauto.
Qed.

(** A block linked in before the tail. *)
Lemma rep_append h h' ns p sp fp pp st ft nt nb s f :
  rep h ns -> NoDup (chain (ns ++ [(nb, (s, f))])).*1 ->
  h !! tail_addr = Some (Meta st ft p nt) -> h !! p = Some (Meta sp fp pp tail_addr) ->
  h' !! p = Some (Meta sp fp pp nb) -> h' !! nb = Some (Meta s f p tail_addr) ->
  h' !! tail_addr = Some (Meta st ft nb nt) ->
  (∀ c, c ≠ p -> c ≠ nb -> c ≠ tail_addr -> h' !! c = h !! c) ->
  rep h' (ns ++ [(nb, (s, f))]).
Proof.
  intros Hrep Hnd' Ht Hp Hp' Hnb' Ht' Hout.
  rewrite <- (app_nil_r [(nb, (s, f))]). rewrite <- (app_nil_r [(nb, (s, f))]) in Hnd'.
  rewrite <- (app_nil_r ns) in Hrep. change ([] : list (Z * (Z * Z))) with ([] ++ [] : list (Z * (Z * Z))) in Hrep.
  eapply rep_change; [exact Hrep|exact Hnd'|].
  intros pre p0 [sp0 fp0] n0 [sn0 fn0] post Hc Hmid Hne Hend. unfold seg in *.
  destruct (Hend eq_refl) as [-> ->]. cbn in Hmid, Hne |- *.
  destruct Hmid as ((m1 & E1 & N1 & P1 & D1) & (m2 & E2 & N2 & P2 & D2) & _).
  rewrite Ht in E2. injection E2 as <-. cbn in N2, P2, D2. subst p0.
  rewrite Hp in E1. injection E1 as <-. cbn in N1, P1, D1. split.
  - split; [eexists; split; [exact Hp'|done]|].
    split; [eexists; split; [exact Hnb'|done]|].
    split; [eexists; split; [exact Ht'|done]|done].
  - intros c. rewrite !elem_of_cons. intros Hcn. apply Hout; intros ->; tauto.
Qed.
End chain_updates.

(** ** The heap invariant and the search *)

Section heap_invariant.
Context {MS : Type} `{!Sbrk MS} `{!Statics}.
Implicit Types (st : mstate MS) (ns : list (Z * (Z * Z))).

Record blocks_ok st ns (start e : Z) : Prop := {
  ok_rep : rep (metas st) ns;
  ok_tiles : tiles start ns e;
  ok_naf : no_adjacent_free false ns;
  ok_low : tail_addr + sizeof_meta <= start;
  ok_aligned : start mod 4 = 0;
  ok_sys : sb_ok (sys st);
  ok_end : e <= sb_end (sys st);
  ok_alloc_end : alloc_end st = u32 e ∨ alloc_end st = 0 ∧ ns = [] ∧ e = sb_end (sys st)
}.

Lemma ldm_done st a m : a ≠ 0 -> metas st !! a = Some m -> ldm a st = Done m st.
Proof. intros Ha Hm. unfold ldm. rewrite (proj2 (Z.eqb_neq _ _)) by done. mrun. by rewrite Hm. Qed.

Lemma stm_done st a f : a ≠ 0 ->
  stm a f st = Done tt (set_metas (<[a := f (default junk_meta (metas st !! a))]> (metas st)) st).
Proof. intros Ha. unfold stm. by rewrite (proj2 (Z.eqb_neq _ _)). Qed.

Lemma blocks_range st ns start e :
  blocks_ok st ns start e ->
  0 < start ∧ e <= 2 ^ 32 ∧
  ∀ b sz f, (b, (sz, f)) ∈ ns -> tail_addr < b ∧ start <= b ∧ 0 <= sz ∧ b + sizeof_meta + sz <= e.
Proof.
  intros [_ Ht _ Hlow _ Hs He _]. pose proof statics_pos. pose proof statics_ne.
  pose proof (sb_end_range _ Hs). unfold sizeof_meta in *.
  split; [lia|]. split; [lia|]. intros b sz f Hin.
  destruct (tiles_in _ _ _ _ _ _ Ht Hin). unfold sizeof_meta in *. lia.
Qed.

Lemma blocks_nodup st ns start e ns' :
  blocks_ok st ns start e -> tiles start ns' e -> NoDup (chain ns').*1.
Proof.
  intros [_ _ _ Hlow _ _ _ _] Ht. eapply chain_nodup; [|exact Ht]. unfold sizeof_meta in *. lia.
Qed.

(** A new list of blocks over the same stretch of memory. *)
Lemma blocks_rewrite st ns ns' start e h :
  blocks_ok st ns start e -> ns ≠ [] -> rep h ns' -> tiles start ns' e ->
  no_adjacent_free false ns' -> blocks_ok (set_metas h st) ns' start e.
Proof.
  intros [? ? ? ? ? ? ? Hae] Hne Hrep Ht Hnaf. split; try done. left.
  cbn. destruct Hae as [|(_ & ? & _)]; done.
Qed.

Definition fits (size : Z) (x : Z * (Z * Z)) : bool :=
  truth (snd (snd x)) && (size <=? fst (snd x)).

Fixpoint first_fit (size : Z) ns : option Z :=
  match ns with
  | [] => None
  | x :: ns' => if fits size x then Some (fst x) else first_fit size ns'
  end.

Lemma first_fit_Some size ns b :
  first_fit size ns = Some b -> ∃ ns1 sz f ns2, ns = ns1 ++ [(b, (sz, f))] ++ ns2 ∧
    truth f = true ∧ size <= sz ∧ Forall (λ x, fits size x = false) ns1.
Proof.
  induction ns as [|[c [sz f]] ns IH]; [done|]. cbn.
  destruct (fits size (c, (sz, f))) eqn:Hf.
  - intros [= ->]. unfold fits in Hf. cbn in Hf. apply andb_true_iff in Hf as [Hf Hsz%Z.leb_le].
    by exists [], sz, f, ns.
  - intros (ns1 & sz' & f' & ns2 & -> & ? & ? & ?)%IH.
    exists ((c, (sz, f)) :: ns1), sz', f', ns2. split; [done|]. split; [done|]. split; [done|].
    by constructor.
Qed.

Lemma first_fit_None size ns :
  first_fit size ns = None -> Forall (λ x, fits size x = false) ns.
Proof.
  induction ns as [|x ns IH]; [constructor|]. cbn. destruct (fits size x) eqn:Hf; [done|].
  intros. constructor; auto.
Qed.

Lemma tiles_length a ns e : tiles a ns e -> a + sizeof_meta * Z.of_nat (length ns) <= e.
Proof.
  revert a. induction ns as [|[b [sz f]] ns IH]; intros a; cbn [tiles length]; [lia|].
  intros (_ & ? & _ & Hle%IH). unfold sizeof_meta in *. lia.
Qed.

Definition search_body (size block : Z) : M (mstate MS) (Z + option Z) :=
  b ← ldm block;
  if m_next b =? tail_addr then mret (inr None)
  else
    let block := m_next b in
    b ← ldm block;
    mret (if truth (m_free b) && (size <=? m_size b) then inr (Some block) else inl block).

Lemma search_runs size st ns x mx :
  x ≠ 0 -> metas st !! x = Some mx -> m_next mx = first_of ns tail_addr ->
  seg (metas st) x ns tail_addr -> (0 ∉ ns.*1) -> (tail_addr ∉ ns.*1) ->
  ∃ k, (k <= S (length ns))%nat ∧ runs (search_body size) k x st (first_fit size ns) st.
Proof.
  revert x mx. induction ns as [|[b [sz f]] ns IH]; intros x mx Hx Hm Hnx Hseg H0 Ht.
  - exists 1%nat. split; [done|]. apply runs_end. unfold search_body.
    mstep (ldm_done _ _ _ Hx Hm). rewrite Hnx. cbn. by rewrite Z.eqb_refl.
  - destruct Hseg as [(m & Hb & Hnb & _ & Hpay) Hseg]. cbn in Hnx.
    assert (b ≠ 0) as Hb0 by set_solver. assert (b ≠ tail_addr) as Hbt by set_solver.
    injection Hpay as Hsz Hf.
    assert (Hstep : search_body size x st = Done (if fits size (b, (sz, f)) then inr (Some b) else inl b) st).
    { unfold search_body. mstep (ldm_done _ _ _ Hx Hm). rewrite Hnx.
      rewrite (proj2 (Z.eqb_neq _ _)) by done. cbv zeta. mstep (ldm_done _ _ _ Hb0 Hb).
      unfold fits. cbn. by rewrite Hsz, Hf. }
    cbn [first_fit]. destruct (fits size (b, (sz, f))).
    + exists 1%nat. split; [lia|]. by apply runs_end.
    + destruct (IH b m Hb0 Hb Hnb Hseg) as (k & Hk & Hrun); [set_solver..|].
      exists (S k). split; [cbn; lia|]. by eapply runs_step.
Qed.

Lemma search_spec size st ns start e :
  blocks_ok st ns start e -> search size st = Done (first_fit size ns) st.
Proof.
  intros Hok. pose proof (blocks_range _ _ _ _ Hok) as (Hs & He & Hb).
  pose proof (tiles_length _ _ _ (ok_tiles _ _ _ _ Hok)). unfold sizeof_meta in *.
  destruct (ok_rep _ _ _ _ Hok) as [Hseg _]. unfold chain, seg in Hseg.
  cbn [dseg] in Hseg. destruct Hseg as [(mh & Hh & Hnh & _) Hseg].
  rewrite first_of_app in Hnh. cbn [first_of] in Hnh.
  apply dseg_app in Hseg as [Hseg _]. cbn [first_of] in Hseg.
  pose proof statics_pos. pose proof statics_ne.
  assert (∀ c, c ∈ ns.*1 -> tail_addr < c) as Hc.
  { intros c ([d [sz f]] & -> & Hin)%list_elem_of_fmap. cbn. apply Hb in Hin. lia. }
  destruct (search_runs size st ns head_addr mh) as (k & Hk & Hrun); [lia|done|done|done| | |].
  { intros ?%Hc. lia. } { intros ?%Hc. lia. }
  unfold search. eapply runs_while; [exact Hrun|]. pose proof word_fuel_Z. lia.
Qed.
End heap_invariant.

(** ** Taking a free block *)

Section taking.
Context {MS : Type} `{!Sbrk MS} `{!Statics}.
Implicit Types (st : mstate MS) (ns : list (Z * (Z * Z))).

Lemma stm_some st a f m : a ≠ 0 -> metas st !! a = Some m ->
  stm a f st = Done tt (set_metas (<[a := f m]> (metas st)) st).
Proof. intros Ha Hm. rewrite stm_done by done. by rewrite Hm. Qed.

Lemma used_cons b sz f ns :
  used ((b, (sz, f)) :: ns) = if truth f then used ns else <[b + sizeof_meta := sz]> (used ns).
Proof. unfold used. cbn. by destruct (truth f). Qed.

Lemma used_lookup a ns e q n :
  tiles a ns e -> used ns !! q = Some n <->
    ∃ b f, q = b + sizeof_meta ∧ (b, (n, f)) ∈ ns ∧ truth f = false.
Proof.
  revert a. induction ns as [|[b [sz f]] ns IH]; intros a Ht.
  { cbn. split; [done|]. intros (b & f & _ & Hin & _). by apply elem_of_nil in Hin. }
  destruct Ht as (-> & Hsz & _ & Ht). specialize (IH _ Ht). rewrite used_cons.
  setoid_rewrite elem_of_cons. destruct (truth f) eqn:Hf.
  - rewrite IH. split; [naive_solver|]. intros (b & f' & -> & [[= -> -> ->]|Hin] & Hf').
    + congruence.
    + exists b, f'. auto.
  - rewrite lookup_insert_Some, IH. split.
    + intros [[<- <-]|[Hne Hin]]; [exists a, f; auto|]. destruct Hin as (b & f' & ? & ? & ?). exists b, f'. auto.
    + intros (b & f' & -> & [[= -> -> ->]|Hin] & Hf'); [by left|right].
      split; [|exists b, f'; auto]. destruct (tiles_in _ _ _ _ _ _ Ht Hin). unfold sizeof_meta in *. lia.
Qed.

(** Two lists whose allocated blocks correspond. *)
Lemma used_insert a ns ns' e e' b n :
  tiles a ns e -> tiles a ns' e' ->
  (b, (n, 0)) ∈ ns' ->
  (∀ c k f, truth f = false -> (c, (k, f)) ∈ ns' <-> c = b ∧ k = n ∧ f = 0 ∨ (c, (k, f)) ∈ ns) ->
  (∀ k f, truth f = false -> (b, (k, f)) ∉ ns) ->
  used ns' = <[b + sizeof_meta := n]> (used ns) ∧ used ns !! (b + sizeof_meta) = None.
Proof.
  intros Ht Ht' Hb Hiff Hno. split.
  - apply map_eq. intros q. apply option_eq. intros k.
    rewrite lookup_insert_Some, (used_lookup _ _ _ _ _ Ht), (used_lookup _ _ _ _ _ Ht'). split.
    + intros (c & f & -> & Hin & Hf). apply (Hiff _ _ _ Hf) in Hin as [(-> & -> & ->)|Hin]; [by left|].
      right. split; [intros Heq; assert (b = c) as -> by lia; by eapply Hno|]. eauto.
    + intros [[<- <-]|(Hne & c & f & -> & Hin & Hf)]; [exists b, 0; auto|].
      exists c, f. split; [done|]. split; [|done]. apply Hiff; auto.
  - apply eq_None_not_Some. intros [k Hk]. apply (used_lookup _ _ _ _ _ Ht) in Hk as (c & f & Heq & Hin & Hf).
    assert (b = c) as -> by (unfold sizeof_meta in *; lia). by eapply Hno.
Qed.
End taking.

Ltac mlook :=
  cbn [metas set_metas alloc_end sys];
  repeat first [ rewrite lookup_insert_eq | rewrite lookup_insert_ne by congruence ];
  first [ eassumption | reflexivity ].

(** Run the header access at the head of the goal. *)
Ltac mstep_mem :=
  rewrite ?bind_assoc, ?bind_ret;
  lazymatch goal with
  | |- context [mbind _ ?m _] =>
      lazymatch m with
      | ldm _ => erewrite (bind_Done m); [|eapply ldm_done; [congruence|mlook]]
      | stm _ _ => erewrite (bind_Done m); [|eapply stm_some; [congruence|mlook]]
      end
  | |- context [stm ?a ?f ?s] =>
      erewrite (stm_some s a f); [|congruence|mlook]
  end;
  cbn [metas set_metas alloc_end sys m_size m_free m_prev m_next
       set_msize set_free set_mprev set_mnext add_msize].

Section taking_more.
Context {MS : Type} `{!Sbrk MS} `{!Statics}.
Implicit Types (st : mstate MS) (ns : list (Z * (Z * Z))).

Definition take_block (block size : Z) : M (mstate MS) Z :=
  stm block (set_free 0);;
  b ← ldm block;
  (if 4 + sizeof_meta <=? u32 (m_size b - size) then split block size else mret tt);;
  mret (u32 (block + sizeof_meta)).

Lemma split_run st b size sz p n sn fn nn :
  let nb := b + size + sizeof_meta in
  0 < b -> 0 <= size -> size + 4 + sizeof_meta <= sz -> b + sizeof_meta + sz <= 2 ^ 32 ->
  metas st !! b = Some (Meta sz 0 p n) -> metas st !! n = Some (Meta sn fn b nn) ->
  truth fn = false -> n ≠ b -> n ≠ nb -> n ≠ 0 ->
  ∃ h, split b size st = Done tt (set_metas h st) ∧
    h !! b = Some (Meta size 0 p nb) ∧
    h !! nb = Some (Meta (sz - size - sizeof_meta) 1 b n) ∧
    h !! n = Some (Meta sn fn nb nn) ∧
    ∀ c, c ≠ b -> c ≠ nb -> c ≠ n -> h !! c = metas st !! c.
Proof.
  intros nb Hb Hsize Hsz Hmax Hmb Hmn Hfn Hnb Hnnb Hn0. unfold sizeof_meta in *.
  assert (Hnbb : nb ≠ b) by lia. assert (Hnb0 : nb ≠ 0) by lia. assert (Hb0 : b ≠ 0) by lia.
  unfold split, sizeof_meta. rewrite (u32_small (b + size + 16)) by lia. fold nb. cbv zeta.
  mstep_mem. rewrite (bind_Done _ _ _ _ _ (stm_done _ _ _ Hnb0)).
  set (m0 := default _ _). do 9 mstep_mem.
  rewrite (u32_small (sz - size - 16)) by lia.
  replace (u32 (sz - (sz - size - 16 + 16))) with size by (rewrite u32_small; lia).
  do 2 mstep_mem. rewrite Hfn. eexists. split; [reflexivity|]. cbn.
  split; [mlook|]. split; [mlook|]. split; [mlook|].
  intros c ? ? ?. by rewrite !lookup_insert_ne by congruence.
Qed.

Lemma naf_weaken f ns : no_adjacent_free f ns -> no_adjacent_free false ns.
Proof. destruct ns as [|[b [sz g]] ns]; cbn; [done|]. intros [_ ?]. by destruct f. Qed.

Definition flag_after (f : bool) ns : bool :=
  match last ns with Some x => free_flag (Some x) | None => f end.

Lemma naf_mid f ns1 Y ns2 :
  no_adjacent_free f (ns1 ++ Y ++ ns2) <->
  no_adjacent_free f ns1 ∧ no_adjacent_free (flag_after f ns1) Y ∧
  no_adjacent_free (flag_after (flag_after f ns1) Y) ns2.
Proof. rewrite no_adj_app, no_adj_app. done. Qed.

Lemma tiles_mid a ns1 b sz f ns2 e :
  tiles a (ns1 ++ [(b, (sz, f))] ++ ns2) e <->
  tiles a ns1 b ∧ (0 <= sz ∧ sz mod 4 = 0) ∧ (f = 0 ∨ f = 1) ∧ tiles (b + sizeof_meta + sz) ns2 e.
Proof. rewrite tiles_app. cbn. naive_solver. Qed.

(** Marking or cutting a free block adds one allocated block. *)
Lemma mem_cut ns1 ns2 b sz n nb r c k f :
  truth f = false ->
  (c, (k, f)) ∈ ns1 ++ [(b, (n, 0)); (nb, (r, 1))] ++ ns2 <->
    c = b ∧ k = n ∧ f = 0 ∨ (c, (k, f)) ∈ ns1 ++ [(b, (sz, 1))] ++ ns2.
Proof.
  intros Hf. rewrite !elem_of_app, !elem_of_cons, elem_of_nil. split.
  - intros [?|[[Heq|[Heq|[]]]|?]]; [auto| | |auto].
    + injection Heq as -> -> ->. auto.
    + injection Heq as _ _ ->. done.
  - intros [(-> & -> & ->)|[?|[[Heq|[]]|?]]]; [auto|auto| |auto].
    injection Heq as _ _ ->. done.
Qed.

Lemma mem_mark ns1 ns2 b n c k f :
  truth f = false ->
  (c, (k, f)) ∈ ns1 ++ [(b, (n, 0))] ++ ns2 <->
    c = b ∧ k = n ∧ f = 0 ∨ (c, (k, f)) ∈ ns1 ++ [(b, (n, 1))] ++ ns2.
Proof.
  intros Hf. rewrite !elem_of_app, !elem_of_cons, elem_of_nil. split.
  - intros [?|[[Heq|[]]|?]]; [auto| |auto]. injection Heq as -> -> ->. auto.
  - intros [(-> & -> & ->)|[?|[[Heq|[]]|?]]]; [auto|auto| |auto].
    injection Heq as _ _ ->. done.
Qed.

Lemma tiles_unique a ns1 b sz f ns2 e k g :
  tiles a (ns1 ++ [(b, (sz, f))] ++ ns2) e ->
  (b, (k, g)) ∈ ns1 ++ [(b, (sz, f))] ++ ns2 -> k = sz ∧ g = f.
Proof.
  rewrite tiles_mid, !elem_of_app, elem_of_cons, elem_of_nil.
  intros (Ht1 & ? & _ & Ht2) [Hin|[[Heq|[]]|Hin]].
  - destruct (tiles_in _ _ _ _ _ _ Ht1 Hin). unfold sizeof_meta in *. lia.
  - naive_solver.
  - destruct (tiles_in _ _ _ _ _ _ Ht2 Hin). unfold sizeof_meta in *. lia.
Qed.

Lemma take_spec st ns1 b sz ns2 start e size :
  let ns := ns1 ++ [(b, (sz, 1))] ++ ns2 in
  blocks_ok st ns start e -> 0 <= size <= sz -> size mod 4 = 0 ->
  ∃ h ns' n, take_block b size st = Done (u32 (b + sizeof_meta)) (set_metas h st) ∧
    blocks_ok (set_metas h st) ns' start e ∧ size <= n ∧ (b, (n, 0)) ∈ ns' ∧
    used ns' = <[b + sizeof_meta := n]> (used ns) ∧ used ns !! (b + sizeof_meta) = None.
Proof.
  intros ns Hok Hsize Hal. subst ns.
  pose proof (blocks_range _ _ _ _ Hok) as (Hs & He & Hrange).
  destruct (Hrange b sz 1) as (Hbt & _ & _ & Hbe); [rewrite !elem_of_app, elem_of_cons; auto|].
  pose proof statics_pos. pose proof statics_ne.
  pose proof (ok_tiles _ _ _ _ Hok) as Ht. pose proof (ok_naf _ _ _ _ Hok) as Hnaf.
  pose proof Ht as Ht'. apply tiles_mid in Ht' as (Ht1 & [_ Hal'] & _ & Ht2).
  pose proof Hnaf as Hnaf'. rewrite naf_mid in Hnaf'. cbn in Hnaf'. destruct Hnaf' as (Hn1 & _ & Hn2).
  destruct (rep_neighbours _ _ _ _ _ _ (ok_rep _ _ _ _ Hok))
    as (p & sp & fp & pp & n & sn & fn & nn & Hmp & Hmb & Hmn & Hpb & Hnb & Hpn & Hpc & Hnc).
  assert (Hfn : truth fn = false).
  { destruct Hnc as [(_ & _ & _ & ->)|[ns2' ->]]; [done|]. cbn in Hn2. naive_solver. }
  assert (Hnpos : n ≠ 0 ∧ (n < b ∨ b + sizeof_meta + sz <= n)).
  { destruct Hnc as [(_ & -> & _)|[ns2' ->]]; [lia|].
    destruct (Hrange n sn fn) as (? & _); [rewrite !elem_of_app, !elem_of_cons; auto|].
    destruct (tiles_in _ _ _ _ _ _ Ht2 (list_elem_of_here _ _)). unfold sizeof_meta in *. lia. }
  set (h1 := <[b := Meta sz 0 p n]> (metas st)).
  assert (Hrep1 : rep h1 (ns1 ++ [(b, (sz, 0))] ++ ns2)).
  { eapply rep_flag; [exact (ok_rep _ _ _ _ Hok)|exact Hmb|by apply lookup_insert_eq|].
    intros c Hc. by apply lookup_insert_ne. }
  assert (Ht1' : tiles start (ns1 ++ [(b, (sz, 0))] ++ ns2) e) by (apply tiles_mid; split; [done|]; split; [lia|]; split; [by left|done]).
  unfold take_block. assert (Hb0 : b ≠ 0) by lia. do 2 mstep_mem. fold h1.
  rewrite (u32_small (sz - size)) by (unfold sizeof_meta in *; lia).
  destruct (Z.leb_spec (4 + sizeof_meta) (sz - size)).
  - destruct (split_run (set_metas h1 st) b size sz p n sn fn nn) as (h & Hrun & Hb' & Hnb' & Hn' & Hout);
      [lia|lia|lia|lia|by apply lookup_insert_eq|cbn; unfold h1; by rewrite lookup_insert_ne|done|done| |lia|].
    { unfold sizeof_meta in *. lia. }
    mstep Hrun. set (nb := b + size + sizeof_meta) in *.
    set (ns' := ns1 ++ [(b, (size, 0)); (nb, (sz - size - sizeof_meta, 1))] ++ ns2).
    assert (Ht' : tiles start ns' e).
    { unfold ns'. apply tiles_app. exists b. split; [done|]. cbn. unfold nb, sizeof_meta in *.
      split_and!; try lia; [zdm|]. by replace (b + 16 + size + 16 + (sz - size - 16)) with (b + 16 + sz) by lia. }
    exists h, ns', size. split; [done|]. split; [|split; [lia|split]].
    + eapply (blocks_rewrite st); [exact Hok|by destruct ns1| |done|].
      * eapply rep_split; [exact Hrep1|by eapply blocks_nodup|by apply lookup_insert_eq| |
          exact Hb'|exact Hnb'|exact Hn'|exact Hout].
        unfold h1. by rewrite lookup_insert_ne.
      * unfold ns'. rewrite naf_mid. cbn. by rewrite andb_false_r.
    + unfold ns'. rewrite !elem_of_app, elem_of_cons. auto.
    + eapply used_insert; [exact Ht|exact Ht'|unfold ns'; rewrite !elem_of_app, elem_of_cons; auto|..].
      * intros c k f Hf. by apply mem_cut.
      * intros k f Hf Hin. destruct (tiles_unique _ _ _ _ _ _ _ _ _ Ht Hin) as [_ ->]. done.
  - rewrite bind_ret. exists h1, (ns1 ++ [(b, (sz, 0))] ++ ns2), sz.
    split; [done|]. split; [|split; [lia|split]].
    + eapply (blocks_rewrite st); [exact Hok|by destruct ns1|done..|].
      rewrite naf_mid. cbn. split; [done|]. split; [by rewrite andb_false_r|]. by eapply naf_weaken.
    + rewrite !elem_of_app, elem_of_cons. auto.
    + eapply used_insert; [exact Ht|exact Ht1'|rewrite !elem_of_app, elem_of_cons; auto|..].
      * intros c k f Hf. by apply mem_mark.
      * intros k f Hf Hin. destruct (tiles_unique _ _ _ _ _ _ _ _ _ Ht Hin) as [_ ->]. done.
Qed.
End taking_more.

(** ** Growing the heap *)

Section growing.
Context {MS : Type} `{!Sbrk MS} `{!Statics}.
Implicit Types (st : mstate MS) (ns : list (Z * (Z * Z))).

Definition set_sys (m : MS) st : mstate MS := MState (metas st) (alloc_end st) (data st) m.

Lemma sbrk_query_run st :
  sb_ok (sys st) -> sbrk 0 st = Done (u32 (sb_end (sys st))) st.
Proof. intros Hok. unfold sbrk. rewrite sbrk_query by done. by destruct st. Qed.

(** One iteration of the growing loop. *)
Lemma grow_test st e size :
  sb_ok (sys st) -> alloc_end st = u32 e -> 0 < e <= sb_end (sys st) -> 0 <= size < 2 ^ 32 - sizeof_meta ->
  (u32 (u32 (sb_end (sys st)) - alloc_end st) <? u32 (size + sizeof_meta))
  = (sb_end (sys st) - e <? size + sizeof_meta).
Proof.
  intros Hok -> He Hsize. pose proof (sb_end_range _ Hok). unfold sizeof_meta in *.
  rewrite (u32_small (size + 16)) by lia. f_equal.
  replace (u32 (u32 (sb_end (sys st)) - u32 e)) with (u32 (sb_end (sys st) - e)).
  - apply u32_small. lia.
  - unfold u32. by rewrite <- Zminus_mod.
Qed.

Lemma sbrk_wp P st Q :
  wp P (sbrk_ 0x1000) (sys st) (λ p m, Q p (set_sys m st)) -> wp P (sbrk PAGE_SIZE) st Q.
Proof. unfold wp, sbrk, PAGE_SIZE. by destruct (sbrk_ 0x1000 (sys st)). Qed.

Lemma grow_spec st e size :
  sb_ok (sys st) -> alloc_end st = u32 e -> 0 < e <= sb_end (sys st) ->
  0 <= size < 2 ^ 32 - sizeof_meta ->
  wp True (grow size) st (λ ok st', ∃ m, st' = set_sys m st ∧ sb_ok m ∧
    sb_end (sys st) <= sb_end m ∧ (ok = true -> e + size + sizeof_meta <= sb_end m)).
Proof.
  intros Hok Hae He Hsize.
  apply (wp_while True _ (λ _ s, ∃ m, s = set_sys m st ∧ sb_ok m ∧ sb_end (sys st) <= sb_end m)
    (λ _ s, Z.to_nat (2 ^ 32 - sb_end (sys s)))).
  - intros [] s (m & -> & Hm & Hle).
    assert (Hae' : alloc_end (set_sys m st) = u32 e) by done.
    eapply wp_step; [by apply sbrk_query_run|]. eapply wp_step; [done|]. cbv beta.
    rewrite (grow_test (set_sys m st) e) by (done || (cbn; lia)). cbn [sys set_sys].
    destruct (Z.ltb_spec (sb_end m - e) (size + sizeof_meta)).
    + apply wp_bind, sbrk_wp. cbn [sys set_sys].
      eapply wp_mono; [by apply sbrk_grow|]. intros p m' (Hm' & Hle' & Hgrow).
      apply wp_ret. pose proof (sb_end_range _ Hm). pose proof (sb_end_range _ Hm').
      destruct (Z.eqb_spec p 0xFFFFFFFF).
      * exists m'. split; [done|]. split; [done|]. split; [lia|done].
      * split; [exists m'; split; [done|]; split; [done|lia]|]. cbn. specialize (Hgrow n). lia.
    + apply wp_ret. exists m. split; [done|]. split; [done|]. split; [done|]. intros _. lia.
  - pose proof (sb_end_range _ Hok). pose proof word_fuel_Z. lia.
  - exists (sys st). by destruct st.
Qed.

(** A small request with a page of room is granted. *)
Lemma grow_room st e size :
  sb_ok (sys st) -> alloc_end st = u32 e -> 0 < e <= sb_end (sys st) ->
  0 <= size <= 0x1000 - sizeof_meta -> sb_end (sys st) + 0x1000 <= 2 ^ 32 ->
  ∃ m, grow size st = Done true (set_sys m st) ∧ sb_ok m ∧
    sb_end m <= sb_end (sys st) + 0x1000 ∧ sb_end (sys st) <= sb_end m ∧
    e + size + sizeof_meta <= sb_end m.
Proof.
  intros Hok Hae He Hsize Hroom. unfold sizeof_meta in *.
  assert (Htest : ∀ m, sb_ok m -> sb_end (sys st) <= sb_end m ->
    (u32 (u32 (sb_end m) - alloc_end st) <? u32 (size + sizeof_meta))
    = (sb_end m - e <? size + sizeof_meta)).
  { intros m Hm Hle. apply (grow_test (set_sys m st) e); (done || cbn; unfold sizeof_meta; lia). }
  unfold sizeof_meta in *.
  destruct (Z.ltb_spec (sb_end (sys st) - e) (size + 16)) as [Hlt|Hge].
  - pose proof (sbrk_room _ Hok Hroom) as Hp. apply wp_Done in Hp as (p & m & Hrun & Hp & Hm & Hend).
    exists m. split; [|split; [done|lia]]. eapply (runs_while _ 2); [|pose proof word_fuel_Z; lia].
    eapply (runs_step _ _ _ _ tt (set_sys m st)).
    + mstep (sbrk_query_run _ Hok). mrun. unfold sizeof_meta. rewrite Htest by (done || lia).
      rewrite (proj2 (Z.ltb_lt _ _)) by done.
      unfold mbind at 1, M_bind, sbrk, PAGE_SIZE. rewrite Hrun.
      by rewrite (proj2 (Z.eqb_neq _ _)).
    + apply runs_end. mstep (sbrk_query_run (set_sys m st) Hm). mrun. cbn [sys set_sys alloc_end].
      unfold sizeof_meta. rewrite Htest by (done || lia). by rewrite (proj2 (Z.ltb_ge _ _)) by lia.
  - exists (sys st). split; [|split; [done|lia]]. eapply (runs_while _ 1); [|pose proof word_fuel_Z; lia].
    apply runs_end. mstep (sbrk_query_run _ Hok). mrun. unfold sizeof_meta.
    rewrite Htest by (done || lia). rewrite (proj2 (Z.ltb_ge _ _)) by done. by destruct st.
Qed.
End growing.

Section extending.
Context {MS : Type} `{!Sbrk MS} `{!Statics}.
Implicit Types (st : mstate MS) (ns : list (Z * (Z * Z))).

(** The last block and the tail. *)
Lemma rep_tail h ns : rep h ns -> ∃ p sp fp pp,
  h !! tail_addr = Some (Meta 0 0 p 0) ∧ h !! p = Some (Meta sp fp pp tail_addr) ∧
  p ≠ tail_addr ∧ (p = head_addr ∨ p ∈ ns.*1).
Proof.
  intros [Hseg Hnd].
  destruct (chain_around ns []) as (pre & p & [sp fp] & n & dn & post & Hc & Hp & Hn).
  specialize (Hc []). rewrite !app_nil_r in Hc. rewrite Hc in Hseg, Hnd.
  destruct Hn as [(-> & _ & -> & ->)|(? & ? & _)]; [|done].
  unfold seg in Hseg. rewrite app_nil_r, dseg_app in Hseg. cbn in Hseg.
  destruct Hseg as [_ (([] & E1 & ? & ? & ?) & ([] & E2 & ? & ? & ?) & _)]. cbn in *.
  exists p, sp, fp, (last_of 0 pre). split; [naive_solver|]. split; [naive_solver|]. split.
  - rewrite fmap_app in Hnd. apply NoDup_app in Hnd as (_ & _ & Hnd). cbn in Hnd.
    apply NoDup_cons in Hnd as [Hnotin _]. intros ->. apply Hnotin. set_solver.
  - destruct Hp as [(_ & _ & ->)|[ns' ->]]; [by left|right]. rewrite fmap_app. set_solver.
Qed.

(** The instructions of [extend] after the heap has grown. *)
Definition append_block (newBlock size : Z) : M (mstate MS) Z :=
  stm newBlock (set_mnext tail_addr);;
  t ← ldm tail_addr;
  stm newBlock (set_mprev (m_prev t));;
  n ← ldm newBlock;
  stm (m_prev n) (set_mnext newBlock);;
  stm tail_addr (set_mprev newBlock);;
  stm newBlock (set_free 0);;
  stm newBlock (set_msize size);;
  set_alloc_end (u32 (newBlock + (size + sizeof_meta)));;
  mret (u32 (newBlock + sizeof_meta)).

(** What [malloc] may do to the blocks. *)
Definition malloc_post st ns (start size p : Z) (st' : mstate MS) : Prop :=
  data st' = data st ∧
  (p = 0 ∧ (∃ e, blocks_ok st' ns start e) ∨
  ∃ b n ns' e, p = u32 (b + sizeof_meta) ∧ blocks_ok st' ns' start e ∧ size <= n ∧
    (b, (n, 0)) ∈ ns' ∧ used ns' = <[b + sizeof_meta := n]> (used ns) ∧
    used ns !! (b + sizeof_meta) = None).

Lemma append_spec st ns start e size :
  blocks_ok st ns start e -> alloc_end st = u32 e -> 0 <= size -> size mod 4 = 0 ->
  e + size + sizeof_meta <= sb_end (sys st) ->
  ∃ st', append_block e size st = Done (u32 (e + sizeof_meta)) st' ∧ sys st' = sys st ∧
    malloc_post st ns start size (u32 (e + sizeof_meta)) st'.
Proof.
  intros Hok Hae Hsize Hal Hend. pose proof (ok_sys _ _ _ _ Hok) as Hsys.
  pose proof (sb_end_range _ Hsys). pose proof (ok_tiles _ _ _ _ Hok) as Ht.
  pose proof (tiles_le _ _ _ Ht). pose proof (ok_low _ _ _ _ Hok).
  pose proof statics_pos. pose proof statics_ne.
  destruct (rep_tail _ _ (ok_rep _ _ _ _ Hok)) as (p & sp & fp & pp & Hmt & Hmp & Hpt & Hpin).
  assert (He0 : e ≠ 0) by (unfold sizeof_meta in *; lia).
  assert (Het : e ≠ tail_addr) by (unfold sizeof_meta in *; lia).
  assert (Hp : p ≠ e ∧ p ≠ 0).
  { unfold sizeof_meta in *. destruct Hpin as [->|Hin]; [lia|].
    pose proof (tiles_addr _ _ _ _ Ht Hin). lia. }
  destruct Hp as [Hpe Hp0]. assert (Ht0 : tail_addr ≠ 0) by lia.
  assert (Ht' : tiles start (ns ++ [(e, (size, 0))]) (e + sizeof_meta + size)).
  { apply tiles_app. exists e. split; [done|]. cbn. split_and!; [done|done|done|by left|done]. }
  unfold append_block. rewrite (bind_Done _ _ _ _ _ (stm_done _ _ _ He0)).
  set (m0 := default _ _). do 7 mstep_mem. eexists. split; [reflexivity|]. split; [done|].
  split; [done|]. right. exists e, size, (ns ++ [(e, (size, 0))]), (e + sizeof_meta + size). split; [done|].
  split; [|split; [done|split; [set_solver|]]].
  - split; cbn; try done.
    + eapply (rep_append (metas st)); [apply (ok_rep _ _ _ _ Hok)| |exact Hmt|exact Hmp|mlook|mlook|mlook|].
      * eapply chain_nodup; [|exact Ht']. unfold sizeof_meta in *. lia.
      * intros c ? ? ?. by rewrite !lookup_insert_ne by congruence.
    + apply no_adj_app. split; [apply (ok_naf _ _ _ _ Hok)|]. cbn. by rewrite andb_false_r.
    + apply (ok_aligned _ _ _ _ Hok).
    + unfold sizeof_meta in *. lia.
    + left. f_equal. lia.
  - eapply used_insert; [exact Ht|exact Ht'|set_solver|..].
    + intros c k f Hf. rewrite elem_of_app, elem_of_cons, elem_of_nil. naive_solver.
    + intros k f _ Hin. destruct (tiles_in _ _ _ _ _ _ Ht Hin). unfold sizeof_meta in *. lia.
Qed.

(** Setting [alloc_end] on the first call. *)
Definition first_end (st : mstate MS) : mstate MS :=
  if alloc_end st =? 0 then MState (metas st) (u32 (sb_end (sys st))) (data st) (sys st) else st.

Lemma first_end_data st : data (first_end st) = data st.
Proof. unfold first_end. by destruct (alloc_end st =? 0). Qed.

Lemma first_end_ok st ns start e :
  blocks_ok st ns start e ->
  blocks_ok (first_end st) ns start e ∧ alloc_end (first_end st) = u32 e ∧ sys (first_end st) = sys st.
Proof.
  intros Hok. pose proof Hok as [? Ht ? Hlow Hal Hsys Hend Hae]. unfold first_end.
  assert (He : alloc_end st = 0 -> e = sb_end (sys st)).
  { intros Hz. destruct Hae as [Hae|(_ & _ & Hae)]; [|done]. rewrite Hz in Hae.
    pose proof (sb_end_range _ Hsys). pose proof (tiles_le _ _ _ Ht).
    pose proof statics_pos. pose proof statics_ne. unfold u32, sizeof_meta in *. zdm. }
  destruct (Z.eqb_spec (alloc_end st) 0) as [Hz|Hz].
  - rewrite <- He by exact Hz. split; [split; cbn; try assumption; by left|by split].
  - split; [exact Hok|]. split; [|done]. destruct Hae as [|[]]; done.
Qed.

Lemma blocks_set_sys st ns start e m :
  blocks_ok st ns start e -> alloc_end st = u32 e -> sb_ok m -> sb_end (sys st) <= sb_end m ->
  blocks_ok (set_sys m st) ns start e.
Proof.
  intros [Hr Ht Hn Hl Hal _ He _] Hae Hm Hle.
  constructor; cbn; [exact Hr|exact Ht|exact Hn|exact Hl|exact Hal|exact Hm|lia|by left].
Qed.

Lemma extend_first size st :
  sb_ok (sys st) -> extend size st = (ok ← grow size;
    if negb ok then mret 0 else s ← get; append_block (alloc_end s) size) (first_end st).
Proof.
  intros Hok. unfold extend. mrun. unfold first_end, append_block.
  destruct (alloc_end st =? 0); [|rewrite bind_ret; reflexivity].
  rewrite bind_assoc, (bind_Done _ _ _ _ _ (sbrk_query_run st Hok)).
  unfold set_alloc_end at 1. mrun. reflexivity.
Qed.

Lemma extend_spec st ns start e size :
  blocks_ok st ns start e -> 0 <= size < 2 ^ 32 - sizeof_meta -> size mod 4 = 0 ->
  wp True (extend size) st (malloc_post st ns start size).
Proof.
  intros Hok Hsize Hal. destruct (first_end_ok _ _ _ _ Hok) as (Hok1 & Hae1 & Hsys1).
  unfold wp. rewrite extend_first by apply (ok_sys _ _ _ _ Hok).
  change (wp True (ok ← grow size; if negb ok then mret 0 else s ← get; append_block (alloc_end s) size)
    (first_end st) (malloc_post st ns start size)).
  pose proof (blocks_range _ _ _ _ Hok1) as (Hs & He & _).
  pose proof (tiles_le _ _ _ (ok_tiles _ _ _ _ Hok1)).
  apply wp_bind. eapply wp_mono.
  { apply (grow_spec _ e); [apply (ok_sys _ _ _ _ Hok1)|done| |done].
    pose proof (ok_end _ _ _ _ Hok1). lia. }
  intros ok s' (m & -> & Hm & Hle & Hgrown).
  assert (Hok2 : blocks_ok (set_sys m (first_end st)) ns start e) by (by apply blocks_set_sys).
  destruct ok; cbn [negb].
  - destruct (append_spec _ _ _ _ size Hok2 Hae1 ltac:(lia) Hal (Hgrown eq_refl)) as (st' & Hrun & _ & Hdata & Hpost).
    assert (malloc_post st ns start size (u32 (e + sizeof_meta)) st') as Hpost'.
    { split; [rewrite Hdata; apply first_end_data|exact Hpost]. }
    eapply wp_step; [done|]. cbv beta. eapply wp_done; [|exact Hpost']. cbn [alloc_end set_sys].
    rewrite Hae1 in *. rewrite <- Hrun. f_equal. unfold sizeof_meta in *.
    specialize (Hgrown eq_refl). pose proof (sb_end_range _ Hm). apply u32_small. lia.
  - apply wp_ret. split; [apply first_end_data|]. left. split; [done|]. by exists e.
Qed.
End extending.

(** ** Freeing *)

Section freeing.
Context {MS : Type} `{!Sbrk MS} `{!Statics}.
Implicit Types (st : mstate MS) (ns : list (Z * (Z * Z))).

Lemma used_delete a ns ns' e b :
  tiles a ns e -> tiles a ns' e ->
  (∀ c k f, truth f = false -> (c, (k, f)) ∈ ns' <-> (c, (k, f)) ∈ ns ∧ c ≠ b) ->
  used ns' = delete (b + sizeof_meta) (used ns).
Proof.
  intros Ht Ht' Hiff. apply map_eq. intros q. apply option_eq. intros k.
  rewrite lookup_delete_Some, (used_lookup _ _ _ _ _ Ht), (used_lookup _ _ _ _ _ Ht'). split.
  - intros (c & f & -> & Hin & Hf). apply (Hiff _ _ _ Hf) in Hin as [Hin Hne].
    split; [lia|]. by exists c, f.
  - intros (Hne & c & f & -> & Hin & Hf). exists c, f. split; [done|]. split; [|done].
    apply Hiff; [done|]. split; [done|]. by intros ->.
Qed.

(** The second half of [free]: join with the next block. *)
Definition join_next (block : Z) : M (mstate MS) unit :=
  b ← ldm block;
  n ← ldm (m_next b);
  if truth (m_free n) then
    stm (m_next n) (set_mprev block);;
    b ← ldm block; n ← ldm (m_next b);
    stm block (add_msize (m_size n + sizeof_meta));;
    b ← ldm block; n ← ldm (m_next b);
    stm block (set_mnext (m_next n))
  else mret tt.

Lemma free_flag_one (f : Z) : (f = 0 ∨ f = 1) -> truth f = true -> f = 1.
Proof. by intros [->| ->]. Qed.

Lemma tiles_join a ns1 b sb fb n sn fn ns2 e :
  tiles a (ns1 ++ [(b, (sb, fb)); (n, (sn, fn))] ++ ns2) e ->
  tiles a (ns1 ++ [(b, (sb + (sn + sizeof_meta), fb))] ++ ns2) e.
Proof.
  rewrite tiles_app. cbn. intros (c & Ht1 & -> & ? & ? & -> & ? & ? & Ht2). apply tiles_mid.
  unfold sizeof_meta in *. split; [done|]. split; [zdm|]. split; [done|].
  by replace (c + 16 + (sb + (sn + 16))) with (c + 16 + sb + 16 + sn) by lia.
Qed.

(** Free blocks do not count among the allocated ones. *)
Lemma mem_free ns1 ns2 b n c k f :
  truth f = false -> (c, (k, f)) ∈ ns1 ++ [(b, (n, 1))] ++ ns2 <-> (c, (k, f)) ∈ ns1 ++ ns2.
Proof.
  intros Hf. rewrite !elem_of_app, elem_of_cons, elem_of_nil. split.
  - intros [?|[[Heq|[]]|?]]; [auto| |auto]. injection Heq as _ _ ->. done.
  - tauto.
Qed.

Lemma join_next_spec st m1 c sc ns2 start e :
  let ns := m1 ++ [(c, (sc, 1))] ++ ns2 in
  rep (metas st) ns -> tiles start ns e -> tail_addr < start -> e <= 2 ^ 32 ->
  no_adjacent_free false m1 -> flag_after false m1 = false -> no_adjacent_free false ns2 ->
  ∃ h ns', join_next c st = Done tt (set_metas h st) ∧ rep h ns' ∧ tiles start ns' e ∧
    no_adjacent_free false ns' ∧ ns' ≠ [] ∧
    ∀ d k f, truth f = false -> (d, (k, f)) ∈ ns' <-> (d, (k, f)) ∈ m1 ++ ns2.
Proof.
  intros ns Hrep Ht Hlow He Hn1 Hf1 Hn2. subst ns. pose proof statics_pos. pose proof statics_ne.
  destruct (rep_neighbours _ _ _ _ _ _ Hrep)
    as (p & sp & fp & pp & n & sn & fn & nn & Hmp & Hmc & Hmn & Hpc & Hnc & Hpn & _ & Hn).
  pose proof Ht as Ht0. apply tiles_mid in Ht0 as (Htm1 & Hsc & _ & Ht2).
  pose proof (tiles_le _ _ _ Htm1). assert (Hc0 : c ≠ 0) by lia.
  assert (Hn0 : n ≠ 0).
  { destruct Hn as [(_ & -> & _)|[ns2' ->]]; [lia|].
    destruct (tiles_in _ _ _ _ _ _ Ht2 (list_elem_of_here _ _)). unfold sizeof_meta in *. lia. }
  unfold join_next. do 2 mstep_mem. destruct (truth fn) eqn:Hfn.
  - destruct Hn as [(_ & _ & _ & ->)|[ns2' ->]]; [done|].
    cbn in Ht2. destruct Ht2 as (Hnaddr & Hsn & Hfn01 & Ht2'). apply free_flag_one in Hfn; [|done].
    subst fn. destruct Hn2 as [_ Hn2'].
    assert (Hrep' : rep (metas st) ((m1 ++ [(c, (sc, 1))]) ++ [(n, (sn, 1))] ++ ns2')) by (by rewrite <- app_assoc).
    destruct (rep_neighbours _ _ _ _ _ _ Hrep')
      as (p' & ? & ? & ? & q & sq & fq & nq & Hmp' & Hmn' & Hmq & _ & Hqn & Hpq & _ & Hq).
    rewrite Hmn in Hmn'. injection Hmn' as <- ->. clear Hmp'.
    assert (Hq0 : q ≠ 0).
    { destruct Hq as [(_ & -> & _)|[ns3 ->]]; [lia|].
      destruct (tiles_in _ _ _ _ _ _ Ht2' (list_elem_of_here _ _)). unfold sizeof_meta in *. lia. }
    do 7 mstep_mem. unfold set_mnext, set_mprev, add_msize. cbn [m_size m_free m_prev m_next].
    pose proof (tiles_join _ _ _ _ _ _ _ _ _ _ Ht) as Htj.
    pose proof (tiles_le _ _ _ Ht2').
    rewrite (u32_small (sc + (sn + sizeof_meta))) by (unfold sizeof_meta in *; lia).
    eexists _, (m1 ++ [(c, (sc + (sn + sizeof_meta), 1))] ++ ns2').
    split; [reflexivity|]. split; [|split; [done|split; [|split; [by destruct m1|]]]].
    + eapply rep_merge; [exact Hrep| |exact Hmc|exact Hmn|exact Hmq|mlook|mlook|].
      * eapply chain_nodup; [|exact Htj]. lia.
      * intros d ? ?. by rewrite !lookup_insert_ne by congruence.
    + rewrite naf_mid. cbn. by rewrite Hf1.
    + intros d k f Hf. rewrite mem_free by done. symmetry.
      apply (mem_free m1 ns2' n sn d k f Hf).
  - eexists (metas st), (m1 ++ [(c, (sc, 1))] ++ ns2).
    split; [by destruct st|]. split; [done|]. split; [done|]. split; [|split; [by destruct m1|]].
    + rewrite naf_mid. cbn. rewrite Hf1. split; [done|]. split; [done|].
      destruct Hn as [(-> & _)|[ns2' ->]]; [done|]. cbn. rewrite Hfn. cbn in Hn2. by rewrite Hfn in Hn2.
    + intros d k f Hf. by apply mem_free.
Qed.
End freeing.

Section freeing_more.
Context {MS : Type} `{!Sbrk MS} `{!Statics}.
Implicit Types (st : mstate MS) (ns : list (Z * (Z * Z))).

(** The first half of [free]: mark the block, join it to the previous one;
    returns the block that now holds it. *)
Definition join_prev (block : Z) : M (mstate MS) Z :=
  stm block (set_free 1);;
  b ← ldm block;
  p ← ldm (m_prev b);
  if truth (m_free p) then
    stm (m_next b) (set_mprev (m_prev b));;
    b ← ldm block;
    stm (m_prev b) (set_mnext (m_next b));;
    b ← ldm block;
    stm (m_prev b) (add_msize (m_size b + sizeof_meta));;
    b ← ldm block;
    mret (m_prev b)
  else mret block.

Lemma free_halves ptr st :
  ptr ≠ 0 -> free ptr st = (c ← join_prev (u32 (ptr - sizeof_meta)); join_next c) st.
Proof.
  intros Hp. unfold free. rewrite (proj2 (Z.eqb_neq _ _)) by done. unfold join_prev, join_next.
  cbv zeta. rewrite !bind_assoc. apply bind_ext; [done|]. intros [] s1 _.
  rewrite !bind_assoc. apply bind_ext; [done|]. intros b s2 _.
  rewrite !bind_assoc. apply bind_ext; [done|]. intros p s3 _. done.
Qed.

Lemma join_prev_spec st ns1 b sz ns2 start e :
  let ns := ns1 ++ [(b, (sz, 0))] ++ ns2 in
  blocks_ok st ns start e ->
  ∃ h m1 c sc, join_prev b st = Done c (set_metas h st) ∧
    rep h (m1 ++ [(c, (sc, 1))] ++ ns2) ∧ tiles start (m1 ++ [(c, (sc, 1))] ++ ns2) e ∧
    no_adjacent_free false m1 ∧ flag_after false m1 = false ∧ no_adjacent_free false ns2 ∧
    ∀ d k f, truth f = false -> (d, (k, f)) ∈ m1 <-> (d, (k, f)) ∈ ns1.
Proof.
  intros ns Hok. subst ns.
  pose proof (blocks_range _ _ _ _ Hok) as (Hs & He & Hrange).
  pose proof (ok_tiles _ _ _ _ Hok) as Ht. pose proof (ok_naf _ _ _ _ Hok) as Hnaf.
  pose proof (ok_low _ _ _ _ Hok) as Hlow. pose proof statics_pos. pose proof statics_ne.
  rewrite naf_mid in Hnaf. cbn in Hnaf. destruct Hnaf as (Hn1 & _ & Hn2).
  destruct (rep_neighbours _ _ _ _ _ _ (ok_rep _ _ _ _ Hok))
    as (p & sp & fp & pp & n & sn & fn & nn & Hmp & Hmb & Hmn & Hpb & Hnb & Hpn & Hpc & Hnc).
  pose proof Ht as Ht'. apply tiles_mid in Ht' as (Ht1 & Hsz & _ & Ht2).
  pose proof (tiles_le _ _ _ Ht1). pose proof (tiles_le _ _ _ Ht2).
  assert (Hb0 : b ≠ 0) by lia.
  assert (Hn0 : n ≠ 0).
  { destruct Hnc as [(_ & -> & _)|[ns2' ->]]; [lia|].
    destruct (tiles_in _ _ _ _ _ _ Ht2 (list_elem_of_here _ _)). unfold sizeof_meta in *. lia. }
  set (h1 := <[b := Meta sz 1 p n]> (metas st)).
  assert (Hrep1 : rep h1 (ns1 ++ [(b, (sz, 1))] ++ ns2)).
  { eapply rep_flag; [exact (ok_rep _ _ _ _ Hok)|exact Hmb|by apply lookup_insert_eq|].
    intros c Hc. by apply lookup_insert_ne. }
  assert (Htl : tiles start (ns1 ++ [(b, (sz, 1))] ++ ns2) e) by (apply tiles_mid; split; [done|]; split; [lia|]; split; [by right|done]).
  assert (Hp0 : p ≠ 0).
  { destruct Hpc as [(_ & -> & _)|[ns1' ->]]; [lia|].
    destruct (tiles_in _ _ _ p sp fp Ht1); [set_solver|]. lia. }
  unfold join_prev. do 3 mstep_mem.
  destruct (truth fp) eqn:Hfp.
  - destruct Hpc as [(_ & _ & _ & ->)|[ns1' ->]]; [done|].
    rewrite <- app_assoc in Hrep1, Htl. cbn [app] in Hrep1, Htl.
    pose proof (tiles_join start ns1' p sp fp b sz 1 ns2 e Htl) as Htj.
    rewrite no_adj_app in Hn1. cbn in Hn1. rewrite Hfp in Hn1. destruct Hn1 as (Hn1 & Hf1 & _).
    assert (fp = 1) as ->.
    { apply free_flag_one; [|done]. apply tiles_app in Ht1 as (? & _ & Ht1). cbn in Ht1. tauto. }
    do 6 mstep_mem. unfold set_mnext, set_mprev, add_msize, set_free. cbn [m_size m_free m_prev m_next].
    pose proof Htj as Htj'. apply tiles_mid in Htj' as (Htp & Hsp & _ & _). pose proof (tiles_le _ _ _ Htp).
    destruct (tiles_in _ _ _ p sp 1 Ht1) as (? & ? & ?); [set_solver|].
    rewrite (u32_small (sp + (sz + sizeof_meta))) by (unfold sizeof_meta in *; lia).
    eexists _, ns1', p, (sp + (sz + sizeof_meta)).
    split; [reflexivity|]. split; [|split; [done|split; [done|split; [|split; [done|]]]]].
    + eapply (rep_merge h1); [exact Hrep1| |unfold h1; mlook|unfold h1; mlook|unfold h1; mlook|mlook|mlook|].
      * eapply chain_nodup; [|exact Htj]. unfold sizeof_meta in *. lia.
      * intros d ? ?. unfold h1.
        destruct (decide (d = b)) as [->|]; [by mlook|]. by rewrite !lookup_insert_ne by congruence.
    + rewrite andb_true_r in Hf1. exact Hf1.
    + intros d k f Hf. symmetry. pose proof (mem_free ns1' [] p sp d k f Hf) as Hm.
      by rewrite !app_nil_r in Hm.
  - exists h1, ns1, b, sz. split; [reflexivity|]. split; [done|]. split; [done|]. split; [done|].
    split; [|done]. unfold flag_after.
    destruct Hpc as [(-> & _)|[ns1' ->]]; [done|]. rewrite last_snoc. exact Hfp.
Qed.

Lemma free_spec st ns1 b sz ns2 start e :
  let ns := ns1 ++ [(b, (sz, 0))] ++ ns2 in
  blocks_ok st ns start e ->
  ∃ h ns', free (b + sizeof_meta) st = Done tt (set_metas h st) ∧
    blocks_ok (set_metas h st) ns' start e ∧ used ns' = delete (b + sizeof_meta) (used ns).
Proof.
  intros ns Hok. subst ns. pose proof (blocks_range _ _ _ _ Hok) as (Hs & He & Hrange).
  destruct (Hrange b sz 0) as (Hb & ? & ? & ?); [rewrite !elem_of_app, elem_of_cons; auto|].
  pose proof statics_pos. pose proof statics_ne. pose proof (ok_low _ _ _ _ Hok).
  destruct (join_prev_spec _ _ _ _ _ _ _ Hok) as (h1 & m1 & c & sc & Hrun1 & Hrep1 & Ht1 & Hn1 & Hf1 & Hn2 & Hin1).
  destruct (join_next_spec (set_metas h1 st) m1 c sc ns2 start e)
    as (h & ns' & Hrun2 & Hrep2 & Ht2 & Hn' & Hne & Hin2); [done|done| |lia|done..|].
  { unfold sizeof_meta in *. lia. }
  exists h, ns'. rewrite free_halves by (unfold sizeof_meta in *; lia).
  replace (u32 (b + sizeof_meta - sizeof_meta)) with b by (rewrite u32_small; unfold sizeof_meta in *; lia).
  split; [by mstep Hrun1|]. split.
  - by eapply (blocks_rewrite st); [exact Hok|destruct ns1|..].
  - eapply used_delete; [apply (ok_tiles _ _ _ _ Hok)|exact Ht2|]. intros d k f Hf.
    rewrite (Hin2 _ _ _ Hf), elem_of_app, (Hin1 _ _ _ Hf).
    rewrite !elem_of_app, !elem_of_cons, elem_of_nil.
    pose proof (ok_tiles _ _ _ _ Hok) as Ht. apply tiles_mid in Ht as (Hta & _ & _ & Htb).
    split.
    + intros [Hin|Hin]; [destruct (tiles_in _ _ _ _ _ _ Hta Hin)|destruct (tiles_in _ _ _ _ _ _ Htb Hin)];
        unfold sizeof_meta in *; (split; [auto|lia]).
    + intros [[?|[[Heq|[]]|?]] Hne']; [auto|naive_solver|auto].
Qed.
End freeing_more.

(** ** [malloc] *)

Section malloc_spec.
Context {MS : Type} `{!Sbrk MS} `{!Statics}.
Implicit Types (st : mstate MS) (ns : list (Z * (Z * Z))).

Lemma align_spec sz : 0 <= sz <= max_request -> sz <= align sz <= max_request.
Proof.
  intros Hsz. unfold align, max_request in *. pose proof (Z.mod_pos_bound sz 4 ltac:(lia)).
  destruct (Z.eqb_spec (sz mod 4) 0); cbn [negb]; [lia|]. rewrite u32_small by lia. zdm.
Qed.

Lemma align_mult sz : align sz mod 4 = 0.
Proof. unfold align, u32. destruct (Z.eqb_spec (sz mod 4) 0); cbn [negb]; [done|zdm]. Qed.

Lemma malloc_unfold st ns start e sz :
  blocks_ok st ns start e ->
  malloc sz st = match first_fit (align sz) ns with
                 | Some b => take_block b (align sz) st
                 | None => extend (align sz) st
                 end.
Proof.
  intros Hok. unfold malloc. mstep (search_spec (align sz) _ _ _ _ Hok).
  by destruct (first_fit (align sz) ns).
Qed.

Lemma first_fit_take st ns start e size b :
  blocks_ok st ns start e -> 0 <= size -> size mod 4 = 0 -> first_fit size ns = Some b ->
  ∃ h, take_block b size st = Done (u32 (b + sizeof_meta)) (set_metas h st) ∧
    b + sizeof_meta <= e ∧ 0 < b ∧
    malloc_post st ns start size (u32 (b + sizeof_meta)) (set_metas h st).
Proof.
  intros Hok Hsize Hal (ns1 & sz & f & ns2 & -> & Hf & Hsz & _)%first_fit_Some.
  assert (f = 1) as ->.
  { pose proof (ok_tiles _ _ _ _ Hok) as Ht. apply tiles_mid in Ht as (_ & _ & ? & _).
    by apply free_flag_one. }
  pose proof (blocks_range _ _ _ _ Hok) as (Hs & He & Hrange). pose proof statics_pos. pose proof statics_ne.
  destruct (Hrange b sz 1) as (? & ? & ? & ?); [rewrite !elem_of_app, elem_of_cons; auto|].
  destruct (take_spec _ _ _ _ _ _ _ size Hok ltac:(lia) Hal) as (h & ns' & n & Hrun & Hok' & Hn & Hin & Hu & Hfr).
  exists h. split; [done|]. split; [lia|]. split; [lia|].
  split; [done|]. right. by exists b, n, ns', e.
Qed.

Lemma malloc_post_le st ns start size size' p st' :
  size' <= size -> malloc_post st ns start size p st' -> malloc_post st ns start size' p st'.
Proof.
  intros Hle [Hd [?|(b & n & ns' & e & ? & ? & ? & ?)]]; (split; [exact Hd|]); [by left|right].
  exists b, n, ns', e. split_and!; try done; [lia|tauto..].
Qed.

Lemma malloc_spec st ns start e sz :
  blocks_ok st ns start e -> 0 <= sz <= max_request ->
  wp True (malloc sz) st (malloc_post st ns start sz).
Proof.
  intros Hok Hsz. pose proof (align_spec sz Hsz). unfold wp.
  rewrite (malloc_unfold _ _ _ _ sz Hok). destruct (first_fit (align sz) ns) as [b|] eqn:Hff.
  - destruct (first_fit_take st ns start e (align sz) b Hok ltac:(lia) (align_mult _) Hff) as (h & -> & _ & _ & Hpost).
    eapply malloc_post_le; [|exact Hpost]. lia.
  - eapply (wp_mono True (extend (align sz)) st).
    + eapply extend_spec; [exact Hok|unfold max_request, sizeof_meta in *; lia|apply align_mult].
    + intros p s'. apply malloc_post_le. lia.
Qed.

(** A small request is granted while the break can move. *)
Lemma malloc_room st ns start e sz :
  blocks_ok st ns start e -> 0 <= sz <= small_block -> sb_end (sys st) + 0x1000 <= 2 ^ 32 ->
  ∃ p st', malloc sz st = Done p st' ∧ p ≠ 0 ∧
    sb_end (sys st') <= sb_end (sys st) + 0x1000.
Proof.
  intros Hok Hsz Hroom. pose proof (align_spec sz) as Hal.
  assert (align sz <= 512).
  { unfold small_block, align in *. pose proof (Z.mod_pos_bound sz 4 ltac:(lia)).
    destruct (Z.eqb_spec (sz mod 4) 0); cbn [negb]; [lia|]. rewrite u32_small by lia. zdm. }
  unfold small_block, max_request in *.
  rewrite (malloc_unfold _ _ _ _ sz Hok). pose proof (ok_end _ _ _ _ Hok).
  destruct (first_fit (align sz) ns) as [b|] eqn:Hff.
  - destruct (first_fit_take st ns start e (align sz) b Hok ltac:(lia) (align_mult _) Hff) as (h & Hrun & Hbe & Hb & _).
    exists (u32 (b + sizeof_meta)), (set_metas h st). split; [exact Hrun|].
    unfold sizeof_meta in *. rewrite u32_small by lia. split; [lia|cbn; lia].
  - destruct (first_end_ok _ _ _ _ Hok) as (Hok1 & Hae1 & Hsys1).
    rewrite extend_first by apply (ok_sys _ _ _ _ Hok).
    pose proof (blocks_range _ _ _ _ Hok1) as (Hs & He & _).
    pose proof (tiles_le _ _ _ (ok_tiles _ _ _ _ Hok1)).
    destruct (grow_room (first_end st) e (align sz)) as (m & Hrun & Hm & Hle & Hge & Hgrown);
      [apply (ok_sys _ _ _ _ Hok1)|done|rewrite Hsys1; lia|unfold sizeof_meta; lia|rewrite Hsys1; lia|].
    mstep Hrun. cbn [negb]. mrun. cbn [alloc_end set_sys]. rewrite Hae1.
    assert (Hok2 : blocks_ok (set_sys m (first_end st)) ns start e) by (by apply blocks_set_sys).
    destruct (append_spec _ _ _ _ (align sz) Hok2 Hae1 ltac:(lia) (align_mult sz) Hgrown) as (st' & Hrun' & Hsys & _).
    pose proof (sb_end_range _ Hm). unfold sizeof_meta in *.
    rewrite (u32_small e) by lia. exists (u32 (e + 16)), st'. split; [exact Hrun'|].
    rewrite (u32_small (e + 16)) by (rewrite Hsys1 in *; lia). rewrite Hsys. cbn [sys set_sys].
    rewrite Hsys1 in *. split; [lia|exact Hle].
Qed.
End malloc_spec.

(** ** The implementation of the allocator interface *)

Section implementation.
Context {MS : Type} `{!Sbrk MS} `{!Statics}.
Implicit Types (st : mstate MS) (ns : list (Z * (Z * Z))).

(** The blocks, read off the headers from [head.next] to [tail]. *)
Fixpoint walk (n : nat) (h : gmap Z meta) (a : Z) : list (Z * (Z * Z)) :=
  if a =? tail_addr then []
  else match n, h !! a with
       | S n', Some m => (a, (m_size m, m_free m)) :: walk n' h (m_next m)
       | _, _ => []
       end.
Definition blocks_of st : list (Z * (Z * Z)) :=
  match metas st !! head_addr with
  | Some m => walk (size (metas st)) (metas st) (m_next m)
  | None => []
  end.

Definition malloc_ok st : Prop := ∃ ns start e, blocks_ok st ns start e.
Definition malloc_live st : gmap Z Z := used (blocks_of st).
Definition malloc_rooms (n : nat) st : Prop :=
  sb_end (sys st) + 0x1000 * Z.of_nat n <= 2 ^ 32.

Lemma walk_seg n h p ns :
  seg h p ns tail_addr -> (tail_addr ∉ ns.*1) -> (length ns <= n)%nat ->
  walk n h (first_of ns tail_addr) = ns.
Proof.
  revert n p. induction ns as [|[b [sz f]] ns IH]; intros n p Hseg Ht Hn.
  - cbn. destruct n; cbn; by rewrite Z.eqb_refl.
  - destruct n as [|n]; cbn in Hn; [lia|]. destruct Hseg as [([] & Hb & Hnx & _ & Hpay) Hseg].
    cbn in *. rewrite (proj2 (Z.eqb_neq _ _)) by set_solver. rewrite Hb. cbn.
    injection Hpay as -> ->. rewrite Hnx. f_equal. eapply IH; [done|set_solver|lia].
Qed.

Lemma seg_size h p ns next : seg h p ns next -> NoDup ns.*1 -> (length ns <= size h)%nat.
Proof.
  intros Hseg Hnd. rewrite <- (length_fmap fst), <- (size_list_to_set (C := gset Z)) by done.
  rewrite <- (size_dom h). apply subseteq_size. intros a Ha%elem_of_list_to_set.
  destruct (dseg_lookup _ _ _ _ _ Hseg Ha) as [m Hm]. by apply elem_of_dom_2 in Hm.
Qed.

Lemma blocks_of_ok st ns start e : blocks_ok st ns start e -> blocks_of st = ns.
Proof.
  intros Hok. destruct (ok_rep _ _ _ _ Hok) as [Hseg Hnd].
  pose proof (blocks_range _ _ _ _ Hok) as (_ & _ & Hb).
  unfold chain, seg in Hseg. cbn [dseg] in Hseg. destruct Hseg as [(mh & Hh & Hnh & _) Hseg].
  rewrite first_of_app in Hnh. cbn in Hnh. apply dseg_app in Hseg as [Hseg _]. cbn in Hseg.
  unfold blocks_of. rewrite Hh, Hnh. eapply walk_seg; [exact Hseg| |].
  - intros ([c [sz f]] & Heq & Hin)%list_elem_of_fmap. apply Hb in Hin. cbn in *. lia.
  - eapply seg_size; [exact Hseg|]. eapply tiles_nodup, (ok_tiles _ _ _ _ Hok).
Qed.

Lemma tiles_disjoint a ns e b n f c k g :
  tiles a ns e -> (b, (n, f)) ∈ ns -> (c, (k, g)) ∈ ns -> b ≠ c ->
  b + sizeof_meta + n <= c ∨ c + sizeof_meta + k <= b.
Proof.
  revert a. induction ns as [|[d [sz h]] ns IH]; intros a; [set_solver|].
  cbn [tiles]. intros (-> & Hsz & _ & Ht) Hb Hc Hne.
  rewrite elem_of_cons in Hb, Hc. destruct Hb as [[= -> -> ->]|Hb], Hc as [[= -> -> ->]|Hc].
  - done.
  - destruct (tiles_in _ _ _ _ _ _ Ht Hc). lia.
  - destruct (tiles_in _ _ _ _ _ _ Ht Hb). lia.
  - by eapply IH.
Qed.

(** The result of a call that returned. *)
Lemma malloc_done st sz p st' :
  malloc_ok st -> 0 <= sz <= max_request -> malloc sz st = Done p st' ->
  malloc_ok st' ∧ data st' = data st ∧
  (p = 0 ∧ malloc_live st' = malloc_live st ∨
   ∃ b n, p = u32 (b + sizeof_meta) ∧ 0 < b ∧ b + sizeof_meta + n <= 2 ^ 32 ∧ sz <= n ∧
     malloc_live st !! (b + sizeof_meta) = None ∧
     malloc_live st' = <[b + sizeof_meta := n]> (malloc_live st) ∧
     ∀ q k, malloc_live st !! q = Some k ->
       b + sizeof_meta + n <= q - sizeof_meta ∨ q + k <= b).
Proof.
  intros (ns & start & e & Hok) Hsz Hrun.
  pose proof (malloc_spec st ns start e sz Hok Hsz) as Hs. unfold wp in Hs. rewrite Hrun in Hs.
  unfold malloc_live. rewrite (blocks_of_ok _ _ _ _ Hok).
  destruct Hs as [Hdata [(-> & e' & Hok')|(b & n & ns' & e' & -> & Hok' & Hn & Hin & Hu & Hnone)]].
  { split; [by exists ns, start, e'|]. split; [done|]. left. by rewrite (blocks_of_ok _ _ _ _ Hok'). }
  split; [by exists ns', start, e'|]. split; [done|]. right. rewrite (blocks_of_ok _ _ _ _ Hok').
  pose proof (blocks_range _ _ _ _ Hok') as (? & ? & Hrange).
  destruct (Hrange b n 0 Hin) as (? & ? & ? & ?). pose proof statics_pos. pose proof statics_ne.
  exists b, n. split; [done|]. split; [lia|]. split; [lia|]. split; [done|]. split; [done|].
  split; [done|]. intros q k Hq.
  assert (used ns' !! q = Some k) as Hq'.
  { rewrite Hu, lookup_insert_ne; [done|]. intros <-. congruence. }
  apply (used_lookup _ _ _ _ _ (ok_tiles _ _ _ _ Hok')) in Hq' as (c & f & -> & Hc & _).
  assert (b ≠ c) by (intros ->; congruence).
  destruct (tiles_disjoint _ _ _ _ _ _ _ _ _ (ok_tiles _ _ _ _ Hok') Hin Hc); [done|left; lia|right; lia].
Qed.

Lemma free_done st p sz :
  malloc_ok st -> malloc_live st !! p = Some sz ->
  ∃ h, free p st = Done tt (set_metas h st) ∧ malloc_ok (set_metas h st) ∧
    malloc_live (set_metas h st) = delete p (malloc_live st).
Proof.
  intros (ns & start & e & Hok) Hp. unfold malloc_live in *.
  rewrite (blocks_of_ok _ _ _ _ Hok) in *. pose proof (ok_tiles _ _ _ _ Hok) as Ht.
  apply (used_lookup _ _ _ _ _ Ht) in Hp as (b & f & -> & Hin & Hf).
  apply list_elem_of_split in Hin as (ns1 & ns2 & ->).
  assert (f = 0) as ->.
  { apply (tiles_mid start ns1 b sz f ns2 e) in Ht as (_ & _ & [->| ->] & _); done. }
  destruct (free_spec st ns1 b sz ns2 start e Hok) as (h & ns' & Hrun & Hok' & Hu).
  exists h. split; [exact Hrun|]. split; [by exists ns', start, e|].
  by rewrite (blocks_of_ok _ _ _ _ Hok').
Qed.

(** The header in front of an allocated block. *)
Lemma live_header st p n :
  malloc_ok st -> malloc_live st !! p = Some n ->
  0 < p - sizeof_meta ∧ 0 <= n ∧ p + n <= 2 ^ 32 ∧
  ∃ m, metas st !! (p - sizeof_meta) = Some m ∧ m_size m = n.
Proof.
  intros (ns & start & e & Hok) Hp. unfold malloc_live in Hp.
  rewrite (blocks_of_ok _ _ _ _ Hok) in Hp. pose proof (blocks_range _ _ _ _ Hok) as (_ & He & Hrange).
  apply (used_lookup _ _ _ _ _ (ok_tiles _ _ _ _ Hok)) in Hp as (b & f & -> & Hin & Hf).
  destruct (Hrange _ _ _ Hin) as (? & ? & ? & ?). pose proof statics_pos. pose proof statics_ne.
  replace (b + sizeof_meta - sizeof_meta) with b by lia.
  split; [lia|]. split; [lia|]. split; [lia|].
  apply list_elem_of_split in Hin as (ns1 & ns2 & ->).
  destruct (rep_neighbours _ _ _ _ _ _ (ok_rep _ _ _ _ Hok)) as (p & ? & ? & ? & q & ? & ? & ? & _ & Hm & _).
  by eexists.
Qed.

(** Where the allocated blocks lie. *)
Lemma live_range st p n :
  malloc_ok st -> malloc_live st !! p = Some n ->
  tail_addr + sizeof_meta < p ∧ 0 <= n ∧ p + n <= 2 ^ 32.
Proof.
  intros (ns & start & e & Hok) Hp. unfold malloc_live in Hp.
  rewrite (blocks_of_ok _ _ _ _ Hok) in Hp. pose proof (blocks_range _ _ _ _ Hok) as (_ & He & Hrange).
  apply (used_lookup _ _ _ _ _ (ok_tiles _ _ _ _ Hok)) in Hp as (b & f & -> & Hin & _).
  pose proof (ok_low _ _ _ _ Hok). destruct (Hrange _ _ _ Hin). unfold sizeof_meta in *. lia.
Qed.

(** Sizes and headers are multiples of a word, and so are blocks. *)
Lemma tiles_aligned a ns e b sz f : tiles a ns e -> a mod 4 = 0 -> (b, (sz, f)) ∈ ns -> b mod 4 = 0.
Proof.
  revert a. induction ns as [|[c [sz' f']] ns IH]; intros a; [by intros _ _ ?%elem_of_nil|].
  intros (-> & [_ Hsz] & _ & Ht) Ha [[= -> _ _]|Hin]%elem_of_cons; [done|].
  apply (IH _ Ht); [|done]. unfold sizeof_meta. zdm.
Qed.

Lemma live_aligned st p n : malloc_ok st -> malloc_live st !! p = Some n -> p mod 4 = 0.
Proof.
  intros (ns & start & e & Hok) Hp. unfold malloc_live in Hp. rewrite (blocks_of_ok _ _ _ _ Hok) in Hp.
  apply (used_lookup _ _ _ _ _ (ok_tiles _ _ _ _ Hok)) in Hp as (b & f & -> & Hin & _).
  pose proof (tiles_aligned _ _ _ _ _ _ (ok_tiles _ _ _ _ Hok) (ok_aligned _ _ _ _ Hok) Hin).
  unfold sizeof_meta. zdm.
Qed.

Lemma live_below st p n : malloc_ok st -> malloc_live st !! p = Some n -> p + n <= sb_end (sys st).
Proof.
  intros (ns & start & e & Hok) Hp. unfold malloc_live in Hp.
  rewrite (blocks_of_ok _ _ _ _ Hok) in Hp. pose proof (blocks_range _ _ _ _ Hok) as (_ & _ & Hrange).
  apply (used_lookup _ _ _ _ _ (ok_tiles _ _ _ _ Hok)) in Hp as (b & f & -> & Hin & _).
  pose proof (ok_end _ _ _ _ Hok). destruct (Hrange _ _ _ Hin) as (_ & _ & _ & Hr). lia.
Qed.

Lemma live_disjoint st p n q k :
  malloc_ok st -> malloc_live st !! p = Some n -> malloc_live st !! q = Some k -> p ≠ q ->
  p + n <= q ∨ q + k <= p.
Proof.
  intros (ns & start & e & Hok) Hp Hq Hne. unfold malloc_live in *.
  rewrite (blocks_of_ok _ _ _ _ Hok) in *. pose proof (ok_tiles _ _ _ _ Hok) as Ht.
  apply (used_lookup _ _ _ _ _ Ht) in Hp as (b & f & -> & Hb & _).
  apply (used_lookup _ _ _ _ _ Ht) in Hq as (c & g & -> & Hc & _).
  destruct (tiles_disjoint _ _ _ _ _ _ _ _ _ Ht Hb Hc ltac:(lia)); unfold sizeof_meta in *; lia.
Qed.

(** The contents of memory are no part of the heap structure. *)
Lemma malloc_ok_data st d :
  malloc_ok st -> malloc_ok (MState (metas st) (alloc_end st) d (sys st)) ∧
    malloc_live (MState (metas st) (alloc_end st) d (sys st)) = malloc_live st.
Proof.
  intros (ns & start & e & [Hr Ht Hn Hl Hs He Hae]). split; [|done].
  exists ns, start, e. by constructor.
Qed.

#[export] Program Instance malloc_allocator : Allocator (mstate MS) := {
  am_malloc := malloc; am_free := free; am_ok := malloc_ok; am_live := malloc_live;
  am_junk := ram_junk; am_room := malloc_rooms;
  am_base := tail_addr + sizeof_meta
}.
Next Obligation.
  intros st sz st' Hok Hsz Hrun.
  destruct (malloc_done st sz 0 st' Hok ltac:(lia) Hrun) as (Hok' & _ & [[_ Hl]|(b & n & Hp & ? & ? & ? & _)]); [done|].
  unfold sizeof_meta in *. rewrite u32_small in Hp by lia. lia.
Qed.
Next Obligation.
  intros st sz p st' Hok Hsz Hrun Hp.
  destruct (malloc_done _ _ _ _ Hok Hsz Hrun) as (Hok' & _ & [[-> _]|(b & n & -> & ? & ? & ? & Hn & Hl & Hdis)]); [done|].
  split; [done|]. exists n. unfold sizeof_meta in *.
  destruct (Z.eq_dec (b + 16) (2 ^ 32)) as [He|He]; [by rewrite He in Hp|].
  rewrite u32_small in * by lia. split; [done|]. split; [done|]. split; [done|].
  intros q k Hq%Hdis. lia.
Qed.
Next Obligation.
  intros st p sz Hok Hp. destruct (free_done st p sz Hok Hp) as (h & Hrun & Hok' & Hl).
  by exists (set_metas h st).
Qed.
Next Obligation. pose proof statics_pos. pose proof statics_ne. unfold sizeof_meta. lia. Qed.
Next Obligation. intros st p n. apply live_range. Qed.
Next Obligation. intros st p n q k. apply live_disjoint. Qed.
Next Obligation. intros n st. unfold malloc_rooms. lia. Qed.
Next Obligation. intros st p n Hok Hroom Hp. unfold malloc_rooms in Hroom. pose proof (live_below st p n Hok Hp). lia. Qed.
Next Obligation.
  intros st n sz (ns & start & e & Hok) Hroom Hsz. unfold malloc_rooms in *.
  destruct (malloc_room st ns start e sz Hok Hsz) as (p & st' & Hrun & Hp & Hle); [lia|].
  exists p, st'. split; [done|]. split; [done|]. lia.
Qed.
End implementation.

(** ** Properties *)

Section malloc_properties.
Context {MS : Type} `{!Sbrk MS} `{!Statics}.
Implicit Types (st : mstate MS) (ns : list (Z * (Z * Z))).

(** C1: on a well-formed heap, whatever its architecture's [sbrk] does,
    [malloc] neither faults nor loops for ever. If it returns, the heap is
    well-formed and either the result is null and no block was allocated,
    or it is a block at a multiple of four, at least as long as asked for,
    that overlaps neither an allocated block nor its header. *)
Theorem malloc_correct st size
    (Hok : malloc_ok st) (Hsize : 0 < size <= max_request) :
  wp True (malloc size) st (λ p st', malloc_ok st' ∧ data st' = data st ∧
    (p = 0 ∧ malloc_live st' = malloc_live st ∨
     ∃ n, p mod 4 = 0 ∧ size <= n ∧ p + n <= 2 ^ 32 ∧ malloc_live st !! p = None ∧
       malloc_live st' = <[p := n]> (malloc_live st) ∧
       ∀ q k, malloc_live st !! q = Some k -> p + n <= q - sizeof_meta ∨ q + k <= p - sizeof_meta)).
Proof.
  pose proof Hok as (ns & start & e & Hb).
  pose proof (malloc_spec st ns start e size Hb ltac:(lia)) as Hs.
  unfold wp in *. destruct (malloc size st) as [p st'| | |] eqn:Hrun; try done.
  destruct (malloc_done st size p st' Hok ltac:(lia) Hrun)
    as (Hok' & Hd & [[-> Hl]|(b & n & -> & Hb0 & Hend & Hn & Hnone & Hl & Hdis)]).
  { by auto. }
  split; [done|]. split; [done|]. right. exists n.
  rewrite (u32_small (b + sizeof_meta)) in * by (unfold sizeof_meta in *; lia).
  split; [apply (live_aligned st' _ n Hok'); rewrite Hl; apply lookup_insert_eq|].
  split; [done|]. split; [lia|]. split; [done|]. split; [done|].
  intros q k [?|?]%Hdis; [left; lia|right; lia].
Qed.

(** C2: freeing an allocated block returns, keeps the heap well-formed
    (tiled, doubly linked, no two adjacent free blocks: the block is joined
    with its free neighbours), and removes exactly that block from the
    allocated ones; nothing but headers is written. *)
Theorem free_correct st p n
    (Hok : malloc_ok st) (Hp : malloc_live st !! p = Some n) :
  ∃ st', free p st = Done tt st' ∧ malloc_ok st' ∧
    malloc_live st' = delete p (malloc_live st) ∧ data st' = data st ∧ sys st' = sys st.
Proof.
  destruct (free_done st p n Hok Hp) as (h & Hrun & Hok' & Hl). by exists (set_metas h st).
Qed.

(** C20: first fit. When some free block is long enough, [malloc] returns
    the first one of the list, without asking for more memory. *)
Theorem malloc_first_fit st ns start e size ns1 b sz ns2
    (Hok : blocks_ok st ns start e) (Hsize : 0 <= size <= max_request)
    (Hns : ns = ns1 ++ [(b, (sz, 1))] ++ ns2) (Hfit : align size <= sz)
    (Hfirst : ∀ c k f, (c, (k, f)) ∈ ns1 -> f = 0 ∨ k < align size) :
  ∃ st', malloc size st = Done (u32 (b + sizeof_meta)) st' ∧ sys st' = sys st ∧
    alloc_end st' = alloc_end st.
Proof.
  pose proof (align_spec size Hsize).
  assert (Hff : first_fit (align size) ns = Some b).
  { subst ns. clear Hok. induction ns1 as [|[c [k f]] ns1 IH]; cbn -[fits].
    - unfold fits. cbn. by rewrite (proj2 (Z.leb_le _ _)) by lia.
    - replace (fits (align size) (c, (k, f))) with false.
      + apply IH. intros d j g Hin. apply (Hfirst d j g). by right.
      + symmetry. unfold fits. cbn. destruct (Hfirst c k f) as [->|Hk]; [by left|done|].
        apply andb_false_iff. right. by apply Z.leb_gt. }
  rewrite (malloc_unfold _ _ _ _ size Hok), Hff.
  destruct (first_fit_take st ns start e (align size) b Hok ltac:(lia) (align_mult _) Hff) as (h & Hrun & _).
  by exists (set_metas h st).
Qed.

Lemma on_data_done {A} (m : M ram A) st x d :
  m (data st) = Done x d -> on_data m st = Done x (MState (metas st) (alloc_end st) d (sys st)).
Proof. unfold on_data. by intros ->. Qed.

(** A block from [calloc] is zero for [num * size] bytes, as long as
    the product does not wrap, and no other byte of memory changed. *)
Theorem calloc_zeroes st num elt
    (Hok : malloc_ok st) (Hsize : 0 < num * elt <= max_request) :
  wp True (calloc num elt) st (λ p st', malloc_ok st' ∧
    (p ≠ 0 -> (∃ n, num * elt <= n ∧ malloc_live st' = <[p := n]> (malloc_live st)) ∧
       (∀ i, 0 <= i < num * elt -> rd (data st') (p + i) = Some 0) ∧
       (∀ a, ¬ (p <= a < p + num * elt) -> rd (data st') a = rd (data st) a))).
Proof.
  pose proof Hok as (ns & start & e & Hb). unfold calloc.
  rewrite (u32_small (num * elt)) by (unfold max_request in *; lia).
  pose proof (malloc_spec st ns start e (num * elt) Hb ltac:(lia)) as Hs.
  unfold wp in Hs. destruct (malloc (num * elt) st) as [p st'| | |] eqn:Hrun; try done.
  2: { unfold wp, mbind, M_bind. by rewrite Hrun. }
  destruct (malloc_done st (num * elt) p st' Hok ltac:(lia) Hrun)
    as (Hok' & Hd & [[-> Hl]|(b & n & -> & Hb0 & Hend & Hn & Hnone & Hl & Hdis)]).
  { eapply wp_step; [exact Hrun|]. eapply wp_step; [done|]. by apply wp_ret. }
  rewrite (u32_small (b + sizeof_meta)) in * by (unfold sizeof_meta in *; lia).
  set (p := b + sizeof_meta) in *.
  eapply wp_step; [exact Hrun|]. cbv beta.
  rewrite (proj2 (Z.eqb_neq p 0)) by (unfold sizeof_meta in *; lia). cbn [negb].
  destruct (memset_spec (data st') p 0 (num * elt)) as (d & Hset & Hfill);
    [lia|lia|apply ram_mapped; unfold sizeof_meta in *; lia|].
  eapply wp_step.
  { rewrite (bind_Done _ _ _ _ _ (on_data_done _ _ _ _ Hset)). done. }
  apply wp_ret. destruct (malloc_ok_data st' d Hok') as [Hok2 Hl2]. split; [done|]. intros _.
  split; [exists n; by rewrite Hl2|]. cbn [data]. split; intros a Ha; rewrite Hfill.
  - by rewrite decide_True by lia.
  - rewrite decide_False by done. by rewrite Hd.
Qed.

(** C21: [realloc] of an allocated block to a non-zero size either returns
    null and changes nothing, or moves the contents: the first
    [min(size, old size)] bytes are in the new block and the old one is
    freed. *)
Theorem realloc_moves st p n size
    (Hok : malloc_ok st) (Hp : malloc_live st !! p = Some n) (Hsize : 0 < size <= max_request)
    (Hbytes : ∀ a, 0 <= default 0 (ram_bytes (data st) !! a) < 256) :
  wp True (realloc p size) st (λ q st', malloc_ok st' ∧
    (q = 0 ∧ malloc_live st' = malloc_live st ∧ data st' = data st ∨
     ∃ k, size <= k ∧ malloc_live st' = <[q := k]> (delete p (malloc_live st)) ∧
       ∀ i, 0 <= i < Z.min size n -> rd (data st') (q + i) = rd (data st) (p + i))).
Proof.
  pose proof Hok as (ns & start & e & Hb). unfold realloc.
  pose proof (malloc_spec st ns start e size Hb ltac:(lia)) as Hs.
  unfold wp in Hs. destruct (malloc size st) as [q st'| | |] eqn:Hrun; try done.
  2: { unfold wp, mbind, M_bind. by rewrite Hrun. }
  destruct (live_header st p n Hok Hp) as (Hp0 & Hn0 & Hpn & _).
  destruct (malloc_done st size q st' Hok ltac:(lia) Hrun)
    as (Hok' & Hd & [[-> Hl]|(b & k & -> & Hb0 & Hend & Hk & Hnone & Hl & Hdis)]);
    (eapply wp_step; [exact Hrun|]); rewrite (proj2 (Z.eqb_neq size 0)) by lia;
    rewrite ?andb_false_r; (eapply wp_step; [done|]); cbv beta.
  { eapply wp_step; [done|]. apply wp_ret. auto. }
  rewrite (u32_small (b + sizeof_meta)) in * by (unfold sizeof_meta in *; lia).
  set (q := b + sizeof_meta) in *. unfold sizeof_meta in *.
  rewrite (proj2 (Z.eqb_neq p 0)), (proj2 (Z.eqb_neq q 0)) by lia. cbn [negb andb].
  assert (Hlive' : malloc_live st' !! p = Some n).
  { rewrite Hl, lookup_insert_ne; [done|]. intros ->. congruence. }
  destruct (live_header st' p n Hok' Hlive') as (_ & _ & _ & m & Hm & Hmn).
  unfold sizeof_meta in *.
  rewrite (u32_small (p - 16)) by lia. apply wp_bind.
  eapply wp_step; [eapply ldm_done; [lia|exact Hm]|]. cbv beta zeta. rewrite Hmn.
  replace (if size <? n then size else n) with (Z.min size n)
    by (destruct (Z.ltb_spec size n); lia).
  destruct (memcpy_spec (data st') q p (Z.min size n)) as (d & Hcpy & Hfill).
  { lia. }
  { split; [lia|]. split; [lia|]. intros i Hi. exists (default 0 (ram_bytes (data st') !! (p + i))).
    split; [done|]. rewrite Hd. apply Hbytes. }
  { apply ram_mapped; lia. }
  { destruct (Hdis p n Hp); lia. }
  eapply wp_step; [by apply on_data_done|]. cbv beta.
  destruct (malloc_ok_data st' d Hok') as [Hok2 Hl2].
  destruct (free_done _ p n Hok2) as (h & Hfree & Hok3 & Hl3); [by rewrite Hl2|].
  eapply wp_done; [exact Hfree|]. apply wp_ret. split; [done|]. right. exists k.
  split; [done|]. split.
  - rewrite Hl3, Hl2, Hl. rewrite delete_insert_ne; [done|]. intros Heq. congruence.
  - intros i Hi. cbn [data set_metas]. rewrite Hfill, decide_True by lia. rewrite Hd. f_equal. lia.
Qed.
End malloc_properties.

(** ** Examples: the allocator on the ARM break *)

Section malloc_examples.
#[local] Program Instance example_statics : Statics :=
  {| head_addr := 0x8000; tail_addr := 0x8010; ram_junk := 0xCCCCCCCC |}.
Solve Obligations with done.
#[local] Existing Instance Arm.arm_sbrk.

(** The static initialisers of malloc.c and of memory.c. *)
Definition boot : mstate Arm.arm_memory :=
  MState {[ 0x8000 := Meta 0 0 0 0x8010; 0x8010 := Meta 0 0 0x8000 0 ]} 0 (Ram ∅) Arm.arm_boot.

Lemma boot_blocks : blocks_ok boot [] 0x10000 0x10000.
Proof.
  constructor; [|done|done|done|done|apply Arm.arm_boot_ok|done|by right].
  split; [|apply (bool_decide_unpack _); by vm_compute].
  repeat split; cbn; eexists; repeat split; reflexivity.
Qed.
Lemma boot_ok : malloc_ok boot.
Proof. exists [], 0x10000, 0x10000. apply boot_blocks. Qed.

Lemma malloc_correct_witness :
  wp True (malloc 30) boot (λ p st', malloc_ok st' ∧ data st' = data boot ∧
    (p = 0 ∧ malloc_live st' = malloc_live boot ∨
     ∃ n, p mod 4 = 0 ∧ 30 <= n ∧ p + n <= 2 ^ 32 ∧ malloc_live boot !! p = None ∧
       malloc_live st' = <[p := n]> (malloc_live boot) ∧
       ∀ q k, malloc_live boot !! q = Some k ->
         p + n <= q - sizeof_meta ∨ q + k <= p - sizeof_meta)).
Proof. apply (malloc_correct boot 30 boot_ok). unfold max_request. lia. Defined.

(** The state after a call that returns. *)
Definition after {A} (m : M (mstate Arm.arm_memory) A) s : mstate Arm.arm_memory :=
  match m s with Done _ s' => s' | _ => s end.

(** Three blocks of 32 bytes at 0x10010, 0x10040 and 0x10070. *)
Definition one := after (malloc 32) boot.
Definition three := after (malloc 32) (after (malloc 30) one).
Lemma after_malloc_ok n s p :
  malloc_ok s -> 0 <= n <= max_request -> malloc n s = Done p (after (malloc n) s) ->
  malloc_ok (after (malloc n) s).
Proof. intros Hok Hn Hrun. by destruct (malloc_done s n p _ Hok Hn Hrun). Qed.
Lemma three_ok : malloc_ok three.
Proof.
  unfold three, one. eapply after_malloc_ok; [|by vm_compute|by vm_compute].
  eapply after_malloc_ok; [|by vm_compute|by vm_compute].
  eapply after_malloc_ok; [apply boot_ok|by vm_compute|by vm_compute].
Qed.

Lemma free_correct_witness :
  ∃ st', free 0x10040 three = Done tt st' ∧ malloc_ok st' ∧
    malloc_live st' = delete 0x10040 (malloc_live three) ∧ data st' = data three ∧
    sys st' = sys three.
Proof. apply (free_correct three 0x10040 32 three_ok). by vm_compute. Defined.

Definition hole := after (free 0x10040) three.
Lemma hole_ok : malloc_ok hole.
Proof.
  destruct (free_done three 0x10040 32 three_ok) as (h & Hrun & Hok & _); [by vm_compute|].
  unfold hole, after. by rewrite Hrun.
Qed.

Lemma malloc_first_fit_witness :
  ∃ st', malloc 9 hole = Done 0x10040 st' ∧ sys st' = sys hole ∧ alloc_end st' = alloc_end hole.
Proof.
  destruct hole_ok as (ns & start & e & Hok).
  assert (Hns : ns = [(0x10000, (32, 0))] ++ [(0x10030, (32, 1))] ++ [(0x10060, (32, 0))]).
  { rewrite <- (blocks_of_ok _ _ _ _ Hok). by vm_compute. }
  apply (malloc_first_fit hole ns start e 9 [(0x10000, (32, 0))] 0x10030 32 [(0x10060, (32, 0))] Hok).
  - by vm_compute.
  - exact Hns.
  - by vm_compute.
  - intros c k f [= -> -> ->]%list_elem_of_singleton. by left.
Defined.

Lemma calloc_zeroes_witness :
  wp True (calloc 5 7) hole (λ p st', malloc_ok st' ∧
    (p ≠ 0 -> (∃ n, 5 * 7 <= n ∧ malloc_live st' = <[p := n]> (malloc_live hole)) ∧
       (∀ i, 0 <= i < 5 * 7 -> rd (data st') (p + i) = Some 0) ∧
       (∀ a, ¬ (p <= a < p + 5 * 7) -> rd (data st') a = rd (data hole) a))).
Proof. apply (calloc_zeroes hole 5 7 hole_ok). unfold max_request. lia. Defined.

Lemma realloc_moves_witness :
  wp True (realloc 0x10010 100) hole (λ q st', malloc_ok st' ∧
    (q = 0 ∧ malloc_live st' = malloc_live hole ∧ data st' = data hole ∨
     ∃ k, 100 <= k ∧ malloc_live st' = <[q := k]> (delete 0x10010 (malloc_live hole)) ∧
       ∀ i, 0 <= i < Z.min 100 32 -> rd (data st') (q + i) = rd (data hole) (0x10010 + i))).
Proof.
  apply (realloc_moves hole 0x10010 32 100 hole_ok); [by vm_compute|unfold max_request; lia|].
  intros a. assert (Hd : data hole = Ram ∅) by (by vm_compute).
  rewrite Hd. cbn [ram_bytes]. rewrite lookup_empty. cbn. lia.
Defined.

(** A size within 16 of the word size wraps around: [malloc] hands out
    a block without growing the heap, and the next call returns the same
    address (malloc.c:80 and 94 do not check for overflow). *)
Theorem malloc_size_wraps :
  ∃ p st1 st2, malloc 0xFFFFFFF0 boot = Done p st1 ∧ malloc 16 st1 = Done p st2 ∧ p ≠ 0 ∧
    sys st1 = sys boot.
Proof.
  exists 0x10010, (after (malloc 0xFFFFFFF0) boot), (after (malloc 16) (after (malloc 0xFFFFFFF0) boot)).
  by vm_compute.
Qed.

(** [realloc(p, 0)] frees [p] twice, because [malloc(0)] does not
    return null. When the block before [p] is free the second call adds
    [p]'s size to it again, and a later [malloc] returns a block that
    overlaps an allocated one: here the third block, at 0x10070. *)
Theorem realloc_zero_overlaps :
  let st := after (free 0x10010) three in
  malloc_live st !! 0x10070 = Some 32 ∧
  ∃ q st1 p st2, realloc 0x10040 0 st = Done q st1 ∧ q ≠ 0 ∧
    malloc 100 st1 = Done p st2 ∧ p < 0x10070 < p + 100.
Proof.
  split; [by vm_compute|].
  set (st := after (free 0x10010) three).
  eexists _, (after (realloc 0x10040 0) st), _, (after (malloc 100) (after (realloc 0x10040 0) st)).
  split; [by vm_compute|]. split; [done|]. split; [by vm_compute|]. done.
Qed.
End malloc_examples.
