(* ===== verification/Printf.v ===== *)
(** * Formatted output (kernel/printf.c)

    The format scanner [do_printf] as the state machine it is, over any
    memory to read the format and the strings from and any output function;
    [printf]-like and [sprintf]-like callers are instances. The scanner is
    compared with a renderer of format descriptions. *)

From S2P Require Import Prelude CString.

Definition PR_LJ : Z := 0x01.
Definition PR_CA : Z := 0x02.
Definition PR_SG : Z := 0x04.
Definition PR_32 : Z := 0x08.
Definition PR_16 : Z := 0x10.
Definition PR_WS : Z := 0x20.
Definition PR_LZ : Z := 0x40.
Definition PR_FP : Z := 0x80.
Definition PR_BUFLEN : Z := 16.

(** The local variables of [do_printf] that live across iterations, and
    the argument list. *)
Record pf := Pf {
  fmt : Z; pstate : Z; flags : Z; given_wd : Z; count : Z; args : list Z
}.

Definition has (f b : Z) : bool := negb (Z.land f b =? 0).

Section do_printf.
Context {S : Type} (ld : Z -> M S Z) (fn : Z -> M S unit).
Local Abbreviation K := (M S).

Definition strlen_unsigned (rdc : Z -> K Z) (str : Z) : K Z :=
  while word_fuel (λ '(wrk, retval),
    c ← rdc wrk; mret (if c =? 0 then inr retval else inl (wrk + 1, s32 (retval + 1))))
    (str, 0).

Definition put_char (c : Z) (p : pf) : K pf :=
  fn c;; mret (Pf (fmt p) (pstate p) (flags p) (given_wd p) (u32 (count p + 1)) (args p)).

Definition put_many (n : Z) (c : Z) (p : pf) : K pf :=
  for_up (Z.to_nat n) 0 (λ _, fn c);;
  mret (Pf (fmt p) (pstate p) (flags p) (given_wd p) (u32 (count p + Z.max 0 n)) (args p)).

Definition set_flags f p := Pf (fmt p) (pstate p) f (given_wd p) (count p) (args p).
Definition add_flags b p := set_flags (Z.lor (flags p) b) p.
Definition set_wd w p := Pf (fmt p) (pstate p) (flags p) w (count p) (args p).
Definition set_pstate n p := Pf (fmt p) n (flags p) (given_wd p) (count p) (args p).
Definition next_char p := Pf (fmt p + 1) (pstate p) (flags p) (given_wd p) (count p) (args p).
Definition reset p := Pf (fmt p) 0 0 0 (count p) (args p).

(** [va_arg] *)
Definition next_arg (p : pf) : K (Z * pf) :=
  match args p with
  | [] => fail MissingArgument
  | a :: rest => mret (a, Pf (fmt p) (pstate p) (flags p) (given_wd p) (count p) rest)
  end.

(** [*--where = c] in [buf], an array of PR_BUFLEN bytes *)
Definition push_buf (buf : list Z) (where_ c : Z) : K (list Z) :=
  if (0 <=? where_) && (where_ <? PR_BUFLEN) then mret (aset where_ c buf)
  else fail (OutOfRange where_).

Definition digit_char (fl temp : Z) : Z :=
  if temp <? 10 then temp + 48
  else if has fl PR_CA then temp - 10 + 65 else temp - 10 + 97.

(** The do-while loop that converts [num]. *)
Definition convert (fl radix num : Z) : K (list Z * Z) :=
  while word_fuel (λ '(buf, where_, num),
    let temp := u32 num mod radix in
    let where_ := where_ - 1 in
    buf ← push_buf buf where_ (digit_char fl temp);
    let num := s32 (u32 num / radix) in
    mret (if num =? 0 then inr (buf, where_) else inl (buf, where_, num)))
    (aset (PR_BUFLEN - 1) 0 (replicate (Z.to_nat PR_BUFLEN) 0), PR_BUFLEN - 1, num).

(** EMIT2: padding, sign, text, padding; [rdc] reads what [where] points to *)
Definition emit2 (rdc : Z -> K Z) (where_ actual_wd : Z) (p : pf) : K pf :=
  p ← (if negb (has (flags p) PR_LJ) then
         let n := given_wd p - actual_wd in
         q ← put_many n (if has (flags p) PR_LZ then 48 else 32) p;
         mret (set_wd (if actual_wd <? given_wd p then actual_wd else given_wd p) q)
       else mret p);
  p ← (if Z.land (flags p) (Z.lor PR_WS PR_LZ) =? PR_WS then put_char 45 p else mret p);
  p ← while word_fuel (λ '(w, p),
        c ← rdc w;
        if c =? 0 then mret (inr p) else q ← put_char c p; mret (inl (w + 1, q)))
        (where_, p);
  let p := set_wd (if given_wd p <? actual_wd then 0 else given_wd p - actual_wd) p in
  q ← put_many (given_wd p) 32 p;
  mret (set_wd 0 q).

(** EMIT *)
Definition emit (rdc : Z -> K Z) (where_ : Z) (p : pf) : K pf :=
  actual_wd ← strlen_unsigned rdc where_;
  let actual_wd := if has (flags p) PR_WS then u32 (actual_wd + 1) else u32 actual_wd in
  p ← (if Z.land (flags p) (Z.lor PR_WS PR_LZ) =? Z.lor PR_WS PR_LZ then put_char 45 p else mret p);
  emit2 rdc where_ actual_wd p.

Definition read_buf (buf : list Z) (i : Z) : K Z := of_option (OutOfRange i) (aget buf i).

(** DO_NUM; all three ways of fetching the argument read a 32-bit word *)
Definition do_num (radix : Z) (p : pf) : K pf :=
  r ← next_arg p;
  let '(a, p) := r in
  let num :=
    if has (flags p) PR_32 then s32 (u32 a)
    else if has (flags p) PR_16 then (if has (flags p) PR_SG then s32 a else s32 (u32 a))
    else (if has (flags p) PR_SG then s32 a else s32 (u32 a)) in
  let '(num, p) :=
    if has (flags p) PR_SG && (num <? 0) then (s32 (- num), add_flags PR_WS p) else (num, p) in
  b ← convert (flags p) radix num;
  emit (read_buf (fst b)) (snd b) p.

Definition clear_lz (p : pf) : pf := set_flags (Z.land (flags p) (Z.lnot PR_LZ)) p.

(** STATE 4: the conversion character; falls through to the reset. *)
Definition state4 (p : pf) : K pf :=
  c ← ld (fmt p);
  p ←
    (if c =? 88 (* X *) then do_num 16 (add_flags PR_CA p)
     else if (c =? 120) || (c =? 112) || (c =? 110) (* x p n *) then do_num 16 p
     else if (c =? 100) || (c =? 105) (* d i *) then do_num 10 (add_flags PR_SG p)
     else if c =? 117 (* u *) then do_num 10 p
     else if c =? 111 (* o *) then do_num 8 p
     else if c =? 99 (* c *) then
       let p := clear_lz p in
       r ← next_arg p;
       let '(a, p) := r in
       buf ← push_buf (aset (PR_BUFLEN - 1) 0 (replicate (Z.to_nat PR_BUFLEN) 0)) (PR_BUFLEN - 2) (u8 a);
       emit2 (read_buf buf) (PR_BUFLEN - 2) 1 p
     else if c =? 115 (* s *) then
       let p := clear_lz p in
       r ← next_arg p;
       let '(a, p) := r in
       emit ld a p
     else mret p);
  mret (reset p).

(** STATE 3: modifiers F N l h *)
Definition state3 (p : pf) : K pf :=
  c ← ld (fmt p);
  if c =? 70 then mret (add_flags PR_FP p)
  else if c =? 78 then mret p
  else if c =? 108 then mret (add_flags PR_32 p)
  else if c =? 104 then mret (add_flags PR_16 p)
  else state4 (set_pstate 4 p).

(** STATE 2: field width *)
Definition state2 (p : pf) : K pf :=
  c ← ld (fmt p);
  if (48 <=? c) && (c <=? 57) then mret (set_wd (u32 (10 * given_wd p + (c - 48))) p)
  else state3 (set_pstate 3 p).

(** STATE 1: flags *)
Definition state1 (p : pf) : K pf :=
  c ← ld (fmt p);
  if c =? 37 then q ← put_char c p; mret (reset q)
  else if c =? 45 then
    mret (if has (flags p) PR_LJ then reset p else add_flags PR_LJ p)
  else
    let p := set_pstate 2 p in
    let p := if c =? 48 then next_char (add_flags PR_LZ p) else p in
    state2 p.

(** STATE 0: awaiting % *)
Definition state0 (p : pf) : K pf :=
  c ← ld (fmt p);
  if negb (c =? 37) then put_char c p
  else state1 (next_char (set_pstate 1 p)).

Definition printf_step (p : pf) : K (pf + (Z * list Z)) :=
  c ← ld (fmt p);
  if c =? 0 then mret (inr (count p, args p))
  else
    p ← (if pstate p =? 0 then state0 p
         else if pstate p =? 1 then state1 p
         else if pstate p =? 2 then state2 p
         else if pstate p =? 3 then state3 p
         else if pstate p =? 4 then state4 p
         else mret (reset p));
    mret (inl (next_char p)).

(** Returns the count and the arguments left. *)
Definition do_printf (fmt : Z) (args : list Z) : K (Z * list Z) :=
  while word_fuel printf_step (Pf fmt 0 0 0 0 args).
End do_printf.

(** ** Computations that output a known text *)

Section emits.
Context {B : Type} `{!ByteMem B} (m : B).
Context {S : Type} (ld : Z -> M S Z) (fn : Z -> M S unit).
Context (Inv : S -> Prop) (outp : S -> list Z) (cap : nat).
(** [ld] reads the memory [m]; [fn] appends a character, as long as there
    is room for it. *)
Context (ld_law : ∀ s a v, Inv s -> 0 <= a < 2 ^ 32 -> rd m a = Some v -> ld a s = Done v s).
Context (fn_law : ∀ s c, Inv s -> 0 <= c < 256 -> (length (outp s) < cap)%nat ->
  ∃ s', fn c s = Done tt s' ∧ Inv s' ∧ outp s' = outp s ++ [c]).
Local Abbreviation K := (M S).

Definition emits {A} (k : K A) (txt : list Z) (a : A) : Prop :=
  ∀ s, Inv s -> (length (outp s) + length txt <= cap)%nat ->
    ∃ s', k s = Done a s' ∧ Inv s' ∧ outp s' = outp s ++ txt.

Definition eruns {A C} (body : A -> K (A + C)) (n : nat) (a : A) (txt : list Z) (b : C) : Prop :=
  ∀ s, Inv s -> (length (outp s) + length txt <= cap)%nat ->
    ∃ s', runs body n a s b s' ∧ Inv s' ∧ outp s' = outp s ++ txt.

Lemma emits_ret {A} (a : A) : emits (mret a) [] a.
Proof. intros s Hs _. exists s. by rewrite app_nil_r. Qed.

Lemma emits_read {A} (k : K A) a : (∀ s, Inv s -> k s = Done a s) -> emits k [] a.
Proof. intros Hk s Hs _. exists s. rewrite app_nil_r. auto. Qed.

Lemma emits_bind {A C} (k : K A) (f : A -> K C) t1 t2 a b :
  emits k t1 a -> emits (f a) t2 b -> emits (k ≫= f) (t1 ++ t2) b.
Proof.
  intros Hk Hf s Hs Hcap. rewrite length_app in Hcap.
  destruct (Hk s Hs) as (s1 & H1 & Hs1 & Ho1); [lia|].
  destruct (Hf s1 Hs1) as (s2 & H2 & Hs2 & Ho2); [rewrite Ho1, length_app; lia|].
  exists s2. rewrite (bind_Done _ _ _ _ _ H1). split; [done|]. split; [done|].
  by rewrite Ho2, Ho1, app_assoc.
Qed.

Lemma emits_step {A C} (k : K A) (f : A -> K C) t a b :
  (∀ s, Inv s -> k s = Done a s) -> emits (f a) t b -> emits (k ≫= f) t b.
Proof. intros Hk Hf. change t with ([] ++ t). eapply emits_bind; [by apply emits_read|done]. Qed.

Lemma emits_map {A C} (k : K A) (f : A -> C) t a :
  emits k t a -> emits (x ← k; mret (f x)) t (f a).
Proof. intros Hk. rewrite <- (app_nil_r t). eapply emits_bind; [exact Hk|apply emits_ret]. Qed.

Lemma emits_fn c : 0 <= c < 256 -> emits (fn c) [c] tt.
Proof. intros Hc s Hs Hcap. apply fn_law; [done|done|]. cbn in Hcap. lia. Qed.

Lemma eruns_end {A C} (body : A -> K (A + C)) a t b :
  emits (body a) t (inr b) -> eruns body 1 a t b.
Proof.
  intros He s Hs Hcap. destruct (He s Hs Hcap) as (s' & Hrun & ?). exists s'.
  split; [by apply runs_end|done].
Qed.

Lemma eruns_step {A C} (body : A -> K (A + C)) n a a1 t1 t2 b :
  emits (body a) t1 (inl a1) -> eruns body n a1 t2 b -> eruns body (Datatypes.S n) a (t1 ++ t2) b.
Proof.
  intros H1 H2 s Hs Hcap. rewrite length_app in Hcap.
  destruct (H1 s Hs) as (s1 & E1 & Hs1 & Ho1); [lia|].
  destruct (H2 s1 Hs1) as (s2 & E2 & Hs2 & Ho2); [rewrite Ho1, length_app; lia|].
  exists s2. split; [by eapply runs_step|]. split; [done|]. by rewrite Ho2, Ho1, app_assoc.
Qed.

Lemma eruns_while {A C} (body : A -> K (A + C)) n a t b :
  eruns body n a t b -> Z.of_nat n <= 2 ^ 32 -> emits (while word_fuel body a) t b.
Proof.
  intros Hr Hn s Hs Hcap. destruct (Hr s Hs Hcap) as (s' & Hrun & ?). exists s'.
  split; [|done]. eapply runs_while; [exact Hrun|]. pose proof word_fuel_Z. lia.
Qed.

(** Counting what was output. *)
Definition cnt (n : Z) (p : pf) : pf :=
  Pf (fmt p) (pstate p) (flags p) (given_wd p) (u32 (count p + n)) (args p).

Lemma cnt_cnt x y p : cnt y (cnt x p) = cnt (x + y) p.
Proof. unfold cnt. cbn. f_equal. rewrite u32_add_l. f_equal. lia. Qed.

Lemma emits_put_char c p : 0 <= c < 256 -> emits (put_char fn c p) [c] (cnt 1 p).
Proof. intros Hc. apply (emits_map (fn c) (λ _, cnt 1 p) [c] tt). by apply emits_fn. Qed.

Lemma emits_for_up n from c : 0 <= c < 256 -> emits (for_up n from (λ _, fn c)) (replicate n c) tt.
Proof.
  intros Hc. revert from. induction n as [|n IH]; intros from; [apply emits_ret|].
  cbn [for_up replicate]. change (c :: replicate n c) with ([c] ++ replicate n c).
  eapply emits_bind; [by apply emits_fn|apply IH].
Qed.

Lemma emits_put_many n c p :
  0 <= c < 256 -> emits (put_many fn n c p) (replicate (Z.to_nat n) c) (cnt (Z.max 0 n) p).
Proof. intros Hc. apply (emits_map _ (λ _, cnt (Z.max 0 n) p) _ tt). by apply emits_for_up. Qed.

(** [rdc] reads the characters [l] and a terminator at [a]. *)
Definition reads (rdc : Z -> K Z) (a : Z) (l : list Z) : Prop :=
  ∀ i s, Inv s -> (i <= length l)%nat -> rdc (a + Z.of_nat i) s = Done (char_at l i) s.

Lemma reads_ld a l : cstr m a l -> reads ld a l.
Proof.
  intros Hl i s Hs Hi. pose proof (cstr_range _ _ _ Hl) as [? ?].
  pose proof (cstr_drop _ _ _ _ Hi Hl) as Hd. pose proof (cstr_range _ _ _ Hd) as [? ?].
  apply ld_law; [done|lia|]. unfold char_at. rewrite <- (Nat.add_0_r i), <- lookup_drop, Nat.add_0_r.
  destruct (drop i l); cbn in Hd; naive_solver.
Qed.

Lemma emits_strlen rdc a l :
  reads rdc a l -> Forall (λ x, 0 < x < 256) l -> Z.of_nat (length l) < 2 ^ 31 ->
  emits (strlen_unsigned rdc a) [] (Z.of_nat (length l)).
Proof.
  intros Hr Hl Hlen. apply emits_read. intros s Hs. unfold strlen_unsigned.
  assert (∀ n k, (n + k = length l)%nat -> runs (λ '(wrk, retval),
    c ← rdc wrk; mret (if c =? 0 then inr retval else inl (wrk + 1, s32 (retval + 1))))
    (Datatypes.S n) (a + Z.of_nat k, Z.of_nat k) s (Z.of_nat (length l)) s) as Hruns.
  { induction n as [|n IH]; intros k Hk.
    - apply runs_end. mstep (Hr k s Hs ltac:(lia)). replace k with (length l) by lia.
      by rewrite char_at_end.
    - eapply runs_step; [|apply (IH (Datatypes.S k)); lia].
      mstep (Hr k s Hs ltac:(lia)). pose proof (char_at_lt l k Hl ltac:(lia)).
      rewrite (proj2 (Z.eqb_neq _ _)) by lia. rewrite s32_small by lia.
      unfold mret, M_ret. do 3 f_equal; lia. }
  specialize (Hruns (length l) 0%nat ltac:(lia)). rewrite Z.add_0_r in Hruns.
  eapply runs_while; [exact Hruns|]. pose proof word_fuel_Z. lia.
Qed.

Lemma emits_text rdc a l x p :
  reads rdc a l -> Forall (λ x, 0 < x < 256) l -> Z.of_nat (length l) < 2 ^ 31 ->
  emits (while word_fuel (λ '(w, p),
        c ← rdc w;
        if c =? 0 then mret (inr p) else q ← put_char fn c p; mret (inl (w + 1, q))) (a, cnt x p))
    l (cnt (x + Z.of_nat (length l)) p).
Proof.
  intros Hr Hl Hlen. set (body := λ '(w, p), _).
  assert (∀ n k, (n + k = length l)%nat ->
    eruns body (Datatypes.S n) (a + Z.of_nat k, cnt (x + Z.of_nat k) p) (drop k l)
      (cnt (x + Z.of_nat (length l)) p)) as Hruns.
  { induction n as [|n IH]; intros k Hk.
    - rewrite drop_ge by lia. apply eruns_end.
      eapply emits_step; [intros s Hs; apply Hr; [done|lia]|].
      replace k with (length l) by lia. rewrite char_at_end. apply emits_ret.
    - destruct (lookup_lt_is_Some_2 l k) as [y Hy]; [lia|].
      rewrite (drop_S _ _ _ Hy). change (y :: drop (Datatypes.S k) l) with ([y] ++ drop (Datatypes.S k) l).
      pose proof (Forall_lookup_1 _ _ _ _ Hl Hy) as Hyr. cbv beta in Hyr.
      eapply eruns_step; [|apply IH; lia].
      eapply emits_step; [intros s Hs; apply Hr; [done|lia]|].
      assert (Hc : char_at l k = y) by (unfold char_at; by rewrite Hy).
      rewrite Hc, (proj2 (Z.eqb_neq _ _)) by lia.
      replace (inl (a + Z.of_nat (Datatypes.S k), cnt (x + Z.of_nat (Datatypes.S k)) p))
        with ((λ q, inl (a + Z.of_nat k + 1, q)) (cnt 1 (cnt (x + Z.of_nat k) p)) : (Z * pf) + pf).
      + apply (emits_map _ (λ q, inl (a + Z.of_nat k + 1, q))). apply emits_put_char. lia.
      + rewrite cnt_cnt. do 2 f_equal; [lia|f_equal; lia]. }
  specialize (Hruns (length l) 0%nat ltac:(lia)). rewrite !Z.add_0_r, drop_0 in Hruns.
  eapply eruns_while; [exact Hruns|]. lia.
Qed.

Lemma emits_if_char (b : bool) c x p :
  0 <= c < 256 ->
  emits (if b then put_char fn c (cnt x p) else mret (cnt x p)) (if b then [c] else [])
    (cnt (x + b2z b) p).
Proof.
  intros Hc. destruct b; cbn [b2z].
  - rewrite <- cnt_cnt. by apply emits_put_char.
  - rewrite Z.add_0_r. apply emits_ret.
Qed.
End emits.

(** ** Fields *)

(** The flag word with the given bits. *)
Definition bits (lj lz fp l h sg ca ws : bool) : Z :=
  b2z lj * PR_LJ + b2z ca * PR_CA + b2z sg * PR_SG + b2z l * PR_32 + b2z h * PR_16 +
  b2z ws * PR_WS + b2z lz * PR_LZ + b2z fp * PR_FP.

Ltac bit_cases := intros; repeat match goal with b : bool |- _ => destruct b end; reflexivity.

Section flag_lemmas.
Implicit Types lj lz fp l h sg ca ws : bool.
Lemma has_LJ lj lz fp l h sg ca ws : has (bits lj lz fp l h sg ca ws) PR_LJ = lj.
Proof. bit_cases. Qed.
Lemma has_LZ lj lz fp l h sg ca ws : has (bits lj lz fp l h sg ca ws) PR_LZ = lz.
Proof. bit_cases. Qed.
Lemma has_SG lj lz fp l h sg ca ws : has (bits lj lz fp l h sg ca ws) PR_SG = sg.
Proof. bit_cases. Qed.
Lemma has_CA lj lz fp l h sg ca ws : has (bits lj lz fp l h sg ca ws) PR_CA = ca.
Proof. bit_cases. Qed.
Lemma has_WS lj lz fp l h sg ca ws : has (bits lj lz fp l h sg ca ws) PR_WS = ws.
Proof. bit_cases. Qed.
Lemma sign_before lj lz fp l h sg ca ws :
  (Z.land (bits lj lz fp l h sg ca ws) (Z.lor PR_WS PR_LZ) =? Z.lor PR_WS PR_LZ) = ws && lz.
Proof. bit_cases. Qed.
Lemma sign_after lj lz fp l h sg ca ws :
  (Z.land (bits lj lz fp l h sg ca ws) (Z.lor PR_WS PR_LZ) =? PR_WS) = ws && negb lz.
Proof. bit_cases. Qed.
Lemma or_LJ lj lz fp l h sg ca ws :
  Z.lor (bits lj lz fp l h sg ca ws) PR_LJ = bits true lz fp l h sg ca ws.
Proof. bit_cases. Qed.
Lemma or_LZ lj lz fp l h sg ca ws :
  Z.lor (bits lj lz fp l h sg ca ws) PR_LZ = bits lj true fp l h sg ca ws.
Proof. bit_cases. Qed.
Lemma or_FP lj lz fp l h sg ca ws :
  Z.lor (bits lj lz fp l h sg ca ws) PR_FP = bits lj lz true l h sg ca ws.
Proof. bit_cases. Qed.
Lemma or_32 lj lz fp l h sg ca ws :
  Z.lor (bits lj lz fp l h sg ca ws) PR_32 = bits lj lz fp true h sg ca ws.
Proof. bit_cases. Qed.
Lemma or_16 lj lz fp l h sg ca ws :
  Z.lor (bits lj lz fp l h sg ca ws) PR_16 = bits lj lz fp l true sg ca ws.
Proof. bit_cases. Qed.
Lemma or_SG lj lz fp l h sg ca ws :
  Z.lor (bits lj lz fp l h sg ca ws) PR_SG = bits lj lz fp l h true ca ws.
Proof. bit_cases. Qed.
Lemma or_CA lj lz fp l h sg ca ws :
  Z.lor (bits lj lz fp l h sg ca ws) PR_CA = bits lj lz fp l h sg true ws.
Proof. bit_cases. Qed.
Lemma or_WS lj lz fp l h sg ca ws :
  Z.lor (bits lj lz fp l h sg ca ws) PR_WS = bits lj lz fp l h sg ca true.
Proof. bit_cases. Qed.
Lemma clear_LZ lj lz fp l h sg ca ws :
  Z.land (bits lj lz fp l h sg ca ws) (Z.lnot PR_LZ) = bits lj false fp l h sg ca ws.
Proof. bit_cases. Qed.
End flag_lemmas.

Create Rewrite HintDb printf_flags.
#[export] Hint Rewrite has_LJ has_LZ has_SG has_CA has_WS sign_before sign_after
  or_LJ or_LZ or_FP or_32 or_16 or_SG or_CA or_WS clear_LZ : printf_flags.

(** What a conversion prints: [text] of nominal length [len], in a field of
    width [w]. *)
Definition pad_left (lj lz : bool) (w len : Z) : list Z :=
  if lj then [] else replicate (Z.to_nat (w - len)) (if lz then 48 else 32).
Definition pad_right (lj : bool) (w len : Z) : list Z :=
  if lj then replicate (Z.to_nat (w - len)) 32 else [].
Definition sign_text (b : bool) : list Z := if b then [45] else [].
Definition field (lj lz : bool) (w : Z) (neg : bool) (text : list Z) (len : Z) : list Z :=
  sign_text (neg && lz) ++ pad_left lj lz w len ++ sign_text (neg && negb lz) ++ text ++
  pad_right lj w len.

Section fields.
Context {B : Type} `{!ByteMem B} (m : B).
Context {S : Type} (ld : Z -> M S Z) (fn : Z -> M S unit).
Context (Inv : S -> Prop) (outp : S -> list Z) (cap : nat).
Context (ld_law : ∀ s a v, Inv s -> 0 <= a < 2 ^ 32 -> rd m a = Some v -> ld a s = Done v s).
Context (fn_law : ∀ s c, Inv s -> 0 <= c < 256 -> (length (outp s) < cap)%nat ->
  ∃ s', fn c s = Done tt s' ∧ Inv s' ∧ outp s' = outp s ++ [c]).
Local Abbreviation emits := (emits Inv outp cap).
Local Abbreviation reads := (reads Inv).

Lemma emit2_spec rdc a text len fm st lj lz fp l h sg ca ws w ar x c :
  reads rdc a text -> Forall (λ x, 0 < x < 256) text -> Z.of_nat (length text) < 2 ^ 31 ->
  0 <= len -> 0 <= w ->
  let p := Pf fm st (bits lj lz fp l h sg ca ws) w c ar in
  let out := pad_left lj lz w len ++ sign_text (ws && negb lz) ++ text ++ pad_right lj w len in
  emits (emit2 fn rdc a len (cnt x p)) out (cnt (x + Z.of_nat (length out)) (set_wd 0 p)).
Proof.
  intros Hr Ht Hlen Hl Hw p out. unfold emit2.
  set (w1 := if lj then w else Z.min w len).
  assert (Hpad : emits (if negb (has (flags (cnt x p)) PR_LJ) then
         let n := given_wd (cnt x p) - len in
         q ← put_many fn n (if has (flags (cnt x p)) PR_LZ then 48 else 32) (cnt x p);
         mret (set_wd (if len <? given_wd (cnt x p) then len else given_wd (cnt x p)) q)
       else mret (cnt x p)) (pad_left lj lz w len)
    (cnt (x + Z.of_nat (length (pad_left lj lz w len))) (set_wd w1 p))).
  { cbn [flags cnt p given_wd]. autorewrite with printf_flags. unfold pad_left. destruct lj; cbn [negb].
    - cbn [length]. rewrite Z.add_0_r. apply emits_ret.
    - cbv zeta. rewrite length_replicate.
      replace (cnt (x + Z.of_nat (Z.to_nat (w - len))) (set_wd w1 p))
        with ((λ q, set_wd (if len <? w then len else w) q) (cnt (Z.max 0 (w - len)) (cnt x p))).
      + apply (emits_map Inv outp cap _ (λ q, set_wd (if len <? w then len else w) q)). apply (emits_put_many fn Inv outp cap fn_law).
        destruct lz; lia.
      + rewrite cnt_cnt. unfold cnt, set_wd, p, w1. cbn. f_equal; [|f_equal; lia].
        destruct (Z.ltb_spec len w); lia. }
  eapply emits_bind; [exact Hpad|].
  cbn [flags cnt set_wd p]. autorewrite with printf_flags.
  eapply emits_bind; [apply (emits_if_char fn Inv outp cap fn_law); lia|].
  eapply emits_bind; [by apply (emits_text fn Inv outp cap fn_law)|]. cbv beta zeta.
  set (q0 := set_wd _ _). set (g := if w1 <? len then 0 else w1 - len).
  assert (Hg : given_wd q0 = g) by done.
  assert (Hright : pad_right lj w len = replicate (Z.to_nat (given_wd q0)) 32).
  { rewrite Hg. unfold g, w1, pad_right. destruct lj.
    - destruct (Z.ltb_spec w len); [by replace (Z.to_nat (w - len)) with 0%nat by lia|done].
    - destruct (Z.ltb_spec (Z.min w len) len); [done|].
      by replace (Z.min w len - len) with 0 by lia. }
  rewrite Hright.
  replace (cnt (x + Z.of_nat (length out)) (set_wd 0 p))
    with ((λ q, set_wd 0 q) (cnt (Z.max 0 (given_wd q0)) q0)).
  - apply (emits_map Inv outp cap _ (λ q, set_wd 0 q)).
    apply (emits_put_many fn Inv outp cap fn_law). lia.
  - subst out. rewrite Hright. rewrite !length_app, length_replicate.
    subst q0. unfold cnt, set_wd, p. cbn. f_equal. rewrite !u32_add_l. f_equal.
    change (given_wd _) with g in Hg. cbn in Hg.
    assert (0 <= g) by (unfold g; destruct (Z.ltb_spec w1 len); lia).
    fold g. unfold sign_text. destruct (ws && negb lz); cbn [length b2z]; lia.
Qed.
End fields.

(** ** Numbers *)

Definition dchar (ca : bool) (d : Z) : Z :=
  if d <? 10 then d + 48 else if ca then d - 10 + 65 else d - 10 + 97.

(** Most significant digit first. *)
Fixpoint to_digits (fuel : nat) (ca : bool) (r v : Z) (acc : list Z) : list Z :=
  match fuel with
  | O => acc
  | S fuel' =>
      let acc' := dchar ca (v mod r) :: acc in
      if v / r =? 0 then acc' else to_digits fuel' ca r (v / r) acc'
  end.
Definition digits (ca : bool) (r v : Z) : list Z := to_digits 11 ca r v [].

(** The value of a digit character and of a digit string. *)
Definition digit_value (c : Z) : Z :=
  if c <=? 57 then c - 48 else if c <=? 70 then c - 55 else c - 87.
Fixpoint number_value (r acc : Z) (l : list Z) : Z :=
  match l with [] => acc | c :: l' => number_value r (r * acc + digit_value c) l' end.

Section numbers.
Lemma digit_value_dchar ca d : 0 <= d < 16 -> digit_value (dchar ca d) = d.
Proof.
  intros Hd. assert (Hall : forallb (λ d, (digit_value (dchar ca d) =? d)) (seqZ 0 16) = true)
    by (destruct ca; by vm_compute).
  rewrite forallb_forall in Hall. apply Z.eqb_eq, Hall, list_elem_of_In, elem_of_seqZ. lia.
Qed.

Lemma dchar_range ca d : 0 <= d < 16 -> 47 < dchar ca d < 256.
Proof. intros. unfold dchar. destruct (Z.ltb_spec d 10); destruct ca; lia. Qed.

Lemma number_value_app r acc l1 l2 :
  number_value r acc (l1 ++ l2) = number_value r (number_value r acc l1) l2.
Proof. revert acc. induction l1 as [|c l1 IH]; intros acc; [done|]. apply IH. Qed.

Lemma to_digits_app fuel ca r v acc :
  to_digits fuel ca r v acc = to_digits fuel ca r v [] ++ acc.
Proof.
  revert v acc. induction fuel as [|fuel IH]; intros v acc; [done|]. cbn [to_digits].
  destruct (v / r =? 0); [done|]. rewrite IH, (IH _ [_]), <- app_assoc. done.
Qed.

(** Enough digits: the text denotes the number. *)
Lemma to_digits_value fuel ca r v :
  2 <= r <= 16 -> 0 <= v < r ^ Z.of_nat fuel -> (1 <= fuel)%nat ->
  number_value r 0 (to_digits fuel ca r v []) = v.
Proof.
  intros Hr. revert v. induction fuel as [|fuel IH]; intros v Hv Hf; [lia|]. cbn [to_digits].
  pose proof (Z.mod_pos_bound v r ltac:(lia)). pose proof (Z.div_mod v r ltac:(lia)).
  destruct (Z.eqb_spec (v / r) 0) as [Hz|Hz].
  - cbn. rewrite digit_value_dchar by lia. lia.
  - rewrite to_digits_app, number_value_app.
    rewrite Nat2Z.inj_succ, Z.pow_succ_r in Hv by lia.
    pose proof (Z.div_pos v r ltac:(lia) ltac:(lia)).
    assert (v / r < r ^ Z.of_nat fuel) by (apply Z.div_lt_upper_bound; lia).
    rewrite IH; [|lia|].
    + cbn. rewrite digit_value_dchar by lia. lia.
    + destruct fuel; [|lia]. cbn in *. lia.
Qed.

Lemma to_digits_length fuel ca r v acc :
  (1 <= fuel)%nat ->
  (length acc + 1 <= length (to_digits fuel ca r v acc) <= length acc + fuel)%nat.
Proof.
  revert v acc. induction fuel as [|fuel IH]; intros v acc Hf; [lia|]. cbn [to_digits].
  destruct (v / r =? 0); [cbn; lia|]. destruct fuel as [|fuel]; [cbn; lia|].
  specialize (IH (v / r) (dchar ca (v mod r) :: acc) ltac:(lia)). cbn [length] in IH. lia.
Qed.

Lemma to_digits_chars lo fuel ca r v acc :
  lo <= 47 -> 2 <= r <= 16 -> Forall (λ x, lo < x < 256) acc ->
  Forall (λ x, lo < x < 256) (to_digits fuel ca r v acc).
Proof.
  intros Hlo Hr. revert v acc. induction fuel as [|fuel IH]; intros v acc Hacc; [done|]. cbn [to_digits].
  pose proof (Z.mod_pos_bound v r ltac:(lia)).
  assert (Forall (λ x, lo < x < 256) (dchar ca (v mod r) :: acc)).
  { constructor; [|done]. pose proof (dchar_range ca (v mod r) ltac:(lia)). lia. }
  destruct (v / r =? 0); [done|by apply IH].
Qed.
End numbers.

Section converting.
Context {S : Type}.
Implicit Types s : S.

(** [buf] with the digits [acc] and the terminator at its end. *)
Definition filled_buf (acc : list Z) : list Z :=
  replicate (15 - length acc) 0 ++ acc ++ [0].

Lemma push_filled acc c s :
  (length acc < 15)%nat ->
  push_buf (filled_buf acc) (15 - Z.of_nat (length acc) - 1) c s = Done (filled_buf (c :: acc)) s.
Proof.
  intros Hlen. unfold push_buf, PR_BUFLEN.
  rewrite (proj2 (Z.leb_le _ _)), (proj2 (Z.ltb_lt _ _)) by lia. cbn [andb].
  unfold mret, M_ret. f_equal. unfold aset. rewrite decide_True by lia. unfold filled_buf. cbn [length].
  replace (15 - length acc)%nat with ((15 - Datatypes.S (length acc)) + 1)%nat by lia.
  rewrite replicate_add, <- app_assoc.
  replace (Z.to_nat (15 - Z.of_nat (length acc) - 1))
    with (length (replicate (15 - Datatypes.S (length acc)) (0 : Z)) + 0)%nat
    by (rewrite length_replicate; lia).
  by rewrite insert_app_r.
Qed.

Lemma convert_runs fl r k s : 8 <= r -> ∀ v num acc,
  u32 num = v -> 0 <= v < 8 ^ Z.of_nat k -> (1 <= k)%nat -> (k + length acc <= 15)%nat ->
  let D := to_digits k (has fl PR_CA) r v acc in
  ∃ n, (n <= k)%nat ∧ runs (λ '(buf, where_, num),
    let temp := u32 num mod r in
    let where_ := where_ - 1 in
    buf ← push_buf buf where_ (digit_char fl temp);
    let num := s32 (u32 num / r) in
    mret (if num =? 0 then inr (buf, where_) else inl (buf, where_, num))) n
    (filled_buf acc, 15 - Z.of_nat (length acc), num) s
    (filled_buf D, 15 - Z.of_nat (length D)) s.
Proof.
  intros Hr. induction k as [|k IH]; intros v num acc Hv Hvr Hk Hlen; [lia|].
  cbn [to_digits]. set (acc' := dchar (has fl PR_CA) (v mod r) :: acc).
  assert (Hs : s32 (v / r) = v / r).
  { subst v. pose proof (u32_range num). apply s32_small.
    assert (u32 num / r < 2 ^ 29 + 1) by (apply Z.div_lt_upper_bound; lia).
    pose proof (Z.div_pos (u32 num) r ltac:(lia) ltac:(lia)). lia. }
  assert (Hstep : ∀ f : list Z -> (list Z * Z * Z) + (list Z * Z),
    (buf ← push_buf (filled_buf acc) (15 - Z.of_nat (length acc) - 1) (digit_char fl (v mod r)); mret (f buf)) s
    = Done (f (filled_buf acc')) s).
  { intros f. rewrite (bind_Done _ _ _ _ _ (push_filled acc (digit_char fl (v mod r)) s ltac:(lia))). done. }
  replace (15 - Z.of_nat (length acc) - 1) with (15 - Z.of_nat (length acc')) in Hstep by (unfold acc'; cbn [length]; lia).
  destruct (Z.eqb_spec (v / r) 0) as [Hz|Hz].
  - exists 1%nat. split; [lia|]. apply runs_end. cbv zeta. rewrite Hv, Hs, Hz. cbn [Z.eqb].
    replace (15 - Z.of_nat (length acc) - 1) with (15 - Z.of_nat (length acc')) by (unfold acc'; cbn [length]; lia).
    apply Hstep.
  - assert (v / r < 8 ^ Z.of_nat k).
    { rewrite Nat2Z.inj_succ, Z.pow_succ_r in Hvr by lia. apply Z.div_lt_upper_bound; [lia|].
      assert (0 <= 8 ^ Z.of_nat k) by lia. nia. }
    pose proof (Z.div_pos v r ltac:(lia) ltac:(lia)).
    destruct (IH (v / r) (v / r) acc') as (n & Hn & Hrun).
    + apply u32_small. split; [lia|]. pose proof (u32_range num). subst v.
      apply Z.le_lt_trans with (u32 num); [apply Z.div_le_upper_bound; nia|lia].
    + lia.
    + destruct k; [|lia]. cbn in *. lia.
    + unfold acc'. cbn [length]. lia.
    + exists (Datatypes.S n). split; [lia|]. eapply runs_step; [|exact Hrun].
      cbv zeta. rewrite Hv, Hs, (proj2 (Z.eqb_neq _ _)) by done.
      replace (15 - Z.of_nat (length acc) - 1) with (15 - Z.of_nat (length acc')) by (unfold acc'; cbn [length]; lia).
      apply Hstep.
Qed.

Lemma convert_spec fl r num s :
  8 <= r -> let D := digits (has fl PR_CA) r (u32 num) in
  convert fl r num s = Done (filled_buf D, 15 - Z.of_nat (length D)) s.
Proof.
  intros Hr D. pose proof (u32_range num).
  destruct (convert_runs fl r 11 s Hr (u32 num) num [] eq_refl) as (n & Hn & Hrun); [|lia|cbn; lia|].
  { split; [lia|]. change (8 ^ Z.of_nat 11) with (2 ^ 33). lia. }
  unfold convert. eapply runs_while; [exact Hrun|]. pose proof word_fuel_Z. lia.
Qed.

Lemma reads_buf (Inv : S -> Prop) D :
  (length D <= 15)%nat -> reads Inv (read_buf (filled_buf D)) (15 - Z.of_nat (length D)) D.
Proof.
  intros Hlen i s _ Hi. unfold read_buf, aget. rewrite decide_True by lia.
  unfold filled_buf.
  replace (Z.to_nat (15 - Z.of_nat (length D) + Z.of_nat i))
    with (length (replicate (15 - length D) (0 : Z)) + i)%nat by (rewrite length_replicate; lia).
  rewrite lookup_app_r by lia. rewrite Nat.add_comm, Nat.add_sub.
  unfold char_at. destruct (decide (i = length D)) as [->|Hne].
  - rewrite lookup_app_r, Nat.sub_diag by lia. by rewrite (lookup_ge_None_2 D) by lia.
  - rewrite lookup_app_l by lia. by destruct (lookup_lt_is_Some_2 D i ltac:(lia)) as [y ->].
Qed.
End converting.

(** ** Format descriptions *)

Inductive conv := CvX | Cvx | Cvp | Cvn | Cvd | Cvi | Cvu | Cvo | Cvc | Cvs.
Inductive modifier := ModF | ModN | Modl | Modh.
Inductive item :=
  | Literal (c : Z)
  | Percent
  | Directive (lj lz : bool) (width : Z) (mods : list modifier) (cv : conv).
(** An argument: a word, or a string the pointer passed points to. *)
Inductive arg := ANum (z : Z) | AStr (l : list Z).

Definition conv_char (cv : conv) : Z :=
  match cv with
  | CvX => 88 | Cvx => 120 | Cvp => 112 | Cvn => 110 | Cvd => 100 | Cvi => 105
  | Cvu => 117 | Cvo => 111 | Cvc => 99 | Cvs => 115
  end.
Definition mod_char (md : modifier) : Z :=
  match md with ModF => 70 | ModN => 78 | Modl => 108 | Modh => 104 end.
Definition width_chars (w : Z) : list Z := if w =? 0 then [] else digits false 10 w.

(** The format string of a description. *)
Definition item_chars (it : item) : list Z :=
  match it with
  | Literal c => [c]
  | Percent => [37; 37]
  | Directive lj lz w mods cv =>
      [37] ++ (if lj then [45] else []) ++ (if lz then [48] else []) ++ width_chars w ++
      (mod_char <$> mods) ++ [conv_char cv]
  end.
Definition format_chars (its : list item) : list Z := its ≫= item_chars.

Definition conv_upper (cv : conv) : bool := match cv with CvX => true | _ => false end.
Definition conv_signed (cv : conv) : bool := match cv with Cvd | Cvi => true | _ => false end.
Definition conv_radix (cv : conv) : Z :=
  match cv with CvX | Cvx | Cvp | Cvn => 16 | Cvo => 8 | _ => 10 end.

(** What a directive prints. *)
Definition show_number (lj lz : bool) (w : Z) (cv : conv) (a : Z) : list Z :=
  let n := if conv_signed cv then s32 a else u32 a in
  let text := digits (conv_upper cv) (conv_radix cv) (Z.abs n) in
  field lj lz w (n <? 0) text (Z.of_nat (length text) + b2z (n <? 0)).
Definition show_char (lj : bool) (w a : Z) : list Z :=
  field lj false w false (if u8 a =? 0 then [] else [u8 a]) 1.
Definition show_string (lj : bool) (w : Z) (l : list Z) : list Z :=
  field lj false w false l (Z.of_nat (length l)).

Definition show (lj lz : bool) (w : Z) (cv : conv) (v : arg) : option (list Z) :=
  match cv, v with
  | Cvs, AStr l => Some (show_string lj w l)
  | Cvs, ANum _ | _, AStr _ => None
  | Cvc, ANum a => Some (show_char lj w a)
  | _, ANum a => Some (show_number lj lz w cv a)
  end.

Fixpoint render (its : list item) (vs : list arg) : option (list Z) :=
  match its with
  | [] => Some []
  | Literal c :: its' => t ← render its' vs; Some (c :: t)
  | Percent :: its' => t ← render its' vs; Some (37 :: t)
  | Directive lj lz w _ cv :: its' =>
      match vs with
      | v :: vs' => t1 ← show lj lz w cv v; t2 ← render its' vs'; Some (t1 ++ t2)
      | [] => None
      end
  end.

Definition item_ok (it : item) : Prop :=
  match it with
  | Literal c => 0 < c < 256 ∧ c ≠ 37
  | Percent => True
  | Directive _ _ w _ _ => 0 <= w < 2 ^ 31
  end.

Section scanning.
Context {B : Type} `{!ByteMem B} (m : B).
Context {S : Type} (ld : Z -> M S Z) (fn : Z -> M S unit).
Context (Inv : S -> Prop) (outp : S -> list Z) (cap : nat).
Context (ld_law : ∀ s a v, Inv s -> 0 <= a < 2 ^ 32 -> rd m a = Some v -> ld a s = Done v s).
Context (fn_law : ∀ s c, Inv s -> 0 <= c < 256 -> (length (outp s) < cap)%nat ->
  ∃ s', fn c s = Done tt s' ∧ Inv s' ∧ outp s' = outp s ++ [c]).
Local Abbreviation K := (M S).
Local Abbreviation emits := (emits Inv outp cap).
Local Abbreviation eruns := (eruns Inv outp cap).

Lemma emits_ext {A} (k k' : K A) txt a : (∀ s, k s = k' s) -> emits k' txt a -> emits k txt a.
Proof. intros Heq Hk s Hs Hcap. rewrite Heq. by apply Hk. Qed.

Lemma emit_spec rdc a text fm st lj lz fp l h sg ca ws w ar x c :
  reads Inv rdc a text -> Forall (λ x, 0 < x < 256) text -> Z.of_nat (length text) < 2 ^ 31 - 1 ->
  0 <= w ->
  let p := Pf fm st (bits lj lz fp l h sg ca ws) w c ar in
  let out := field lj lz w ws text (Z.of_nat (length text) + b2z ws) in
  emits (emit fn rdc a (cnt x p)) out (cnt (x + Z.of_nat (length out)) (set_wd 0 p)).
Proof.
  intros Hr Ht Hlen Hw p out. unfold emit.
  rewrite <- (app_nil_l out) at 1. eapply emits_bind; [apply emits_strlen; [done|done|lia]|].
  cbv beta zeta. cbn [flags cnt p].
  rewrite has_WS, sign_before.
  replace (if ws then u32 (Z.of_nat (length text) + 1) else u32 (Z.of_nat (length text)))
    with (Z.of_nat (length text) + b2z ws) by (destruct ws; cbn; rewrite u32_small; lia).
  unfold out, field. eapply emits_bind; [apply (emits_if_char fn Inv outp cap fn_law); lia|].
  change (Pf fm st (bits lj lz fp l h sg ca ws) w (u32 (count p + (x + b2z (ws && lz)))) ar)
    with (cnt (x + b2z (ws && lz)) p).
  rewrite length_app, Nat2Z.inj_add, Z.add_assoc.
  replace (x + Z.of_nat (length (sign_text (ws && lz)))) with (x + b2z (ws && lz))
    by (destruct (ws && lz); done).
  eapply (emit2_spec fn Inv outp cap fn_law); [exact Hr|exact Ht|lia| |done].
  destruct ws; cbn; lia.
Qed.

Definition done4 fm c ar : pf := Pf fm 0 0 0 c ar.

Lemma do_num_spec fm st lj lz fp l h sg ca w a ar x c radix :
  (8 <= radix <= 16) -> 0 <= w ->
  let p := Pf fm st (bits lj lz fp l h sg ca false) w c (a :: ar) in
  let n := if sg then s32 a else u32 a in
  let text := digits ca radix (Z.abs n) in
  let out := field lj lz w (n <? 0) text (Z.of_nat (length text) + b2z (n <? 0)) in
  emits (do_num fn radix (cnt x p)) out
    (cnt (x + Z.of_nat (length out)) (Pf fm st (bits lj lz fp l h sg ca (n <? 0)) 0 c ar)).
Proof.
  intros Hradix Hw p n text out.
  set (p1 := Pf fm st (bits lj lz fp l h sg ca (n <? 0)) w c ar).
  set (num := if sg && (s32 a <? 0) then s32 (- s32 a) else s32 a).
  assert (Hdig : u32 num = Z.abs n ∧ (n <? 0) = sg && (s32 a <? 0)).
  { unfold n, num. pose proof (s32_range a). destruct sg; cbn [andb].
    - split; [|done]. destruct (Z.ltb_spec (s32 a) 0); autorewrite with kernel.
      + rewrite u32_small; lia.
      + rewrite <- u32_s32, u32_small; lia.
    - autorewrite with kernel. pose proof (u32_range a). split; [lia|]. apply Z.ltb_ge. lia. }
  destruct Hdig as [Hdig Hneg].
  apply (emits_ext _ (b ← convert (flags p1) radix num; emit fn (read_buf (fst b)) (snd b) (cnt x p1))).
  - intros s. unfold do_num, next_arg. cbn [args cnt p]. rewrite bind_ret. cbv beta iota zeta.
    unfold cnt, p1, p. cbn [fmt pstate flags given_wd count args]. rewrite has_SG, s32_u32.
    replace (if has (bits lj lz fp l h sg ca false) PR_32 then s32 a
      else if has (bits lj lz fp l h sg ca false) PR_16 then (if sg then s32 a else s32 a)
           else (if sg then s32 a else s32 a)) with (s32 a) by (by repeat case_match).
    unfold num. rewrite Hneg. unfold add_flags, set_flags.
    destruct (sg && (s32 a <? 0)); cbn [flags fmt pstate given_wd count args]; [rewrite or_WS|]; reflexivity.
  - assert (Hca : has (flags p1) PR_CA = ca) by apply has_CA.
    eapply (emits_step Inv outp cap).
    { intros s _. pose proof (convert_spec (flags p1) radix num s ltac:(lia)) as Hc.
      cbv zeta in Hc. rewrite Hca, Hdig in Hc. exact Hc. }
    fold text. cbn [fst snd].
    pose proof (to_digits_length 11 ca radix (Z.abs n) [] ltac:(lia)) as Hlen. cbn [length] in Hlen.
    eapply (emit_spec _ _ _ fm st); [apply reads_buf; unfold text, digits; lia| |unfold text, digits; lia|done].
    unfold text, digits. apply to_digits_chars; [lia|lia|constructor].
Qed.

(** The word passed for an argument. *)
Definition passes (a : Z) (v : arg) : Prop :=
  match v with ANum z => a = z | AStr l => cstr m a l ∧ Z.of_nat (length l) < 2 ^ 31 - 1 end.

Lemma reset_cnt y p : reset (cnt y p) = cnt y (reset p).
Proof. done. Qed.

Lemma emits_reset k txt y p :
  emits k txt (cnt y p) -> emits (q ← k; mret (reset q)) txt (cnt y (reset p)).
Proof. intros Hk. rewrite <- reset_cnt. by apply (emits_map Inv outp cap k reset). Qed.

Lemma show_number_spec fm st lj lz fp l h w a ar x c cv :
  0 <= w -> cv ≠ Cvc -> cv ≠ Cvs ->
  let p := Pf fm st (bits lj lz fp l h (conv_signed cv) (conv_upper cv) false) w c (a :: ar) in
  let out := show_number lj lz w cv a in
  emits (q ← do_num fn (conv_radix cv) (cnt x p); mret (reset q)) out
    (cnt (x + Z.of_nat (length out)) (Pf fm 0 0 0 c ar)).
Proof.
  intros Hw Hc Hs p out.
  apply (emits_reset _ _ _ (Pf fm st (bits lj lz fp l h (conv_signed cv) (conv_upper cv)
    ((if conv_signed cv then s32 a else u32 a) <? 0)) 0 c ar)).
  apply do_num_spec; [destruct cv; cbn; lia|done].
Qed.

Lemma show_string_spec fm st lj lz fp l h w a ar x c str :
  0 <= w -> cstr m a str -> Z.of_nat (length str) < 2 ^ 31 - 1 ->
  let p := Pf fm st (bits lj lz fp l h false false false) w c (a :: ar) in
  let out := show_string lj w str in
  emits (p ← (let p := clear_lz (cnt x p) in
       r ← next_arg p; let '(a, p) := r in emit fn ld a p); mret (reset p)) out
    (cnt (x + Z.of_nat (length out)) (Pf fm 0 0 0 c ar)).
Proof.
  intros Hw Hstr Hlen p out.
  apply (emits_reset _ _ _ (Pf fm st (bits lj false fp l h false false false) 0 c ar)).
  pose proof (emit_spec ld a str fm st lj false fp l h false false false w ar x c) as He.
  cbv zeta in He. cbn [b2z] in He. rewrite Z.add_0_r in He.
  eapply emits_ext; [|apply He; [by apply (reads_ld m ld Inv ld_law)|by eapply cstr_chars|done|done]].
  intros s. cbv zeta. unfold next_arg, clear_lz, set_flags, cnt, p.
  cbn [fmt pstate flags given_wd count args]. rewrite clear_LZ. reflexivity.
Qed.

Lemma show_char_spec fm st lj lz fp l h w a ar x c :
  0 <= w ->
  let p := Pf fm st (bits lj lz fp l h false false false) w c (a :: ar) in
  let out := show_char lj w a in
  emits (p ← (let p := clear_lz (cnt x p) in
       r ← next_arg p;
       let '(a, p) := r in
       buf ← push_buf (aset (PR_BUFLEN - 1) 0 (replicate (Z.to_nat PR_BUFLEN) 0)) (PR_BUFLEN - 2) (u8 a);
       emit2 fn (read_buf buf) (PR_BUFLEN - 2) 1 p); mret (reset p)) out
    (cnt (x + Z.of_nat (length out)) (Pf fm 0 0 0 c ar)).
Proof.
  intros Hw p out.
  apply (emits_reset _ _ _ (Pf fm st (bits lj false fp l h false false false) 0 c ar)).
  set (text := if u8 a =? 0 then [] else [u8 a]).
  pose proof (u8_range a).
  assert (Htext : Forall (λ x, 0 < x < 256) text).
  { unfold text. destruct (Z.eqb_spec (u8 a) 0); repeat constructor; lia. }
  pose proof (emit2_spec fn Inv outp cap fn_law (read_buf (filled_buf [u8 a])) 14 text 1 fm st
    lj false fp l h false false false w ar x c) as He.
  cbv zeta in He.
  eapply emits_ext; [|apply He; [|done| |lia|done]].
  - intros s. cbv zeta. unfold next_arg, clear_lz, set_flags, cnt, p.
    cbn [fmt pstate flags given_wd count args]. rewrite clear_LZ, bind_ret. cbv beta iota zeta.
    rewrite (bind_Done _ _ _ _ _ (push_filled [] (u8 a) s ltac:(cbn; lia))). reflexivity.
  - intros i s Hs Hi. pose proof (reads_buf Inv [u8 a] ltac:(cbn; lia) i s Hs) as Hr.
    change (15 - Z.of_nat (length [u8 a])) with 14 in Hr.
    unfold text in *. destruct (Z.eqb_spec (u8 a) 0) as [Hz|Hz]; cbn [length] in *.
    + replace i with 0%nat in * by lia. rewrite Hr by lia. by rewrite Hz.
    + by apply Hr.
  - unfold text. destruct (u8 a =? 0); cbn; lia.
Qed.
End scanning.

Section parsing.
Context {B : Type} `{!ByteMem B} (m : B).
Context {S : Type} (ld : Z -> M S Z) (fn : Z -> M S unit).
Context (Inv : S -> Prop) (outp : S -> list Z) (cap : nat).
Context (ld_law : ∀ s a v, Inv s -> 0 <= a < 2 ^ 32 -> rd m a = Some v -> ld a s = Done v s).
Context (fn_law : ∀ s c, Inv s -> 0 <= c < 256 -> (length (outp s) < cap)%nat ->
  ∃ s', fn c s = Done tt s' ∧ Inv s' ∧ outp s' = outp s ++ [c]).
Local Abbreviation K := (M S).
Local Abbreviation emits := (emits Inv outp cap).
Local Abbreviation eruns := (eruns Inv outp cap).
Local Abbreviation step := (printf_step ld fn).

Lemma ld_head a x l s : Inv s -> cstr m a (x :: l) -> ld a s = Done x s.
Proof.
  intros Hs Hl. pose proof (cstr_range _ _ _ Hl) as [? ?]. destruct Hl as (? & ? & _).
  apply ld_law; [done|lia|done].
Qed.

Lemma cstr_tail a x l : cstr m a (x :: l) -> cstr m (a + 1) l.
Proof. by intros (_ & _ & _ & ?). Qed.

Lemma state4_spec fm lj lz fp l h w a ar x c cv v out rest :
  cstr m fm (conv_char cv :: rest) -> 0 <= w -> passes m a v -> show lj lz w cv v = Some out ->
  let p := Pf fm 4 (bits lj lz fp l h false false false) w c (a :: ar) in
  emits (state4 ld fn (cnt x p)) out (cnt (x + Z.of_nat (length out)) (Pf fm 0 0 0 c ar)).
Proof.
  intros Hl Hw Hv Hshow p. unfold state4.
  eapply (emits_step Inv outp cap); [intros s Hs; by apply (ld_head _ _ rest s Hs)|].
  assert (Hca : add_flags PR_CA (cnt x p) = cnt x (Pf fm 4 (bits lj lz fp l h false true false) w c (a :: ar))).
  { unfold add_flags, set_flags, cnt, p. cbn. by rewrite or_CA. }
  assert (Hsg : add_flags PR_SG (cnt x p) = cnt x (Pf fm 4 (bits lj lz fp l h true false false) w c (a :: ar))).
  { unfold add_flags, set_flags, cnt, p. cbn. by rewrite or_SG. }
  destruct cv, v as [z|str]; try discriminate Hshow; injection Hshow as <-; cbn [passes] in Hv;
    try subst a; cbn [conv_char Z.eqb Pos.eqb orb]; rewrite ?Hca, ?Hsg.
  10: { destruct Hv. by apply (show_string_spec m ld fn Inv outp cap ld_law fn_law fm 4 lj lz fp l h w a ar x c str). }
  9: { by apply (show_char_spec fn Inv outp cap fn_law fm 4 lj lz fp l h w z ar x c). }
  all: match goal with |- context [show_number _ _ _ ?cv _] =>
         exact (show_number_spec fn Inv outp cap fn_law fm 4 lj lz fp l h w z ar x c cv Hw ltac:(done) ltac:(done))
       end.
Qed.

(** From loop state [p] the scanner outputs [txt] and comes to [p'], in at
    most [n] iterations. *)
Definition go (p : pf) (txt : list Z) (p' : pf) (n : nat) : Prop :=
  ∀ k t2 b, eruns step k p' t2 b -> ∃ k', (k' <= k + n)%nat ∧ eruns step k' p (txt ++ t2) b.

(** The same, having entered a state's code in the current iteration. *)
Definition via (k : K pf) (txt : list Z) (p' : pf) (n : nat) : Prop :=
  ∃ t1 p1 t2, txt = t1 ++ t2 ∧ emits k t1 p1 ∧ go (next_char p1) t2 p' n.

Lemma go_refl p : go p [] p 0.
Proof. intros k t2 b Hk. exists k. split; [lia|done]. Qed.

Lemma go_trans p t1 p1 n1 t2 p2 n2 : go p t1 p1 n1 -> go p1 t2 p2 n2 -> go p (t1 ++ t2) p2 (n1 + n2).
Proof.
  intros H1 H2 k t b Hk. destruct (H2 _ _ _ Hk) as (k2 & ? & Hk2).
  destruct (H1 _ _ _ Hk2) as (k1 & ? & Hk1). exists k1. rewrite <- app_assoc. split; [lia|done].
Qed.

Definition dispatch (p : pf) : K pf :=
  if pstate p =? 0 then state0 ld fn p
  else if pstate p =? 1 then state1 ld fn p
  else if pstate p =? 2 then state2 ld fn p
  else if pstate p =? 3 then state3 ld fn p
  else if pstate p =? 4 then state4 ld fn p
  else mret (reset p).

Lemma go_via p x rest txt p' n :
  cstr m (fmt p) (x :: rest) -> via (dispatch p) txt p' n -> go p txt p' (Datatypes.S n).
Proof.
  intros Hl (t1 & p1 & t2 & -> & Hem & Hgo) k t b Hk.
  destruct (Hgo _ _ _ Hk) as (k2 & ? & Hk2). exists (Datatypes.S k2). split; [lia|].
  rewrite <- app_assoc. eapply eruns_step; [|exact Hk2].
  unfold printf_step. pose proof Hl as (_ & _ & Hx & _).
  eapply (emits_step Inv outp cap); [intros s Hs; by apply (ld_head _ _ rest s Hs)|].
  rewrite (proj2 (Z.eqb_neq _ _)) by lia. fold (dispatch p).
  by apply (emits_map Inv outp cap (dispatch p) (λ q, inl (next_char q))).
Qed.

Lemma via_emits k txt p1 : emits k txt p1 -> via k txt (next_char p1) 0.
Proof. intros Hk. exists txt, p1, []. rewrite app_nil_r. split; [done|]. split; [done|apply go_refl]. Qed.

Lemma via_go k p1 txt p' n : emits k [] p1 -> go (next_char p1) txt p' n -> via k txt p' n.
Proof. intros Hk Hg. by exists [], p1, txt. Qed.

Lemma via_ext (k k' : K pf) txt p' n : (∀ s, Inv s -> k s = k' s) -> via k' txt p' n -> via k txt p' n.
Proof.
  intros Heq (t1 & p1 & t2 & -> & Hem & Hgo). exists t1, p1, t2. split; [done|]. split; [|done].
  intros s Hs Hcap. rewrite Heq by done. by apply Hem.
Qed.

(** Reading the character at [fmt], then the rest of a state's code. *)
Lemma via_read p x rest (f : Z -> K pf) txt p' n :
  cstr m (fmt p) (x :: rest) -> via (f x) txt p' n -> via (c ← ld (fmt p); f c) txt p' n.
Proof.
  intros Hl. apply via_ext. intros s Hs. by rewrite (bind_Done _ _ _ _ _ (ld_head _ _ _ s Hs Hl)).
Qed.

(** The modifiers and the conversion. *)
Lemma via_state3 mods : ∀ fm lj lz fp l h w a ar x c cv v out rest,
  cstr m fm ((mod_char <$> mods) ++ conv_char cv :: rest) -> 0 <= w -> passes m a v ->
  show lj lz w cv v = Some out ->
  via (state3 ld fn (cnt x (Pf fm 3 (bits lj lz fp l h false false false) w c (a :: ar)))) out
    (cnt (x + Z.of_nat (length out)) (Pf (fm + Z.of_nat (length mods) + 1) 0 0 0 c ar)) (length mods).
Proof.
  induction mods as [|md mods IH]; intros fm lj lz fp l h w a ar x c cv v out rest Hl Hw Hv Hshow; cbn in Hl.
  - unfold state3. eapply via_read; [exact Hl|].
    set (p := Pf fm 3 _ w c (a :: ar)).
    replace (if conv_char cv =? 70 then _ else _)
      with (state4 ld fn (set_pstate 4 (cnt x p))) by (by destruct cv).
    replace (cnt (x + Z.of_nat (length out)) (Pf (fm + Z.of_nat (length []) + 1) 0 0 0 c ar))
      with (next_char (cnt (x + Z.of_nat (length out)) (Pf fm 0 0 0 c ar)))
      by (unfold next_char, cnt; cbn; f_equal; lia).
    apply via_emits. change (set_pstate 4 (cnt x p)) with (cnt x (set_pstate 4 p)).
    eapply state4_spec; [exact Hl|done..].
  - set (p := Pf fm 3 _ w c (a :: ar)).
    assert (Hmd : ∃ fp' l' h', via (mret (cnt x (Pf fm 3 (bits lj lz fp' l' h' false false false) w c (a :: ar)))) out
        (cnt (x + Z.of_nat (length out)) (Pf (fm + Z.of_nat (length (md :: mods)) + 1) 0 0 0 c ar)) (length (md :: mods)) ->
      via (state3 ld fn (cnt x p)) out
        (cnt (x + Z.of_nat (length out)) (Pf (fm + Z.of_nat (length (md :: mods)) + 1) 0 0 0 c ar)) (length (md :: mods))).
    { unfold state3. destruct md; cbn [mod_char] in Hl.
      - exists true, l, h. intros Hvia. eapply via_read; [exact Hl|]. cbn [Z.eqb Pos.eqb].
        unfold add_flags, set_flags, cnt, p. cbn. rewrite or_FP. exact Hvia.
      - exists fp, l, h. intros Hvia. eapply via_read; [exact Hl|]. exact Hvia.
      - exists fp, true, h. intros Hvia. eapply via_read; [exact Hl|]. cbn [Z.eqb Pos.eqb].
        unfold add_flags, set_flags, cnt, p. cbn. rewrite or_32. exact Hvia.
      - exists fp, l, true. intros Hvia. eapply via_read; [exact Hl|]. cbn [Z.eqb Pos.eqb].
        unfold add_flags, set_flags, cnt, p. cbn. rewrite or_16. exact Hvia. }
    destruct Hmd as (fp' & l' & h' & Hmd). apply Hmd. apply cstr_tail in Hl.
    eapply via_go; [apply emits_ret|].
    assert (Hne : ∃ y r, (mod_char <$> mods) ++ conv_char cv :: rest = y :: r).
    { destruct mods; cbn; eauto. }
    destruct Hne as (y & r & Hne).
    eapply (go_via _ y r); [by rewrite <- Hne|].
    specialize (IH (fm + 1) lj lz fp' l' h' w a ar x c cv v out rest Hl Hw Hv Hshow).
    cbn [length]. rewrite Nat2Z.inj_succ.
    replace (fm + Z.succ (Z.of_nat (length mods)) + 1) with (fm + 1 + Z.of_nat (length mods) + 1) by lia.
    exact IH.
Qed.

(** The field width. *)
Lemma number_value_le g ds :
  0 <= g -> Forall (λ c, 48 <= c <= 57) ds -> g <= number_value 10 g ds.
Proof.
  intros Hg Hds. revert g Hg. induction Hds as [|d ds Hd _ IH]; intros g Hg; cbn; [lia|].
  assert (Hv : digit_value d = d - 48) by (unfold digit_value; by rewrite (proj2 (Z.leb_le _ _)) by lia).
  rewrite Hv. specialize (IH (10 * g + (d - 48)) ltac:(lia)). lia.
Qed.

Lemma first_not_digit mods cv rest : ∃ y r,
  (mod_char <$> mods) ++ conv_char cv :: rest = y :: r ∧ (48 <=? y) && (y <=? 57) = false ∧
  y ≠ 37 ∧ y ≠ 45 ∧ y ≠ 48.
Proof.
  destruct mods as [|md mods]; cbn.
  - eexists _, _. split; [done|]. by destruct cv.
  - eexists _, _. split; [done|]. by destruct md.
Qed.

Lemma via_state2 ds : ∀ fm lj lz g c a ar x cv mods v out rest,
  cstr m fm (ds ++ (mod_char <$> mods) ++ conv_char cv :: rest) ->
  Forall (λ c, 48 <= c <= 57) ds -> 0 <= g -> number_value 10 g ds < 2 ^ 31 -> passes m a v ->
  show lj lz (number_value 10 g ds) cv v = Some out ->
  via (state2 ld fn (cnt x (Pf fm 2 (bits lj lz false false false false false false) g c (a :: ar)))) out
    (cnt (x + Z.of_nat (length out)) (Pf (fm + Z.of_nat (length ds + length mods) + 1) 0 0 0 c ar))
    (length ds + length mods).
Proof.
  induction ds as [|d ds IH]; intros fm lj lz g c a ar x cv mods v out rest Hl Hds Hg Hw Hv Hshow.
  - cbn [app number_value length Nat.add] in *.
    destruct (first_not_digit mods cv rest) as (y & r & Hy & Hnd & _).
    unfold state2. eapply via_read; [rewrite Hy in Hl; exact Hl|]. rewrite Hnd.
    eapply (via_state3 mods fm lj lz false false false g a ar x c cv v out rest); done.
  - apply Forall_cons in Hds as [Hd Hds]. cbn [app number_value] in *.
    assert (Hdv : digit_value d = d - 48) by (unfold digit_value; by rewrite (proj2 (Z.leb_le _ _)) by lia).
    rewrite Hdv in *.
    assert (Hle : 10 * g + (d - 48) <= number_value 10 (10 * g + (d - 48)) ds) by (apply number_value_le; [lia|done]).
    unfold state2. eapply via_read; [exact Hl|].
    rewrite (proj2 (Z.leb_le _ _)), (proj2 (Z.leb_le _ _)) by lia. cbn [andb].
    apply cstr_tail in Hl. eapply via_go; [apply emits_ret|].
    assert (Hne : ∃ y r, ds ++ (mod_char <$> mods) ++ conv_char cv :: rest = y :: r).
    { destruct ds; cbn; [|by eauto]. destruct (first_not_digit mods cv rest) as (y & r & Hy & _). eauto. }
    destruct Hne as (y & r & Hne).
    eapply (go_via _ y r); [by rewrite <- Hne|].
    specialize (IH (fm + 1) lj lz (10 * g + (d - 48)) c a ar x cv mods v out rest Hl Hds ltac:(lia) Hw Hv Hshow).
    unfold dispatch, set_wd, cnt. cbn [pstate next_char given_wd fmt flags count args Z.eqb Pos.eqb].
    rewrite u32_small by lia.
    replace (fm + Z.of_nat (length (d :: ds) + length mods) + 1)
      with (fm + 1 + Z.of_nat (length ds + length mods) + 1) by (cbn [length]; lia).
    exact IH.
Qed.

Lemma to_digits_head fuel ca r v acc :
  2 <= r <= 16 -> 0 < v < r ^ Z.of_nat fuel ->
  ∃ d l, to_digits fuel ca r v acc = dchar ca d :: l ∧ 0 < d < r.
Proof.
  intros Hr. revert v acc. induction fuel as [|fuel IH]; intros v acc Hv; [cbn in Hv; lia|].
  cbn [to_digits]. pose proof (Z.mod_pos_bound v r ltac:(lia)). pose proof (Z.div_mod v r ltac:(lia)).
  destruct (Z.eqb_spec (v / r) 0) as [Hz|Hz].
  - eexists _, _. split; [done|]. lia.
  - apply IH. pose proof (Z.div_pos v r ltac:(lia) ltac:(lia)). split; [lia|].
    rewrite Nat2Z.inj_succ, Z.pow_succ_r in Hv by lia. apply Z.div_lt_upper_bound; lia.
Qed.

Lemma to_digits_decimal fuel v acc :
  Forall (λ c, 48 <= c <= 57) acc -> Forall (λ c, 48 <= c <= 57) (to_digits fuel false 10 v acc).
Proof.
  revert v acc. induction fuel as [|fuel IH]; intros v acc Hacc; [done|]. cbn [to_digits].
  pose proof (Z.mod_pos_bound v 10 ltac:(lia)).
  assert (Forall (λ c, 48 <= c <= 57) (dchar false (v mod 10) :: acc)).
  { constructor; [|done]. unfold dchar. rewrite (proj2 (Z.ltb_lt _ _)) by lia. lia. }
  destruct (v / 10 =? 0); [done|by apply IH].
Qed.

Lemma width_chars_spec w :
  0 <= w < 2 ^ 31 ->
  Forall (λ c, 48 <= c <= 57) (width_chars w) ∧ number_value 10 0 (width_chars w) = w ∧
  (width_chars w = [] ∨ ∃ d l, width_chars w = d :: l ∧ 48 < d <= 57).
Proof.
  intros Hw. unfold width_chars. destruct (Z.eqb_spec w 0) as [->|Hne]; [by auto|].
  unfold digits. split; [by apply to_digits_decimal|]. split.
  - apply to_digits_value; [lia| |lia]. change (10 ^ Z.of_nat 11) with 100000000000. lia.
  - right. destruct (to_digits_head 11 false 10 w []) as (d & l & Heq & Hd); [lia| |].
    { change (10 ^ Z.of_nat 11) with 100000000000. lia. }
    exists (dchar false d), l. split; [done|]. unfold dchar. rewrite (proj2 (Z.ltb_lt _ _)) by lia. lia.
Qed.

(** After the '-' flag, if any. *)
Lemma via_state1 fm lj (lz : bool) w c a ar x cv mods v out rest :
  let spec := (if lz then [48] else []) ++ width_chars w ++ (mod_char <$> mods) in
  cstr m fm (spec ++ conv_char cv :: rest) -> 0 <= w < 2 ^ 31 -> passes m a v ->
  show lj lz w cv v = Some out ->
  via (state1 ld fn (cnt x (Pf fm 1 (bits lj false false false false false false false) 0 c (a :: ar)))) out
    (cnt (x + Z.of_nat (length out)) (Pf (fm + Z.of_nat (length spec) + 1) 0 0 0 c ar)) (length spec).
Proof.
  intros spec Hl Hw Hv Hshow. subst spec.
  destruct (width_chars_spec w Hw) as (Hds & Hval & Hfirst). set (ds := width_chars w) in *.
  destruct lz; cbn [app] in *.
  - unfold state1. eapply via_read; [exact Hl|]. cbn [Z.eqb Pos.eqb].
    apply cstr_tail in Hl. rewrite <- app_assoc in Hl.
    pose proof (via_state2 ds (fm + 1) lj true 0 c a ar x cv mods v out rest) as Hvia.
    rewrite Hval in Hvia. specialize (Hvia Hl Hds ltac:(lia) ltac:(lia) Hv Hshow).
    unfold add_flags, set_flags, set_pstate, next_char, cnt in *. cbn [flags fmt pstate given_wd count args] in *.
    rewrite or_LZ. cbn [length]. rewrite length_app, length_fmap.
    replace (fm + Z.of_nat (Datatypes.S (length ds + length mods)) + 1)
      with (fm + 1 + Z.of_nat (length ds + length mods) + 1) by lia.
    destruct Hvia as (t1 & p1 & t2 & ? & ? & Hgo). exists t1, p1, t2. split; [done|]. split; [done|].
    intros k t b Hk. destruct (Hgo k t b Hk) as (k' & ? & ?). exists k'. split; [lia|done].
  - rewrite <- app_assoc in Hl.
    assert (Hne : ∃ y r, ds ++ (mod_char <$> mods) ++ conv_char cv :: rest = y :: r ∧ y ≠ 37 ∧ y ≠ 45 ∧ y ≠ 48).
    { destruct Hfirst as [->|(d & l & -> & Hd)].
      - destruct (first_not_digit mods cv rest) as (y & r & Hy & _ & Hno). eexists _, _. by split.
      - eexists _, _. split; [done|]. lia. }
    destruct Hne as (y & r & Hy & H37 & H45 & H48).
    unfold state1. eapply via_read; [rewrite Hy in Hl; exact Hl|].
    rewrite (proj2 (Z.eqb_neq y 37)), (proj2 (Z.eqb_neq y 45)), (proj2 (Z.eqb_neq y 48)) by done.
    pose proof (via_state2 ds fm lj false 0 c a ar x cv mods v out rest) as Hvia.
    rewrite Hval in Hvia. rewrite length_app, length_fmap.
    exact (Hvia Hl Hds ltac:(lia) ltac:(lia) Hv Hshow).
Qed.

Lemma go_directive fm lj lz w mods cv c a ar x v out rest :
  let chars := item_chars (Directive lj lz w mods cv) in
  cstr m fm (chars ++ rest) -> 0 <= w < 2 ^ 31 -> passes m a v -> show lj lz w cv v = Some out ->
  go (cnt x (Pf fm 0 0 0 c (a :: ar))) out
    (cnt (x + Z.of_nat (length out)) (Pf (fm + Z.of_nat (length chars)) 0 0 0 c ar)) (length chars).
Proof.
  intros chars Hl Hw Hv Hshow. subst chars. cbn [item_chars] in *.
  set (spec := (if lz then [48] else []) ++ width_chars w ++ (mod_char <$> mods)) in *.
  replace ((if lz then [48] else []) ++ width_chars w ++ (mod_char <$> mods) ++ [conv_char cv])
    with (spec ++ [conv_char cv]) in * by (unfold spec; by rewrite <- !app_assoc).
  destruct lj; cbn [app] in Hl |- *; cbn [length]; rewrite length_app; cbn [length].
  - eapply go_via; [exact Hl|]. unfold dispatch, cnt. cbn [pstate Z.eqb].
    unfold state0. eapply via_read; [exact Hl|]. cbn [negb Z.eqb Pos.eqb]. apply cstr_tail in Hl.
    unfold state1. eapply via_read; [exact Hl|]. cbn [Z.eqb Pos.eqb].
    eapply via_go; [apply emits_ret|]. apply cstr_tail in Hl. rewrite <- app_assoc in Hl. cbn [app] in Hl.
    assert (Hne : ∃ y r, spec ++ conv_char cv :: rest = y :: r) by (destruct spec; cbn; eauto).
    destruct Hne as (y & r & Hy).
    pose proof (via_state1 (fm + 1 + 1) true lz w c a ar x cv mods v out rest Hl Hw Hv Hshow) as Hvia.
    fold spec in Hvia.
    assert (Hgo : go (cnt x (Pf (fm + 1 + 1) 1 (bits true false false false false false false false) 0 c (a :: ar))) out
      (cnt (x + Z.of_nat (length out)) (Pf (fm + 1 + 1 + Z.of_nat (length spec) + 1) 0 0 0 c ar)) (Datatypes.S (length spec))).
    { eapply (go_via _ y r); [by rewrite <- Hy|exact Hvia]. }
    intros k t b Hk. destruct (Hgo k t b) as (k' & ? & Hk').
    { replace (fm + 1 + 1 + Z.of_nat (length spec) + 1) with (fm + Z.of_nat (Datatypes.S (Datatypes.S (length spec) + 1))) by lia.
      exact Hk. }
    exists k'. split; [lia|exact Hk'].
  - eapply go_via; [exact Hl|]. unfold dispatch, cnt. cbn [pstate Z.eqb].
    unfold state0. eapply via_read; [exact Hl|]. cbn [negb Z.eqb Pos.eqb]. apply cstr_tail in Hl.
    rewrite <- app_assoc in Hl. cbn [app] in Hl.
    pose proof (via_state1 (fm + 1) false lz w c a ar x cv mods v out rest Hl Hw Hv Hshow) as Hvia.
    fold spec in Hvia.
    destruct Hvia as (t1 & p1 & t2 & Ht & He & Hgo). exists t1, p1, t2. split; [done|]. split; [exact He|].
    intros k t b Hk. destruct (Hgo k t b) as (k' & ? & Hk').
    { replace (fm + 1 + Z.of_nat (length spec) + 1) with (fm + Z.of_nat (Datatypes.S (length spec + 1))) by lia. exact Hk. }
    exists k'. split; [lia|exact Hk'].
Qed.
End parsing.


(** ** Whole formats *)

Section formats.
Context {B : Type} `{!ByteMem B} (m : B).
Context {S : Type} (ld : Z -> M S Z) (fn : Z -> M S unit).
Context (Inv : S -> Prop) (outp : S -> list Z) (cap : nat).
Context (ld_law : ∀ s a v, Inv s -> 0 <= a < 2 ^ 32 -> rd m a = Some v -> ld a s = Done v s).
Context (fn_law : ∀ s c, Inv s -> 0 <= c < 256 -> (length (outp s) < cap)%nat ->
  ∃ s', fn c s = Done tt s' ∧ Inv s' ∧ outp s' = outp s ++ [c]).
Local Abbreviation emits := (emits Inv outp cap).
Local Abbreviation eruns := (eruns Inv outp cap).
Local Abbreviation step := (printf_step ld fn).
Local Abbreviation go := (go ld fn Inv outp cap).
Local Abbreviation read := (via_read m ld Inv outp cap ld_law).

Lemma go_literal fm ch c ar x rest :
  cstr m fm (ch :: rest) -> 0 < ch < 256 -> ch ≠ 37 ->
  go (cnt x (Pf fm 0 0 0 c ar)) [ch] (cnt (x + 1) (Pf (fm + 1) 0 0 0 c ar)) 1.
Proof.
  intros Hl Hch Hne. eapply (go_via m ld fn Inv outp cap ld_law); [exact Hl|].
  unfold dispatch. cbn [pstate cnt Z.eqb]. unfold state0.
  eapply (via_read m ld fn Inv outp cap ld_law); [exact Hl|].
  rewrite (proj2 (Z.eqb_neq ch 37)) by done. cbn [negb].
  change (cnt (x + 1) (Pf (fm + 1) 0 0 0 c ar)) with (next_char (cnt (x + 1) (Pf fm 0 0 0 c ar))).
  apply via_emits. rewrite <- cnt_cnt. apply (emits_put_char fn Inv outp cap fn_law). lia.
Qed.

Lemma go_percent fm c ar x rest :
  cstr m fm (37 :: 37 :: rest) ->
  go (cnt x (Pf fm 0 0 0 c ar)) [37] (cnt (x + 1) (Pf (fm + 2) 0 0 0 c ar)) 1.
Proof.
  intros Hl. eapply (go_via m ld fn Inv outp cap ld_law); [exact Hl|].
  unfold dispatch. cbn [pstate cnt Z.eqb]. unfold state0.
  eapply (via_read m ld fn Inv outp cap ld_law); [exact Hl|]. cbn [negb Z.eqb Pos.eqb].
  apply cstr_tail in Hl.
  unfold state1. eapply (via_read m ld fn Inv outp cap ld_law); [exact Hl|]. cbn [Z.eqb Pos.eqb].
  replace (cnt (x + 1) (Pf (fm + 2) 0 0 0 c ar))
    with (next_char (reset (cnt 1 (next_char (set_pstate 1 (cnt x (Pf fm 0 0 0 c ar)))))))
    by (unfold next_char, reset, set_pstate, cnt; cbn [fmt pstate flags given_wd count args];
        f_equal; [lia|by rewrite u32_add_l, Z.add_assoc]).
  apply via_emits. apply (emits_map Inv outp cap _ reset).
  apply (emits_put_char fn Inv outp cap fn_law). lia.
Qed.

Lemma scan_items its : ∀ fm c ar x vs out,
  cstr m fm (format_chars its) -> Forall item_ok its -> Forall2 (passes m) ar vs ->
  render its vs = Some out ->
  ∃ k rest, (k <= Datatypes.S (length (format_chars its)))%nat ∧
    eruns step k (cnt x (Pf fm 0 0 0 c ar)) out (u32 (c + (x + Z.of_nat (length out))), rest).
Proof.
  induction its as [|it its IH]; intros fm c ar x vs out Hl Hok Hargs Hr.
  - injection Hr as <-. exists 1%nat, ar. split; [cbn; lia|]. apply eruns_end.
    unfold printf_step. eapply (emits_step Inv outp cap).
    { intros s Hs. destruct Hl as [? Hz]. by apply ld_law. }
    cbn [Z.eqb length]. rewrite Z.add_0_r. apply emits_ret.
  - apply Forall_cons in Hok as [Hit Hok]. unfold format_chars in Hl. cbn [mbind list_bind] in Hl.
    fold (format_chars its) in Hl.
    assert (∃ out1 out2 ar' vs', out = out1 ++ out2 ∧ Forall2 (passes m) ar' vs' ∧
      render its vs' = Some out2 ∧
      go (cnt x (Pf fm 0 0 0 c ar)) out1
        (cnt (x + Z.of_nat (length out1)) (Pf (fm + Z.of_nat (length (item_chars it))) 0 0 0 c ar'))
        (length (item_chars it))) as (out1 & out2 & ar' & vs' & -> & Hargs' & Hr' & Hgo).
    { destruct it as [ch| |lj lz w mods cv]; cbn [render item_chars length app] in *.
      - apply bind_Some in Hr as (t & Ht & [= <-]). destruct Hit.
        exists [ch], t, ar, vs. split; [done|]. split; [done|]. split; [done|]. by eapply go_literal.
      - apply bind_Some in Hr as (t & Ht & [= <-]).
        exists [37], t, ar, vs. split; [done|]. split; [done|]. split; [done|].
        pose proof (go_percent fm c ar x (format_chars its) Hl) as Hgo.
        intros k t2 b Hk. destruct (Hgo k t2 b Hk) as (k' & ? & ?). exists k'. split; [lia|done].
      - destruct vs as [|v vs]; [done|]. inversion Hargs as [|a v' ar' vs' Hv Hargs' Ha Hb]; subst.
        apply bind_Some in Hr as (t1 & Ht1 & Hr). apply bind_Some in Hr as (t2 & Ht2 & [= <-]).
        exists t1, t2, ar', vs. split; [done|]. split; [done|]. split; [done|].
        exact (go_directive m ld fn Inv outp cap ld_law fn_law fm lj lz w mods cv c a ar' x v t1
          (format_chars its) Hl Hit Hv Ht1). }
    destruct (IH (fm + Z.of_nat (length (item_chars it))) c ar' (x + Z.of_nat (length out1)) vs' out2)
      as (k & rest & Hk & Hrun); [|done..|].
    { pose proof (cstr_drop m fm (item_chars it ++ format_chars its) (length (item_chars it)) ltac:(rewrite length_app; lia) Hl) as Hd.
      by rewrite drop_app_length in Hd. }
    destruct (Hgo _ _ _ Hrun) as (k' & Hk' & Hrun').
    exists k', rest. unfold format_chars. cbn [mbind list_bind]. fold (format_chars its).
    rewrite length_app. split; [lia|].
    rewrite length_app, Nat2Z.inj_add, (Z.add_assoc x). exact Hrun'.
Qed.

Lemma do_printf_spec its fm ar vs out :
  cstr m fm (format_chars its) -> Forall item_ok its -> Forall2 (passes m) ar vs ->
  render its vs = Some out ->
  ∃ rest, emits (do_printf ld fn fm ar) out (u32 (Z.of_nat (length out)), rest).
Proof.
  intros Hl Hok Hargs Hr.
  destruct (scan_items its fm 0 ar 0 vs out Hl Hok Hargs Hr) as (k & rest & Hk & Hrun).
  exists rest. pose proof (cstr_range _ _ _ Hl) as [? ?].
  eapply eruns_while; [exact Hrun|lia].
Qed.

(** The scanner does not stop at a terminator that follows a single %. *)
Lemma do_printf_past_nul its fm ar vs out :
  cstr m fm [37] -> cstr m (fm + 2) (format_chars its) -> Forall item_ok its ->
  Forall2 (passes m) ar vs -> render its vs = Some out ->
  ∃ rest, emits (do_printf ld fn fm ar) out (u32 (Z.of_nat (length out)), rest).
Proof.
  intros Hl Hnext Hok Hargs Hr.
  destruct (scan_items its (fm + 2) 0 ar 0 vs out Hnext Hok Hargs Hr) as (k & rest & Hk & Hrun).
  exists rest. pose proof (cstr_range _ _ _ Hnext) as [? ?].
  assert (0 <= fm) by apply Hl.
  apply (eruns_while Inv outp cap _ (Datatypes.S k)); [|lia].
  rewrite <- (app_nil_l out). eapply eruns_step; [|exact Hrun].
  pose proof Hl as (_ & H37 & _ & [Hfm Hz]). cbn [length] in *.
  unfold printf_step. cbn [fmt pstate].
  eapply (emits_step Inv outp cap); [intros s Hs; by apply (ld_law _ fm 37); [|lia|]|].
  cbn [Z.eqb].
  replace (cnt 0 (Pf (fm + 2) 0 0 0 0 ar)) with (next_char (Pf (fm + 1) 0 0 0 0 ar))
    by (unfold next_char, cnt; cbn [fmt pstate flags given_wd count args]; f_equal; lia).
  apply (emits_map Inv outp cap (state0 ld fn _) (λ q, inl (next_char q))).
  assert (Hrd : ∀ s, Inv s -> ld (fm + 1) s = Done 0 s) by (intros s Hs; by apply ld_law).
  unfold state0. cbn [fmt].
  eapply (emits_step Inv outp cap); [intros s Hs; by apply (ld_law _ fm 37); [|lia|]|].
  cbn [negb Z.eqb Pos.eqb]. unfold state1, state2, state3, state4.
  cbn [next_char set_pstate fmt].
  do 4 (eapply (emits_step Inv outp cap); [exact Hrd|]; cbn [Z.eqb Pos.eqb Z.leb Z.compare andb orb]).
  eapply (emits_step Inv outp cap); [done|]. apply emits_ret.
Qed.
End formats.

(** ** Output functions

    What [do_printf] needs from its [fn]: a state in which a text has been
    output and room for [out_cap] characters. *)

Class Output (S : Type) (fn : Z -> M S unit) := {
  out_ok : S -> Prop;
  out_text : S -> list Z;
  out_cap : nat;
  out_put s c : out_ok s -> 0 <= c < 256 -> (length (out_text s) < out_cap)%nat ->
    ∃ s', fn c s = Done tt s' ∧ out_ok s' ∧ out_text s' = out_text s ++ [c]
}.
Arguments out_ok {S} fn {_} _.
Arguments out_text {S} fn {_} _.
Arguments out_cap {S} fn {_}.

(** printf to a device: [printc] of the console, then [serial_write] when
    LOG_SERIAL and ENABLE_SERIAL are configured (kernel.cfg). *)
Section consoles.
Context {S : Type} (ld : Z -> M S Z) (printc serial_write : Z -> M S unit) (LOG_SERIAL : bool).

Definition vprintf_help (c : Z) : M S unit :=
  printc c;; if LOG_SERIAL then serial_write c else mret tt.
Definition vprintf_at_help (c : Z) : M S unit := printc c.
Definition vprintf_serial_help (c : Z) : M S unit :=
  if LOG_SERIAL then serial_write c else mret tt.

Definition count_of (k : M S (Z * list Z)) : M S Z := r ← k; mret (s32 (fst r)).
Definition vprintf (fmt : Z) (args : list Z) : M S Z := count_of (do_printf ld vprintf_help fmt args).
Definition vprintf_at (fmt : Z) (args : list Z) : M S Z := count_of (do_printf ld vprintf_at_help fmt args).
Definition vprintf_serial (fmt : Z) (args : list Z) : M S Z :=
  count_of (do_printf ld vprintf_serial_help fmt args).
(** The variadic entry points collect their arguments and call these. *)
Definition printf (fmt : Z) (args : list Z) : M S Z := vprintf fmt args.
Definition serial_printf (fmt : Z) (args : list Z) : M S Z := vprintf_serial fmt args.
End consoles.

(** sprintf: [fn] stores at [*ptr] and advances it. *)
Section sprintf.
Context {B : Type} `{!ByteMem B}.

Definition lift_mem {A} (k : M B A) : M (B * Z) A := λ '(m, ptr),
  match k m with
  | Done a m' => Done a (m', ptr)
  | Fault e => Fault e
  | Halted m' => Halted (m', ptr)
  | Spin => Spin
  end.
Definition load8_at (a : Z) : M (B * Z) Z := lift_mem (load8 a).
Definition vsprintf_help (c : Z) : M (B * Z) unit :=
  s ← get; lift_mem (store8 (snd s) c);; modify (λ s, (fst s, u32 (snd s + 1))).

Definition vsprintf (buf fmt : Z) (args : list Z) : M B Z := λ m,
  match do_printf load8_at vsprintf_help fmt args (m, buf) with
  | Done (rv, _) (m', _) => (store8 (buf + s32 rv) 0;; mret (s32 rv)) m'
  | Fault e => Fault e
  | Halted (m', _) => Halted m'
  | Spin => Spin
  end.
Definition sprintf (buf fmt : Z) (args : list Z) : M B Z := vsprintf buf fmt args.
End sprintf.

(** Memory without the block the output goes to. *)
Record hidden (B : Type) := Hidden { hid_mem : B; hid_start : Z; hid_size : Z }.
Arguments Hidden {B}. Arguments hid_mem {B}. Arguments hid_start {B}. Arguments hid_size {B}.

Section hidden.
Context {B : Type} `{!ByteMem B}.

Definition in_hidden (h : hidden B) (a : Z) : bool :=
  (hid_start h <=? a) && (a <? hid_start h + hid_size h).

#[export] Program Instance hidden_mem : ByteMem (hidden B) := {
  rd h a := if in_hidden h a then None else rd (hid_mem h) a;
  wr h a v := if in_hidden h a then None else
    (λ m, Hidden m (hid_start h) (hid_size h)) <$> wr (hid_mem h) a v
}.
Next Obligation.
  intros h a v. cbn. destruct (in_hidden h a); [by intros [? ?]|].
  intros [m' Hm']%(wr_mapped _ a v). rewrite Hm'. by eexists.
Qed.
Next Obligation.
  intros h a v h'. cbn. destruct (in_hidden h a) eqn:E; [done|].
  intros (m' & Hm' & ->)%fmap_Some. unfold in_hidden in *. cbn in *. rewrite E.
  by eapply wr_rd_eq.
Qed.
Next Obligation.
  intros h a v h' b. cbn. destruct (in_hidden h a) eqn:E; [done|].
  intros (m' & Hm' & ->)%fmap_Some Hne. unfold in_hidden in *. cbn in *.
  case_match; [done|]. by eapply wr_rd_ne.
Qed.
End hidden.

Section sprintf_spec.
Context {B : Type} `{!ByteMem B} (m : B) (buf : Z) (n : nat).
(** Room for [n] characters and the terminator. *)
Context (Hbuf : mapped m buf (Z.of_nat n + 1)).
Local Abbreviation hid := (Hidden m buf (Z.of_nat n + 1)).

Definition buf_byte (m' : B) (i : nat) : Z := default 0 (rd m' (buf + Z.of_nat i)).
Definition buf_text (s : B * Z) : list Z := buf_byte (fst s) <$> seq 0 (Z.to_nat (snd s - buf)).
Definition buf_ok (s : B * Z) : Prop :=
  buf <= snd s ∧ (length (buf_text s) <= n)%nat ∧
  filled buf (snd s - buf) (λ i, Some (buf_byte (fst s) (Z.to_nat i))) m (fst s).

Lemma buf_text_length s : length (buf_text s) = Z.to_nat (snd s - buf).
Proof. unfold buf_text. by rewrite length_fmap, length_seq. Qed.

Lemma buf_put s c :
  buf_ok s -> 0 <= c < 256 -> (length (buf_text s) < n)%nat ->
  ∃ s', vsprintf_help c s = Done tt s' ∧ buf_ok s' ∧ buf_text s' = buf_text s ++ [c].
Proof.
  destruct s as [m1 p]. intros (Hp & Hn & Hf) Hc Hlt. rewrite buf_text_length in Hlt, Hn.
  cbn [fst snd] in *. destruct Hbuf as (Hb0 & Hb1 & Hb2).
  assert (Hi : is_Some (rd m1 p)).
  { rewrite Hf, decide_False by lia. destruct (Hb2 (p - buf)) as [x Hx]; [lia|].
    replace (buf + (p - buf)) with p in Hx by lia. by eexists. }
  destruct (store8_ok m1 p c) as (m2 & E & H2); [lia|done|].
  rewrite u8_small in H2 by lia.
  assert (Hbytes : ∀ i, (i < Z.to_nat (p - buf))%nat -> buf_byte m2 i = buf_byte m1 i).
  { intros i Hi'. unfold buf_byte. rewrite H2. by rewrite (proj2 (Z.eqb_neq _ _)) by lia. }
  assert (Hlast : buf_byte m2 (Z.to_nat (p - buf)) = c).
  { unfold buf_byte. rewrite H2. by rewrite (proj2 (Z.eqb_eq _ _)) by lia. }
  assert (Htext : buf_text (m2, p + 1) = buf_text (m1, p) ++ [c]).
  { unfold buf_text. cbn [fst snd].
    replace (Z.to_nat (p + 1 - buf)) with (Datatypes.S (Z.to_nat (p - buf))) by lia.
    rewrite seq_S, fmap_app. cbn. rewrite Hlast. f_equal.
    apply list_fmap_ext. intros k x [-> Hk]%lookup_seq. by apply Hbytes. }
  exists (m2, p + 1). split.
  { unfold vsprintf_help. mrun. cbn [snd]. unfold lift_mem, mbind, M_bind. rewrite E.
    unfold modify. cbn [fst snd]. by rewrite u32_small by lia. }
  split; [|exact Htext]. split; [cbn; lia|].
  split; [rewrite Htext, length_app, buf_text_length; cbn; lia|].
  intros b. cbn [fst snd]. rewrite H2. destruct (Z.eqb_spec b p) as [->|Hne].
  - rewrite decide_True by lia. by rewrite Hlast.
  - rewrite Hf. repeat case_decide; try lia; [|done]. by rewrite Hbytes by lia.
Qed.

#[local] Instance sprintf_output : Output (B * Z) vsprintf_help := {
  out_ok := buf_ok; out_text := buf_text; out_cap := n; out_put := buf_put
}.

Lemma buf_ld s a v :
  buf_ok s -> 0 <= a < 2 ^ 32 -> rd hid a = Some v -> load8_at a s = Done v s.
Proof.
  destruct s as [m1 p]. intros (Hp & Hn & Hf) Ha. rewrite buf_text_length in Hn. cbn in *.
  unfold in_hidden. cbn. case_match eqn:E; [done|]. intros Hv.
  unfold load8_at, lift_mem. rewrite (load8_ok m1 a v); [done..|].
  rewrite Hf, decide_False by (apply andb_false_iff in E; rewrite Z.leb_gt, Z.ltb_ge in E; lia). done.
Qed.

Lemma vsprintf_emits fm ar out rest :
  length out = n -> Z.of_nat n < 2 ^ 31 ->
  emits buf_ok buf_text n (do_printf load8_at vsprintf_help fm ar) out (u32 (Z.of_nat (length out)), rest) ->
  ∃ m', vsprintf buf fm ar m = Done (Z.of_nat n) m' ∧
    filled buf (Z.of_nat n + 1) (λ i, (out ++ [0]) !! Z.to_nat i) m m'.
Proof.
  intros Hlen Hmax Hem.
  destruct (Hem (m, buf)) as ([m1 p] & E & (Hp & Hn & Hf) & Ht).
  { split; [cbn; lia|]. unfold buf_text. cbn [fst snd]. rewrite Z.sub_diag. cbn.
    split; [rewrite length_fmap, length_seq; lia|apply filled_nil]. }
  { rewrite buf_text_length. cbn [fst snd]. lia. }
  assert (Hnil : buf_text (m, buf) = []) by (unfold buf_text; cbn [fst snd]; by rewrite Z.sub_diag).
  rewrite Hnil in Ht. cbn [app] in Ht.
  assert (Hpn : p = buf + Z.of_nat n).
  { apply (f_equal length) in Ht. rewrite buf_text_length in Ht. cbn [fst snd] in *. lia. }
  subst p. cbn [fst snd] in *. replace (buf + Z.of_nat n - buf) with (Z.of_nat n) in Hf by lia.
  destruct Hbuf as (Hb0 & Hb1 & Hb2).
  destruct (store8_ok m1 (buf + Z.of_nat n) 0) as (m2 & E2 & H2); [lia| |].
  { rewrite Hf, decide_False by lia. apply Hb2. lia. }
  exists m2. split.
  { unfold vsprintf. rewrite E. rewrite Hlen, u32_small by lia. rewrite s32_small by lia.
    by mstep E2. }
  intros b. rewrite H2. destruct (Z.eqb_spec b (buf + Z.of_nat n)) as [->|Hne].
  - rewrite decide_True by lia.
    replace (Z.to_nat (buf + Z.of_nat n - buf)) with (length out + 0)%nat by lia.
    by rewrite lookup_app_r, Nat.add_sub_swap, Nat.sub_diag by lia.
  - rewrite Hf. repeat case_decide; try lia; [|done].
    rewrite lookup_app_l by lia. rewrite <- Ht. unfold buf_text. cbn [fst snd].
    rewrite list_lookup_fmap, lookup_seq_lt by lia. done.
Qed.
Lemma vsprintf_spec its fm ar vs out :
  length out = n -> Z.of_nat n < 2 ^ 31 ->
  cstr hid fm (format_chars its) -> Forall item_ok its -> Forall2 (passes hid) ar vs ->
  render its vs = Some out ->
  ∃ m', vsprintf buf fm ar m = Done (Z.of_nat n) m' ∧
    filled buf (Z.of_nat n + 1) (λ i, (out ++ [0]) !! Z.to_nat i) m m'.
Proof.
  intros Hlen Hmax Hl Hok Hargs Hr.
  destruct (do_printf_spec hid load8_at vsprintf_help buf_ok buf_text n buf_ld buf_put
    its fm ar vs out Hl Hok Hargs Hr) as (rest & Hem).
  by apply (vsprintf_emits fm ar out rest).
Qed.
End sprintf_spec.

(** ** Properties *)

Section printf_properties.
Context {B : Type} `{!ByteMem B}.
Implicit Types m : B.

(** C4: whatever the output function, [do_printf] on the format string of
    a description outputs exactly the rendering of its directives (padding,
    sign, radix, strings, characters) applied to the arguments, returns the
    number of characters, and consumes the arguments in order. *)
Theorem printf_renders {S : Type} m (ld : Z -> M S Z) (fn : Z -> M S unit) `{!Output S fn}
    its fm ar vs out s
    (Hld : ∀ s a v, out_ok fn s -> 0 <= a < 2 ^ 32 -> rd m a = Some v -> ld a s = Done v s)
    (Hfmt : cstr m fm (format_chars its)) (Hitems : Forall item_ok its)
    (Hargs : Forall2 (passes m) ar vs) (Hr : render its vs = Some out)
    (Hs : out_ok fn s) (Hroom : (length (out_text fn s) + length out <= out_cap fn)%nat) :
  ∃ rest s', do_printf ld fn fm ar s = Done (u32 (Z.of_nat (length out)), rest) s' ∧
    out_ok fn s' ∧ out_text fn s' = out_text fn s ++ out.
Proof.
  destruct (do_printf_spec m ld fn (out_ok fn) (out_text fn) (out_cap fn) Hld out_put
    its fm ar vs out Hfmt Hitems Hargs Hr) as (rest & Hem).
  exists rest. by apply Hem.
Qed.

(** C22: [sprintf] writes the rendering and its terminator at the buffer and
    changes no other byte, when the format and the strings lie outside the
    buffer and the buffer has room for one character more than the text. *)
Theorem sprintf_writes m buf its fm ar vs out
    (Hbuf : mapped m buf (Z.of_nat (length out) + 1)) (Hmax : Z.of_nat (length out) < 2 ^ 31)
    (Hfmt : cstr (Hidden m buf (Z.of_nat (length out) + 1)) fm (format_chars its))
    (Hitems : Forall item_ok its)
    (Hargs : Forall2 (passes (Hidden m buf (Z.of_nat (length out) + 1))) ar vs)
    (Hr : render its vs = Some out) :
  ∃ m', sprintf buf fm ar m = Done (Z.of_nat (length out)) m' ∧
    (∀ i, 0 <= i <= Z.of_nat (length out) -> rd m' (buf + i) = (out ++ [0]) !! Z.to_nat i) ∧
    (∀ b, ¬ (buf <= b <= buf + Z.of_nat (length out)) -> rd m' b = rd m b).
Proof.
  destruct (vsprintf_spec m buf (length out) Hbuf its fm ar vs out) as (m' & E & Hf); [done..|].
  exists m'. split; [exact E|]. split; intros b Hb; rewrite Hf.
  - rewrite decide_True by lia. do 2 f_equal. lia.
  - by rewrite decide_False by lia.
Qed.

Lemma cstr_hidden_le m buf n n' a l :
  n' <= n -> cstr (Hidden m buf n) a l -> cstr (Hidden m buf n') a l.
Proof.
  intros Hn. assert (Hrd : ∀ a v, rd (Hidden m buf n) a = Some v -> rd (Hidden m buf n') a = Some v).
  { intros b v. cbn. unfold in_hidden. cbn. case_match eqn:E1; [done|]. intros Hv.
    case_match eqn:E2; [|done]. apply andb_true_iff in E2 as [?%Z.leb_le ?%Z.ltb_lt].
    apply andb_false_iff in E1 as [?%Z.leb_gt|?%Z.ltb_ge]; lia. }
  revert a. induction l as [|x l IH]; intros a; cbn [cstr].
  - intros [? ?]. split; [done|]. by apply Hrd.
  - intros (? & ? & ? & ?). split; [done|]. split; [by apply Hrd|]. split; [done|]. by apply IH.
Qed.

Lemma cstr_from_bytes m a l :
  0 <= a -> a + Z.of_nat (length l) < 2 ^ 32 -> Forall (λ x, 0 < x < 256) l ->
  (∀ i, 0 <= i <= Z.of_nat (length l) -> rd m (a + i) = (l ++ [0]) !! Z.to_nat i) -> cstr m a l.
Proof.
  revert a. induction l as [|x l IH]; intros a Ha Hlen Hc Hrd; cbn [cstr length] in *.
  - split; [lia|]. specialize (Hrd 0 ltac:(lia)). by rewrite Z.add_0_r in Hrd.
  - apply Forall_cons in Hc as [Hx Hc]. split; [done|].
    split; [specialize (Hrd 0 ltac:(lia)); by rewrite Z.add_0_r in Hrd|]. split; [done|].
    apply IH; [lia|lia|done|]. intros i Hi. specialize (Hrd (1 + i) ltac:(lia)).
    replace (a + 1 + i) with (a + (1 + i)) by lia. rewrite Hrd. by replace (Z.to_nat (1 + i)) with (Datatypes.S (Z.to_nat i)) by lia.
Qed.

(** The number a text denotes. *)
Definition read_number (r : Z) (t : list Z) : Z :=
  match t with 45 :: t' => - number_value r 0 t' | _ => number_value r 0 t end.

Lemma read_number_show cv a :
  let n := if conv_signed cv then s32 a else u32 a in
  let t := show_number false false 0 cv a in
  read_number (conv_radix cv) t = n ∧ (length t <= 12)%nat ∧ Forall (λ x, 0 < x < 256) t.
Proof.
  intros n t. set (ds := digits (conv_upper cv) (conv_radix cv) (Z.abs n)).
  assert (Hn : 0 <= Z.abs n < 2 ^ 32).
  { unfold n. pose proof (s32_range a). pose proof (u32_range a). destruct (conv_signed cv); lia. }
  assert (Hv : number_value (conv_radix cv) 0 ds = Z.abs n).
  { apply to_digits_value; [destruct cv; cbn; lia| |lia]. split; [lia|].
    eapply Z.lt_le_trans; [apply Hn|]. change (2 ^ 32) with 4294967296.
    destruct cv; vm_compute; discriminate. }
  pose proof (to_digits_length 11 (conv_upper cv) (conv_radix cv) (Z.abs n) [] ltac:(lia)) as Hlen.
  pose proof (to_digits_chars 47 11 (conv_upper cv) (conv_radix cv) (Z.abs n) [] ltac:(lia)
    ltac:(destruct cv; cbn; lia) ltac:(constructor)) as Hch.
  fold (digits (conv_upper cv) (conv_radix cv) (Z.abs n)) in Hlen, Hch. fold ds in Hlen, Hch.
  cbn [length] in Hlen.
  assert (Ht : t = (if n <? 0 then [45] else []) ++ ds).
  { unfold t, show_number, field, pad_left, pad_right. fold n. fold ds.
    replace (Z.to_nat (0 - (Z.of_nat (length ds) + b2z (n <? 0)))) with 0%nat
      by (destruct (n <? 0); cbn; lia).
    destruct (n <? 0); cbn; by rewrite app_nil_r. }
  rewrite Ht. destruct (Z.ltb_spec n 0) as [Hneg|Hpos]; cbn [app length].
  - split; [cbn [read_number]; rewrite Hv; lia|]. split; [lia|]. constructor; [lia|].
    eapply Forall_impl; [exact Hch|]. cbn. lia.
  - split; [|split; [lia|eapply Forall_impl; [exact Hch|]; cbn; lia]].
    transitivity (number_value (conv_radix cv) 0 ds); [|lia].
    unfold read_number. destruct ds as [|d l]; [done|]. apply Forall_cons in Hch as [Hd _].
    repeat case_match; subst; done || lia.
Qed.

(** C23: printing a number and reading the text back gives the number: the
    signed value of the argument for d and i, its unsigned value for the
    other numeric conversions, in the conversion's radix; twelve characters
    and the terminator are room enough for every argument. *)
Theorem sprintf_number_roundtrip m buf fm cv a
    (Hbuf : mapped m buf 13) (Hcv : cv ≠ Cvc ∧ cv ≠ Cvs)
    (Hfmt : cstr (Hidden m buf 13) fm [37; conv_char cv]) :
  ∃ m' text, sprintf buf fm [a] m = Done (Z.of_nat (length text)) m' ∧ cstr m' buf text ∧
    read_number (conv_radix cv) text = if conv_signed cv then s32 a else u32 a.
Proof.
  destruct (read_number_show cv a) as (Hread & Hlen & Hch).
  set (text := show_number false false 0 cv a) in *.
  assert (Hr : render [Directive false false 0 [] cv] [ANum a] = Some text).
  { destruct Hcv. destruct cv; try done; cbn; by rewrite app_nil_r. }
  destruct Hbuf as (Hb0 & Hb1 & Hb2).
  assert (Hbuf' : mapped m buf (Z.of_nat (length text) + 1)).
  { split; [done|]. split; [lia|]. intros i Hi. apply Hb2. lia. }
  destruct (vsprintf_spec m buf (length text) Hbuf' [Directive false false 0 [] cv] fm [a] [ANum a] text)
    as (m' & E & Hf); [done|lia| | | |exact Hr|].
  { by eapply cstr_hidden_le, Hfmt; lia. }
  { repeat constructor; lia. }
  { by repeat constructor. }
  exists m', text. split; [exact E|]. split; [|done].
  apply cstr_from_bytes; [done|lia|done|]. intros i Hi. rewrite Hf, decide_True by lia.
  do 2 f_equal. lia.
Qed.

(** A format that ends in a single % is read past its terminator: the
    scanner takes the NUL for the conversion character, drops it, and goes on
    with whatever lies in memory behind the string, here another format. *)
Theorem printf_reads_past_nul m buf its fm ar vs out
    (Hbuf : mapped m buf (Z.of_nat (length out) + 1)) (Hmax : Z.of_nat (length out) < 2 ^ 31)
    (Hfmt : cstr (Hidden m buf (Z.of_nat (length out) + 1)) fm [37])
    (Hnext : cstr (Hidden m buf (Z.of_nat (length out) + 1)) (fm + 2) (format_chars its))
    (Hitems : Forall item_ok its)
    (Hargs : Forall2 (passes (Hidden m buf (Z.of_nat (length out) + 1))) ar vs)
    (Hr : render its vs = Some out) :
  ∃ m', sprintf buf fm ar m = Done (Z.of_nat (length out)) m' ∧
    (∀ i, 0 <= i <= Z.of_nat (length out) -> rd m' (buf + i) = (out ++ [0]) !! Z.to_nat i).
Proof.
  destruct (do_printf_past_nul _ load8_at vsprintf_help (buf_ok m buf (length out)) (buf_text buf)
    (length out) (buf_ld m buf (length out)) (buf_put m buf (length out) Hbuf) its fm ar vs out) as (rest & Hem); [done..|].
  destruct (vsprintf_emits m buf (length out) Hbuf fm ar out rest) as (m' & E & Hf); [done..|].
  exists m'. split; [exact E|]. intros i Hi. rewrite Hf, decide_True by lia.
  do 2 f_equal. lia.
Qed.
End printf_properties.

(** A format and a string in memory, and a log of the characters output. *)
Definition demo_format : list item :=
  [Literal 120; Percent; Directive false true 5 [Modl] Cvd; Directive true false 4 [] Cvs;
   Directive false false 0 [] Cvx].
Definition demo_args : list arg := [ANum (-42); AStr [111; 107]; ANum 48879].
Definition demo_words : list Z := [-42; 200; 48879].
Definition demo_text : list Z := default [] (render demo_format demo_args).
Definition demo_mem : gmap Z Z :=
  poke 1000 (replicate 40 255) (poke 200 [111; 107; 0] (poke 100 (format_chars demo_format ++ [0]) ∅)).

Definition log_char (c : Z) : M (list Z) unit := modify (λ s, s ++ [c]).
Lemma log_put s c :
  True -> 0 <= c < 256 -> (length s < 100)%nat ->
  ∃ s', log_char c s = Done tt s' ∧ True ∧ s' = s ++ [c].
Proof. intros _ _ _. by exists (s ++ [c]). Qed.
#[local] Instance log_output : Output (list Z) log_char := {
  out_ok s := True; out_text s := s; out_cap := 100; out_put := log_put
}.

Definition log_load (a : Z) : M (list Z) Z := of_option (WildPointer a) (rd demo_mem a).

(** "x%-0042ok  beef" *)
Example demo_text_is :
  demo_text = [120; 37; 45; 48; 48; 52; 50; 111; 107; 32; 32; 98; 101; 101; 102].
Proof. reflexivity. Qed.

Lemma mapped_check (m : gmap Z Z) a n :
  (0 <=? a) && (a + n <=? 2 ^ 32) && forallb (λ i, bool_decide (is_Some (rd m (a + i)))) (seqZ 0 n) = true ->
  mapped m a n.
Proof.
  intros [[Ha%Z.leb_le Hn%Z.leb_le]%andb_true_iff Hall]%andb_true_iff. split; [done|]. split; [done|].
  intros i Hi. rewrite forallb_forall in Hall. specialize (Hall i). rewrite bool_decide_eq_true in Hall.
  apply Hall, list_elem_of_In, elem_of_seqZ. lia.
Qed.

Ltac in_memory := repeat split; vm_compute; (reflexivity || discriminate || auto).

Lemma printf_renders_witness :
  cstr demo_mem 100 (format_chars demo_format) ∧
  ∃ rest s', do_printf log_load log_char 100 demo_words []
      = Done (u32 (Z.of_nat (length demo_text)), rest) s' ∧
    out_ok log_char s' ∧ out_text log_char s' = out_text log_char [] ++ demo_text.
Proof.
  assert (Hf : cstr demo_mem 100 (format_chars demo_format)) by in_memory. split; [exact Hf|].
  apply (printf_renders demo_mem log_load log_char demo_format 100 demo_words
    demo_args demo_text []); [|exact Hf| | |reflexivity|exact I|vm_compute; lia].
  - intros s a v _ _ H. unfold log_load. by rewrite H.
  - repeat constructor; lia.
  - repeat constructor; in_memory.
Defined.

Lemma sprintf_writes_witness :
  ∃ m', sprintf 1000 100 demo_words demo_mem = Done 15 m' ∧
    (∀ i, 0 <= i <= 15 -> rd m' (1000 + i) = (demo_text ++ [0]) !! Z.to_nat i) ∧
    (∀ b, ¬ (1000 <= b <= 1000 + 15) -> rd m' b = rd demo_mem b).
Proof.
  apply (sprintf_writes demo_mem 1000 demo_format 100 demo_words demo_args demo_text).
  - apply mapped_check. by vm_compute.
  - by vm_compute.
  - in_memory.
  - repeat constructor; lia.
  - repeat constructor; in_memory.
  - reflexivity.
Defined.

Lemma sprintf_number_roundtrip_witness :
  ∃ m' text, sprintf 1000 100 [-77] (poke 1000 (replicate 13 255) (poke 100 [37; 100; 0] ∅))
      = Done (Z.of_nat (length text)) m' ∧ cstr m' 1000 text ∧ read_number 10 text = -77.
Proof.
  apply (sprintf_number_roundtrip (poke 1000 (replicate 13 255) (poke 100 [37; 100; 0] ∅)) 1000 100 Cvd (-77)).
  - apply mapped_check. by vm_compute.
  - by split.
  - in_memory.
Defined.

(** The bytes behind the format "%" are "%x": 48879 is printed. *)
Lemma printf_reads_past_nul_witness :
  ∃ m', sprintf 1000 100 [48879] (poke 1000 (replicate 13 255) (poke 100 [37; 0; 37; 120; 0] ∅))
      = Done 4 m' ∧
    (∀ i, 0 <= i <= 4 -> rd m' (1000 + i) = ([98; 101; 101; 102] ++ [0]) !! Z.to_nat i).
Proof.
  apply (printf_reads_past_nul (poke 1000 (replicate 13 255) (poke 100 [37; 0; 37; 120; 0] ∅)) 1000
    [Directive false false 0 [] Cvx] 100 [48879] [ANum 48879] [98; 101; 101; 102]).
  - apply mapped_check. by vm_compute.
  - by vm_compute.
  - in_memory.
  - in_memory.
  - repeat constructor; lia.
  - by repeat constructor.
  - reflexivity.
Defined.
