(* ===== verification/PrintfView.v ===== *)
(** * Formatted output to devices that do not remember what they printed

    [printf_renders] speaks of a text that the state determines. A screen
    forgets: what scrolled off is gone. Here the formatter runs beside a log
    of the characters it outputs, and forgetting the log commutes with the
    run; so a device is only asked what one character does to it. *)

From S2P Require Import Prelude CString Printf.

(** ** Runs seen through a function on states *)

Section view.
Context {S T : Type} (view : S -> T).

Definition see {A} (o : outcome S A) : outcome T A :=
  match o with
  | Done a s => Done a (view s)
  | Fault f => Fault f
  | Halted s => Halted (view s)
  | Spin => Spin
  end.
Definition seen {A} (k : M S A) (k' : M T A) : Prop := ∀ s, k' (view s) = see (k s).

Lemma seen_ret {A} (a : A) : seen (mret a) (mret a).
Proof. done. Qed.
Lemma seen_fail {A} f : seen (A := A) (fail f) (fail f).
Proof. done. Qed.
Lemma seen_of_option {A} f (o : option A) : seen (of_option f o) (of_option f o).
Proof. by destruct o. Qed.
Lemma seen_spin {A} : seen (A := A) spin spin.
Proof. done. Qed.

Lemma seen_bind {A C} (k : M S A) (k' : M T A) (f : A -> M S C) (f' : A -> M T C) :
  seen k k' -> (∀ a, seen (f a) (f' a)) -> seen (k ≫= f) (k' ≫= f').
Proof.
  intros Hk Hf s. unfold mbind, M_bind. rewrite (Hk s). destruct (k s); cbn [see]; [apply Hf|done..].
Qed.

Lemma seen_iter {A C} (body : A -> M S (A + C)) (body' : A -> M T (A + C)) p :
  (∀ a, seen (body a) (body' a)) -> ∀ a, seen (iterate p body a) (iterate p body' a).
Proof.
  intros Hb. induction p as [p IH|p IH|]; intros a; cbn [iterate]; [| |apply Hb].
  - apply seen_bind; [apply Hb|]. intros [a1|b]; [|apply seen_ret].
    apply seen_bind; [apply IH|]. intros [a2|b]; [apply IH|apply seen_ret].
  - apply seen_bind; [apply IH|]. intros [a1|b]; [apply IH|apply seen_ret].
Qed.

Lemma seen_while {A C} p (body : A -> M S (A + C)) (body' : A -> M T (A + C)) a :
  (∀ a, seen (body a) (body' a)) -> seen (while p body a) (while p body' a).
Proof.
  intros Hb. apply seen_bind; [by apply seen_iter|]. intros [?|?]; [apply seen_spin|apply seen_ret].
Qed.

Lemma seen_for_up n from (f : Z -> M S unit) (f' : Z -> M T unit) :
  (∀ i, seen (f i) (f' i)) -> seen (for_up n from f) (for_up n from f').
Proof.
  intros Hf. revert from. induction n as [|n IH]; intros from; cbn [for_up]; [apply seen_ret|].
  apply seen_bind; [apply Hf|]. intros _. apply IH.
Qed.
End view.

Create HintDb seen.

(** Follow the shape of the two programs. *)
Ltac see_both :=
  repeat (intros; cbv beta zeta; match goal with
    | |- seen _ (match ?x with _ => _ end) _ => destruct x
    | |- seen _ (mret _) _ => apply seen_ret
    | |- seen _ (fail _) _ => apply seen_fail
    | |- seen _ (of_option _ _) _ => apply seen_of_option
    | |- seen _ (mbind _ _) _ => apply seen_bind
    | |- seen _ (while _ _ _) _ => apply seen_while
    | |- seen _ (for_up _ _ _) _ => apply seen_for_up
    | |- seen _ _ _ => solve [auto with seen nocore]
    end).

Section printf.
Context {S T : Type} (view : S -> T).
Context (ld : Z -> M S Z) (ld' : Z -> M T Z) (fn : Z -> M S unit) (fn' : Z -> M T unit).
Context (Hld : ∀ a, seen view (ld a) (ld' a)) (Hfn : ∀ c, seen view (fn c) (fn' c)).

Lemma see_put_char c p : seen view (put_char fn c p) (put_char fn' c p).
Proof. unfold put_char. see_both. Qed.
Lemma see_put_many n c p : seen view (put_many fn n c p) (put_many fn' n c p).
Proof. unfold put_many. see_both. Qed.
Lemma see_next_arg p : seen view (next_arg p) (next_arg p).
Proof. unfold next_arg. see_both. Qed.
Lemma see_push_buf buf w c : seen view (push_buf buf w c) (push_buf buf w c).
Proof. unfold push_buf. see_both. Qed.
#[local] Hint Resolve see_put_char see_put_many see_next_arg see_push_buf : seen.
Lemma see_convert fl r n : seen view (convert fl r n) (convert fl r n).
Proof. unfold convert. see_both. Qed.

Lemma see_emit2 rdc rdc' w n p :
  (∀ a, seen view (rdc a) (rdc' a)) -> seen view (emit2 fn rdc w n p) (emit2 fn' rdc' w n p).
Proof. unfold emit2. see_both. Qed.
#[local] Hint Resolve see_convert see_emit2 : seen.
Lemma see_emit rdc rdc' w p :
  (∀ a, seen view (rdc a) (rdc' a)) -> seen view (emit fn rdc w p) (emit fn' rdc' w p).
Proof. unfold emit, strlen_unsigned. see_both. Qed.
Lemma see_read_buf buf a : seen view (read_buf buf a) (read_buf buf a).
Proof. apply seen_of_option. Qed.
#[local] Hint Resolve see_emit see_read_buf : seen.

Lemma see_do_num r p : seen view (do_num fn r p) (do_num fn' r p).
Proof. unfold do_num. see_both. Qed.
#[local] Hint Resolve see_do_num : seen.
Lemma see_state4 p : seen view (state4 ld fn p) (state4 ld' fn' p).
Proof. unfold state4. see_both. Qed.
#[local] Hint Resolve see_state4 : seen.
Lemma see_state3 p : seen view (state3 ld fn p) (state3 ld' fn' p).
Proof. unfold state3. see_both. Qed.
#[local] Hint Resolve see_state3 : seen.
Lemma see_state2 p : seen view (state2 ld fn p) (state2 ld' fn' p).
Proof. unfold state2. see_both. Qed.
#[local] Hint Resolve see_state2 : seen.
Lemma see_state1 p : seen view (state1 ld fn p) (state1 ld' fn' p).
Proof. unfold state1. see_both. Qed.
#[local] Hint Resolve see_state1 : seen.
Lemma see_state0 p : seen view (state0 ld fn p) (state0 ld' fn' p).
Proof. unfold state0. see_both. Qed.
#[local] Hint Resolve see_state0 : seen.
Lemma see_step p : seen view (printf_step ld fn p) (printf_step ld' fn' p).
Proof. unfold printf_step. see_both. Qed.
#[local] Hint Resolve see_step : seen.
Lemma see_printf fm ar : seen view (do_printf ld fn fm ar) (do_printf ld' fn' fm ar).
Proof. unfold do_printf. see_both. Qed.
End printf.

(** ** Devices *)

Section device.
Context {B : Type} `{!ByteMem B} {S : Type} (ld : Z -> M S Z) (fn : Z -> M S unit).
(** [After l s]: the device in [s] has been given the text [l]. *)
Context (After : list Z -> S -> Prop).
Context (after_char : ∀ l s c, After l s -> 0 <= c < 256 -> ∃ s', fn c s = Done tt s' ∧ After (l ++ [c]) s').

Definition logged_ld (a : Z) : M (S * list Z) Z := λ s,
  match ld a (fst s) with
  | Done v s' => Done v (s', snd s)
  | Fault f => Fault f
  | Halted s' => Halted (s', snd s)
  | Spin => Spin
  end.
Definition logged_fn (c : Z) : M (S * list Z) unit := λ s,
  match fn c (fst s) with
  | Done v s' => Done v (s', snd s ++ [c])
  | Fault f => Fault f
  | Halted s' => Halted (s', snd s)
  | Spin => Spin
  end.

Lemma see_logged_ld a : seen fst (logged_ld a) (ld a).
Proof. intros s. unfold logged_ld. by destruct (ld a (fst s)). Qed.
Lemma see_logged_fn c : seen fst (logged_fn c) (fn c).
Proof. intros s. unfold logged_fn. by destruct (fn c (fst s)). Qed.

Lemma logged_put cap s c :
  After (snd s) (fst s) -> 0 <= c < 256 -> (length (snd s) < cap)%nat ->
  ∃ s', logged_fn c s = Done tt s' ∧ After (snd s') (fst s') ∧ snd s' = snd s ++ [c].
Proof.
  intros Hs Hc _. destruct (after_char _ _ _ Hs Hc) as (s1 & E & H1).
  exists (s1, snd s ++ [c]). unfold logged_fn. by rewrite E.
Qed.

Definition logged_output (cap : nat) : Output (S * list Z) logged_fn := {|
  out_ok s := After (snd s) (fst s); out_text := snd; out_cap := cap; out_put := logged_put cap
|}.

(** [do_printf] gives the device the rendering, one character at a time. *)
Lemma do_printf_after (m : B) its fm ar vs out s
    (Hld : ∀ l s a v, After l s -> 0 <= a < 2 ^ 32 -> rd m a = Some v -> ld a s = Done v s)
    (Hfmt : cstr m fm (format_chars its)) (Hitems : Forall item_ok its)
    (Hargs : Forall2 (passes m) ar vs) (Hr : render its vs = Some out) (Hs : After [] s) :
  ∃ rest s', do_printf ld fn fm ar s = Done (u32 (Z.of_nat (length out)), rest) s' ∧ After out s'.
Proof.
  pose (logged_output (length out)) as Hout.
  destruct (do_printf_spec m logged_ld logged_fn (out_ok logged_fn) (out_text logged_fn) (length out)
    ltac:(idtac; intros [s1 l] a v H1 Ha Hv; unfold logged_ld; cbn [fst snd];
          by rewrite (Hld l s1 a v H1 Ha Hv))
    (out_put (Output := Hout)) its fm ar vs out Hfmt Hitems Hargs Hr) as (rest & Hem).
  destruct (Hem (s, [])) as ([s' l] & E & Hok & Ht); [exact Hs|cbn; lia|].
  exists rest, s'. cbn in Ht. subst l. split; [|exact Hok].
  pose proof (see_printf fst logged_ld ld logged_fn fn see_logged_ld see_logged_fn fm ar (s, [])) as Hsee.
  cbn [fst] in Hsee. by rewrite Hsee, E.
Qed.
End device.
