(* ===== verification/Ports.v ===== *)
(** * Device registers (arch/x86/ports.c and the drivers that only talk to them)

    Input and output as the sequence of accesses the code makes. What a
    device answers is a function of everything done before; the theorems hold
    for every such function, or for those a device's manual promises. *)

From S2P Require Import Prelude CString.

(** ** Accesses: their width in bits, the port or register, the value *)

Inductive io :=
  | Out (w port value : Z)
  | In (w port : Z).

Record ports := Ports { accesses : list io }.
Class Bus := reply : list io -> Z -> Z -> Z.

Section access.
Context `{!Bus}.

Definition access (e : io) : M ports unit := modify (λ p, Ports (accesses p ++ [e])).
Definition out (w port value : Z) : M ports unit := access (Out w port (value mod 2 ^ w)).
Definition in_ (w port : Z) : M ports Z :=
  p ← get; access (In w port);; mret (reply (accesses p) w port mod 2 ^ w).

Definition outb (port value : Z) : M ports unit := out 8 (u16 port) value.
Definition outw (port value : Z) : M ports unit := out 16 (u16 port) value.
Definition outl (port value : Z) : M ports unit := out 32 (u16 port) value.
Definition inb (port : Z) : M ports Z := in_ 8 (u16 port).
Definition inw (port : Z) : M ports Z := in_ 16 (u16 port).
(** The instruction is [inw]: only half of the register that [ret] is in is
    written, [eax] is what it held before. *)
Definition inl_ (eax port : Z) : M ports Z :=
  v ← in_ 16 (u16 port); mret (u32 (Z.lor (Z.land eax 0xFFFF0000) v)).

(** Registers in memory (arch/arm/*/drivers/mmio.c) *)
Definition mmio_write (reg data : Z) : M ports unit := out 32 (u32 reg) data.
Definition mmio_read (reg : Z) : M ports Z := in_ 32 (u32 reg).
End access.

(** What was sent to a port, byte by byte. *)
Definition sent_by (port : Z) (e : io) : option Z :=
  match e with Out _ q v => if q =? port then Some v else None | In _ _ => None end.
Definition sent (port : Z) (p : ports) : list Z := omap (sent_by port) (accesses p).

(** ** The interval timer (arch/x86/drivers/pit.c) *)

Definition pit_phase (hz : Z) : M ports unit :=
  if hz =? 0 then fail DivideByZero
  else
    let divisor := s32 (1193180 ÷ hz) in
    outb 0x43 0x36;;
    outb 0x40 (Z.land divisor 0xFF);;
    outb 0x40 (Z.shiftr divisor 8).

(** ** The serial port (arch/x86/drivers/serial.c) *)

Definition COM1 : Z := 0x3f8.

Section serial.
Context `{!Bus}.
Local Abbreviation K := (M ports).

Definition serial_start : K Z :=
  outb (COM1 + 1) 0x00;; outb (COM1 + 3) 0x80;; outb (COM1 + 0) 0x03;; outb (COM1 + 1) 0x00;;
  outb (COM1 + 3) 0x03;; outb (COM1 + 2) 0xC7;; outb (COM1 + 4) 0x0B;; mret 0.

Definition serial_received : K Z := v ← inb (COM1 + 5); mret (Z.land v 1).
Definition serial_is_transmit_empty : K Z := v ← inb (COM1 + 5); mret (Z.land v 0x20).

(** [while (cond() == 0);] *)
Definition wait_for (cond : K Z) : K unit :=
  while word_fuel (λ _, v ← cond; mret (if v =? 0 then inl tt else inr tt)) tt.

Definition serial_read : K Z := wait_for serial_received;; v ← inb COM1; mret (s8 v).
Definition serial_read_nowait : K Z :=
  r ← serial_received; if r =? 1 then v ← inb COM1; mret (s8 v) else mret 0.
Definition serial_write (a : Z) : K unit := wait_for serial_is_transmit_empty;; outb COM1 a.
End serial.

(** ** Printing a string: [int i = 0; while (c[i]) f(i, c[i++]);] *)

Section strings.
Context {S : Type} (ld : Z -> M S Z) (f : Z -> Z -> M S unit).

Definition each_char (c : Z) : M S unit :=
  while word_fuel (λ i,
    v ← ld (c + i);
    if v =? 0 then mret (inr tt)
    else v ← ld (c + i); f i v;; mret (inl (i + 1))) 0.
End strings.

Definition serial_print `{!Bus} {S} `{!Has ports S} (ld : Z -> M S Z) (c : Z) : M S unit :=
  each_char ld (λ _ v, within (serial_write v)) c.

(** ** The Bochs display (arch/x86/drivers/bga.c) *)

Definition BGA_VBE_DISPI_IOPORT_INDEX : Z := 0x01CE.
Definition BGA_VBE_DISPI_IOPORT_DATA : Z := 0x01CF.
Definition BGA_VBE_DISPI_INDEX_ID : Z := 0.
Definition BGA_VBE_DISPI_INDEX_XRES : Z := 1.
Definition BGA_VBE_DISPI_INDEX_YRES : Z := 2.
Definition BGA_VBE_DISPI_INDEX_BPP : Z := 3.
Definition BGA_VBE_DISPI_INDEX_ENABLE : Z := 4.
Definition BGA_VBE_DISPI_DISABLED : Z := 0x00.
Definition BGA_VBE_DISPI_ENABLED : Z := 0x01.
Definition BGA_VBE_DISPI_LFB_ENABLED : Z := 0x40.
Definition BGA_VBE_DISPI_NOCLEARMEM : Z := 0x80.

Section bga.
Context `{!Bus}.
Local Abbreviation K := (M ports).

Definition bga_writeregister (index value : Z) : K unit :=
  outw BGA_VBE_DISPI_IOPORT_INDEX index;; outw BGA_VBE_DISPI_IOPORT_DATA value.
Definition bga_readregister (index : Z) : K Z :=
  outw BGA_VBE_DISPI_IOPORT_INDEX index;; inw BGA_VBE_DISPI_IOPORT_DATA.

Definition bga_isavalable : K Z :=
  ver ← bga_readregister BGA_VBE_DISPI_INDEX_ID;
  mret (if ver <? 0xB0C2 then 0 else if 0xB0C5 <? ver then 0 else 1).

Definition bga_setmode (width height bitdepth linearframebuffer clearvideomemory : Z) : K unit :=
  bga_writeregister BGA_VBE_DISPI_INDEX_ENABLE BGA_VBE_DISPI_DISABLED;;
  bga_writeregister BGA_VBE_DISPI_INDEX_XRES width;;
  bga_writeregister BGA_VBE_DISPI_INDEX_YRES height;;
  bga_writeregister BGA_VBE_DISPI_INDEX_BPP bitdepth;;
  bga_writeregister BGA_VBE_DISPI_INDEX_ENABLE
    (Z.lor (Z.lor BGA_VBE_DISPI_ENABLED
       (if truth linearframebuffer then BGA_VBE_DISPI_LFB_ENABLED else 0))
       (if truth clearvideomemory then 0 else BGA_VBE_DISPI_NOCLEARMEM)).

(** [bga_isinit] is the state's other component. *)
Definition bga_start : M (ports * bool) Z :=
  ok ← within bga_isavalable;
  if ok =? 0 then mret 1
  else
    within (bga_setmode 800 600 32 1 0);;
    modify (λ s, (fst s, true));; mret 0.

(** video.c: [return !bga_isavalable();] *)
Definition video_graphics_capable : K Z := ok ← bga_isavalable; mret (b2z (negb (truth ok))).
End bga.

(** ** Facts *)

Section facts.
Context `{!Bus}.
Implicit Types p : ports.

Lemma sent_app q l e : sent q (Ports (l ++ [e])) = sent q (Ports l) ++ option_list (sent_by q e).
Proof. unfold sent. cbn. rewrite omap_app. cbn. by destruct (sent_by q e). Qed.

Lemma outb_done q v p :
  outb q v p = Done tt (Ports (accesses p ++ [Out 8 (u16 q) (u8 v)])).
Proof. done. Qed.

Lemma inb_done q p :
  inb q p = Done (u8 (reply (accesses p) 8 (u16 q))) (Ports (accesses p ++ [In 8 (u16 q)])).
Proof. done. Qed.

(** The [n] reads of a register that busy waiting makes. *)
Definition polled (q : Z) (n : nat) p : ports := Ports (accesses p ++ replicate n (In 8 q)).

Lemma sent_polled q r n p : sent q (polled r n p) = sent q p.
Proof.
  unfold sent, polled. cbn. rewrite omap_app.
  replace (omap (sent_by q) (replicate n (In 8 r))) with (@nil Z); [apply app_nil_r|].
  by induction n.
Qed.

Lemma polled_S q n p : Ports (accesses (polled q n p) ++ [In 8 q]) = polled q (S n) p.
Proof. unfold polled. cbn [accesses]. by rewrite <- app_assoc, <- replicate_cons_app. Qed.

(** The line status answers "transmitter empty" after some more polls. *)
Definition line_status p : Z := u8 (reply (accesses p) 8 (COM1 + 5)).
Definition drains (n : nat) p : Prop :=
  ∃ k, (k < n)%nat ∧ Z.land (line_status (polled (COM1 + 5) k p)) 0x20 ≠ 0 ∧
    ∀ j, (j < k)%nat -> Z.land (line_status (polled (COM1 + 5) j p)) 0x20 = 0.

Lemma polled_polled q n p : polled q n (polled q 1 p) = polled q (S n) p.
Proof. unfold polled. cbn. by rewrite <- app_assoc. Qed.

Lemma empty_done p :
  serial_is_transmit_empty p = Done (Z.land (line_status p) 0x20) (polled (COM1 + 5) 1 p).
Proof. done. Qed.

Lemma serial_write_done c n p :
  drains n p -> Z.of_nat n <= 2 ^ 32 ->
  ∃ k, serial_write c p
    = Done tt (Ports (accesses (polled (COM1 + 5) k p) ++ [Out 8 COM1 (u8 c)])).
Proof.
  intros (k & Hk & Hyes & Hno) Hn. exists (S k).
  assert (wait_for serial_is_transmit_empty p = Done tt (polled (COM1 + 5) (S k) p)) as Hw.
  { apply (runs_while _ (S k)); [|pose proof word_fuel_Z; lia].
    clear Hk. revert p Hyes Hno. induction k as [|k IH]; intros p Hyes Hno.
    - apply runs_end. mstep (empty_done p). destruct (Z.eqb_spec (Z.land (line_status p) 0x20) 0) as [E|]; [|done].
      exfalso. apply Hyes. rewrite <- E. unfold polled. cbn [replicate]. by rewrite app_nil_r; destruct p.
    - eapply runs_step.
      + mstep (empty_done p). specialize (Hno 0%nat ltac:(lia)). unfold polled in Hno. cbn [replicate] in Hno.
        rewrite app_nil_r in Hno. destruct p. cbn [accesses] in *. by rewrite Hno.
      + rewrite <- (polled_polled _ (S k)). apply IH.
        * by rewrite polled_polled.
        * intros j Hj. rewrite polled_polled. apply Hno. lia. }
  unfold serial_write. by mstep Hw.
Qed.
End facts.

(** A loop over the characters of a string, by an invariant on the part
    already printed. *)
Lemma each_char_runs {S} (ld : Z -> M S Z) (f : Z -> Z -> M S unit) (I : nat -> S -> Prop) c l s :
  (∀ i s, (i <= length l)%nat -> I i s -> ld (c + Z.of_nat i) s = Done (char_at l i) s) ->
  (∀ i s, (i < length l)%nat -> I i s ->
     ∃ s', f (Z.of_nat i) (char_at l i) s = Done tt s' ∧ I (Datatypes.S i) s') ->
  Forall (λ v, v ≠ 0) l -> Z.of_nat (length l) < 2 ^ 32 -> I 0%nat s ->
  ∃ s', each_char ld f c s = Done tt s' ∧ I (length l) s'.
Proof.
  intros Hld Hf Hnz Hlen HI. unfold each_char.
  assert (∀ k i s, (i + k = length l)%nat -> I i s ->
    ∃ s', runs (λ i, v ← ld (c + i);
      if v =? 0 then mret (inr tt) else v ← ld (c + i); f i v;; mret (inl (i + 1)))
      (Datatypes.S k) (Z.of_nat i) s tt s' ∧ I (length l) s') as Hruns.
  { clear HI s. induction k as [|k IH]; intros i s Hk HI.
    - exists s. replace i with (length l) in * by lia. split; [|done]. apply runs_end.
      mstep (Hld _ _ (le_n _) HI). by rewrite char_at_end.
    - assert (Hi : (i < length l)%nat) by lia. pose proof (Hld i s ltac:(lia) HI) as Hl.
      destruct (Hf i s Hi HI) as (s1 & E1 & H1).
      destruct (IH (Datatypes.S i) s1 ltac:(lia) H1) as (s2 & E2 & H2). exists s2. split; [|done].
      eapply (runs_step _ _ _ _ (Z.of_nat (Datatypes.S i))); [|exact E2].
      mstep Hl. destruct (Z.eqb_spec (char_at l i) 0) as [E|_].
      { exfalso. rewrite Forall_lookup in Hnz. apply lookup_lt_is_Some in Hi as (v & Hv).
        apply (Hnz i v Hv). unfold char_at in E. by rewrite Hv in E. }
      mstep Hl. mstep E1. unfold mret, M_ret. do 2 f_equal. lia. }
  destruct (Hruns (length l) 0%nat s eq_refl HI) as (s' & E & H). exists s'. split; [|done].
  eapply runs_while; [exact E|]. pose proof word_fuel_Z. lia.
Qed.

(** ** The serial line carries the text *)

Section serial_text.
Context `{!Bus} {B : Type} `{!ByteMem B}.
Implicit Types (m : B) (p : ports).

(** C36: When the line always drains within [n] polls, [serial_print] of a
    string returns, having sent the string's characters to COM1 in order
    and nothing else, and having left memory as it was. *)
Theorem serial_print_sends n m c l p
    (Hdrains : ∀ q, drains n q) (Hn : Z.of_nat n <= 2 ^ 32) (Hstr : cstr m c l) :
  ∃ p', serial_print (λ a, within (load8 a)) c (m, p) = Done tt (m, p') ∧
    sent COM1 p' = sent COM1 p ++ l.
Proof.
  destruct (each_char_runs (λ a, within (load8 a)) (λ _ v, within (serial_write v))
    (λ i (s : B * ports), fst s = m ∧ sent COM1 (snd s) = sent COM1 p ++ take i l) c l (m, p))
    as ([m' p'] & E & <- & Hsent).
  - intros i [m1 q] Hi [Hm _]. cbn in Hm. subst m1. apply within_read, (cstr_load m c l i Hi Hstr).
  - intros i [m1 q] Hi [Hm Hq]. cbn in Hm, Hq. subst m1.
    destruct (serial_write_done (char_at l i) n q (Hdrains q) Hn) as (k & Hw).
    eexists. split; [exact (within_done (T := ports) (serial_write (char_at l i)) (m, q) _ _ Hw)|].
    split; [done|]. cbn [snd set_part has_snd]. rewrite sent_app.
    change (sent COM1 (Ports _)) with (sent COM1 (polled (COM1 + 5) k q)).
    rewrite sent_polled, Hq, <- app_assoc. f_equal.
    pose proof (char_at_lt l i (cstr_chars _ _ _ Hstr) Hi).
    cbn [sent_by]. rewrite Z.eqb_refl, u8_small by lia. cbn [option_list].
    apply lookup_lt_is_Some in Hi as (v & Hv). unfold char_at. by rewrite (take_S_r _ _ _ Hv), Hv.
  - eapply Forall_impl; [by eapply cstr_chars|]. intros v [? _]. cbn in *. lia.
  - pose proof (cstr_range _ _ _ Hstr). lia.
  - split; [done|]. cbn. by rewrite app_nil_r.
  - exists p'. split; [exact E|]. cbn in Hsent. by rewrite Hsent, firstn_all.
Qed.
End serial_text.

(** "Hi" at 200, and a line that is ready at every third poll. *)
Definition demo_string : gmap Z Z := {[ 200 := 72; 201 := 105; 202 := 0 ]}.
Fixpoint polls (l : list io) : nat :=
  match l with [] => 0 | In _ _ :: l' => S (polls l') | Out _ _ _ :: l' => polls l' end.
Definition slow_line : Bus := λ l _ _, if (polls l mod 3 =? 0)%nat then 0x60 else 0x40.

Lemma polls_app l1 l2 : polls (l1 ++ l2) = (polls l1 + polls l2)%nat.
Proof. induction l1 as [|[] l1 IH]; cbn; lia. Qed.

Lemma polls_poll n q : polls (replicate n (In 8 q)) = n.
Proof. induction n; cbn; lia. Qed.

Lemma slow_line_drains q : drains (H := slow_line) 3 q.
Proof.
  assert (∀ k, line_status (H := slow_line) (polled (COM1 + 5) k q)
    = if ((polls (accesses q) mod 3 + k) mod 3 =? 0)%nat then 0x60 else 0x40) as Hl.
  { intros k. unfold line_status, polled. cbn [accesses]. unfold reply, slow_line.
    rewrite polls_app, polls_poll, Nat.Div0.add_mod_idemp_l. by destruct (_ =? 0)%nat. }
  pose proof (Nat.mod_upper_bound (polls (accesses q)) 3 ltac:(lia)) as Hb.
  exists ((3 - polls (accesses q) mod 3) mod 3)%nat. rewrite Hl. setoid_rewrite Hl.
  destruct (polls (accesses q) mod 3)%nat as [|[|[|r]]]; [| | |lia];
    (split; [cbn; lia|]; split; [done|]); intros [|[|j]] Hj; cbn in Hj; try lia; done.
Qed.

Lemma serial_print_sends_witness :
  ∃ p', serial_print (H := slow_line) (λ a, within (load8 a)) 200 (demo_string, Ports [])
      = Done tt (demo_string, p') ∧ sent COM1 p' = [72; 105].
Proof.
  apply (serial_print_sends (H := slow_line) 3 demo_string 200 [72; 105] (Ports [])).
  - exact slow_line_drains.
  - lia.
  - vm_compute; repeat split; discriminate.
Defined.

(** [pit_phase] programs the channel with the low sixteen bits of
    1193180 / hz, low byte first: the divisor itself from 19 Hz up, and a
    shorter one, so a faster tick, below. *)
Theorem pit_phase_divisor hz p (Hhz : 0 < hz < 2 ^ 31) :
  ∃ lo hi, pit_phase hz p
      = Done tt (Ports (accesses p ++ [Out 8 0x43 0x36; Out 8 0x40 lo; Out 8 0x40 hi])) ∧
    0 <= lo < 256 ∧ 0 <= hi < 256 ∧ lo + 256 * hi = u16 (1193180 / hz) ∧
    (19 <= hz -> lo + 256 * hi = 1193180 / hz) ∧
    (hz < 19 -> lo + 256 * hi < 1193180 / hz).
Proof.
  assert (Hd : 0 <= 1193180 / hz <= 1193180).
  { split; [apply Z.div_pos; lia|]. apply Z.div_le_upper_bound; lia. }
  unfold pit_phase. rewrite (proj2 (Z.eqb_neq hz 0)) by lia.
  rewrite Z.quot_div_nonneg, s32_small by lia. set (d := 1193180 / hz) in *.
  exists (u8 (Z.land d 0xFF)), (u8 (Z.shiftr d 8)).
  rewrite !(bind_Done _ _ _ _ _ (outb_done _ _ _)), outb_done. cbn [accesses].
  rewrite <- !app_assoc. split; [done|].
  replace (Z.land d 0xFF) with (d mod 256) by (symmetry; apply (Z.land_ones d 8); lia).
  rewrite Z.shiftr_div_pow2 by lia. unfold u8, u16.
  change (2 ^ 8) with 256; change (2 ^ 16) with 65536.
  split; [zdm|]. split; [zdm|]. assert (Hsum : d mod 256 mod 256 + 256 * (d / 256 mod 256) = d mod 65536) by zdm.
  split; [exact Hsum|]. rewrite Hsum. split; intros Hz.
  - apply Z.mod_small. split; [lia|]. apply Z.div_lt_upper_bound; lia.
  - assert (65536 <= d) by (apply Z.div_le_lower_bound; lia). zdm.
Qed.

Lemma pit_phase_divisor_witness :
  ∃ lo hi, pit_phase 1000 (Ports [])
      = Done tt (Ports [Out 8 0x43 0x36; Out 8 0x40 lo; Out 8 0x40 hi]) ∧ lo + 256 * hi = 1193.
Proof.
  destruct (pit_phase_divisor 1000 (Ports []) ltac:(lia)) as (lo & hi & E & _ & _ & _ & Hv & _).
  exists lo, hi. split; [exact E|]. apply Hv. lia.
Defined.
