(* ===== verification/Console.v ===== *)
(** * The text console (terminal.c, video.c, arch/x86/drivers/textmode.c)

    The x86 text console: 80 by 25 cells of video memory, a cursor, the
    hardware cursor behind its index and data ports. The abstract view is a
    tape of cells of which the screen shows the end: writing never has to
    scroll there, lines wrap because the tape is continuous, and [printc]
    refines it. printf and the log write through [printc]. *)

From S2P Require Import Prelude CString Ram Printf PrintfView Ports.

(** The memory, the ports and the static variables of the three files. *)
Record console := Console {
  c_mem : ram; c_ports : ports; term_x : Z; term_y : Z; attributeByte : Z
}.
Definition with_mem m s := Console m (c_ports s) (term_x s) (term_y s) (attributeByte s).
Definition with_ports p s := Console (c_mem s) p (term_x s) (term_y s) (attributeByte s).
Definition with_cursor x y s := Console (c_mem s) (c_ports s) x y (attributeByte s).
Definition with_attribute b s := Console (c_mem s) (c_ports s) (term_x s) (term_y s) b.

#[export] Program Instance has_mem : Has ram console := { part := c_mem; set_part := with_mem }.
Solve All Obligations with (by repeat intros []).
#[export] Program Instance has_ports : Has ports console := { part := c_ports; set_part := with_ports }.
Solve All Obligations with (by repeat intros []).

(** ** Video memory (textmode.c) *)

Definition video_memory : Z := 0xB8000.
Definition defaultAttribute : Z := Z.lor (Z.shiftl 0 4) (Z.land 15 0x0F).

Section textmode.
Local Abbreviation K := (M console).

Definition textmode_setcursor (x y : Z) : M ports unit :=
  let location := u16 (y * 80 + x) in
  outb 0x3D4 14;; outb 0x3D5 (Z.shiftr location 8);; outb 0x3D4 15;; outb 0x3D5 location.

Definition textmode_setcolor (back fore : Z) : K unit :=
  modify (with_attribute (u8 (Z.lor (Z.shiftl back 4) (Z.land fore 0x0F)))).
Definition textmode_resetcolor : K unit := modify (with_attribute defaultAttribute).

Definition textmode_write_color (x y data attr : Z) : M ram unit :=
  let attribute := u16 (Z.shiftl attr 8) in
  store16 (video_memory + 2 * (y * 80 + x)) (Z.lor data attribute).
Definition textmode_write (x y data : Z) : K unit :=
  attr ← gets attributeByte; within (textmode_write_color x y data attr).

Definition textmode_clear : M ram unit := _ ← memset video_memory 0x00 (80 * 24 * 2); mret tt.
Definition textmode_read (x y : Z) : Z := 0 * (x + y).

Definition textmode_scroll (from to : Z) : K unit :=
  attr ← gets attributeByte;
  let blank := u16 (Z.lor 0x20 (Z.shiftl attr 8)) in
  within (
    for_up (Z.to_nat (to * 80 - from * 80)) (from * 80) (λ i,
      v ← load16 (video_memory + 2 * (i + 80)); store16 (video_memory + 2 * i) v);;
    for_up (Z.to_nat ((to + 1) * 80 - to * 80)) (to * 80) (λ i,
      store16 (video_memory + 2 * i) blank)).
End textmode.

(** ** The x86 branches of video.c *)

Section video.
Local Abbreviation K := (M console).

Definition video_printchar (x y c : Z) : K unit := textmode_write x y c.
Definition video_printcoloredchar (x y c attribute : Z) : K unit :=
  within (textmode_write_color x y c attribute).
Definition video_scroll (from to : Z) : K unit := textmode_scroll from to.
Definition video_setcursor (x y : Z) : K unit := within (textmode_setcursor x y).
Definition video_clear : K unit := within textmode_clear.
Definition video_setattributetext (back fore : Z) : K unit := textmode_setcolor back fore.
Definition video_resetattributetext : K unit := textmode_resetcolor.

Definition ld (a : Z) : K Z := within (load8 a).
Definition video_printstring (x y c : Z) : K unit :=
  each_char ld (λ i v, video_printchar (x + i) y v) c.
Definition video_printcoloredstring (x y attribute c : Z) : K unit :=
  each_char ld (λ i v, video_printcoloredchar (x + i) y v attribute) c.
End video.

(** ** The terminal (terminal.c) *)

Section terminal.
Local Abbreviation K := (M console).

Definition scroll : K unit :=
  s ← get;
  if 25 <=? term_y s then video_scroll 0 24;; modify (λ s, with_cursor (term_x s) 24 s) else mret tt.

Definition printc (c : Z) : K unit :=
  s ← get;
  let x := term_x s in let y := term_y s in
  (if (c =? 0x08) && truth x then modify (with_cursor (u32 (x - 1)) y)
   else if c =? 0x09 then modify (with_cursor (Z.land (u32 (x + 8)) (u32 (Z.lnot (8 - 1)))) y)
   else if c =? 13 then modify (with_cursor 0 y)
   else if c =? 10 then modify (with_cursor 0 (u32 (y + 1)))
   else if 32 <=? c then video_printchar x y c;; modify (λ s, with_cursor (u32 (x + 1)) y s)
   else mret tt);;
  s ← get;
  (if 80 <=? term_x s then modify (with_cursor 0 (u32 (term_y s + 1))) else mret tt);;
  scroll;;
  s ← get;
  video_setcursor (term_x s) (term_y s).

Definition print (c : Z) : K unit := each_char ld (λ _ v, printc v) c.
Definition terminal_clear : K unit := video_clear.

Definition terminal_init `{!Bus} : K unit :=
  within (outb 0x3D4 14);;
  hi ← within (inb 0x3D5);
  within (outb 0x3D4 15);;
  lo ← within (inb 0x3D5);
  let offset := u16 (Z.lor (Z.shiftl hi 8) lo) in
  modify (with_cursor (offset mod 80) (offset / 80));;
  s ← get;
  video_setcursor (term_x s) (term_y s).
End terminal.

(** ** Formatted output to it (printf.c, klog.c) *)

Section formatted.
Context `{!Bus} (LOG_SERIAL : bool).
Local Abbreviation K := (M console).

(** [printc] takes an [unsigned char], [serial_write] a [char]. *)
Definition con_printc (c : Z) : K unit := printc (u8 c).
Definition con_serial (c : Z) : K unit := within (serial_write c).
Definition con_vprintf (fmt : Z) (args : list Z) : K Z :=
  vprintf ld con_printc con_serial LOG_SERIAL fmt args.
Definition con_printf (fmt : Z) (args : list Z) : K Z := con_vprintf fmt args.

(** [buffer]: where the 256 bytes are on the stack *)
Definition printf_at (buffer x y fmt : Z) (args : list Z) : K Z :=
  rv ← within (vsprintf buffer fmt args); video_printstring x y buffer;; mret rv.
Definition printf_at_cc (buffer x y color fmt : Z) (args : list Z) : K Z :=
  rv ← within (vsprintf buffer fmt args); video_printcoloredstring x y color buffer;; mret rv.
End formatted.

(** ** The tape *)

(** Cells in reading order, of which the screen shows the last 25 lines of
    80; a cell holds the character and its attribute. *)
Record tape := Tape { cells : list Z; pos : Z }.

Definition shown : Z := 80 * 25.
Definition cell_of (attr c : Z) : Z := c + 256 * attr.
Definition tape_end (t : tape) : Z := Z.of_nat (length (cells t)).
Definition tape_move (attr : Z) (l : list Z) (q : Z) : tape :=
  if q <? Z.of_nat (length l) then Tape l q else Tape (l ++ replicate 80 (cell_of attr 32)) q.
Definition tape_put (attr : Z) (t : tape) (c : Z) : tape :=
  if c =? 8 then if pos t mod 80 =? 0 then t else Tape (cells t) (pos t - 1)
  else if c =? 9 then tape_move attr (cells t) (pos t / 8 * 8 + 8)
  else if c =? 13 then Tape (cells t) (pos t / 80 * 80)
  else if c =? 10 then tape_move attr (cells t) (pos t / 80 * 80 + 80)
  else if 32 <=? c then tape_move attr (aset (pos t) (cell_of attr c) (cells t)) (pos t + 1)
  else t.
Definition tape_puts (attr : Z) (l : list Z) (t : tape) : tape := foldl (tape_put attr) t l.

(** Whole lines, at least a screen of them, the position on the last screen. *)
Record tape_ok (t : tape) : Prop := {
  tape_lines : tape_end t mod 80 = 0;
  tape_screen : shown <= tape_end t;
  tape_pos : tape_end t - shown <= pos t < tape_end t
}.

Lemma mod80_lt a b : a mod 80 = 0 -> b mod 80 = 0 -> a < b -> a + 80 <= b.
Proof. intros. zdm. Qed.

Lemma tape_end_aset q v l p : tape_end (Tape (aset q v l) p) = Z.of_nat (length l).
Proof. unfold tape_end. cbn. by rewrite length_aset. Qed.

Lemma tape_move_ok attr l q :
  Z.of_nat (length l) mod 80 = 0 -> shown <= Z.of_nat (length l) ->
  Z.of_nat (length l) - shown <= q <= Z.of_nat (length l) -> tape_ok (tape_move attr l q).
Proof.
  unfold shown. intros Hm Hs Hq. unfold tape_move. destruct (Z.ltb_spec q (Z.of_nat (length l))).
  - split; unfold tape_end, shown; cbn; lia.
  - split; unfold tape_end, shown; cbn [cells pos]; rewrite ?length_app, ?length_replicate; [zdm|lia|lia].
Qed.

Lemma tape_put_ok attr t c : tape_ok t -> tape_ok (tape_put attr t c).
Proof.
  intros [Hm Hs Hp]. unfold tape_end, shown in *. unfold tape_put.
  repeat case_match; try (by split); try apply tape_move_ok; rewrite ?length_aset; try (unfold shown; zdm).
  all: split; unfold tape_end, shown; cbn [cells pos]; zdm.
Qed.

(** ** Video memory *)

Definition cell (m : ram) (i : Z) : Z := word16 m (video_memory + 2 * i).
Definition set_cell (i v : Z) (m : ram) : ram := set_word16 (video_memory + 2 * i) v m.

Section cells.
Implicit Types m : ram.

Lemma cell_range m i : ram_ok m -> 0 <= cell m i < 65536.
Proof. apply word16_range. Qed.

Lemma cell_set_eq i v m : 0 <= v < 65536 -> cell (set_cell i v m) i = v.
Proof. intros. unfold cell, set_cell. rewrite word16_set_eq. by apply u16_small. Qed.

Lemma cell_set_ne i j v m : i ≠ j -> 0 <= i < shown -> 0 <= j < shown -> cell (set_cell i v m) j = cell m j.
Proof. unfold shown. intros. apply word16_set_ne; unfold video_memory; lia. Qed.

(** The bytes that are not on the screen. *)
Definition off_screen (a : Z) : Prop := ¬ (video_memory <= a < video_memory + 2 * shown).
Definition same_elsewhere m m' : Prop := ∀ a, 0 <= a < 2 ^ 32 -> off_screen a -> rd m' a = rd m a.

Lemma same_refl m : same_elsewhere m m.
Proof. by intros a. Qed.
Lemma same_trans m1 m2 m3 : same_elsewhere m1 m2 -> same_elsewhere m2 m3 -> same_elsewhere m1 m3.
Proof. intros H1 H2 a ? ?. by rewrite H2, H1. Qed.

Lemma set_cell_same i v m : 0 <= i < shown -> same_elsewhere m (set_cell i v m).
Proof.
  unfold shown. intros Hi a Ha Hoff. unfold off_screen, video_memory, shown in Hoff.
  unfold set_cell, video_memory. apply rd_set_word16; lia.
Qed.

(** ** Scrolling *)

Lemma copy_up m :
  ram_ok m ->
  ∃ m', for_up 1920 0 (λ i, v ← load16 (video_memory + 2 * (i + 80)); store16 (video_memory + 2 * i) v) m
      = Done tt m' ∧ ram_ok m' ∧ same_elsewhere m m' ∧
    ∀ j, 0 <= j < shown -> cell m' j = if j <? 1920 then cell m (j + 80) else cell m j.
Proof.
  intros Hm.
  apply (for_up_inv (λ i m', ram_ok m' ∧ same_elsewhere m m' ∧
    ∀ j, 0 <= j < shown -> cell m' j = if j <? i then cell m (j + 80) else cell m j)).
  - intros i d Hi (Hok & Hf & Hc). exists (set_cell i (cell d (i + 80)) d). split; [done|].
    split; [by apply set_word16_ok|]. split.
    { eapply same_trans; [exact Hf|]. apply set_cell_same. unfold shown. lia. }
    intros j Hj. destruct (decide (i = j)) as [<-|].
    + rewrite cell_set_eq by (by apply cell_range). rewrite Hc by (unfold shown in *; lia).
      destruct (Z.ltb_spec (i + 80) i), (Z.ltb_spec i (i + 1)); (done || lia).
    + rewrite cell_set_ne, Hc by (unfold shown in *; lia).
      destruct (Z.ltb_spec j i), (Z.ltb_spec j (i + 1)); (done || lia).
  - split; [done|]. split; [apply same_refl|]. intros j Hj. destruct (Z.ltb_spec j 0); [lia|done].
Qed.

Lemma fill_last blank m :
  ram_ok m -> 0 <= blank < 65536 ->
  ∃ m', for_up 80 1920 (λ i, store16 (video_memory + 2 * i) blank) m = Done tt m' ∧
    ram_ok m' ∧ same_elsewhere m m' ∧
    ∀ j, 0 <= j < shown -> cell m' j = if j <? 1920 then cell m j else blank.
Proof.
  intros Hm Hb.
  destruct (for_up_inv (λ i m', ram_ok m' ∧ same_elsewhere m m' ∧ ∀ j, 0 <= j < shown ->
      cell m' j = if (1920 <=? j) && (j <? i) then blank else cell m j)
    80 1920 (λ i, store16 (video_memory + 2 * i) blank) m) as (m' & E & Hok & Hf & Hc).
  - intros i d Hi (Hok & Hf & Hc). exists (set_cell i blank d). split; [done|].
    split; [by apply set_word16_ok|]. split.
    { eapply same_trans; [exact Hf|]. apply set_cell_same. unfold shown. lia. }
    intros j Hj. destruct (decide (i = j)) as [<-|].
    + rewrite cell_set_eq by done.
      destruct (Z.leb_spec 1920 i), (Z.ltb_spec i (i + 1)); (done || lia).
    + rewrite cell_set_ne, Hc by (unfold shown in *; lia).
      destruct (Z.leb_spec 1920 j), (Z.ltb_spec j i), (Z.ltb_spec j (i + 1)); (done || lia).
  - split; [done|]. split; [apply same_refl|]. intros j Hj.
    destruct (Z.leb_spec 1920 j), (Z.ltb_spec j 1920); (done || lia).
  - exists m'. split; [exact E|]. split; [exact Hok|]. split; [exact Hf|]. clear E. intros j Hj. rewrite Hc by done.
    unfold shown in Hj.
    destruct (Z.leb_spec 1920 j), (Z.ltb_spec j (1920 + Z.of_nat 80)), (Z.ltb_spec j 1920); (done || lia).
Qed.

Lemma within_mem {A} (k : M ram A) s a m' :
  k (c_mem s) = Done a m' -> within k s = Done a (with_mem m' s).
Proof. exact (within_done (T := ram) k s a m'). Qed.

Lemma within_ports {A} (k : M ports A) s a p' :
  k (c_ports s) = Done a p' -> within k s = Done a (with_ports p' s).
Proof. exact (within_done (T := ports) k s a p'). Qed.

Lemma scroll_cells s :
  ram_ok (c_mem s) -> 0 <= attributeByte s < 256 ->
  ∃ m', textmode_scroll 0 24 s = Done tt (with_mem m' s) ∧ ram_ok m' ∧ same_elsewhere (c_mem s) m' ∧
    ∀ j, 0 <= j < shown -> cell m' j
      = if j <? 1920 then cell (c_mem s) (j + 80) else cell_of (attributeByte s) 32.
Proof.
  intros Hm Hb. destruct (copy_up _ Hm) as (m1 & E1 & Hok1 & Hf1 & Hc1).
  assert (u16 (Z.lor 0x20 (Z.shiftl (attributeByte s) 8)) = cell_of (attributeByte s) 32) as Hblank.
  { rewrite lor_shiftl by lia. unfold cell_of. change (2 ^ 8) with 256. rewrite u16_small by lia. lia. }
  destruct (fill_last (cell_of (attributeByte s) 32) m1 Hok1) as (m2 & E2 & Hok2 & Hf2 & Hc2).
  { unfold cell_of. lia. }
  exists m2. split.
  - unfold textmode_scroll. rewrite (bind_Done _ _ _ _ _ (eq_refl : gets attributeByte s = Done _ _)), Hblank.
    apply within_mem.
    change (Z.to_nat (24 * 80 - 0 * 80)) with 1920%nat. change (Z.to_nat ((24 + 1) * 80 - 24 * 80)) with 80%nat.
    change (0 * 80) with 0. change (24 * 80) with 1920. mstep E1. exact E2.
  - clear E1 E2. split; [done|]. split; [by eapply same_trans|]. intros j Hj. rewrite Hc2 by done.
    rewrite Hc1 by done. by destruct (j <? 1920).
Qed.
End cells.

(** ** The screen shows the end of the tape *)

Definition shows_cells (m : ram) (l : list Z) : Prop :=
  ∀ j, 0 <= j < shown -> aget l (Z.of_nat (length l) - shown + j) = Some (cell m j).

Record shows (s : console) (t : tape) : Prop := {
  sh_tape : tape_ok t;
  sh_ram : ram_ok (c_mem s);
  sh_attribute : 0 <= attributeByte s < 256;
  sh_cells : shows_cells (c_mem s) (cells t);
  sh_x : term_x s = pos t mod 80;
  sh_y : term_y s = pos t / 80 - (tape_end t / 80 - 25)
}.

(** What sets the hardware cursor to the position on the screen. *)
Definition cursor_writes (loc : Z) : list io :=
  [Out 8 0x3D4 14; Out 8 0x3D5 (loc / 256); Out 8 0x3D4 15; Out 8 0x3D5 (loc mod 256)].
Definition cursor_of (t : tape) : Z := pos t - (tape_end t - shown).

(** From [s] to [s'] only the screen, the cursor and the cursor's ports. *)
Record wrote (s s' : console) (io : list io) : Prop := {
  wr_mem : same_elsewhere (c_mem s) (c_mem s');
  wr_ports : accesses (c_ports s') = accesses (c_ports s) ++ io;
  wr_attribute : attributeByte s' = attributeByte s
}.

Section printing.
Implicit Types (s : console) (t : tape) (l : list Z).

Lemma wrote_trans s1 s2 s3 a b : wrote s1 s2 a -> wrote s2 s3 b -> wrote s1 s3 (a ++ b).
Proof.
  intros [M1 P1 A1] [M2 P2 A2]. split; [by eapply same_trans|by rewrite P2, P1, app_assoc|congruence].
Qed.

Lemma shows_cells_grow m m' l b :
  shows_cells m l -> shown <= Z.of_nat (length l) ->
  (∀ j, 0 <= j < shown -> cell m' j = if j <? 1920 then cell m (j + 80) else b) ->
  shows_cells m' (l ++ replicate 80 b).
Proof.
  intros Hl Hlen Hc j Hj. rewrite length_app, length_replicate, Hc by done.
  unfold shown in *. destruct (Z.ltb_spec j 1920).
  - specialize (Hl (j + 80) ltac:(unfold shown; lia)). unfold shown in Hl.
    replace (Z.of_nat (length l + 80) - 80 * 25 + j) with (Z.of_nat (length l) - 80 * 25 + (j + 80)) by lia.
    unfold aget in *. rewrite decide_True in * by lia. by apply lookup_app_l_Some.
  - unfold aget. rewrite decide_True by lia. rewrite lookup_app_r by lia.
    apply lookup_replicate_2. lia.
Qed.

Lemma setcursor_spec s x y :
  0 <= x < 80 -> 0 <= y < 25 ->
  video_setcursor x y s = Done tt (with_ports (Ports (accesses (c_ports s) ++ cursor_writes (80 * y + x))) s).
Proof.
  intros Hx Hy. unfold video_setcursor. apply within_ports. unfold textmode_setcursor.
  rewrite u16_small by lia. rewrite !(bind_Done _ _ _ _ _ (outb_done _ _ _)), outb_done. cbn [accesses].
  rewrite <- !app_assoc. do 3 f_equal. unfold cursor_writes. cbn [app].
  rewrite Z.shiftr_div_pow2 by lia. replace (80 * y + x) with (y * 80 + x) by lia.
  change (2 ^ 8) with 256. unfold u8. change (2 ^ 8) with 256.
  by rewrite (Z.mod_small ((y * 80 + x) / 256)) by zdm.
Qed.

Definition finish : M console unit :=
  s ← get;
  (if 80 <=? term_x s then modify (with_cursor 0 (u32 (term_y s + 1))) else mret tt);;
  scroll;;
  s ← get;
  video_setcursor (term_x s) (term_y s).

(** The end of [printc], from any position up to the end of the tape. *)
Lemma settle s l q :
  ram_ok (c_mem s) -> 0 <= attributeByte s < 256 -> shows_cells (c_mem s) l ->
  Z.of_nat (length l) mod 80 = 0 -> shown <= Z.of_nat (length l) ->
  Z.of_nat (length l) - shown <= q <= Z.of_nat (length l) ->
  term_x s = q mod 80 -> term_y s = q / 80 - (Z.of_nat (length l) / 80 - 25) ->
  ∃ s', (scroll;; s ← get; video_setcursor (term_x s) (term_y s)) s = Done tt s' ∧
    let t' := tape_move (attributeByte s) l q in
    shows s' t' ∧ wrote s s' (cursor_writes (cursor_of t')).
Proof.
  intros Hram Hattr Hl Hm Hlen Hq Hx Hy. unfold shown in Hlen, Hq.
  unfold scroll, tape_move. destruct (Z.ltb_spec q (Z.of_nat (length l))) as [Hlt|Hge].
  - rewrite bind_assoc. mrun. rewrite (proj2 (Z.leb_gt 25 (term_y s))) by zdm. rewrite (bind_ret tt). mrun.
    rewrite setcursor_spec by zdm. eexists. split; [done|]. split.
    + split; cbn [c_mem with_ports attributeByte term_x term_y cells pos]; try done.
      split; unfold tape_end, shown; cbn [cells pos]; lia.
    + split; cbn [c_mem c_ports with_ports attributeByte accesses]; [apply same_refl| |done].
      do 2 f_equal. unfold cursor_of, tape_end, shown. cbn [cells pos]. zdm.
  - assert (q = Z.of_nat (length l)) as -> by lia.
    rewrite bind_assoc. mrun. rewrite (proj2 (Z.leb_le 25 (term_y s))) by zdm.
    destruct (scroll_cells s Hram Hattr) as (m' & Hsc & Hram' & Hsame & Hc).
    unfold video_scroll. rewrite bind_assoc. mstep Hsc. clear Hsc. mrun. cbn [term_x term_y with_mem with_cursor].
    rewrite setcursor_spec by zdm. eexists. split; [done|]. split.
    + assert (tape_end (Tape (l ++ replicate 80 (cell_of (attributeByte s) 32)) (Z.of_nat (length l)))
        = Z.of_nat (length l) + 80) as He.
      { unfold tape_end. cbn [cells]. rewrite length_app, length_replicate. lia. }
      split; cbn [c_mem with_ports with_mem with_cursor attributeByte term_x term_y cells pos]; try done.
      * split; rewrite He; unfold shown; cbn [pos]; [zdm|lia|lia].
      * by eapply shows_cells_grow.
      * rewrite He. zdm.
    + split; cbn [c_mem c_ports with_ports with_mem with_cursor attributeByte accesses]; [done| |done].
      do 2 f_equal. unfold cursor_of, tape_end, shown. cbn [cells pos].
      rewrite length_app, length_replicate, Hx. zdm.
Qed.

Lemma finish_spec s l q :
  ram_ok (c_mem s) -> 0 <= attributeByte s < 256 -> shows_cells (c_mem s) l ->
  Z.of_nat (length l) mod 80 = 0 -> shown <= Z.of_nat (length l) ->
  Z.of_nat (length l) - shown <= q <= Z.of_nat (length l) ->
  0 <= term_x s <= 80 -> 0 <= term_y s <= 25 ->
  q = 80 * (term_y s + (Z.of_nat (length l) / 80 - 25)) + term_x s ->
  ∃ s', finish s = Done tt s' ∧
    let t' := tape_move (attributeByte s) l q in
    shows s' t' ∧ wrote s s' (cursor_writes (cursor_of t')).
Proof.
  intros Hram Hattr Hl Hm Hlen Hq Hx Hy Hqe. unfold finish. mrun.
  destruct (Z.leb_spec 80 (term_x s)) as [H80|H80].
  - mrun. rewrite u32_small by lia.
    destruct (settle (with_cursor 0 (term_y s + 1) s) l q) as (s' & E & Hs & Hw); try done.
    + cbn [term_x with_cursor]. unfold shown in *. zdm.
    + cbn [term_y with_cursor]. unfold shown in *. zdm.
    + exists s'. split; [exact E|]. split; [exact Hs|]. by destruct Hw.
  - rewrite (bind_ret tt). apply settle; try done; unfold shown in *; zdm.
Qed.

Lemma write_cell s t c :
  shows s t -> 32 <= c < 256 ->
  ∃ m', video_printchar (term_x s) (term_y s) c s = Done tt (with_mem m' s) ∧ ram_ok m' ∧
    same_elsewhere (c_mem s) m' ∧
    shows_cells m' (aset (pos t) (cell_of (attributeByte s) c) (cells t)).
Proof.
  intros [[Hm Hs Hp] Hram Hattr Hl Hx Hy] Hc. unfold tape_end, shown in Hm, Hs, Hp, Hy.
  set (len := Z.of_nat (length (cells t))) in *. set (v := cell_of (attributeByte s) c).
  set (j0 := term_y s * 80 + term_x s).
  assert (Hj0 : 0 <= j0 < shown) by (unfold j0, shown; zdm).
  assert (Hpos : pos t = len - shown + j0) by (unfold j0, shown; zdm).
  assert (Hv : 0 <= v < 65536) by (unfold v, cell_of; lia).
  exists (set_cell j0 v (c_mem s)). split; [|split; [by apply set_word16_ok|split; [by apply set_cell_same|]]].
  - unfold video_printchar, textmode_write.
    rewrite (bind_Done _ _ _ _ _ (eq_refl : gets attributeByte s = Done _ _)).
    apply within_mem. unfold textmode_write_color. rewrite store16_word. fold j0.
    rewrite (u16_small (Z.shiftl _ _)) by (rewrite Z.shiftl_mul_pow2; lia).
    rewrite lor_shiftl by lia. unfold set_cell. do 3 f_equal. unfold v, cell_of. lia.
  - intros j Hj. rewrite length_aset. fold len. destruct (decide (j0 = j)) as [<-|Hne].
    + rewrite cell_set_eq by done. rewrite <- Hpos. apply aget_aset_eq. fold len. lia.
    + rewrite cell_set_ne by done. rewrite aget_aset_ne by lia. by apply Hl.
Qed.

Lemma tape_move_in attr l q : q < Z.of_nat (length l) -> tape_move attr l q = Tape l q.
Proof. intros. unfold tape_move. by rewrite (proj2 (Z.ltb_lt _ _)). Qed.

(** [finish] after a move of the cursor to [x], [y]. *)
Lemma finish_at s t x y q :
  shows s t -> 0 <= x <= 80 -> q = pos t - (80 * term_y s + term_x s) + (80 * y + x) ->
  0 <= y <= 25 -> tape_end t - shown <= q <= tape_end t ->
  ∃ s', finish (with_cursor x y s) = Done tt s' ∧
    let t' := tape_move (attributeByte s) (cells t) q in
    shows s' t' ∧ wrote s s' (cursor_writes (cursor_of t')).
Proof.
  intros [[Hm Hs Hp] Hram Hattr Hl Hx Hy] Hx' Hq Hy' Hqb. unfold tape_end in *.
  destruct (finish_spec (with_cursor x y s) (cells t) q) as (s' & E & Hs' & Hw); try done.
  - cbn [term_x term_y with_cursor]. unfold shown in *. zdm.
  - exists s'. split; [exact E|]. split; [exact Hs'|]. by destruct Hw.
Qed.
End printing.

Section printing_texts.
Implicit Types (s : console) (t : tape) (l : list Z).

Lemma tab_stop x : 0 <= x < 80 -> Z.land (u32 (x + 8)) (u32 (Z.lnot (8 - 1))) = x / 8 * 8 + 8.
Proof.
  intros Hx. rewrite u32_small by lia. change (u32 (Z.lnot (8 - 1))) with (Z.lxor (Z.ones 32) 7).
  assert (x = 8 * (x / 8) + x mod 8) as He by (apply Z.div_mod; lia).
  assert (0 <= x mod 8 < 8) by (apply Z.mod_pos_bound; lia). assert (0 <= x / 8 < 10) by zdm.
  set (a := x / 8) in *. set (b := x mod 8) in *. clearbody a b. subst x.
  assert (a = 0 ∨ a = 1 ∨ a = 2 ∨ a = 3 ∨ a = 4 ∨ a = 5 ∨ a = 6 ∨ a = 7 ∨ a = 8 ∨ a = 9) as Ha by lia.
  assert (b = 0 ∨ b = 1 ∨ b = 2 ∨ b = 3 ∨ b = 4 ∨ b = 5 ∨ b = 6 ∨ b = 7) as Hb by lia.
  intuition subst; reflexivity.
Qed.

(** A character that leaves the cursor where it is. *)
Lemma finish_stay s t :
  shows s t -> ∃ s', finish s = Done tt s' ∧ shows s' t ∧ wrote s s' (cursor_writes (cursor_of t)).
Proof.
  intros Hsh. pose proof Hsh as [[Hm Hs Hp] _ _ _ Hx Hy].
  destruct (finish_at s t (term_x s) (term_y s) (pos t) Hsh) as (s' & E & H);
    [unfold shown in *; zdm|lia|unfold shown in *; zdm|lia|].
  rewrite tape_move_in in H by (unfold tape_end in Hp; lia).
  exists s'. split; [by destruct s|by destruct t].
Qed.

Lemma printc_char s t c :
  shows s t -> 32 <= c < 256 ->
  ∃ s', (video_printchar (term_x s) (term_y s) c;;
         modify (λ s', with_cursor (u32 (term_x s + 1)) (term_y s) s');; finish) s = Done tt s' ∧
    let t' := tape_move (attributeByte s) (aset (pos t) (cell_of (attributeByte s) c) (cells t)) (pos t + 1) in
    shows s' t' ∧ wrote s s' (cursor_writes (cursor_of t')).
Proof.
  intros Hsh Hc. destruct (write_cell s t c Hsh Hc) as (m' & E & Hram' & Hsame & Hl').
  pose proof Hsh as [[Hm Hs Hp] Hram Hattr Hl Hx Hy].
  set (l' := aset _ _ _) in *. set (s1 := with_mem m' s).
  assert (∀ q, tape_end (Tape l' q) = tape_end t) as Hlen
    by (intros q; unfold tape_end, l'; cbn [cells]; by rewrite length_aset).
  assert (shows s1 (Tape l' (pos t))) as Hsh1.
  { split; cbn [s1 c_mem with_mem attributeByte term_x term_y pos]; try done.
    - split; cbn [pos]; by rewrite ?Hlen.
    - by rewrite Hlen. }
  destruct (finish_at s1 (Tape l' (pos t)) (term_x s + 1) (term_y s) (pos t + 1) Hsh1) as (s' & E' & Hs' & Hw).
  - zdm.
  - cbn [s1 with_mem term_x term_y pos]. lia.
  - unfold shown in *. zdm.
  - rewrite !Hlen. lia.
  - exists s'. mstep E. mrun. rewrite u32_small by zdm. split; [exact E'|]. split; [exact Hs'|].
    destruct Hw as [Hwm Hwp Hwa]. split; [by eapply same_trans|exact Hwp|exact Hwa].
Qed.

Lemma printc_spec s t c :
  shows s t -> 0 <= c < 256 ->
  ∃ s', printc c s = Done tt s' ∧
    let t' := tape_put (attributeByte s) t c in
    shows s' t' ∧ wrote s s' (cursor_writes (cursor_of t')).
Proof.
  intros Hsh Hc. pose proof Hsh as [[Hm Hs Hp] Hram Hattr Hl Hx Hy]. unfold shown in *.
  assert (Hpl : pos t < Z.of_nat (length (cells t))) by (unfold tape_end in Hp; lia).
  unfold printc. rewrite (bind_Done _ _ _ _ _ (eq_refl : get s = Done s s)). cbn beta zeta.
  fold finish. unfold tape_put, truth.
  assert (∀ x y q, 0 <= x <= 80 -> q = pos t - (80 * term_y s + term_x s) + (80 * y + x) ->
    0 <= y <= 25 -> tape_end t - 80 * 25 <= q < tape_end t ->
    ∃ s', (modify (with_cursor x y);; finish) s = Done tt s' ∧
      shows s' (Tape (cells t) q) ∧ wrote s s' (cursor_writes (cursor_of (Tape (cells t) q)))) as Hback.
  { intros x y q ? ? ? Hq. destruct (finish_at s t x y q Hsh) as (s' & E & Hfin); [done..|unfold shown; lia|].
    rewrite tape_move_in in Hfin by (unfold tape_end in Hq; lia). by exists s'. }
  destruct (Z.eqb_spec c 8) as [->|H8]; cbn [andb].
  { rewrite Hx. destruct (Z.eqb_spec (pos t mod 80) 0) as [E|E]; cbn [negb andb Z.eqb Z.leb Pos.eqb Z.compare Pos.compare Pos.compare_cont].
    - rewrite (bind_ret tt). by apply finish_stay.
    - rewrite u32_small by zdm. apply Hback; zdm. }
  destruct (Z.eqb_spec c 9) as [->|H9].
  { rewrite tab_stop by zdm. apply (finish_at s t); [done|zdm|zdm|zdm|unfold shown; zdm]. }
  destruct (Z.eqb_spec c 13) as [->|H13]; [apply Hback; zdm|].
  destruct (Z.eqb_spec c 10) as [->|H10].
  { rewrite u32_small by zdm. apply (finish_at s t); [done|zdm|zdm|zdm|unfold shown; zdm]. }
  destruct (Z.leb_spec 32 c).
  - rewrite bind_assoc. apply (printc_char s t c); [done|lia].
  - rewrite (bind_ret tt). by apply finish_stay.
Qed.
End printing_texts.

(** ** Texts *)

Definition off_screen_mem (s : console) : hidden ram := Hidden (c_mem s) video_memory (2 * shown).

(** The accesses that printing makes: to the cursor's ports, the data register
    of the serial line and its status. *)
Definition message_io (e : io) : Prop :=
  match e with
  | Out w q _ => w = 8 ∧ (q = 0x3D4 ∨ q = 0x3D5 ∨ q = COM1)
  | In w q => w = 8 ∧ q = COM1 + 5
  end.
Definition chatter (p p' : ports) : Prop := ∃ o, accesses p' = accesses p ++ o ∧ Forall message_io o.

Lemma chatter_refl p : chatter p p.
Proof. exists []. by rewrite app_nil_r. Qed.

Lemma chatter_trans p1 p2 p3 : chatter p1 p2 -> chatter p2 p3 -> chatter p1 p3.
Proof.
  intros (o1 & E1 & H1) (o2 & E2 & H2). exists (o1 ++ o2). rewrite E2, E1, app_assoc. split; [done|by apply Forall_app].
Qed.

Lemma chatter_cursor p p' loc : accesses p' = accesses p ++ cursor_writes loc -> chatter p p'.
Proof. intros E. exists (cursor_writes loc). split; [exact E|]. unfold cursor_writes. repeat (apply Forall_cons_2 || apply Forall_nil_2); cbn; tauto. Qed.

Lemma chatter_sent k c p : chatter p (Ports (accesses (polled (COM1 + 5) k p) ++ [Out 8 COM1 c])).
Proof.
  unfold polled. cbn [accesses]. exists (replicate k (In 8 (COM1 + 5)) ++ [Out 8 COM1 c]). split; [by rewrite app_assoc|].
  apply Forall_app. split; [by apply Forall_replicate|]. apply Forall_singleton. cbn. tauto.
Qed.

(** [s] is [s0] with the text [l] printed on the tape [t0]. *)
Record printed (s0 : console) (t0 : tape) (l : list Z) (s : console) : Prop := {
  pr_shows : shows s (tape_puts (attributeByte s0) l t0);
  pr_mem : same_elsewhere (c_mem s0) (c_mem s);
  pr_attribute : attributeByte s = attributeByte s0;
  pr_sent : ∀ q, q ≠ 0x3D4 -> q ≠ 0x3D5 -> sent q (c_ports s) = sent q (c_ports s0);
  pr_cursor : l ≠ [] -> ∃ past, accesses (c_ports s)
    = past ++ cursor_writes (cursor_of (tape_puts (attributeByte s0) l t0));
  pr_chatter : chatter (c_ports s0) (c_ports s)
}.

Section texts.
Implicit Types (s : console) (t : tape) (l : list Z).

Lemma printed_nil s t : shows s t -> printed s t [] s.
Proof. intros Hs. split; [done|apply same_refl|done|done|by intros []|apply chatter_refl]. Qed.

Lemma sent_cursor q p loc :
  q ≠ 0x3D4 -> q ≠ 0x3D5 -> sent q (Ports (accesses p ++ cursor_writes loc)) = sent q p.
Proof.
  intros H1 H2. unfold sent, cursor_writes. cbn [accesses]. rewrite omap_app. cbn [omap list_omap sent_by].
  rewrite !(proj2 (Z.eqb_neq _ q)) by congruence. by rewrite app_nil_r.
Qed.

Lemma printed_char s0 t0 l s c :
  printed s0 t0 l s -> 0 <= c < 256 ->
  ∃ s', printc c s = Done tt s' ∧ printed s0 t0 (l ++ [c]) s'.
Proof.
  intros [Hs Hm Ha Hp _ Hch] Hc. destruct (printc_spec _ _ _ Hs Hc) as (s' & E & Hs' & [Wm Wp Wa]).
  exists s'. split; [exact E|]. clear E. rewrite Ha in *.
  assert (tape_puts (attributeByte s0) (l ++ [c]) t0
    = tape_put (attributeByte s0) (tape_puts (attributeByte s0) l t0) c) as Ht.
  { unfold tape_puts. by rewrite foldl_app. }
  split; rewrite ?Ht; [exact Hs'|by eapply same_trans|congruence| | |].
  - intros q H1 H2. rewrite <- (Hp q H1 H2). destruct (c_ports s') as [l']. cbn in Wp. subst l'.
    by apply sent_cursor.
  - intros _. by eexists.
  - eapply chatter_trans; [exact Hch|]. by eapply chatter_cursor.
Qed.

(** What is read from off-screen memory does not change. *)
Lemma ld_off_screen s0 s a v :
  same_elsewhere (c_mem s0) (c_mem s) -> 0 <= a < 2 ^ 32 -> rd (off_screen_mem s0) a = Some v ->
  ld a s = Done v s.
Proof.
  intros Hsame Ha Hv. cbn [rd hidden_mem] in Hv. unfold in_hidden, off_screen_mem in Hv.
  cbn [hid_mem hid_start hid_size] in Hv.
  destruct ((video_memory <=? a) && (a <? video_memory + 2 * shown)) eqn:E; [done|].
  assert (rd (c_mem s) a = Some v) as Hr.
  { rewrite Hsame; [done|done|]. unfold off_screen. destruct (Z.leb_spec video_memory a), (Z.ltb_spec a (video_memory + 2 * shown)); (done || lia). }
  apply (within_read (T := ram)). change (load8 a (c_mem s) = Done v (c_mem s)). unfold load8. mrun. rewrite u32_small by lia. by rewrite Hr.
Qed.

Lemma rd_off_screen s s' a :
  same_elsewhere (c_mem s) (c_mem s') -> 0 <= a < 2 ^ 32 -> rd (off_screen_mem s') a = rd (off_screen_mem s) a.
Proof.
  intros Hsame Ha. cbn [rd hidden_mem]. unfold in_hidden, off_screen_mem. cbn [hid_mem hid_start hid_size].
  destruct ((video_memory <=? a) && (a <? video_memory + 2 * shown)) eqn:E; [done|].
  apply Hsame; [done|]. unfold off_screen.
  destruct (Z.leb_spec video_memory a), (Z.ltb_spec a (video_memory + 2 * shown)); (done || lia).
Qed.

Lemma cstr_off_screen s s' a l :
  same_elsewhere (c_mem s) (c_mem s') -> cstr (off_screen_mem s) a l -> cstr (off_screen_mem s') a l.
Proof.
  intros Hsame Hl. pose proof (cstr_range _ _ _ Hl). eapply cstr_frame; [|exact Hl].
  intros b Hb. apply rd_off_screen; [done|lia].
Qed.

Lemma passes_off_screen s s' ar vs :
  same_elsewhere (c_mem s) (c_mem s') ->
  Forall2 (passes (off_screen_mem s)) ar vs -> Forall2 (passes (off_screen_mem s')) ar vs.
Proof.
  intros Hsame Hp. eapply Forall2_impl; [exact Hp|]. intros a [z|l]; [done|]. intros [Hl Hlen].
  split; [by eapply cstr_off_screen|done].
Qed.

Lemma ld_char s s1 c l (i : nat) :
  same_elsewhere (c_mem s) (c_mem s1) -> cstr (off_screen_mem s) c l -> (i <= length l)%nat ->
  ld (c + Z.of_nat i) s1 = Done (char_at l i) s1.
Proof.
  intros Hsame Hl Hi. pose proof (cstr_range _ _ _ Hl) as [Hr1 Hr2].
  pose proof (cstr_load _ _ _ i Hi Hl) as Hld. unfold load8 in Hld.
  rewrite (bind_Done _ _ _ _ _ (eq_refl : get (off_screen_mem s) = Done _ _)) in Hld.
  rewrite u32_small in Hld by lia.
  destruct (rd (off_screen_mem s) (c + Z.of_nat i)) as [v|] eqn:Ev; [|done]. injection Hld as Hld.
  rewrite <- Hld. apply (ld_off_screen s); [done|lia|exact Ev].
Qed.

(** A loop over the characters of a string off the screen. *)
Lemma each_char_off_screen s f (I : nat -> console -> Prop) c l :
  cstr (off_screen_mem s) c l ->
  (∀ i s1, I i s1 -> same_elsewhere (c_mem s) (c_mem s1)) ->
  (∀ i s1, (i < length l)%nat -> I i s1 -> 0 < char_at l i < 256 ->
     ∃ s2, f (Z.of_nat i) (char_at l i) s1 = Done tt s2 ∧ I (S i) s2) ->
  I 0%nat s -> ∃ s', each_char ld f c s = Done tt s' ∧ I (length l) s'.
Proof.
  intros Hl Hsame Hf HI. pose proof (cstr_range _ _ _ Hl) as [Hr1 Hr2].
  apply (each_char_runs ld f I c l s).
  - intros i s1 Hi H1. by apply (ld_char s); [by eapply Hsame|..].
  - intros i s1 Hi H1. apply Hf; [done|done|]. by apply (char_at_lt l i (cstr_chars _ _ _ Hl)).
  - eapply Forall_impl; [exact (cstr_chars _ _ _ Hl)|]. intros v [? _]. cbn in *. lia.
  - lia.
  - exact HI.
Qed.

Lemma print_spec s t c l :
  shows s t -> cstr (off_screen_mem s) c l ->
  ∃ s', print c s = Done tt s' ∧ printed s t l s'.
Proof.
  intros Hs Hl.
  destruct (each_char_off_screen s (λ _ v, printc v) (λ i s', printed s t (take i l) s') c l Hl)
    as (s' & E & H).
  - by intros i s1 [].
  - intros i s1 Hi H1 Hc.
    destruct (printed_char _ _ _ _ (char_at l i) H1) as (s2 & E & H2); [lia|].
    exists s2. split; [exact E|]. apply lookup_lt_is_Some in Hi as (v & Hv).
    unfold char_at in H2. rewrite Hv in H2. by rewrite (take_S_r _ _ _ Hv).
  - by apply printed_nil.
  - exists s'. split; [exact E|]. by rewrite firstn_all in H.
Qed.

(** ** Where a text ends up on the tape *)

Definition printable (c : Z) : Prop := 32 <= c < 256.

Lemma tape_put_printable attr t c :
  tape_ok t -> printable c ->
  let t' := tape_put attr t c in
  pos t' = pos t + 1 ∧ (tape_end t' = tape_end t ∨ tape_end t' - 80 <= pos t') ∧
  tape_end t <= tape_end t' ∧
  aget (cells t') (pos t) = Some (cell_of attr c) ∧
  ∀ q, 0 <= q < tape_end t -> q ≠ pos t -> aget (cells t') q = aget (cells t) q.
Proof.
  intros [Hm Hs Hp] Hc. unfold printable in Hc. unfold tape_put.
  rewrite !(proj2 (Z.eqb_neq c _)), (proj2 (Z.leb_le 32 c)) by lia. cbn zeta.
  unfold tape_move, tape_end, shown in *. rewrite !length_aset.
  assert (aget (aset (pos t) (cell_of attr c) (cells t)) (pos t) = Some (cell_of attr c)) as Hg
    by (apply aget_aset_eq; lia).
  destruct (Z.ltb_spec (pos t + 1) (Z.of_nat (length (cells t)))); cbn [pos cells].
  - rewrite !length_aset. split; [done|]. split; [by left|]. split; [lia|]. split; [exact Hg|].
    intros. by apply aget_aset_ne.
  - rewrite !length_app, length_replicate, !length_aset.
    split; [done|]. split; [right; lia|]. split; [lia|].
    assert (∀ (l1 l2 : list Z) q, 0 <= q < Z.of_nat (length l1) -> aget (l1 ++ l2) q = aget l1 q) as Happ.
    { intros l1 l2 q Hq. unfold aget. rewrite !decide_True by lia. apply lookup_app_l. lia. }
    split; [rewrite Happ by (rewrite length_aset; lia); exact Hg|].
    intros q Hq Hne. rewrite Happ by (rewrite length_aset; lia). by apply aget_aset_ne.
Qed.

Lemma tape_puts_printable attr l t :
  tape_ok t -> Forall printable l ->
  let t' := tape_puts attr l t in
  pos t' = pos t + Z.of_nat (length l) ∧ (tape_end t' = tape_end t ∨ tape_end t' - 80 <= pos t') ∧
  tape_end t <= tape_end t' ∧
  (∀ i, (i < length l)%nat -> aget (cells t') (pos t + Z.of_nat i) = Some (cell_of attr (char_at l i))) ∧
  ∀ q, 0 <= q < pos t -> aget (cells t') q = aget (cells t) q.
Proof.
  intros Ht Hl. revert t Ht. induction Hl as [|c l Hc Hl IH]; intros t Ht; cbn zeta.
  { cbn. split; [lia|]. split; [by left|]. split; [lia|]. split; [lia|done]. }
  destruct (tape_put_printable attr t c Ht Hc) as (P1 & P2 & P3 & P4 & P5).
  destruct (IH _ (tape_put_ok attr t c Ht)) as (Q1 & Q2 & Q3 & Q4 & Q5).
  change (tape_puts attr (c :: l) t) with (tape_puts attr l (tape_put attr t c)).
  set (t1 := tape_put attr t c) in *. set (t2 := tape_puts attr l t1) in *.
  destruct Ht as [_ Hs Hp]. unfold shown in Hs, Hp. rewrite P1 in *. split; [rewrite Q1; cbn [length]; lia|].
  split; [destruct Q2 as [Q2|Q2]; [rewrite Q2; destruct P2; [left; done|right; lia]|right; done]|].
  split; [lia|]. split.
  - intros [|i] Hi; [change (char_at (c :: l) 0) with c|change (char_at (c :: l) (S i)) with (char_at l i)].
    + rewrite Z.add_0_r, Q5 by lia. exact P4.
    + rewrite <- (Q4 i) by (cbn in Hi; lia). f_equal. lia.
  - intros q Hq. rewrite Q5 by lia. apply P5; lia.
Qed.

Lemma tape_puts_ok attr l t : tape_ok t -> tape_ok (tape_puts attr l t).
Proof. revert t. induction l as [|c l IH]; intros t Ht; [done|]. apply IH, tape_put_ok, Ht. Qed.
End texts.

(** ** The properties of the console *)

Section console_properties.
Implicit Types (s : console) (t : tape) (l : list Z).

(** C9: [printc] refines writing on the tape: it returns, the screen and the
    cursor are again the end of the tape and the position on it, for every
    character (backspace, tab, return, line feed, printable or ignored, with
    the wrap at column 80 and the scroll at row 25), the hardware cursor is
    set to that position, and memory off the screen is unchanged. *)
Theorem printc_refines_tape s t c (Hs : shows s t) (Hc : 0 <= c < 256) :
  ∃ s', printc c s = Done tt s' ∧ shows s' (tape_put (attributeByte s) t c) ∧
    wrote s s' (cursor_writes (cursor_of (tape_put (attributeByte s) t c))).
Proof. by apply printc_spec. Qed.

(** A text of at most 24 lines' worth of printable characters is on the
    screen in full when [print] returns, right before the cursor, whatever
    lines it wrapped over and however far the screen scrolled. *)
Theorem print_text_visible s t c l (Hs : shows s t) (Hl : cstr (off_screen_mem s) c l)
    (Hp : Forall printable l) (Hlen : Z.of_nat (length l) <= 80 * 24) :
  ∃ s', print c s = Done tt s' ∧ same_elsewhere (c_mem s) (c_mem s') ∧
    0 <= term_x s' < 80 ∧ 0 <= term_y s' < 25 ∧
    let start := 80 * term_y s' + term_x s' - Z.of_nat (length l) in
    0 <= start ∧ ∀ i, (i < length l)%nat ->
      cell (c_mem s') (start + Z.of_nat i) = cell_of (attributeByte s) (char_at l i).
Proof.
  destruct (print_spec s t c l Hs Hl) as (s' & E & [[[Hm Hsc Hpos] _ _ Hcells Hx Hy] Hmem _ _ _ _]).
  exists s'. split; [exact E|]. split; [exact Hmem|]. clear E.
  destruct (tape_puts_printable (attributeByte s) l t (sh_tape _ _ Hs) Hp) as (P1 & P2 & P3 & P4 & _).
  set (t' := tape_puts (attributeByte s) l t) in *.
  pose proof (tape_pos _ (sh_tape _ _ Hs)) as Hpos0. unfold shown in *.
  assert (Hstart : 80 * term_y s' + term_x s' = pos t' - (tape_end t' - 80 * 25)) by zdm.
  split; [zdm|]. split; [zdm|]. cbn zeta. rewrite Hstart.
  assert (Hge : Z.of_nat (length l) <= pos t' - (tape_end t' - 80 * 25)) by (destruct P2; lia).
  split; [lia|]. intros i Hi.
  assert (Some (cell (c_mem s') (pos t' - (tape_end t' - 80 * 25) - Z.of_nat (length l) + Z.of_nat i))
    = Some (cell_of (attributeByte s) (char_at l i))) as He; [|by injection He].
  rewrite <- (P4 i Hi), <- Hcells by (unfold shown; lia). f_equal.
  unfold shown. fold (tape_end t'). lia.
Qed.
End console_properties.

Section formatted_properties.
Context `{!Bus} (LOG_SERIAL : bool).
Implicit Types (s : console) (t : tape).

Definition fn_char (c : Z) : M console unit := vprintf_help con_printc con_serial LOG_SERIAL c.

Definition printed_both s0 t0 (l : list Z) s : Prop :=
  shows s (tape_puts (attributeByte s0) l t0) ∧ same_elsewhere (c_mem s0) (c_mem s) ∧
  attributeByte s = attributeByte s0 ∧
  sent COM1 (c_ports s) = sent COM1 (c_ports s0) ++ (if LOG_SERIAL then l else []) ∧
  chatter (c_ports s0) (c_ports s).

Lemma printed_both_char n s0 t0 l s c :
  (∀ q, drains n q) -> Z.of_nat n <= 2 ^ 32 ->
  printed_both s0 t0 l s -> 0 <= c < 256 ->
  ∃ s', fn_char c s = Done tt s' ∧ printed_both s0 t0 (l ++ [c]) s'.
Proof.
  unfold printed_both. intros Hd Hn (Hs & Hm & Ha & Hp & Hch) Hc. unfold fn_char, vprintf_help, con_printc. rewrite u8_small by lia.
  destruct (printed_char s _ [] s c (printed_nil _ _ Hs) Hc) as (s1 & E & [Hs1 Hm1 Ha1 Hp1 _ Hch1]).
  mstep E. clear E. rewrite Ha in *.
  assert (shows s1 (tape_puts (attributeByte s0) (l ++ [c]) t0)) as Hs1'.
  { unfold tape_puts in *. by rewrite foldl_app. }
  assert (sent COM1 (c_ports s1) = sent COM1 (c_ports s)) as Hsent by (by apply Hp1).
  destruct LOG_SERIAL.
  - destruct (serial_write_done c n (c_ports s1) (Hd _) Hn) as (k & Ew).
    eexists. split; [exact (within_ports _ _ _ _ Ew)|]. clear Ew.
    assert (sent COM1 (Ports (accesses (polled (COM1 + 5) k (c_ports s1)) ++ [Out 8 COM1 (u8 c)]))
      = sent COM1 (c_ports s1) ++ [c]) as Hw.
    { rewrite sent_app. change (sent COM1 (Ports _)) with (sent COM1 (polled (COM1 + 5) k (c_ports s1))).
      rewrite sent_polled. cbn [sent_by]. by rewrite Z.eqb_refl, u8_small by lia. }
    split; [by destruct Hs1'|]. split; [by eapply same_trans|]. split; [exact Ha1|].
    cbn [c_ports with_ports]. split; [by rewrite Hw, Hsent, Hp, <- app_assoc|].
    eapply chatter_trans; [exact Hch|]. eapply chatter_trans; [exact Hch1|]. apply chatter_sent.
  - exists s1. split; [done|]. split; [done|]. split; [by eapply same_trans|]. split; [exact Ha1|].
    split; [by rewrite Hsent, Hp|by eapply chatter_trans].
Qed.

Lemma con_vprintf_spec n s t fm its ar vs out :
  (∀ q, drains n q) -> Z.of_nat n <= 2 ^ 32 -> shows s t ->
  cstr (off_screen_mem s) fm (format_chars its) -> Forall item_ok its ->
  Forall2 (passes (off_screen_mem s)) ar vs -> render its vs = Some out ->
  ∃ s', con_vprintf LOG_SERIAL fm ar s = Done (s32 (Z.of_nat (length out))) s' ∧ printed_both s t out s'.
Proof.
  intros Hd Hn Hs Hfmt Hitems Hargs Hr.
  destruct (do_printf_after ld fn_char (printed_both s t) (λ l s1 c, printed_both_char n s t l s1 c Hd Hn)
    (off_screen_mem s) its fm ar vs out s) as (rest & s' & E & Hboth); try assumption.
  - intros l s1 a v (_ & Hm & _) Ha Hv. by apply (ld_off_screen s).
  - unfold printed_both. split; [done|]. split; [apply same_refl|]. split; [done|].
    split; [|apply chatter_refl]. destruct LOG_SERIAL; by rewrite app_nil_r.
  - exists s'. split; [|exact Hboth]. unfold con_vprintf, vprintf, count_of.
    change (vprintf_help con_printc con_serial LOG_SERIAL) with fn_char. mstep E. cbn [fst].
    unfold mret, M_ret. by rewrite s32_u32.
Qed.

(** C10: [printf] on x86: when the serial line always drains and the format and
    the strings lie off the screen, the rendering of the format's directives
    is written on the console's tape, the same text is sent to COM1 when
    the log is configured to go there, its length is returned, and memory off
    the screen is unchanged. *)
Theorem printf_screen_and_line n s t fm its ar vs out
    (Hd : ∀ q, drains n q) (Hn : Z.of_nat n <= 2 ^ 32) (Hs : shows s t)
    (Hfmt : cstr (off_screen_mem s) fm (format_chars its)) (Hitems : Forall item_ok its)
    (Hargs : Forall2 (passes (off_screen_mem s)) ar vs) (Hr : render its vs = Some out) :
  ∃ s', con_printf LOG_SERIAL fm ar s = Done (s32 (Z.of_nat (length out))) s' ∧
    shows s' (tape_puts (attributeByte s) out t) ∧ same_elsewhere (c_mem s) (c_mem s') ∧
    sent COM1 (c_ports s') = sent COM1 (c_ports s) ++ (if LOG_SERIAL then out else []).
Proof.
  destruct (con_vprintf_spec n s t fm its ar vs out Hd Hn Hs Hfmt Hitems Hargs Hr)
    as (s' & E & (H1 & H2 & _ & H4 & _)). by exists s'.
Qed.
End formatted_properties.

(** ** A well-formed console *)

Record con_ok (s : console) : Prop := {
  ok_ram : ram_ok (c_mem s);
  ok_x : 0 <= term_x s < 80;
  ok_y : 0 <= term_y s < 25;
  ok_attribute : 0 <= attributeByte s < 256
}.

(** Every operation of terminal.c, and the operations of video.c and printf.c
    that act on the text screen. *)
Inductive con_call :=
  | CTerminal_init
  | CPrintc (c : Z)
  | CPrint (c : Z)
  | CScroll
  | CTerminal_clear
  | CPrintf (fmt : Z) (args : list Z)
  | CVideo_clear
  | CVideo_scroll
  | CSetcursor (x y : Z)
  | CSetattribute (back fore : Z)
  | CResetattribute
  | CPrintchar (x y c : Z)
  | CPrintcolored (x y c attribute : Z)
  | CPrintstring (x y c : Z)
  | CPrintcoloredstring (x y attribute c : Z).

Section con_calls.
Context `{!Bus} (LOG_SERIAL : bool).

Definition con_do (k : con_call) : M console unit :=
  match k with
  | CTerminal_init => terminal_init
  | CPrintc c => printc c
  | CPrint c => print c
  | CScroll => scroll
  | CTerminal_clear => terminal_clear
  | CPrintf fmt args => _ ← con_printf LOG_SERIAL fmt args; mret tt
  | CVideo_clear => video_clear
  | CVideo_scroll => video_scroll 0 24
  | CSetcursor x y => video_setcursor x y
  | CSetattribute back fore => video_setattributetext back fore
  | CResetattribute => video_resetattributetext
  | CPrintchar x y c => video_printchar x y c
  | CPrintcolored x y c attribute => video_printcoloredchar x y c attribute
  | CPrintstring x y c => video_printstring x y c
  | CPrintcoloredstring x y attribute c => video_printcoloredstring x y attribute c
  end.
Fixpoint con_run (ks : list con_call) : M console unit :=
  match ks with [] => mret tt | k :: ks' => con_do k;; con_run ks' end.

(** The position that [terminal_init] reads after the accesses [past]. *)
Definition hardware_cursor (past : list io) : Z :=
  let reg (q : list io) := reply q 8 0x3D5 mod 2 ^ 8 in
  let q := past ++ [Out 8 0x3D4 14] in
  u16 (Z.lor (Z.shiftl (reg q) 8) (reg (q ++ [In 8 0x3D5; Out 8 0x3D4 15]))).

(** Arguments of their C types, places on the screen, strings in memory off
    the screen; for [terminal_init], a display whose cursor is on the screen. *)
Definition call_ok (s : console) (k : con_call) : Prop :=
  match k with
  | CTerminal_init => ∀ past, hardware_cursor past < shown
  | CPrintc c => 0 <= c < 256
  | CPrint c => ∃ l, cstr (off_screen_mem s) c l
  | CPrintf fmt args => ∃ its vs out, cstr (off_screen_mem s) fmt (format_chars its) ∧ Forall item_ok its ∧
      Forall2 (passes (off_screen_mem s)) args vs ∧ render its vs = Some out
  | CScroll | CTerminal_clear | CVideo_clear | CVideo_scroll | CSetcursor _ _ | CResetattribute => True
  | CSetattribute back fore => 0 <= back < 256 ∧ 0 <= fore < 256
  | CPrintchar x y c => 0 <= x < 80 ∧ 0 <= y < 25 ∧ 0 <= c < 256
  | CPrintcolored x y c attribute => 0 <= x < 80 ∧ 0 <= y < 25 ∧ 0 <= c < 256 ∧ 0 <= attribute < 256
  | CPrintstring x y c => ∃ l, cstr (off_screen_mem s) c l ∧
      0 <= x ∧ 0 <= y ∧ y * 80 + x + Z.of_nat (length l) <= shown
  | CPrintcoloredstring x y attribute c => 0 <= attribute < 256 ∧ ∃ l, cstr (off_screen_mem s) c l ∧
      0 <= x ∧ 0 <= y ∧ y * 80 + x + Z.of_nat (length l) <= shown
  end.
End con_calls.

Section con_ok.
Implicit Types s : console.

(** The tape of the 25 lines that are on the screen now. *)
Definition screen_tape s : tape := Tape (cell (c_mem s) <$> seqZ 0 shown) (80 * term_y s + term_x s).

Lemma con_ok_shows s : con_ok s -> shows s (screen_tape s).
Proof.
  intros [Hr Hx Hy Ha].
  assert (tape_end (screen_tape s) = shown) as He.
  { unfold tape_end, screen_tape. cbn [cells]. by rewrite length_fmap, length_seqZ. }
  split; try done.
  - split; rewrite He; unfold screen_tape, shown; cbn [pos]; [done|lia|lia].
  - intros j Hj. unfold tape_end in He. rewrite He. replace (shown - shown + j) with j by lia.
    unfold aget, screen_tape. cbn [cells]. rewrite decide_True by lia.
    rewrite list_lookup_fmap, lookup_seqZ_lt by lia. cbn. f_equal. f_equal. lia.
  - unfold screen_tape. cbn [pos]. zdm.
  - rewrite He. unfold screen_tape, shown. cbn [pos]. zdm.
Qed.

Lemma shows_con_ok s t : shows s t -> con_ok s.
Proof.
  intros [[Hm Hs Hp] Hr Ha _ Hx Hy]. unfold shown in *. split; [done|zdm|zdm|done].
Qed.

(** What a call keeps: the console well formed, and memory off the screen. *)
Definition kept_ok s s' : Prop := con_ok s' ∧ same_elsewhere (c_mem s) (c_mem s').

Lemma kept_ok_refl s : con_ok s -> kept_ok s s.
Proof. intros Hs. split; [done|apply same_refl]. Qed.

Lemma kept_ok_trans s1 s2 s3 : kept_ok s1 s2 -> kept_ok s2 s3 -> kept_ok s1 s3.
Proof. intros [_ H1] [H2 H3]. split; [done|by eapply same_trans]. Qed.

Lemma kept_shows s s' t : shows s' t -> same_elsewhere (c_mem s) (c_mem s') -> kept_ok s s'.
Proof. intros Hs Hm. split; [by eapply shows_con_ok|done]. Qed.

Lemma kept_mem m s : con_ok s -> ram_ok m -> same_elsewhere (c_mem s) m -> kept_ok s (with_mem m s).
Proof. intros [] Hm Hsame. split; [by split|done]. Qed.

Lemma kept_ports p s : con_ok s -> kept_ok s (with_ports p s).
Proof. intros []. split; [by split|apply same_refl]. Qed.

(** A character on the screen, given its attribute. *)
Lemma kept_cell i v s : con_ok s -> 0 <= i < shown ->
  kept_ok s (with_mem (set_word16 (video_memory + 2 * i) v (c_mem s)) s).
Proof.
  intros Hs Hi. apply kept_mem; [done|by apply set_word16_ok, Hs|by apply set_cell_same].
Qed.

Lemma printcolored_kept x y c attribute s : con_ok s -> 0 <= y * 80 + x < shown ->
  ∃ s', video_printcoloredchar x y c attribute s = Done tt s' ∧ kept_ok s s'.
Proof.
  intros Hs Hxy. eexists. split; [done|].
  by apply (kept_cell _ (Z.lor c (u16 (Z.shiftl attribute 8)))).
Qed.

Lemma printchar_kept x y c s : con_ok s -> 0 <= y * 80 + x < shown ->
  ∃ s', video_printchar x y c s = Done tt s' ∧ kept_ok s s'.
Proof. exact (printcolored_kept x y c (attributeByte s) s). Qed.

Lemma string_kept f x y c l s :
  con_ok s -> cstr (off_screen_mem s) c l -> 0 <= x -> 0 <= y -> y * 80 + x + Z.of_nat (length l) <= shown ->
  (∀ x v s1, con_ok s1 -> 0 <= y * 80 + x < shown -> ∃ s2, f x v s1 = Done tt s2 ∧ kept_ok s1 s2) ->
  ∃ s', each_char ld (λ i v, f (x + i) v) c s = Done tt s' ∧ kept_ok s s'.
Proof.
  intros Hs Hl Hx Hy Hend Hf.
  apply (each_char_off_screen s (λ i v, f (x + i) v) (λ _ s1, kept_ok s s1) c l Hl).
  - by intros _ s1 [].
  - intros i s1 Hi H1 _. destruct (Hf (x + Z.of_nat i) (char_at l i) s1) as (s2 & E & H2); [apply H1|unfold shown in *; lia|].
    exists s2. split; [exact E|by eapply kept_ok_trans].
  - by apply kept_ok_refl.
Qed.

Lemma clear_kept s : con_ok s -> ∃ s', video_clear s = Done tt s' ∧ kept_ok s s'.
Proof.
  intros Hs. destruct (memset_spec (c_mem s) video_memory 0 (80 * 24 * 2)) as (m & E & Hm); [done|done|by apply ram_mapped|].
  exists (with_mem m s). split.
  { unfold video_clear. apply within_mem. unfold textmode_clear. by mstep E. }
  apply kept_mem; [done| |].
  - intros a. destruct (u32_range a). pose proof (ok_ram _ Hs a) as Ha.
    assert (Hb : byte m a = default 0 (rd m (u32 a))) by (unfold byte; cbn; by destruct (ram_bytes m !! u32 a)).
    rewrite Hb, Hm. case_decide; [done|]. unfold byte in Ha. cbn. by destruct (ram_bytes (c_mem s) !! u32 a).
  - intros a Ha Hoff. rewrite Hm. apply decide_False. unfold off_screen, video_memory, shown in *. lia.
Qed.

Lemma setcursor_kept x y s : con_ok s -> ∃ s', video_setcursor x y s = Done tt s' ∧ kept_ok s s'.
Proof.
  intros Hs. eexists. split; [|by apply kept_ports]. apply within_ports.
  unfold textmode_setcursor. by rewrite !(bind_Done _ _ _ _ _ (outb_done _ _ _)), outb_done.
Qed.

Lemma select_register `{!Bus} reg s : 0 <= reg < 256 ->
  (within (outb 0x3D4 reg);; within (inb 0x3D5)) s
  = Done (reply (accesses (c_ports s) ++ [Out 8 0x3D4 reg]) 8 0x3D5 mod 2 ^ 8)
      (with_ports (Ports (accesses (c_ports s) ++ [Out 8 0x3D4 reg; In 8 0x3D5])) s).
Proof.
  intros Hreg. rewrite (bind_Done _ _ _ _ _ (within_ports _ s _ _ (outb_done _ _ _))), u8_small by lia.
  set (s1 := with_ports _ s).
  rewrite (within_ports (inb 0x3D5) s1 (reply (accesses (c_ports s1)) 8 0x3D5 mod 2 ^ 8)
    (Ports (accesses (c_ports s1) ++ [In 8 0x3D5]))) by reflexivity.
  unfold s1. cbn [c_ports with_ports accesses]. by rewrite <- app_assoc.
Qed.

Lemma init_kept `{!Bus} s : con_ok s -> (∀ past, hardware_cursor past < shown) ->
  ∃ s', terminal_init s = Done tt s' ∧ kept_ok s s'.
Proof.
  intros Hs Hcur. specialize (Hcur (accesses (c_ports s))). unfold hardware_cursor in Hcur.
  set (hi := reply _ 8 0x3D5 mod 2 ^ 8) in Hcur at 1.
  unfold terminal_init. rewrite <- bind_assoc.
  rewrite (bind_Done _ _ _ _ _ (select_register 14 s ltac:(lia))). fold hi. cbv beta.
  set (s1 := with_ports _ s). assert (H1 : kept_ok s s1) by (by apply kept_ports).
  rewrite <- bind_assoc, (bind_Done _ _ _ _ _ (select_register 15 s1 ltac:(lia))). cbv beta.
  change (accesses (c_ports s1)) with (accesses (c_ports s) ++ [Out 8 0x3D4 14; In 8 0x3D5]).
  rewrite <- !app_assoc in *. cbn [app] in *.
  set (lo := reply (_ ++ [_; _; _]) 8 0x3D5 mod 2 ^ 8) in *. set (offset := u16 (Z.lor (Z.shiftl hi 8) lo)) in *.
  set (s2 := with_ports _ s1). assert (H2 : kept_ok s s2) by (eapply kept_ok_trans; [exact H1|]; apply kept_ports, H1).
  cbv zeta. mrun. set (s3 := with_cursor (offset mod 80) (offset / 80) s2).
  assert (H3 : kept_ok s s3).
  { destruct H2 as [[Hr Hx Hy Ha] Hm]. split; [|exact Hm]. split; try done; unfold s3; cbn [term_x term_y with_cursor].
    - by apply Z.mod_pos_bound.
    - assert (0 <= offset) by (unfold offset, u16; zdm). unfold shown in Hcur. zdm. }
  destruct (setcursor_kept (term_x s3) (term_y s3) s3) as (s4 & E & H4); [apply H3|].
  exists s4. split; [exact E|by apply (kept_ok_trans _ s3)].
Qed.

Context `{!Bus} (LOG_SERIAL : bool).
Context (n : nat) (Hd : ∀ q, drains n q) (Hn : Z.of_nat n <= 2 ^ 32).

Lemma con_do_ok k s : con_ok s -> call_ok s k -> ∃ s', con_do LOG_SERIAL k s = Done tt s' ∧ kept_ok s s'.
Proof.
  intros Hs Hk. pose proof (con_ok_shows s Hs) as Hsh.
  destruct k as [|c|c| | |fmt args| | |x y|back fore| |x y c|x y c attribute|x y c|x y attribute c];
    cbn [con_do call_ok] in *.
  - by apply init_kept.
  - destruct (printc_spec s _ c Hsh Hk) as (s' & E & Hs' & [Hm _ _]).
    exists s'. split; [exact E|by eapply kept_shows].
  - destruct Hk as [l Hl]. destruct (print_spec s _ c l Hsh Hl) as (s' & E & [Hs' Hm _ _ _ _]).
    exists s'. split; [exact E|by eapply kept_shows].
  - exists s. split; [|by apply kept_ok_refl]. unfold scroll. mrun. destruct Hs as [_ _ Hy _].
    by rewrite (proj2 (Z.leb_gt 25 _)) by lia.
  - by apply clear_kept.
  - destruct Hk as (its & vs & out & Hf & Hit & Har & Hr).
    destruct (con_vprintf_spec LOG_SERIAL n s _ fmt its args vs out Hd Hn Hsh Hf Hit Har Hr) as (s' & E & Hs' & Hm & _).
    exists s'. split; [unfold con_printf; by mstep E|by eapply kept_shows].
  - by apply clear_kept.
  - destruct (scroll_cells s (ok_ram _ Hs) (ok_attribute _ Hs)) as (m & E & Hm & Hsame & _).
    exists (with_mem m s). split; [exact E|by apply kept_mem].
  - by apply setcursor_kept.
  - eexists. split; [done|]. destruct Hs as [Hr Hx Hy Ha]. split; [|apply same_refl]. split; try done. cbn. apply u8_range.
  - eexists. split; [done|]. destruct Hs as [Hr Hx Hy Ha]. split; [by split|apply same_refl].
  - apply printchar_kept; [done|unfold shown; lia].
  - apply printcolored_kept; [done|unfold shown; lia].
  - destruct Hk as (l & Hl & Hx & Hy & Hend).
    apply (string_kept (λ x v, video_printchar x y v) x y c l s Hs Hl Hx Hy Hend). intros x' v s1. by apply printchar_kept.
  - destruct Hk as (_ & l & Hl & Hx & Hy & Hend).
    apply (string_kept (λ x v, video_printcoloredchar x y v attribute) x y c l s Hs Hl Hx Hy Hend).
    intros x' v s1. by apply printcolored_kept.
Qed.

Lemma call_ok_off_screen s s' k : same_elsewhere (c_mem s) (c_mem s') -> call_ok s k -> call_ok s' k.
Proof.
  intros Hsame. destruct k; cbn [call_ok]; try done.
  - intros [l Hl]. exists l. by eapply cstr_off_screen.
  - intros (its & vs & out & Hf & Hit & Har & Hr). exists its, vs, out.
    split; [by eapply cstr_off_screen|]. split; [done|]. split; [by eapply passes_off_screen|done].
  - intros (l & Hl & Hpos). exists l. split; [by eapply cstr_off_screen|done].
  - intros (Hat & l & Hl & Hpos). split; [done|]. exists l. split; [by eapply cstr_off_screen|done].
Qed.

End con_ok.

(** ** A console to run it on *)

Lemma ram_ok_bytes m : map_Forall (λ _ v, 0 <= v < 256) m -> ram_ok (Ram m).
Proof.
  intros Hm a. unfold byte. cbn. destruct (m !! u32 a) as [v|] eqn:E; cbn; [by eapply Hm|lia].
Qed.

(** "Hi" at 200, "%d" at 300 *)
Definition demo_con : console :=
  Console (Ram (poke 300 [37; 100; 0] (poke 200 [72; 105; 0] ∅))) (Ports []) 79 24 defaultAttribute.

Lemma demo_con_ok : con_ok demo_con.
Proof.
  split; [|cbn; lia|cbn; lia|by vm_compute]. apply ram_ok_bytes.
  apply (bool_decide_unpack _). by vm_compute.
Qed.

Lemma printc_refines_tape_witness :
  ∃ s', printc 65 demo_con = Done tt s' ∧ shows s' (tape_put 15 (screen_tape demo_con) 65) ∧
    wrote demo_con s' (cursor_writes 1920).
Proof.
  apply (printc_refines_tape demo_con (screen_tape demo_con) 65 (con_ok_shows _ demo_con_ok)). lia.
Defined.

Lemma print_text_visible_witness :
  ∃ s', print 200 demo_con = Done tt s' ∧ same_elsewhere (c_mem demo_con) (c_mem s') ∧
    0 <= term_x s' < 80 ∧ 0 <= term_y s' < 25 ∧
    let start := 80 * term_y s' + term_x s' - 2 in
    0 <= start ∧ ∀ i, (i < 2)%nat -> cell (c_mem s') (start + Z.of_nat i) = cell_of 15 (char_at [72; 105] i).
Proof.
  apply (print_text_visible demo_con (screen_tape demo_con) 200 [72; 105] (con_ok_shows _ demo_con_ok)).
  - in_memory.
  - repeat constructor; lia.
  - cbn. lia.
Defined.

Lemma printf_screen_and_line_witness :
  ∃ s', con_printf (H := slow_line) true 300 [-42] demo_con = Done 3 s' ∧
    shows s' (tape_puts 15 [45; 52; 50] (screen_tape demo_con)) ∧
    same_elsewhere (c_mem demo_con) (c_mem s') ∧ sent COM1 (c_ports s') = [45; 52; 50].
Proof.
  apply (printf_screen_and_line (H := slow_line) true 3 demo_con (screen_tape demo_con) 300
    [Directive false false 0 [] Cvd] [-42] [ANum (-42)] [45; 52; 50]).
  - exact slow_line_drains.
  - lia.
  - exact (con_ok_shows _ demo_con_ok).
  - in_memory.
  - repeat constructor; lia.
  - repeat constructor; in_memory.
  - reflexivity.
Defined.

(** A display whose cursor is at row 24, column 79, on a line that is ready. *)
Definition demo_display : Bus := λ past w port,
  if port =? 0x3D5 then match last past with Some (Out _ _ 14) => 0x07 | _ => 0xCF end else 0x60.

Lemma demo_display_drains q : drains (H := demo_display) 1 q.
Proof. exists 0%nat. split; [lia|]. split; [by vm_compute|]. lia. Qed.

Lemma demo_display_cursor past : hardware_cursor (H := demo_display) past = 1999.
Proof.
  unfold hardware_cursor, reply, demo_display. cbv zeta.
  replace ((past ++ [Out 8 0x3D4 14]) ++ [In 8 0x3D5; Out 8 0x3D4 15])
    with (((past ++ [Out 8 0x3D4 14]) ++ [In 8 0x3D5]) ++ [Out 8 0x3D4 15]) by (by rewrite <- app_assoc).
  by rewrite !last_snoc.
Qed.

Definition demo_calls : list con_call :=
  [CTerminal_init; CPrint 200; CSetattribute 0 14; CPrintf 300 [-42]; CPrintc 10; CPrintstring 78 24 200;
   CVideo_scroll; CTerminal_clear; CSetcursor 3 4].

