(* ===== verification/Messages.v ===== *)
(** * Messages and stopping (klog.c, error.c)

    The kernel log over the x86 console: the mask, the coloured title, the
    text; [panic] and [halt]. KLOG_TITLE_TIME is not configured
    (kernel.cfg), so titles are names. *)

From Stdlib Require Import String Ascii.
From S2P Require Import Prelude CString Ram Printf PrintfView Ports Console.

Definition LOG_PANIC : Z := 0.
Definition LOG_SEVERE : Z := 1.
Definition LOG_ERROR : Z := 2.
Definition LOG_WARN : Z := 3.
Definition LOG_INFO : Z := 4.
Definition LOG_OK : Z := 5.
Definition LOG_FAIL : Z := 6.
Definition LOG_DEBUG : Z := 10.

(** Where the strings of the two files are. *)
Class LogStrings := {
  str_okay : Z; str_fail : Z; str_title : Z;
  str_panic : Z; str_halt : Z; str_halting : Z; str_regs : list Z
}.

(** The registers [halt_regs] prints. *)
Record registers := Registers {
  r_gs : Z; r_fs : Z; r_es : Z; r_ds : Z;
  r_edi : Z; r_esi : Z; r_ebp : Z; r_useless_value : Z; r_ebx : Z; r_edx : Z; r_ecx : Z; r_eax : Z;
  r_int_no : Z; r_err_code : Z;
  r_eip : Z; r_cs : Z; r_eflags : Z; r_useresp : Z; r_ss : Z
}.

Section messages.
Context `{!Bus, !LogStrings} (LOG_SERIAL : bool).
(** [klog_mask] beside the console *)
Local Abbreviation K := (M (console * Z)).

Definition log_printf (fmt : Z) (args : list Z) : K unit :=
  _ ← within (con_printf LOG_SERIAL fmt args); mret tt.

Definition klog (mode title fmt : Z) (args : list Z) : K unit :=
  klog_mask ← gets snd;
  if mode <=? klog_mask then
    within (video_setattributetext 0x0 0xE);;
    (if mode =? LOG_OK then log_printf str_okay []
     else if mode =? LOG_FAIL then log_printf str_fail []
     else log_printf str_title [title]);;
    within video_resetattributetext;;
    _ ← within (con_vprintf LOG_SERIAL fmt args); mret tt
  else mret tt.
Definition klog_setmask (mode : Z) : K unit := modify (λ s, (fst s, mode)).

(** [cli] and [hlt], then the endless loop: the machine stops here. *)
Definition halt : K unit := klog LOG_INFO str_halt str_halting [];; halt_here.
Definition panic (reason : Z) : K unit := klog LOG_PANIC str_panic reason [];; halt.

Definition str_reg (i : nat) : Z := default 0 (str_regs !! i).
Definition halt_regs (r : registers) : K unit :=
  klog LOG_INFO str_halt str_halting [];;
  log_printf (str_reg 0) [];;
  log_printf (str_reg 1) [r_eax r; r_ebx r; r_ecx r; r_edx r];;
  log_printf (str_reg 2) [r_useless_value r; r_ebp r; r_err_code r; r_eflags r];;
  log_printf (str_reg 3) [r_useresp r; r_ebp r; r_esi r; r_edi r];;
  log_printf (str_reg 4) [r_cs r; r_ds r; r_es r; r_fs r];;
  log_printf (str_reg 5) [r_gs r];;
  halt.
End messages.

(** ** What a message looks like *)

Definition okay_text : list Z := [91; 79; 75; 65; 89; 93].
Definition fail_text : list Z := [91; 70; 65; 73; 76; 93].
Definition title_format : list item := [Directive false false 0 [] Cvs; Literal 58; Literal 32].
Definition panic_text : list Z := [112; 97; 110; 105; 99].
Definition halt_text : list Z := [104; 97; 108; 116].
Definition halting_text : list Z := [72; 97; 108; 116; 105; 110; 103; 33; 10].
(** Yellow on black. *)
Definition title_attribute : Z := 0x0E.

(** The title as it is printed. *)
Definition title_shown (mode : Z) (title : list Z) : list Z :=
  if mode =? LOG_OK then okay_text else if mode =? LOG_FAIL then fail_text else title ++ [58; 32].
Definition message (mode : Z) (title out : list Z) (t : tape) : tape :=
  tape_puts defaultAttribute out (tape_puts title_attribute (title_shown mode title) t).

(** A text of the source, as characters and as literal items. *)
Fixpoint chars (s : string) : list Z :=
  match s with EmptyString => [] | String a s' => Z.of_N (N_of_ascii a) :: chars s' end.
Definition lit (s : string) : list item := Literal <$> chars s.

Lemma render_lit s its vs out : render its vs = Some out -> render (lit s ++ its) vs = Some (chars s ++ out).
Proof.
  intros Hr. unfold lit. induction (chars s) as [|c l IH]; [done|].
  change (render (Literal c :: ((Literal <$> l) ++ its)) vs = Some (c :: (l ++ out))). cbn [render]. by rewrite IH.
Qed.

(** A text without a percent sign is a format that prints itself. *)
Definition plain (l : list Z) : Prop := Forall (λ c, 0 < c < 256 ∧ c ≠ 37) l.

Lemma plain_format l : format_chars (Literal <$> l) = l.
Proof. unfold format_chars. induction l as [|c l IH]; [done|]. cbn. by rewrite IH. Qed.

Lemma plain_items l : plain l -> Forall item_ok (Literal <$> l).
Proof. intros H. apply Forall_fmap. by eapply Forall_impl. Qed.

Lemma plain_render l : render (Literal <$> l) [] = Some l.
Proof. induction l as [|c l IH]; [done|]. cbn. by rewrite IH. Qed.

Section message_spec.
Context `{!Bus, !LogStrings} (LOG_SERIAL : bool).
Context (n : nat) (Hd : ∀ q, drains n q) (Hn : Z.of_nat n <= 2 ^ 32).
Implicit Types (s : console) (t : tape).

(** The strings of the files are in memory, off the screen. *)
Record strings_ok s : Prop := {
  so_okay : cstr (off_screen_mem s) str_okay okay_text;
  so_fail : cstr (off_screen_mem s) str_fail fail_text;
  so_title : cstr (off_screen_mem s) str_title (format_chars title_format);
  so_panic : cstr (off_screen_mem s) str_panic panic_text;
  so_halt : cstr (off_screen_mem s) str_halt halt_text;
  so_halting : cstr (off_screen_mem s) str_halting halting_text
}.

Lemma strings_off_screen s s' : same_elsewhere (c_mem s) (c_mem s') -> strings_ok s -> strings_ok s'.
Proof. intros Hsame []. split; by eapply cstr_off_screen. Qed.

(** Printing in a state with a mask. *)
Definition told s s' t out : Prop :=
  shows s' (tape_puts (attributeByte s) out t) ∧ same_elsewhere (c_mem s) (c_mem s') ∧
  attributeByte s' = attributeByte s ∧
  sent COM1 (c_ports s') = sent COM1 (c_ports s) ++ (if LOG_SERIAL then out else []) ∧
  chatter (c_ports s) (c_ports s').

Lemma log_printf_spec s t mask fm its ar vs out :
  shows s t -> cstr (off_screen_mem s) fm (format_chars its) -> Forall item_ok its ->
  Forall2 (passes (off_screen_mem s)) ar vs -> render its vs = Some out ->
  ∃ s', log_printf LOG_SERIAL fm ar (s, mask) = Done tt (s', mask) ∧ told s s' t out.
Proof.
  intros Hs Hfmt Hitems Hargs Hr.
  destruct (con_vprintf_spec LOG_SERIAL n s t fm its ar vs out) as (s' & E & Hp); try assumption.
  exists s'. split; [|exact Hp]. unfold log_printf.
  by rewrite (bind_Done _ _ _ _ _ (within_done (T := console) _ (s, mask) _ _ E)).
Qed.

Lemma print_title_spec s t mask mode ti title :
  shows s t -> strings_ok s -> cstr (off_screen_mem s) ti title -> Z.of_nat (length title) < 2 ^ 31 - 1 ->
  ∃ s', (if mode =? LOG_OK then log_printf LOG_SERIAL str_okay []
         else if mode =? LOG_FAIL then log_printf LOG_SERIAL str_fail []
         else log_printf LOG_SERIAL str_title [ti]) (s, mask) = Done tt (s', mask) ∧
    told s s' t (title_shown mode title).
Proof.
  intros Hs Hstr Hti Hlen. unfold title_shown. destruct (mode =? LOG_OK), (mode =? LOG_FAIL).
  1, 2: apply (log_printf_spec _ _ _ _ (Literal <$> okay_text) [] []); rewrite ?plain_format;
    [done|apply Hstr|apply plain_items; repeat constructor; lia|constructor|apply plain_render].
  - apply (log_printf_spec _ _ _ _ (Literal <$> fail_text) [] []); rewrite ?plain_format;
    [done|apply Hstr|apply plain_items; repeat constructor; lia|constructor|apply plain_render].
  - apply (log_printf_spec _ _ _ _ title_format [ti] [AStr title]);
      [done|apply Hstr|repeat constructor; lia|by repeat constructor|].
    cbn. unfold show_string, field, pad_left, pad_right. cbn [sign_text andb app].
    replace (Z.to_nat (0 - Z.of_nat (length title))) with 0%nat by lia. cbn. by rewrite app_nil_r.
Qed.

Lemma set_title s (mask : Z) :
  within (video_setattributetext 0x0 0xE) (s, mask) = Done tt (with_attribute title_attribute s, mask).
Proof. reflexivity. Qed.

Lemma reset_title s (mask : Z) :
  within video_resetattributetext (s, mask) = Done tt (with_attribute defaultAttribute s, mask).
Proof. reflexivity. Qed.

Lemma klog_spec s t mask mode ti title fm its ar vs out :
  shows s t -> strings_ok s -> cstr (off_screen_mem s) ti title -> Z.of_nat (length title) < 2 ^ 31 - 1 ->
  cstr (off_screen_mem s) fm (format_chars its) -> Forall item_ok its ->
  Forall2 (passes (off_screen_mem s)) ar vs -> render its vs = Some out -> mode <= mask ->
  ∃ s', klog LOG_SERIAL mode ti fm ar (s, mask) = Done tt (s', mask) ∧
    shows s' (message mode title out t) ∧ attributeByte s' = defaultAttribute ∧
    same_elsewhere (c_mem s) (c_mem s') ∧
    sent COM1 (c_ports s') = sent COM1 (c_ports s) ++ (if LOG_SERIAL then title_shown mode title ++ out else []) ∧
    chatter (c_ports s) (c_ports s').
Proof.
  intros Hs Hstr Hti Hlen Hfmt Hitems Hargs Hr Hmode. unfold klog. mrun. cbn [snd].
  rewrite (proj2 (Z.leb_le mode mask)) by done.
  set (s1 := with_attribute title_attribute s).
  assert (shows s1 t) as Hs1 by (destruct Hs; by split).
  rewrite (bind_Done _ _ _ _ _ (set_title s mask)). fold s1.
  destruct (print_title_spec s1 t mask mode ti title Hs1) as (s2 & E2 & (T1 & T2 & _ & T4 & T5)); [by destruct Hstr|done|done|].
  rewrite (bind_Done _ _ _ _ _ E2). clear E2.
  set (s3 := with_attribute defaultAttribute s2).
  rewrite (bind_Done _ _ _ _ _ (reset_title s2 mask)). fold s3.
  change (same_elsewhere (c_mem s) (c_mem s3)) in T2.
  destruct (log_printf_spec s3 (tape_puts title_attribute (title_shown mode title) t) mask fm its ar vs out)
    as (s4 & E4 & (U1 & U2 & U3 & U4 & U5)).
  - destruct T1. split; try done; cbn; lia.
  - by eapply cstr_off_screen.
  - done.
  - by eapply passes_off_screen.
  - done.
  - exists s4. split; [exact E4|]. clear E4. split; [exact U1|]. split; [exact U3|]. split; [by eapply same_trans|].
    split; [|exact (chatter_trans _ _ _ T5 U5)].
    rewrite U4. change (sent COM1 (c_ports s3)) with (sent COM1 (c_ports s2)). rewrite T4.
    destruct LOG_SERIAL; cbn; by rewrite ?app_nil_r, <- ?app_assoc.
Qed.

(** Whatever the mask, a message returns and is at most talk on the console. *)
Lemma klog_returns s t mask mode ti title fm its ar vs out :
  shows s t -> strings_ok s -> cstr (off_screen_mem s) ti title -> Z.of_nat (length title) < 2 ^ 31 - 1 ->
  cstr (off_screen_mem s) fm (format_chars its) -> Forall item_ok its ->
  Forall2 (passes (off_screen_mem s)) ar vs -> render its vs = Some out ->
  ∃ s' t', klog LOG_SERIAL mode ti fm ar (s, mask) = Done tt (s', mask) ∧ shows s' t' ∧
    same_elsewhere (c_mem s) (c_mem s') ∧ chatter (c_ports s) (c_ports s').
Proof.
  intros Hs Hstr Hti Hlen Hfmt Hitems Hargs Hr. destruct (Z.leb_spec mode mask) as [Hle|Hgt].
  - destruct (klog_spec s t mask mode ti title fm its ar vs out) as (s' & E & H1 & _ & H3 & _ & H5); try done.
    by exists s', (message mode title out t).
  - exists s, t. split; [|split; [done|split; [apply same_refl|apply chatter_refl]]].
    unfold klog. mrun. cbn [snd]. by rewrite (proj2 (Z.leb_gt mode mask)).
Qed.

(** C37: [klog] drops a message whose mode is above the mask and changes
    nothing then; otherwise the title (or the mark of an OK or FAIL message)
    in yellow and the rendered text in the default colour are written on the
    console's tape, and the serial log gets both. *)
Theorem klog_masks_and_prints s t mask mode ti title fm its ar vs out
    (Hs : shows s t) (Hstr : strings_ok s)
    (Hti : cstr (off_screen_mem s) ti title) (Hlen : Z.of_nat (length title) < 2 ^ 31 - 1)
    (Hfmt : cstr (off_screen_mem s) fm (format_chars its)) (Hitems : Forall item_ok its)
    (Hargs : Forall2 (passes (off_screen_mem s)) ar vs) (Hr : render its vs = Some out) :
  (mask < mode -> klog LOG_SERIAL mode ti fm ar (s, mask) = Done tt (s, mask)) ∧
  (mode <= mask ->
   ∃ s', klog LOG_SERIAL mode ti fm ar (s, mask) = Done tt (s', mask) ∧
     shows s' (message mode title out t) ∧ attributeByte s' = defaultAttribute ∧
     same_elsewhere (c_mem s) (c_mem s') ∧
     sent COM1 (c_ports s') = sent COM1 (c_ports s)
       ++ (if LOG_SERIAL then title_shown mode title ++ out else [])).
Proof.
  split; intros Hmode.
  - unfold klog. mrun. cbn [snd]. by rewrite (proj2 (Z.leb_gt mode mask)).
  - destruct (klog_spec s t mask mode ti title fm its ar vs out) as (s' & E & H1 & H2 & H3 & H4 & _); try done.
    by exists s'.
Qed.

(** [panic] never returns: with the default mask it stops the machine
    when the reason and "Halting!" are on the console's tape. *)
Theorem panic_stops s t mask re reason
    (Hs : shows s t) (Hstr : strings_ok s) (Hmask : LOG_INFO <= mask)
    (Hre : cstr (off_screen_mem s) re reason) (Hplain : plain reason) :
  ∃ s', panic LOG_SERIAL re (s, mask) = Halted (s', mask) ∧
    shows s' (message LOG_INFO halt_text halting_text (message LOG_PANIC panic_text reason t)).
Proof.
  unfold LOG_INFO in Hmask.
  destruct (klog_spec s t mask LOG_PANIC str_panic panic_text re (Literal <$> reason) [] [] reason)
    as (s1 & E1 & Hs1 & _ & Hm1 & _); rewrite ?plain_format;
    [done|done|apply Hstr|cbn; lia|done|by apply plain_items|constructor|apply plain_render|unfold LOG_PANIC; lia|].
  pose proof (strings_off_screen _ _ Hm1 Hstr) as Hstr1.
  destruct (klog_spec s1 (message LOG_PANIC panic_text reason t) mask LOG_INFO str_halt halt_text str_halting
    (Literal <$> halting_text) [] [] halting_text)
    as (s2 & E2 & Hs2 & _); rewrite ?plain_format;
    [done|done|apply Hstr1|cbn; lia|apply Hstr1|apply plain_items; repeat constructor; lia|constructor
    |apply plain_render|unfold LOG_INFO; lia|].
  exists s2. split; [|exact Hs2]. unfold panic, halt. rewrite (bind_Done _ _ _ _ _ E1).
  by rewrite (bind_Done _ _ _ _ _ E2).
Qed.
End message_spec.

(** ** A log to run it on *)

#[export] Instance demo_strings : LogStrings := {|
  str_okay := 1000; str_fail := 1010; str_title := 1020; str_panic := 1030; str_halt := 1040;
  str_halting := 1050; str_regs := []
|}.
(** "wd" at 200, "hung" at 300 *)
Definition demo_log : console :=
  Console (Ram (poke 1000 (okay_text ++ [0]) (poke 1010 (fail_text ++ [0])
    (poke 1020 (format_chars title_format ++ [0]) (poke 1030 (panic_text ++ [0])
    (poke 1040 (halt_text ++ [0]) (poke 1050 (halting_text ++ [0])
    (poke 200 [119; 100; 0] (poke 300 [104; 117; 110; 103; 0] ∅))))))))) (Ports []) 0 24 defaultAttribute.

Lemma demo_log_ok : con_ok demo_log.
Proof.
  split; [|cbn; lia|cbn; lia|by vm_compute]. apply ram_ok_bytes.
  apply (bool_decide_unpack _). by vm_compute.
Qed.

Lemma demo_log_strings : strings_ok demo_log.
Proof. split; in_memory. Qed.

Lemma klog_masks_and_prints_witness :
  klog (H := slow_line) true LOG_DEBUG 200 300 [] (demo_log, LOG_INFO) = Done tt (demo_log, LOG_INFO).
Proof.
  apply (klog_masks_and_prints (H := slow_line) true 3 slow_line_drains ltac:(lia) demo_log (screen_tape demo_log)
    LOG_INFO LOG_DEBUG 200 [119; 100] 300 (Literal <$> [104; 117; 110; 103]) [] [] [104; 117; 110; 103]).
  - exact (con_ok_shows _ demo_log_ok).
  - exact demo_log_strings.
  - in_memory.
  - cbn. lia.
  - in_memory.
  - repeat constructor; lia.
  - constructor.
  - reflexivity.
  - unfold LOG_INFO, LOG_DEBUG. lia.
Defined.

Lemma panic_stops_witness :
  ∃ s', panic (H := slow_line) true 300 (demo_log, LOG_DEBUG) = Halted (s', LOG_DEBUG) ∧
    shows s' (message LOG_INFO halt_text halting_text
      (message LOG_PANIC panic_text [104; 117; 110; 103] (screen_tape demo_log))).
Proof.
  apply (panic_stops (H := slow_line) true 3 slow_line_drains ltac:(lia) demo_log (screen_tape demo_log)
    LOG_DEBUG 300 [104; 117; 110; 103]).
  - exact (con_ok_shows _ demo_log_ok).
  - exact demo_log_strings.
  - unfold LOG_INFO, LOG_DEBUG. lia.
  - in_memory.
  - repeat constructor; lia.
Defined.
