(* ===== verification/Interrupts.v ===== *)
(** * Descriptor tables and interrupts (arch/x86/low/gdt.c, idt.c, isr.c, irq.c)

    The tables the processor reads, as the processor reads them; the
    programming of the interrupt controllers; the dispatch of interrupts to
    the handlers other parts register. The entry stubs are assembly: their
    addresses are parameters, and so is what the handlers do. *)

From S2P Require Import Prelude CString Printf Ports Console Messages.

(** ** Descriptors *)

Record idt_entry := IdtEntry {
  base_lo : Z; sel : Z; always0 : Z; iflags : Z; base_hi : Z
}.
Record gdt_entry := GdtEntry {
  limit_low : Z; base_low : Z; base_middle : Z; access : Z; granularity : Z; base_high : Z
}.
Record table_ptr := TablePtr { limit : Z; base : Z }.
Definition no_gate : idt_entry := IdtEntry 0 0 0 0 0.
Definition no_segment : gdt_entry := GdtEntry 0 0 0 0 0 0.

(** The static variables, and the two registers the assembly loads. *)
Record tables := Tables {
  idt : list idt_entry; idtp : table_ptr; idtr : table_ptr;
  gdt : list gdt_entry; gp : table_ptr; gdtr : table_ptr;
  interrupt_handlers : list Z
}.
Definition set_idt l s := Tables l (idtp s) (idtr s) (gdt s) (gp s) (gdtr s) (interrupt_handlers s).
Definition set_idtp p s := Tables (idt s) p (idtr s) (gdt s) (gp s) (gdtr s) (interrupt_handlers s).
Definition set_idtr p s := Tables (idt s) (idtp s) p (gdt s) (gp s) (gdtr s) (interrupt_handlers s).
Definition set_gdt l s := Tables (idt s) (idtp s) (idtr s) l (gp s) (gdtr s) (interrupt_handlers s).
Definition set_gp p s := Tables (idt s) (idtp s) (idtr s) (gdt s) p (gdtr s) (interrupt_handlers s).
Definition set_gdtr p s := Tables (idt s) (idtp s) (idtr s) (gdt s) (gp s) p (interrupt_handlers s).
Definition set_irqs l s := Tables (idt s) (idtp s) (idtr s) (gdt s) (gp s) (gdtr s) l.

(** The static initialisers: all zero. *)
Definition tables_boot : tables :=
  Tables (replicate 256 no_gate) (TablePtr 0 0) (TablePtr 0 0)
    (replicate 3 no_segment) (TablePtr 0 0) (TablePtr 0 0) (replicate 256 0).

(** Where the linker put the tables and the entry stubs. *)
Class Linkage := { at_idt : Z; at_gdt : Z; isr : Z -> Z; irq : Z -> Z }.

Section setup.
Context `{!Linkage}.
Local Abbreviation K := (M tables).

(** gdt.c *)
Definition gdt_set_gate (num base limit access gran : Z) : K unit :=
  s ← get;
  _ ← of_option (OutOfRange num) (aget (gdt s) num);
  modify (set_gdt (aset num (GdtEntry
    (u16 (Z.land limit 0xFFFF))
    (u16 (Z.land base 0xFFFF))
    (u8 (Z.land (Z.shiftr base 16) 0xFF))
    (u8 access)
    (u8 (Z.lor (Z.land (Z.shiftr limit 16) 0x0F) (Z.land gran 0xF0)))
    (u8 (Z.land (Z.shiftr base 24) 0xFF))) (gdt s))).

(** [gdt_flush] is [lgdt] and reloads the segment registers. *)
Definition gdt_flush : K unit := modify (λ s, set_gdtr (gp s) s).
Definition gdt_setup : K unit :=
  modify (set_gp (TablePtr (u16 (8 * 3 - 1)) (u32 at_gdt)));;
  gdt_set_gate 0 0 0 0 0;;
  gdt_set_gate 1 0 0xFFFFFFFF 0x9A 0xCF;;
  gdt_set_gate 2 0 0xFFFFFFFF 0x92 0xCF;;
  gdt_flush.

(** idt.c; [num] is an [unsigned char] *)
Definition idt_set_gate (num base sel flags : Z) : K unit :=
  s ← get;
  _ ← of_option (OutOfRange (u8 num)) (aget (idt s) (u8 num));
  modify (set_idt (aset (u8 num) (IdtEntry
    (u16 (Z.land base 0xFFFF)) (u16 sel) 0 (u8 flags)
    (u16 (Z.land (Z.shiftr base 16) 0xFFFF))) (idt s))).
Definition idt_load : K unit := modify (λ s, set_idtr (idtp s) s).
Definition idt_setup : K Z :=
  modify (set_idtp (TablePtr (u16 (8 * 256 - 1)) (u32 at_idt)));;
  modify (set_idt (replicate 256 no_gate));;
  idt_load;; mret 0.

(** isr.c: the 32 calls, in order *)
Definition isrs_setup : K Z :=
  for_up 32 0 (λ i, idt_set_gate i (isr i) 0x08 0x8E);; mret 0.

(** irq.c *)
Definition register_interrupt_handler (n h : Z) : K unit :=
  s ← get;
  _ ← of_option (OutOfRange (u8 n)) (aget (interrupt_handlers s) (u8 n));
  modify (set_irqs (aset (u8 n) h (interrupt_handlers s))).
Definition deregister_interrupt_handler (n : Z) : K unit := register_interrupt_handler n 0.

Definition irq_remap : M ports unit :=
  outb 0x20 0x11;; outb 0xA0 0x11;;
  outb 0x21 0x20;; outb 0xA1 0x28;;
  outb 0x21 0x04;; outb 0xA1 0x02;;
  outb 0x21 0x01;; outb 0xA1 0x01;;
  outb 0x21 0x0;; outb 0xA1 0x0.
Definition irq_gates : K unit := for_up 16 0 (λ i, idt_set_gate (32 + i) (irq i) 0x08 0x8E).
End setup.

(** ** Dispatch *)

(** The machine: console and log mask, the tables, the rest of the kernel. *)
Record machine (X : Type) := Machine { m_log : console * Z; m_tables : tables; m_rest : X }.
Arguments Machine {X}. Arguments m_log {X}. Arguments m_tables {X}. Arguments m_rest {X}.

Section machine.
Context {X : Type}.
Implicit Types s : machine X.

#[export] Program Instance machine_log : Has (console * Z) (machine X) := {
  part := m_log; set_part l s := Machine l (m_tables s) (m_rest s) }.
Solve All Obligations with (by repeat intros []).
#[export] Program Instance machine_tables : Has tables (machine X) := {
  part := m_tables; set_part t s := Machine (m_log s) t (m_rest s) }.
Solve All Obligations with (by repeat intros []).
Definition machine_ports s : ports := c_ports (fst (m_log s)).
Definition set_machine_ports (p : ports) s : machine X :=
  Machine (with_ports p (fst (m_log s)), snd (m_log s)) (m_tables s) (m_rest s).
#[export] Program Instance machine_io : Has ports (machine X) := {
  part := machine_ports; set_part := set_machine_ports }.
Solve All Obligations with (intros; repeat match goal with s : machine X |- _ => destruct s as [[[] ?] ? ?] end; done).

Context `{!Bus, !LogStrings, !Linkage} (LOG_SERIAL : bool).
(** Calling a handler with the registers the stub pushed. *)
Context (call : Z -> registers -> M (machine X) unit).
(** [exception_messages] and the strings of isr.c. *)
Context (exception_message : Z -> Z) (str_sys str_encountered : Z).
Local Abbreviation K := (M (machine X)).

Definition irq_install : K unit := within (T := ports) irq_remap;; within (T := tables) irq_gates.

Definition irq_handler (r : registers) : K unit :=
  s ← get;
  h ← of_option (OutOfRange (r_int_no r)) (aget (interrupt_handlers (m_tables s)) (r_int_no r));
  (if negb (h =? 0) then call h r else mret tt);;
  (if 40 <=? r_int_no r then within (T := ports) (outb 0xA0 0x20) else mret tt);;
  within (T := ports) (outb 0x20 0x20).

(** [hlt] with interrupts off: the stub's [cli] has not been undone. *)
Definition fault_handler (r : registers) : K unit :=
  if r_int_no r <? 32 then
    (if r_int_no r =? 14 then irq_handler r else mret tt);;
    within (T := console * Z)
      (klog LOG_SERIAL LOG_PANIC str_sys str_encountered [r_int_no r; exception_message (r_int_no r)]);;
    halt_here
  else irq_handler r.

(** The part of [x86_early] that sets this up. *)
Definition interrupts_setup : K unit :=
  within (T := tables) gdt_setup;;
  _ ← within (T := tables) idt_setup;
  _ ← within (T := tables) isrs_setup;
  irq_install.
End machine.

(** ** How the processor reads a descriptor *)

Definition gate_address (e : idt_entry) : Z := base_lo e + 2 ^ 16 * base_hi e.
Definition gate_present (e : idt_entry) : bool := Z.testbit (iflags e) 7.
(** A 32-bit interrupt gate for ring 0. *)
Definition interrupt_gate (e : idt_entry) : bool := iflags e =? 0x8E.

Definition segment_base (e : gdt_entry) : Z :=
  base_low e + 2 ^ 16 * base_middle e + 2 ^ 24 * base_high e.
Definition segment_limit (e : gdt_entry) : Z := limit_low e + 2 ^ 16 * (granularity e mod 16).
(** The number of bytes: the limit counts pages when the G bit is set. *)
Definition segment_size (e : gdt_entry) : Z :=
  if Z.testbit (granularity e) 7 then 2 ^ 12 * (segment_limit e + 1) else segment_limit e + 1.

Definition make_gate (a sel flags : Z) : idt_entry :=
  IdtEntry (u16 (Z.land a 0xFFFF)) (u16 sel) 0 (u8 flags) (u16 (Z.land (Z.shiftr a 16) 0xFFFF)).

Lemma land_low n v : 0 <= n -> Z.land v (Z.ones n) = v mod 2 ^ n.
Proof. intros. by apply Z.land_ones. Qed.

Lemma land_low_8 v : Z.land v 0xFF = v mod 256.
Proof. apply (land_low 8). lia. Qed.
Lemma land_low_16 v : Z.land v 0xFFFF = v mod 65536.
Proof. apply (land_low 16). lia. Qed.
Lemma land_low_4 v : Z.land v 0x0F = v mod 16.
Proof. apply (land_low 4). lia. Qed.

Lemma gate_address_make a sel flags : gate_address (make_gate a sel flags) = u32 a.
Proof.
  unfold gate_address, make_gate. cbn [base_lo base_hi]. rewrite !land_low_16, Z.shiftr_div_pow2 by lia.
  unfold u16, u32. change (2 ^ 16) with 65536; change (2 ^ 32) with 4294967296. zdm.
Qed.

Lemma u8_land_low v : u8 (Z.land v 0xFF) = v mod 256.
Proof. rewrite land_low_8. apply u8_small. apply Z.mod_pos_bound. lia. Qed.

(** The two nibbles of the granularity byte. *)
Lemma granularity_nibbles limit gran :
  let g := u8 (Z.lor (Z.land (Z.shiftr limit 16) 0x0F) (Z.land gran 0xF0)) in
  g mod 16 = limit / 65536 mod 16 ∧ Z.land g 0xF0 = Z.land gran 0xF0.
Proof.
  cbn zeta. rewrite land_low_4, Z.shiftr_div_pow2 by lia. change (2 ^ 16) with 65536.
  set (l := limit / 65536 mod 16). assert (0 <= l < 16) by (unfold l; apply Z.mod_pos_bound; lia).
  assert (Z.land gran 0xF0 = Z.shiftl (gran / 16 mod 16) 4) as ->.
  { rewrite <- (land_low_4 (gran / 16)). change 0xF0 with (Z.shiftl 0x0F 4). change 16 with (2 ^ 4).
    rewrite <- Z.shiftr_div_pow2 by lia. apply Z.bits_inj'. intros k Hk.
    rewrite Z.land_spec, !Z.shiftl_spec, Z.land_spec by done.
    destruct (Z_lt_le_dec k 4); [by rewrite !(Z.testbit_neg_r _ (k - 4)), andb_false_r by lia|].
    rewrite Z.shiftr_spec by lia. by replace (k - 4 + 4) with k by lia. }
  set (h := gran / 16 mod 16). assert (0 <= h < 16) by (unfold h; apply Z.mod_pos_bound; lia).
  rewrite lor_shiftl by lia. change (2 ^ 4) with 16. rewrite u8_small by lia. split; [zdm|].
  rewrite Z.land_comm. change 0xF0 with (Z.shiftl 0x0F 4). rewrite Z.add_comm.
  apply Z.bits_inj'. intros k Hk.
  rewrite Z.land_spec, !Z.shiftl_spec by done.
  destruct (Z_lt_le_dec k 4); [by rewrite !(Z.testbit_neg_r _ (k - 4)) by lia|].
  replace (Z.testbit (h * 16 + l) k) with (Z.testbit h (k - 4)).
  - change 0x0F with (Z.ones 4). destruct (Z_lt_le_dec (k - 4) 4).
    + by rewrite Z.ones_spec_low by lia.
    + rewrite Z.ones_spec_high by lia. symmetry.
      rewrite <- (Z.mod_small h (2 ^ 4)) by lia. apply Z.mod_pow2_bits_high. lia.
  - replace h with ((h * 16 + l) / 2 ^ 4) at 1 by (change (2 ^ 4) with 16; zdm).
    rewrite Z.div_pow2_bits by lia. f_equal. lia.
Qed.

Section descriptors.
Context `{!Linkage}.
Implicit Types s : tables.

Lemma idt_set_gate_done num a selector flags s :
  0 <= num < 256 -> length (idt s) = 256%nat ->
  idt_set_gate num a selector flags s = Done tt (set_idt (aset num (make_gate a selector flags) (idt s)) s).
Proof.
  intros Hn Hl. unfold idt_set_gate. mrun. rewrite u8_small by lia.
  by destruct (aget_lt (idt s) num ltac:(lia)) as (e & ->).
Qed.

(** What [idt_set_gate] stores, the processor reads back: the handler's
    address, the selector and the flags; no other gate changes. *)
Theorem idt_gate_roundtrip num a selector flags s
    (Hn : 0 <= num < 256) (Hl : length (idt s) = 256%nat) (Ha : 0 <= a < 2 ^ 32)
    (Hsel : 0 <= selector < 65536) (Hflags : 0 <= flags < 256) :
  ∃ s' e, idt_set_gate num a selector flags s = Done tt s' ∧ aget (idt s') num = Some e ∧
    gate_address e = a ∧ sel e = selector ∧ iflags e = flags ∧ always0 e = 0 ∧
    (∀ j, j ≠ num -> aget (idt s') j = aget (idt s) j) ∧
    s' = set_idt (idt s') s.
Proof.
  rewrite idt_set_gate_done by done. eexists _, _. split; [done|]. cbn [idt set_idt].
  split; [apply aget_aset_eq; lia|]. rewrite gate_address_make, u32_small by lia.
  unfold make_gate. cbn [sel iflags always0]. rewrite u16_small, u8_small by lia.
  do 4 (split; [done|]). split; [|done]. intros j Hj. apply aget_aset_ne. congruence.
Qed.

(** What [gdt_set_gate] stores, the processor reads back: the base, the
    low twenty bits of the limit, the access byte and the upper half of the
    granularity byte. A number outside the table of three is a store beyond
    it. *)
Theorem gdt_gate_roundtrip num b l acc gran s
    (Hl : length (gdt s) = 3%nat) (Hb : 0 <= b < 2 ^ 32) (Hacc : 0 <= acc < 256) :
  (0 <= num < 3 ->
   ∃ s' e, gdt_set_gate num b l acc gran s = Done tt s' ∧ aget (gdt s') num = Some e ∧
     segment_base e = b ∧ segment_limit e = l mod 2 ^ 20 ∧ access e = acc ∧
     Z.land (granularity e) 0xF0 = Z.land gran 0xF0 ∧
     (∀ j, j ≠ num -> aget (gdt s') j = aget (gdt s) j) ∧ s' = set_gdt (gdt s') s) ∧
  (¬ 0 <= num < 3 -> gdt_set_gate num b l acc gran s = Fault (OutOfRange num)).
Proof.
  split; intros Hn.
  - unfold gdt_set_gate. mrun. destruct (aget_lt (gdt s) num ltac:(lia)) as (e & ->).
    eexists _, _. split; [done|]. cbn [gdt set_gdt]. split; [apply aget_aset_eq; lia|].
    destruct (granularity_nibbles l gran) as [Hg1 Hg2].
    split; [|split; [|split; [by apply u8_small|split; [exact Hg2|split; [|done]]]]].
    + unfold segment_base. cbn [base_low base_middle base_high]. rewrite !u8_land_low, land_low_16, !Z.shiftr_div_pow2 by lia.
      unfold u16. change (2 ^ 16) with 65536; change (2 ^ 24) with 16777216; change (2 ^ 32) with 4294967296 in Hb. zdm.
    + unfold segment_limit. cbn [limit_low granularity]. rewrite Hg1, land_low_16. unfold u16.
      change (2 ^ 16) with 65536; change (2 ^ 20) with 1048576. zdm.
    + intros j Hj. apply aget_aset_ne. congruence.
  - unfold gdt_set_gate. mrun. replace (aget (gdt s) num) with (@None gdt_entry); [done|].
    unfold aget. case_decide; [|done]. symmetry. apply lookup_ge_None_2. lia.
Qed.

(** ** The tables after start-up *)

Lemma fill_gates n o (f : Z -> Z) s :
  length (idt s) = 256%nat -> 0 <= o -> o + Z.of_nat n <= 256 ->
  ∃ l, for_up n 0 (λ i, idt_set_gate (o + i) (f i) 0x08 0x8E) s = Done tt (set_idt l s) ∧
    length l = 256%nat ∧ ∀ j, aget l j =
      if (o <=? j) && (j <? o + Z.of_nat n) then Some (make_gate (f (j - o)) 0x08 0x8E) else aget (idt s) j.
Proof.
  intros Hl Ho Hn.
  destruct (for_up_inv (λ i s', ∃ l, s' = set_idt l s ∧ length l = 256%nat ∧ ∀ j, aget l j =
      if (o <=? j) && (j <? o + i) then Some (make_gate (f (j - o)) 0x08 0x8E) else aget (idt s) j)
    n 0 (λ i, idt_set_gate (o + i) (f i) 0x08 0x8E) s) as (s' & E & l & -> & Hlen & Hg).
  - intros i s1 Hi (l & -> & Hlen & Hg). rewrite idt_set_gate_done by (done || lia).
    eexists. split; [done|]. eexists. split; [done|]. cbn [idt set_idt]. split; [by rewrite length_aset|].
    intros j. destruct (decide (o + i = j)) as [<-|Hne].
    + rewrite aget_aset_eq by lia. replace (o + i - o) with i by lia.
      destruct (Z.leb_spec o (o + i)), (Z.ltb_spec (o + i) (o + (i + 1))); (done || lia).
    + rewrite aget_aset_ne, Hg by done.
      destruct (Z.leb_spec o j), (Z.ltb_spec j (o + i)), (Z.ltb_spec j (o + (i + 1))); (done || lia).
  - exists (idt s). split; [by destruct s|]. split; [done|]. intros j.
    destruct (Z.leb_spec o j), (Z.ltb_spec j (o + 0)); (done || lia).
  - exists l. split; [exact E|]. split; [exact Hlen|]. clear E. intros j. rewrite Hg. by rewrite Z.add_0_l.
Qed.
End descriptors.

Section loaded.
Context `{!Linkage}.
Implicit Types t : tables.

Definition flat_code : gdt_entry := GdtEntry 0xFFFF 0 0 0x9A 0xCF 0.
Definition flat_data : gdt_entry := GdtEntry 0xFFFF 0 0 0x92 0xCF 0.

Lemma gdt_setup_done t :
  length (gdt t) = 3%nat ->
  gdt_setup t = Done tt (Tables (idt t) (idtp t) (idtr t) [no_segment; flat_code; flat_data]
    (TablePtr 23 (u32 at_gdt)) (TablePtr 23 (u32 at_gdt)) (interrupt_handlers t)).
Proof. destruct t as [a b c [|g0 [|g1 [|g2 [|]]]] e f g]; cbn [gdt length]; intros Hl; try done. Qed.

Lemma idt_setup_done t :
  idt_setup t = Done 0 (Tables (replicate 256 no_gate) (TablePtr 2047 (u32 at_idt)) (TablePtr 2047 (u32 at_idt))
    (gdt t) (gp t) (gdtr t) (interrupt_handlers t)).
Proof. done. Qed.

(** Where gate [i] leads. *)
Definition stub (i : Z) : Z := if i <? 32 then isr i else irq (i - 32).

Lemma gates_done t :
  length (idt t) = 256%nat ->
  ∃ l, (_ ← isrs_setup; irq_gates) t = Done tt (set_idt l t) ∧
    ∀ j, aget l j = if (0 <=? j) && (j <? 48) then Some (make_gate (stub j) 0x08 0x8E) else aget (idt t) j.
Proof.
  intros Hl. destruct (fill_gates 32 0 isr t Hl) as (l1 & E1 & Hl1 & Hg1); [lia|lia|].
  destruct (fill_gates 16 32 irq (set_idt l1 t) Hl1) as (l2 & E2 & Hl2 & Hg2); [lia|lia|].
  exists l2. split.
  - unfold isrs_setup. rewrite bind_assoc. mstep E1. rewrite bind_ret. exact E2.
  - clear E1 E2. intros j. rewrite Hg2. cbn [idt set_idt]. rewrite Hg1. unfold stub.
    destruct (Z.leb_spec 32 j), (Z.ltb_spec j (32 + Z.of_nat 16)), (Z.leb_spec 0 j), (Z.ltb_spec j (0 + Z.of_nat 32)),
      (Z.ltb_spec j 48), (Z.ltb_spec j 32); cbn [andb]; try lia; try done.
    by rewrite Z.sub_0_r.
Qed.
End loaded.

(** The commands that move the controllers' interrupts to 32-47. *)
Definition remap_commands : list io :=
  [Out 8 0x20 0x11; Out 8 0xA0 0x11; Out 8 0x21 0x20; Out 8 0xA1 0x28; Out 8 0x21 0x04;
   Out 8 0xA1 0x02; Out 8 0x21 0x01; Out 8 0xA1 0x01; Out 8 0x21 0; Out 8 0xA1 0].

Section within.
Context {X : Type}.
Implicit Types s : machine X.

Lemma within_tables {A} (k : M tables A) s a t' :
  k (m_tables s) = Done a t' -> within (T := tables) k s = Done a (Machine (m_log s) t' (m_rest s)).
Proof. exact (within_done (T := tables) k s a t'). Qed.

Lemma within_io {A} (k : M ports A) s a p' :
  k (machine_ports s) = Done a p' -> within (T := ports) k s = Done a (set_machine_ports p' s).
Proof. exact (within_done (T := ports) k s a p'). Qed.

Lemma irq_remap_done p : irq_remap p = Done tt (Ports (accesses p ++ remap_commands)).
Proof.
  unfold irq_remap. rewrite !(bind_Done _ _ _ _ _ (outb_done _ _ _)), outb_done. cbn [accesses].
  by rewrite <- !app_assoc.
Qed.
End within.

Section dispatch.
Context {X : Type} `{!Bus, !LogStrings, !Linkage} (LOG_SERIAL : bool).
Context (call : Z -> registers -> M (machine X) unit).
Context (exception_message : Z -> Z) (str_sys str_encountered : Z).
Implicit Types s : machine X.

Lemma interrupts_setup_spec s
    (Hidt : length (idt (m_tables s)) = 256%nat) (Hgdt : length (gdt (m_tables s)) = 3%nat) :
  ∃ s', interrupts_setup s = Done tt s' ∧
    let t := m_tables s' in
    idtr t = TablePtr 2047 (u32 at_idt) ∧ gdtr t = TablePtr 23 (u32 at_gdt) ∧
    (∀ i, 0 <= i < 48 -> ∃ e, aget (idt t) i = Some e ∧ interrupt_gate e = true ∧ gate_present e = true ∧
       sel e = 0x08 ∧ gate_address e = u32 (if i <? 32 then isr i else irq (i - 32))) ∧
    (∀ i, 48 <= i < 256 -> aget (idt t) i = Some no_gate) ∧
    (∀ i, i = 1 ∨ i = 2 -> ∃ e, aget (gdt t) i = Some e ∧ segment_base e = 0 ∧ segment_size e = 2 ^ 32) ∧
    accesses (machine_ports s') = accesses (machine_ports s) ++ remap_commands ∧ m_rest s' = m_rest s ∧
    interrupt_handlers t = interrupt_handlers (m_tables s) ∧
    m_log s' = (with_ports (Ports (accesses (machine_ports s) ++ remap_commands)) (m_log s).1, (m_log s).2).
Proof.
  destruct s as [[con mask] t rest]. cbn [m_tables] in *.
  set (t1 := Tables (replicate 256 no_gate) (TablePtr 2047 (u32 at_idt)) (TablePtr 2047 (u32 at_idt))
    [no_segment; flat_code; flat_data] (TablePtr 23 (u32 at_gdt)) (TablePtr 23 (u32 at_gdt)) (interrupt_handlers t)).
  destruct (gates_done t1 eq_refl) as (l & E & Hg).
  destruct (bind_inv _ _ _ _ _ E) as (z & t2 & E1 & E2).
  set (con' := (with_ports (Ports (accesses (c_ports con) ++ remap_commands)) con, mask)).
  exists (Machine con' (set_idt l t1) rest). split.
  - unfold interrupts_setup.
    rewrite (bind_Done _ _ _ _ _ (within_tables gdt_setup (Machine (con, mask) t rest) _ _ (gdt_setup_done t Hgdt))).
    cbn [m_log m_rest].
    rewrite (bind_Done _ _ _ _ _ (within_tables idt_setup (Machine (con, mask) _ rest) _ _ (idt_setup_done _))).
    cbn [m_log m_rest gdt gp gdtr interrupt_handlers]. fold t1.
    rewrite (bind_Done _ _ _ _ _ (within_tables isrs_setup (Machine (con, mask) t1 rest) _ _ E1)).
    cbn [m_log m_rest]. unfold irq_install.
    rewrite (bind_Done _ _ _ _ _ (within_io irq_remap (Machine (con, mask) t2 rest) _ _ (irq_remap_done _))).
    exact (within_tables irq_gates (Machine con' t2 rest) _ _ E2).
  - clear E E1 E2. cbn [m_tables idtr gdtr set_idt t1 idt gdt m_rest].
    split; [done|]. split; [done|]. split; [|split; [|split; [|done]]].
    + intros i Hi. rewrite Hg. destruct (Z.leb_spec 0 i), (Z.ltb_spec i 48); try lia. cbn [andb].
      eexists. split; [done|]. split; [done|]. split; [done|]. split; [done|]. apply gate_address_make.
    + intros i Hi. rewrite Hg. destruct (Z.leb_spec 0 i), (Z.ltb_spec i 48); try lia. cbn [andb t1 idt].
      apply aget_replicate. lia.
    + by intros i [-> | ->]; eexists.
Qed.

(** C13: After the set-up of [x86_early] from zeroed tables, the processor
    uses the table of 256 gates: the 32 exceptions and the 16 remapped
    interrupts enter their own stubs through present ring-0 interrupt gates
    of the code segment, the others are absent; the code and data segments
    span the whole 4 GiB; both interrupt controllers have been remapped. *)
Theorem interrupts_setup_correct s
    (Hidt : length (idt (m_tables s)) = 256%nat) (Hgdt : length (gdt (m_tables s)) = 3%nat) :
  ∃ s', interrupts_setup s = Done tt s' ∧
    let t := m_tables s' in
    idtr t = TablePtr 2047 (u32 at_idt) ∧ gdtr t = TablePtr 23 (u32 at_gdt) ∧
    (∀ i, 0 <= i < 48 -> ∃ e, aget (idt t) i = Some e ∧ interrupt_gate e = true ∧ gate_present e = true ∧
       sel e = 0x08 ∧ gate_address e = u32 (if i <? 32 then isr i else irq (i - 32))) ∧
    (∀ i, 48 <= i < 256 -> aget (idt t) i = Some no_gate) ∧
    (∀ i, i = 1 ∨ i = 2 -> ∃ e, aget (gdt t) i = Some e ∧ segment_base e = 0 ∧ segment_size e = 2 ^ 32) ∧
    accesses (machine_ports s') = accesses (machine_ports s) ++ remap_commands ∧ m_rest s' = m_rest s.
Proof.
  destruct (interrupts_setup_spec s Hidt Hgdt) as (s' & E & ? & ? & ? & ? & ? & ? & ? & _). exists s'. by split_and!.
Qed.


(** End of interrupt: to the slave controller for its interrupts, and to the
    master. *)
Definition eoi_commands (n : Z) : list io :=
  (if 40 <=? n then [Out 8 0xA0 0x20] else []) ++ [Out 8 0x20 0x20].
Definition eoi (n : Z) s : machine X :=
  set_machine_ports (Ports (accesses (machine_ports s) ++ eoi_commands n)) s.

Lemma send_eoi n s :
  ((if 40 <=? n then within (T := ports) (outb 0xA0 0x20) else mret tt);;
   within (T := ports) (outb 0x20 0x20)) s = Done tt (eoi n s).
Proof.
  unfold eoi, eoi_commands. destruct (40 <=? n).
  - rewrite (bind_Done _ _ _ _ _ (within_io (outb 0xA0 0x20) s _ _ (outb_done _ _ _))).
    rewrite (within_io (outb 0x20 0x20) _ _ _ (outb_done _ _ _)). cbn [machine_ports set_machine_ports m_log fst c_ports with_ports accesses].
    rewrite <- app_assoc. by destruct s as [[[] ?] ? ?].
  - rewrite bind_ret. by rewrite (within_io (outb 0x20 0x20) _ _ _ (outb_done _ _ _)).
Qed.

Lemma irq_handler_called r h s s1 :
  aget (interrupt_handlers (m_tables s)) (r_int_no r) = Some h ->
  (if h =? 0 then s1 = s else call h r s = Done tt s1) ->
  irq_handler call r s = Done tt (eoi (r_int_no r) s1).
Proof.
  intros Hh Hcall. unfold irq_handler. mrun. rewrite Hh.
  cbn [of_option]. rewrite (bind_ret h). destruct (h =? 0); cbn [negb].
  - subst s1. rewrite bind_ret. apply send_eoi.
  - mstep Hcall. apply send_eoi.
Qed.

Lemma register_done n h s :
  length (interrupt_handlers (m_tables s)) = 256%nat -> 0 <= n < 256 ->
  within (T := tables) (register_interrupt_handler n h) s
  = Done tt (Machine (m_log s) (set_irqs (aset n h (interrupt_handlers (m_tables s))) (m_tables s)) (m_rest s)).
Proof.
  intros Hl Hn. apply within_tables. unfold register_interrupt_handler. mrun. rewrite u8_small by lia.
  by destruct (aget_lt (interrupt_handlers (m_tables s)) n ltac:(lia)) as (e & ->).
Qed.

(** C29: A registered handler is called with the registers of its interrupt
    and then the interrupt is acknowledged, at the slave controller too from
    40 on; after deregistration it is only acknowledged; a number outside
    the table is an access beyond it. *)
Theorem irq_dispatch n h r s
    (Hl : length (interrupt_handlers (m_tables s)) = 256%nat) (Hr : r_int_no r = n) (Hh : h ≠ 0) :
  (0 <= n < 256 ->
   (∃ s0, within (T := tables) (register_interrupt_handler n h) s = Done tt s0 ∧
     ∀ s1, call h r s0 = Done tt s1 -> irq_handler call r s0 = Done tt (eoi n s1)) ∧
   (∃ s0, within (T := tables) (deregister_interrupt_handler n) s = Done tt s0 ∧
     irq_handler call r s0 = Done tt (eoi n s0))) ∧
  (256 <= n -> irq_handler call r s = Fault (OutOfRange n)).
Proof.
  split; [|intros Hn; unfold irq_handler; mrun; rewrite Hr; unfold aget; rewrite decide_True, lookup_ge_None_2 by lia; done].
  intros Hn. split.
  - rewrite (register_done n h s Hl Hn). eexists. split; [done|]. intros s1 Hcall. rewrite <- Hr in *.
    apply (irq_handler_called r h); cbn [m_tables interrupt_handlers set_irqs]; [apply aget_aset_eq; lia|].
    by rewrite (proj2 (Z.eqb_neq h 0)).
  - unfold deregister_interrupt_handler. rewrite (register_done n 0 s Hl Hn). eexists. split; [done|].
    rewrite <- Hr in *.
    apply (irq_handler_called r 0); cbn [m_tables interrupt_handlers set_irqs]; [apply aget_aset_eq; lia|done].
Qed.

(** "Encountered interrupt %d (%s)!" and a line feed *)
Definition encountered_format : list item :=
  (Literal <$> [69; 110; 99; 111; 117; 110; 116; 101; 114; 101; 100; 32; 105; 110; 116; 101; 114; 114; 117; 112; 116; 32])
  ++ [Directive false false 0 [] Cvd; Literal 32; Literal 40; Directive false false 0 [] Cvs; Literal 41; Literal 33; Literal 10].
Definition sys_text : list Z := [83; 89; 83].

(** An exception stops the machine after its message, and the page fault
    does too when its registered handler has returned: [fault_handler] calls
    that handler, acknowledges an interrupt that no controller raised, and
    then reports and halts as for the others. *)
Theorem fault_handler_stops n r s s1 t msg out
    (Hd : ∀ q, drains n q) (Hnn : Z.of_nat n <= 2 ^ 32)
    (He : 0 <= r_int_no r < 32)
    (Hs1 : if r_int_no r =? 14
           then ∃ s0 h, aget (interrupt_handlers (m_tables s)) 14 = Some h ∧ h ≠ 0 ∧
                  call h r s = Done tt s0 ∧ s1 = eoi 14 s0
           else s1 = s)
    (Hs : shows (fst (m_log s1)) t) (Hstr : strings_ok (fst (m_log s1))) (Hmask : LOG_PANIC <= snd (m_log s1))
    (Hti : cstr (off_screen_mem (fst (m_log s1))) str_sys sys_text)
    (Hfmt : cstr (off_screen_mem (fst (m_log s1))) str_encountered (format_chars encountered_format))
    (Hmsg : passes (off_screen_mem (fst (m_log s1))) (exception_message (r_int_no r)) (AStr msg))
    (Hr : render encountered_format [ANum (r_int_no r); AStr msg] = Some out) :
  ∃ s', fault_handler LOG_SERIAL call exception_message str_sys str_encountered r s = Halted s' ∧
    shows (fst (m_log s')) (message LOG_PANIC sys_text out t) ∧ m_rest s' = m_rest s1.
Proof.
  assert ((if r_int_no r =? 14 then irq_handler call r else mret tt) s = Done tt s1) as E1.
  { destruct (Z.eqb_spec (r_int_no r) 14) as [E|_]; [|by subst s1].
    destruct Hs1 as (s0 & h & Hh & Hnz & Hcall & ->). rewrite <- E in *.
    rewrite (irq_handler_called r h s s0 Hh); [by rewrite E|]. by rewrite (proj2 (Z.eqb_neq h 0)). }
  destruct s1 as [[con mask] tb rest]. cbn [m_log fst snd] in *.
  destruct (klog_spec LOG_SERIAL n Hd Hnn con t mask LOG_PANIC str_sys sys_text str_encountered encountered_format
    [r_int_no r; exception_message (r_int_no r)] [ANum (r_int_no r); AStr msg] out)
    as (con' & Ek & Hk & _); try done.
  - repeat constructor; lia.
  - repeat constructor; [exact (proj1 Hmsg)|exact (proj2 Hmsg)].
  - exists (Machine (con', mask) tb rest). split; [|done].
    unfold fault_handler. rewrite (proj2 (Z.ltb_lt _ _)) by lia. mstep E1. clear E1.
    by rewrite (bind_Done _ _ _ _ _ (within_done (T := console * Z) _ (Machine (con, mask) tb rest) _ _ Ek)).
Qed.
End dispatch.

(** ** A machine to run it on *)

#[local] Instance demo_linkage : Linkage := {|
  at_idt := 0x105000; at_gdt := 0x106000; isr i := 0x101000 + 16 * i; irq i := 0x102000 + 16 * i
|}.
(** The tables' strings; "PF" at 2100 is the message of every exception. *)
Definition demo_faults : console :=
  Console (Ram (poke 2000 (sys_text ++ [0]) (poke 2010 (format_chars encountered_format ++ [0])
    (poke 2100 [80; 70; 0] (ram_bytes (c_mem demo_log)))))) (Ports []) 0 0 defaultAttribute.
(** The rest of the kernel is a counter that handlers increment. *)
Definition demo_machine : machine Z := Machine (demo_faults, LOG_DEBUG) tables_boot 0.
Definition demo_call (h : Z) (r : registers) : M (machine Z) unit :=
  modify (λ s, Machine (m_log s) (m_tables s) (m_rest s + 1)).
Definition demo_regs (n : Z) : registers := Registers 0 0 0 0 0 0 0 0 0 0 0 0 n 0 0 0 0 0 0.

Lemma demo_faults_ok : con_ok demo_faults.
Proof.
  split; [|cbn; lia|cbn; lia|by vm_compute]. apply ram_ok_bytes.
  apply (bool_decide_unpack _). by vm_compute.
Qed.

Lemma demo_faults_strings : strings_ok demo_faults.
Proof. split; in_memory. Qed.

Lemma idt_gate_roundtrip_witness :
  ∃ s' e, idt_set_gate 33 0x12345678 0x08 0x8E tables_boot = Done tt s' ∧ aget (idt s') 33 = Some e ∧
    gate_address e = 0x12345678.
Proof.
  destruct (idt_gate_roundtrip 33 0x12345678 0x08 0x8E tables_boot ltac:(lia) eq_refl ltac:(lia) ltac:(lia) ltac:(lia))
    as (s' & e & E & He & Ha & _).
  by exists s', e.
Defined.

Lemma gdt_gate_roundtrip_witness :
  ∃ s' e, gdt_set_gate 1 0x00400000 0xFFFFFFFF 0x9A 0xCF tables_boot = Done tt s' ∧ aget (gdt s') 1 = Some e ∧
    segment_base e = 0x00400000 ∧ segment_limit e = 0xFFFFF.
Proof.
  destruct (gdt_gate_roundtrip 1 0x00400000 0xFFFFFFFF 0x9A 0xCF tables_boot eq_refl ltac:(lia) ltac:(lia)) as [Hin _].
  destruct (Hin ltac:(lia)) as (s' & e & E & He & Hb & Hl & _). by exists s', e.
Defined.

Lemma interrupts_setup_correct_witness :
  ∃ s', interrupts_setup demo_machine = Done tt s' ∧ idtr (m_tables s') = TablePtr 2047 0x105000.
Proof.
  destruct (interrupts_setup_correct demo_machine eq_refl eq_refl) as (s' & E & H & _).
  exists s'. split; [exact E|exact H].
Defined.

Lemma irq_dispatch_witness :
  ∃ s0, within (T := tables) (register_interrupt_handler 40 0x3000) demo_machine = Done tt s0 ∧
    ∃ s1, irq_handler demo_call (demo_regs 40) s0 = Done tt s1 ∧ m_rest s1 = 1 ∧
      accesses (machine_ports s1) = [Out 8 0xA0 0x20; Out 8 0x20 0x20].
Proof.
  destruct (irq_dispatch demo_call 40 0x3000 (demo_regs 40) demo_machine eq_refl eq_refl ltac:(lia)) as [H _].
  destruct (H ltac:(lia)) as [(s0 & E & Hc) _]. exists s0. split; [exact E|].
  eexists. split; [apply Hc; reflexivity|]. vm_compute in E. injection E as <-. by vm_compute.
Defined.

(** A page fault whose handler does its work. *)
Definition demo_fault_machine : machine Z :=
  Machine (demo_faults, LOG_DEBUG) (set_irqs (aset 14 0x3000 (replicate 256 0)) tables_boot) 0.

Lemma fault_handler_stops_witness :
  ∃ s', fault_handler (H := slow_line) true demo_call (λ _, 2100) 2000 2010 (demo_regs 14) demo_fault_machine
      = Halted s' ∧ m_rest s' = 1.
Proof.
  destruct (fault_handler_stops (H := slow_line) true demo_call (λ _, 2100) 2000 2010 3 (demo_regs 14)
    demo_fault_machine (eoi 14 (Machine (m_log demo_fault_machine) (m_tables demo_fault_machine) 1))
    (screen_tape demo_faults) [80; 70]
    ([69; 110; 99; 111; 117; 110; 116; 101; 114; 101; 100; 32; 105; 110; 116; 101; 114; 114; 117; 112; 116; 32;
      49; 52; 32; 40; 80; 70; 41; 33; 10])) as (s' & E & _ & Hr).
  - exact slow_line_drains.
  - lia.
  - cbn. lia.
  - exists (Machine (m_log demo_fault_machine) (m_tables demo_fault_machine) 1), 0x3000.
    split; [reflexivity|]. split; [discriminate|]. split; reflexivity.
  - destruct (con_ok_shows _ demo_faults_ok) as [Ht Hr Ha Hc Hx Hy]. constructor;
      [exact Ht|exact Hr|exact Ha|exact Hc|exact Hx|exact Hy].
  - destruct demo_faults_strings as [S1 S2 S3 S4 S5 S6]. constructor;
      [exact S1|exact S2|exact S3|exact S4|exact S5|exact S6].
  - cbn. unfold LOG_PANIC, LOG_DEBUG. lia.
  - in_memory.
  - in_memory.
  - in_memory.
  - reflexivity.
  - exists s'. split; [exact E|exact Hr].
Defined.
