(* ===== verification/Graphics.v ===== *)
(** * The graphics terminal (gterminal.c, the ARM branches of video.c,
      arm/integrator-cp/drivers/qemu-PL110.c, framebuffer.c)

    Characters drawn pixel by pixel into the 640 by 480 frame of the ARM
    board, with the same cursor as the text console but glyphs of 8 by 9
    pixels. *)

From S2P Require Import Prelude CString Ram Ports.

(** ** Frame buffers (framebuffer.c) *)

Record framebuffer_t := Framebuffer {
  memory_start : Z; width : Z; height : Z; depth : Z; pitch : Z; pixwidth : Z
}.

Definition bga_getFramebuffer : framebuffer_t := Framebuffer 0xE0000000 800 600 32 3200 4.

Definition fb_putpixel (fb : framebuffer_t) (x y color : Z) : M ram unit :=
  let where_ := u32 (x * pixwidth fb + y * pitch fb) in
  store8 (memory_start fb + where_) (Z.land color 255);;
  store8 (memory_start fb + u32 (where_ + 1)) (Z.land (Z.shiftr color 8) 255);;
  store8 (memory_start fb + u32 (where_ + 2)) (Z.land (Z.shiftr color 16) 255).

(** ** The ARM display (qemu-PL110.c) *)

(** Memory, the ports, and the static variables of the files; on ARM the
    cursor of terminal.c and that of gterminal.c are the same variables. *)
Record graphics := Graphics {
  g_mem : ram; g_ports : ports; qemu_pl_fb : Z; video_device : Z; term_x : Z; term_y : Z
}.
Definition set_mem m s := Graphics m (g_ports s) (qemu_pl_fb s) (video_device s) (term_x s) (term_y s).
Definition set_ports p s := Graphics (g_mem s) p (qemu_pl_fb s) (video_device s) (term_x s) (term_y s).
Definition set_frame f s := Graphics (g_mem s) (g_ports s) f (video_device s) (term_x s) (term_y s).
Definition set_device d s := Graphics (g_mem s) (g_ports s) (qemu_pl_fb s) d (term_x s) (term_y s).
Definition set_cursor x y s := Graphics (g_mem s) (g_ports s) (qemu_pl_fb s) (video_device s) x y.

#[export] Program Instance graphics_mem : Has ram graphics := { part := g_mem; set_part := set_mem }.
Solve All Obligations with (by repeat intros []).
#[export] Program Instance graphics_ports : Has ports graphics := { part := g_ports; set_part := set_ports }.
Solve All Obligations with (by repeat intros []).

Definition PL110_IOBASE : Z := 0xc0000000.

Section pl110.
Local Abbreviation K := (M graphics).

Definition qemu_pl110_write_index (index r g b : Z) : K unit :=
  fb ← gets qemu_pl_fb;
  within (store16 (fb + 2 * index) (Z.lor (Z.lor (Z.shiftl b (5 + 6)) (Z.shiftl g 5)) r)).
Definition qemu_pl110_write (x y r g b : Z) : K unit :=
  qemu_pl110_write_index (u32 (y * 640 + x)) r g b.
Definition qemu_pl110_clear : K unit :=
  for_up (Z.to_nat (640 * 480 - 10)) 0 (λ x,
    qemu_pl110_write_index x 0x0 0x0 (u8 (0x0 + (x mod 640 * 480)))).
Definition qemu_pl110_start : K unit :=
  within (mmio_write PL110_IOBASE 0x3f1f3f9c);;
  within (mmio_write (PL110_IOBASE + 4) 0x080b61df);;
  within (mmio_write (PL110_IOBASE + 16) 0x200000);;
  within (mmio_write (PL110_IOBASE + 28) 0x1829);;
  modify (set_frame 0x200000);;
  qemu_pl110_clear;;
  modify (set_device 1).

(** The ARM branches of video.c *)
Definition video_draw_pixel (x y r g b : Z) : K unit := qemu_pl110_write x y r g b.
Definition video_clear : K unit := qemu_pl110_clear.
Definition video_scroll (from to : Z) : K unit := mret tt.
Definition video_setcursor (x y : Z) : K unit := mret tt.
End pl110.

(** ** The font (includes/beryllium/video_font.h) *)

Definition font8x8_basic : list (list Z) := [
  [0x00; 0x00; 0x00; 0x00; 0x00; 0x00; 0x00; 0x00];
  [0x00; 0x00; 0x00; 0x00; 0x00; 0x00; 0x00; 0x00];
  [0x00; 0x00; 0x00; 0x00; 0x00; 0x00; 0x00; 0x00];
  [0x00; 0x00; 0x00; 0x00; 0x00; 0x00; 0x00; 0x00];
  [0x00; 0x00; 0x00; 0x00; 0x00; 0x00; 0x00; 0x00];
  [0x00; 0x00; 0x00; 0x00; 0x00; 0x00; 0x00; 0x00];
  [0x00; 0x00; 0x00; 0x00; 0x00; 0x00; 0x00; 0x00];
  [0x00; 0x00; 0x00; 0x00; 0x00; 0x00; 0x00; 0x00];
  [0x00; 0x00; 0x00; 0x00; 0x00; 0x00; 0x00; 0x00];
  [0x00; 0x00; 0x00; 0x00; 0x00; 0x00; 0x00; 0x00];
  [0x00; 0x00; 0x00; 0x00; 0x00; 0x00; 0x00; 0x00];
  [0x00; 0x00; 0x00; 0x00; 0x00; 0x00; 0x00; 0x00];
  [0x00; 0x00; 0x00; 0x00; 0x00; 0x00; 0x00; 0x00];
  [0x00; 0x00; 0x00; 0x00; 0x00; 0x00; 0x00; 0x00];
  [0x00; 0x00; 0x00; 0x00; 0x00; 0x00; 0x00; 0x00];
  [0x00; 0x00; 0x00; 0x00; 0x00; 0x00; 0x00; 0x00];
  [0x00; 0x00; 0x00; 0x00; 0x00; 0x00; 0x00; 0x00];
  [0x00; 0x00; 0x00; 0x00; 0x00; 0x00; 0x00; 0x00];
  [0x00; 0x00; 0x00; 0x00; 0x00; 0x00; 0x00; 0x00];
  [0x00; 0x00; 0x00; 0x00; 0x00; 0x00; 0x00; 0x00];
  [0x00; 0x00; 0x00; 0x00; 0x00; 0x00; 0x00; 0x00];
  [0x00; 0x00; 0x00; 0x00; 0x00; 0x00; 0x00; 0x00];
  [0x00; 0x00; 0x00; 0x00; 0x00; 0x00; 0x00; 0x00];
  [0x00; 0x00; 0x00; 0x00; 0x00; 0x00; 0x00; 0x00];
  [0x00; 0x00; 0x00; 0x00; 0x00; 0x00; 0x00; 0x00];
  [0x00; 0x00; 0x00; 0x00; 0x00; 0x00; 0x00; 0x00];
  [0x00; 0x00; 0x00; 0x00; 0x00; 0x00; 0x00; 0x00];
  [0x00; 0x00; 0x00; 0x00; 0x00; 0x00; 0x00; 0x00];
  [0x00; 0x00; 0x00; 0x00; 0x00; 0x00; 0x00; 0x00];
  [0x00; 0x00; 0x00; 0x00; 0x00; 0x00; 0x00; 0x00];
  [0x00; 0x00; 0x00; 0x00; 0x00; 0x00; 0x00; 0x00];
  [0x00; 0x00; 0x00; 0x00; 0x00; 0x00; 0x00; 0x00];
  [0x00; 0x00; 0x00; 0x00; 0x00; 0x00; 0x00; 0x00];
  [0x18; 0x3C; 0x3C; 0x18; 0x18; 0x00; 0x18; 0x00];
  [0x36; 0x36; 0x00; 0x00; 0x00; 0x00; 0x00; 0x00];
  [0x36; 0x36; 0x7F; 0x36; 0x7F; 0x36; 0x36; 0x00];
  [0x0C; 0x3E; 0x03; 0x1E; 0x30; 0x1F; 0x0C; 0x00];
  [0x00; 0x63; 0x33; 0x18; 0x0C; 0x66; 0x63; 0x00];
  [0x1C; 0x36; 0x1C; 0x6E; 0x3B; 0x33; 0x6E; 0x00];
  [0x06; 0x06; 0x03; 0x00; 0x00; 0x00; 0x00; 0x00];
  [0x18; 0x0C; 0x06; 0x06; 0x06; 0x0C; 0x18; 0x00];
  [0x06; 0x0C; 0x18; 0x18; 0x18; 0x0C; 0x06; 0x00];
  [0x00; 0x66; 0x3C; 0xFF; 0x3C; 0x66; 0x00; 0x00];
  [0x00; 0x0C; 0x0C; 0x3F; 0x0C; 0x0C; 0x00; 0x00];
  [0x00; 0x00; 0x00; 0x00; 0x00; 0x0C; 0x0C; 0x06];
  [0x00; 0x00; 0x00; 0x3F; 0x00; 0x00; 0x00; 0x00];
  [0x00; 0x00; 0x00; 0x00; 0x00; 0x0C; 0x0C; 0x00];
  [0x60; 0x30; 0x18; 0x0C; 0x06; 0x03; 0x01; 0x00];
  [0x3E; 0x63; 0x73; 0x7B; 0x6F; 0x67; 0x3E; 0x00];
  [0x0C; 0x0E; 0x0C; 0x0C; 0x0C; 0x0C; 0x3F; 0x00];
  [0x1E; 0x33; 0x30; 0x1C; 0x06; 0x33; 0x3F; 0x00];
  [0x1E; 0x33; 0x30; 0x1C; 0x30; 0x33; 0x1E; 0x00];
  [0x38; 0x3C; 0x36; 0x33; 0x7F; 0x30; 0x78; 0x00];
  [0x3F; 0x03; 0x1F; 0x30; 0x30; 0x33; 0x1E; 0x00];
  [0x1C; 0x06; 0x03; 0x1F; 0x33; 0x33; 0x1E; 0x00];
  [0x3F; 0x33; 0x30; 0x18; 0x0C; 0x0C; 0x0C; 0x00];
  [0x1E; 0x33; 0x33; 0x1E; 0x33; 0x33; 0x1E; 0x00];
  [0x1E; 0x33; 0x33; 0x3E; 0x30; 0x18; 0x0E; 0x00];
  [0x00; 0x0C; 0x0C; 0x00; 0x00; 0x0C; 0x0C; 0x00];
  [0x00; 0x0C; 0x0C; 0x00; 0x00; 0x0C; 0x0C; 0x06];
  [0x18; 0x0C; 0x06; 0x03; 0x06; 0x0C; 0x18; 0x00];
  [0x00; 0x00; 0x3F; 0x00; 0x00; 0x3F; 0x00; 0x00];
  [0x06; 0x0C; 0x18; 0x30; 0x18; 0x0C; 0x06; 0x00];
  [0x1E; 0x33; 0x30; 0x18; 0x0C; 0x00; 0x0C; 0x00];
  [0x3E; 0x63; 0x7B; 0x7B; 0x7B; 0x03; 0x1E; 0x00];
  [0x0C; 0x1E; 0x33; 0x33; 0x3F; 0x33; 0x33; 0x00];
  [0x3F; 0x66; 0x66; 0x3E; 0x66; 0x66; 0x3F; 0x00];
  [0x3C; 0x66; 0x03; 0x03; 0x03; 0x66; 0x3C; 0x00];
  [0x1F; 0x36; 0x66; 0x66; 0x66; 0x36; 0x1F; 0x00];
  [0x7F; 0x46; 0x16; 0x1E; 0x16; 0x46; 0x7F; 0x00];
  [0x7F; 0x46; 0x16; 0x1E; 0x16; 0x06; 0x0F; 0x00];
  [0x3C; 0x66; 0x03; 0x03; 0x73; 0x66; 0x7C; 0x00];
  [0x33; 0x33; 0x33; 0x3F; 0x33; 0x33; 0x33; 0x00];
  [0x1E; 0x0C; 0x0C; 0x0C; 0x0C; 0x0C; 0x1E; 0x00];
  [0x78; 0x30; 0x30; 0x30; 0x33; 0x33; 0x1E; 0x00];
  [0x67; 0x66; 0x36; 0x1E; 0x36; 0x66; 0x67; 0x00];
  [0x0F; 0x06; 0x06; 0x06; 0x46; 0x66; 0x7F; 0x00];
  [0x63; 0x77; 0x7F; 0x7F; 0x6B; 0x63; 0x63; 0x00];
  [0x63; 0x67; 0x6F; 0x7B; 0x73; 0x63; 0x63; 0x00];
  [0x1C; 0x36; 0x63; 0x63; 0x63; 0x36; 0x1C; 0x00];
  [0x3F; 0x66; 0x66; 0x3E; 0x06; 0x06; 0x0F; 0x00];
  [0x1E; 0x33; 0x33; 0x33; 0x3B; 0x1E; 0x38; 0x00];
  [0x3F; 0x66; 0x66; 0x3E; 0x36; 0x66; 0x67; 0x00];
  [0x1E; 0x33; 0x07; 0x0E; 0x38; 0x33; 0x1E; 0x00];
  [0x3F; 0x2D; 0x0C; 0x0C; 0x0C; 0x0C; 0x1E; 0x00];
  [0x33; 0x33; 0x33; 0x33; 0x33; 0x33; 0x3F; 0x00];
  [0x33; 0x33; 0x33; 0x33; 0x33; 0x1E; 0x0C; 0x00];
  [0x63; 0x63; 0x63; 0x6B; 0x7F; 0x77; 0x63; 0x00];
  [0x63; 0x63; 0x36; 0x1C; 0x1C; 0x36; 0x63; 0x00];
  [0x33; 0x33; 0x33; 0x1E; 0x0C; 0x0C; 0x1E; 0x00];
  [0x7F; 0x63; 0x31; 0x18; 0x4C; 0x66; 0x7F; 0x00];
  [0x1E; 0x06; 0x06; 0x06; 0x06; 0x06; 0x1E; 0x00];
  [0x03; 0x06; 0x0C; 0x18; 0x30; 0x60; 0x40; 0x00];
  [0x1E; 0x18; 0x18; 0x18; 0x18; 0x18; 0x1E; 0x00];
  [0x08; 0x1C; 0x36; 0x63; 0x00; 0x00; 0x00; 0x00];
  [0x00; 0x00; 0x00; 0x00; 0x00; 0x00; 0x00; 0xFF];
  [0x0C; 0x0C; 0x18; 0x00; 0x00; 0x00; 0x00; 0x00];
  [0x00; 0x00; 0x1E; 0x30; 0x3E; 0x33; 0x6E; 0x00];
  [0x07; 0x06; 0x06; 0x3E; 0x66; 0x66; 0x3B; 0x00];
  [0x00; 0x00; 0x1E; 0x33; 0x03; 0x33; 0x1E; 0x00];
  [0x38; 0x30; 0x30; 0x3e; 0x33; 0x33; 0x6E; 0x00];
  [0x00; 0x00; 0x1E; 0x33; 0x3f; 0x03; 0x1E; 0x00];
  [0x1C; 0x36; 0x06; 0x0f; 0x06; 0x06; 0x0F; 0x00];
  [0x00; 0x00; 0x6E; 0x33; 0x33; 0x3E; 0x30; 0x1F];
  [0x07; 0x06; 0x36; 0x6E; 0x66; 0x66; 0x67; 0x00];
  [0x0C; 0x00; 0x0E; 0x0C; 0x0C; 0x0C; 0x1E; 0x00];
  [0x30; 0x00; 0x30; 0x30; 0x30; 0x33; 0x33; 0x1E];
  [0x07; 0x06; 0x66; 0x36; 0x1E; 0x36; 0x67; 0x00];
  [0x0E; 0x0C; 0x0C; 0x0C; 0x0C; 0x0C; 0x1E; 0x00];
  [0x00; 0x00; 0x33; 0x7F; 0x7F; 0x6B; 0x63; 0x00];
  [0x00; 0x00; 0x1F; 0x33; 0x33; 0x33; 0x33; 0x00];
  [0x00; 0x00; 0x1E; 0x33; 0x33; 0x33; 0x1E; 0x00];
  [0x00; 0x00; 0x3B; 0x66; 0x66; 0x3E; 0x06; 0x0F];
  [0x00; 0x00; 0x6E; 0x33; 0x33; 0x3E; 0x30; 0x78];
  [0x00; 0x00; 0x3B; 0x6E; 0x66; 0x06; 0x0F; 0x00];
  [0x00; 0x00; 0x3E; 0x03; 0x1E; 0x30; 0x1F; 0x00];
  [0x08; 0x0C; 0x3E; 0x0C; 0x0C; 0x2C; 0x18; 0x00];
  [0x00; 0x00; 0x33; 0x33; 0x33; 0x33; 0x6E; 0x00];
  [0x00; 0x00; 0x33; 0x33; 0x33; 0x1E; 0x0C; 0x00];
  [0x00; 0x00; 0x63; 0x6B; 0x7F; 0x7F; 0x36; 0x00];
  [0x00; 0x00; 0x63; 0x36; 0x1C; 0x36; 0x63; 0x00];
  [0x00; 0x00; 0x33; 0x33; 0x33; 0x3E; 0x30; 0x1F];
  [0x00; 0x00; 0x3F; 0x19; 0x0C; 0x26; 0x3F; 0x00];
  [0x38; 0x0C; 0x0C; 0x07; 0x0C; 0x0C; 0x38; 0x00];
  [0x18; 0x18; 0x18; 0x00; 0x18; 0x18; 0x18; 0x00];
  [0x07; 0x0C; 0x0C; 0x38; 0x0C; 0x0C; 0x07; 0x00];
  [0x6E; 0x3B; 0x00; 0x00; 0x00; 0x00; 0x00; 0x00];
  [0x00; 0x00; 0x00; 0x00; 0x00; 0x00; 0x00; 0x00]
].

(** ** The terminal (gterminal.c) *)

Section gterminal.
Local Abbreviation K := (M graphics).

Definition glyph_row (c row : Z) : K Z :=
  g ← of_option (OutOfRange c) (aget font8x8_basic c);
  of_option (OutOfRange row) (aget g row).

(** [c] as [uint8_t] *)
Definition gprintchar (c x y : Z) : K unit :=
  let col := u32 (x * 8) in
  let ry := u32 (y * 9) in
  for_up 8 0 (λ row,
    for_up 8 0 (λ i,
      bits ← glyph_row (u8 c) row;
      if truth (Z.land bits (Z.shiftl 1 i))
      then video_draw_pixel (s32 (col + i)) (s32 (ry + row)) 0xFF 0xFF 0xFF
      else mret tt)).
(** video.c *)
Definition video_printchar (x y c : Z) : K unit := gprintchar c x y.

(** [scroll] of terminal.c, which is what [gprintc] calls. *)
Definition scroll : K unit :=
  s ← get;
  if 25 <=? term_y s then video_scroll 0 24;; modify (λ s, set_cursor (term_x s) 24 s) else mret tt.
Definition gterminal_clear : K unit := video_clear.
Definition gscroll : K unit :=
  s ← get;
  if 25 <=? term_y s then
    video_scroll 0 24;; modify (λ s, set_cursor (term_x s) 0 s);; gterminal_clear
  else mret tt.

(** [char] is unsigned on ARM. *)
Definition gprintc (c : Z) : K unit :=
  s ← get;
  let x := term_x s in let y := term_y s in
  (if (c =? 0x08) && truth x then modify (set_cursor (u32 (x - 1)) y)
   else if c =? 0x09 then modify (set_cursor (Z.land (u32 (x + 8)) (u32 (Z.lnot (8 - 1)))) y)
   else if c =? 13 then modify (set_cursor 0 y)
   else if c =? 10 then modify (set_cursor 0 (u32 (y + 1)))
   else if 32 <=? c then gprintchar c x y;; modify (λ s, set_cursor (u32 (x + 1)) y s)
   else mret tt);;
  s ← get;
  (if 80 <=? term_x s then modify (set_cursor 0 (u32 (term_y s + 1))) else mret tt);;
  scroll;;
  s ← get;
  video_setcursor (term_x s) (term_y s).

Definition gprint (c : Z) : K unit := each_char (λ a, within (load8 a)) (λ _ v, gprintc v) c.
End gterminal.

(** ** What a glyph looks like *)

Definition font_row (c row : Z) : Z := default 0 (g ← aget font8x8_basic c; aget g row).
Definition glyph_bit (c dx dy : Z) : bool :=
  (0 <=? dy) && (dy <? 8) && ((0 <=? dx) && (dx <? 8) && Z.testbit (font_row c dy) dx).
Definition pixel (m : ram) (fb px py : Z) : Z := word16 m (fb + 2 * (py * 640 + px)).
Definition white : Z := 0xFFFF.

(** [draws k s S]: [k] makes the pixels in [S] white and does nothing else. *)
Definition draws (k : M graphics unit) (s : graphics) (on : Z -> Z -> bool) : Prop :=
  ∃ m', k s = Done tt (set_mem m' s) ∧
    (∀ px py, 0 <= px < 640 -> 0 <= py < 480 ->
       pixel m' (qemu_pl_fb s) px py = if on px py then white else pixel (g_mem s) (qemu_pl_fb s) px py) ∧
    (∀ a, 0 <= a < 2 ^ 32 -> ¬ (qemu_pl_fb s <= a < qemu_pl_fb s + 2 * (640 * 480)) -> rd m' a = rd (g_mem s) a).

(** The frame is in the address space. *)
Definition frame_ok (s : graphics) : Prop := 0 <= qemu_pl_fb s ∧ qemu_pl_fb s + 2 * (640 * 480) <= 2 ^ 32.

Section glyphs.
Implicit Types s : graphics.

Lemma font_shape c row : 0 <= c < 128 -> 0 <= row < 8 -> glyph_row c row = mret (font_row c row).
Proof.
  intros Hc Hr. unfold glyph_row, font_row.
  destruct (aget_lt font8x8_basic c) as (g & Hg); [exact Hc|]. rewrite Hg.
  assert (Forall (λ g, length g = 8%nat) font8x8_basic) as Hf by (apply (bool_decide_unpack _); by vm_compute).
  unfold aget in Hg. rewrite decide_True in Hg by lia. rewrite Forall_lookup in Hf. specialize (Hf _ _ Hg).
  destruct (aget_lt g row) as (v & Hv); [lia|].
  change (of_option (OutOfRange row) (aget g row) = (mret (default 0 (aget g row)) : M graphics Z)). by rewrite Hv.
Qed.

Lemma set_mem_mem m m' s : set_mem m (set_mem m' s) = set_mem m s.
Proof. done. Qed.

Lemma draws_nothing s : draws (mret tt) s (λ _ _, false).
Proof. exists (g_mem s). split; [by destruct s|done]. Qed.

Lemma draws_ext k s on on' :
  (∀ px py, 0 <= px < 640 -> 0 <= py < 480 -> on px py = on' px py) -> draws k s on -> draws k s on'.
Proof.
  intros He (m' & E & Hp & Hf). exists m'. split; [exact E|]. split; [|exact Hf].
  intros px py ? ?. by rewrite Hp, He.
Qed.

Lemma draws_seq k1 k2 s on1 on2 :
  frame_ok s -> draws k1 s on1 -> (∀ m, draws k2 (set_mem m s) on2) ->
  draws (k1;; k2) s (λ px py, on1 px py || on2 px py).
Proof.
  intros Hs (m1 & E1 & Hp1 & Hf1) H2. destruct (H2 m1) as (m2 & E2 & Hp2 & Hf2).
  exists m2. mstep E1. split; [exact E2|]. cbn [g_mem qemu_pl_fb set_mem] in *. split.
  - intros px py Hx Hy. rewrite Hp2, Hp1 by done. by destruct (on1 px py), (on2 px py).
  - intros a Ha Hout. by rewrite Hf2, Hf1.
Qed.

Lemma draws_for n from f s on :
  frame_ok s -> (∀ i m, from <= i < from + Z.of_nat n -> draws (f i) (set_mem m s) (on i)) ->
  draws (for_up n from f) s (λ px py, existsb (λ i, on i px py) (seqZ from (Z.of_nat n))).
Proof.
  revert from s. induction n as [|n IH]; intros from s Hs Hf; cbn [for_up].
  { apply draws_nothing. }
  rewrite seqZ_cons by lia. cbn [existsb].
  replace (Z.pred (Z.of_nat (S n))) with (Z.of_nat n) by lia. rewrite <- Z.add_1_r.
  apply draws_seq; [done| |].
  - specialize (Hf from (g_mem s) ltac:(lia)). by destruct s.
  - intros m. apply IH; [done|]. intros i m' Hi. rewrite set_mem_mem. apply Hf. lia.
Qed.

(** One pixel. *)
Lemma draws_pixel x y s :
  frame_ok s -> 0 <= x < 640 -> 0 <= y < 480 ->
  draws (video_draw_pixel x y 0xFF 0xFF 0xFF) s (λ px py, (px =? x) && (py =? y)).
Proof.
  intros [Hf1 Hf2] Hx Hy. unfold video_draw_pixel, qemu_pl110_write, qemu_pl110_write_index.
  set (v := Z.lor (Z.lor (Z.shiftl 0xFF (5 + 6)) (Z.shiftl 0xFF 5)) 0xFF).
  rewrite u32_small by lia. set (i := y * 640 + x).
  exists (set_word16 (qemu_pl_fb s + 2 * i) v (g_mem s)). split; [done|]. split.
  - intros px py Hpx Hpy. unfold pixel. destruct (Z.eqb_spec px x) as [->|Hne].
    + destruct (Z.eqb_spec py y) as [->|Hne]; cbn [andb].
      * rewrite word16_set_eq. done.
      * rewrite word16_set_ne by (unfold i; lia). done.
    + cbn [andb]. rewrite word16_set_ne by (unfold i; lia). done.
  - intros a Ha Hout. apply rd_set_word16; unfold i; lia.
Qed.
End glyphs.

Section drawing.
Implicit Types s : graphics.

Lemma existsb_seqZ f n : existsb f (seqZ 0 n) = true <-> ∃ i, 0 <= i < n ∧ f i = true.
Proof.
  rewrite existsb_exists. split.
  - intros (i & Hi%list_elem_of_In%elem_of_seqZ & Hf). exists i. split; [lia|done].
  - intros (i & Hi & Hf). exists i. split; [apply list_elem_of_In, elem_of_seqZ; lia|done].
Qed.

(** The [i]-th bit of row [row]. *)
Lemma draws_bit c x y s row i :
  frame_ok s -> 0 <= c < 128 -> 0 <= x < 80 -> 0 <= y < 53 -> 0 <= row < 8 -> 0 <= i < 8 ->
  draws (bits ← glyph_row (u8 c) row;
         if truth (Z.land bits (Z.shiftl 1 i))
         then video_draw_pixel (s32 (u32 (x * 8) + i)) (s32 (u32 (y * 9) + row)) 0xFF 0xFF 0xFF
         else mret tt) s
    (λ px py, Z.testbit (font_row c row) i && ((px =? 8 * x + i) && (py =? 9 * y + row))).
Proof.
  intros Hs Hc Hx Hy Hr Hi. rewrite u8_small, font_shape by lia.
  assert (∀ k on, draws k s on -> draws (b ← mret (font_row c row); k) s on) as Hret by done. apply Hret. clear Hret.
  rewrite Z.shiftl_1_l, land_pow2 by lia. unfold truth.
  assert (2 ^ i ≠ 0) by (apply Z.pow_nonzero; lia).
  destruct (Z.testbit (font_row c row) i); cbn [andb].
  - rewrite (proj2 (Z.eqb_neq (2 ^ i) 0)) by done. cbn [negb].
    rewrite !(u32_small (_ * _)), !s32_small by lia.
    replace (x * 8 + i) with (8 * x + i) by lia. replace (y * 9 + row) with (9 * y + row) by lia.
    apply draws_pixel; [done|lia|lia].
  - rewrite Z.eqb_refl. cbn [negb]. apply draws_nothing.
Qed.

Lemma glyph_bits c x y px py :
  existsb (λ row, existsb (λ i, Z.testbit (font_row c row) i && ((px =? 8 * x + i) && (py =? 9 * y + row)))
    (seqZ 0 8)) (seqZ 0 8) = glyph_bit c (px - 8 * x) (py - 9 * y).
Proof.
  apply eq_true_iff_eq. rewrite existsb_seqZ. unfold glyph_bit. rewrite !andb_true_iff, !Z.leb_le, !Z.ltb_lt.
  split.
  - intros (row & Hr & (i & Hi & H)%existsb_seqZ). rewrite !andb_true_iff, !Z.eqb_eq in H.
    destruct H as (Hb & -> & ->). replace (8 * x + i - 8 * x) with i by lia.
    replace (9 * y + row - 9 * y) with row by lia. auto.
  - intros ((? & ?) & ((? & ?) & Hb)). exists (py - 9 * y). split; [lia|]. apply existsb_seqZ.
    exists (px - 8 * x). split; [lia|]. rewrite Hb. cbn [andb].
    apply andb_true_iff. split; apply Z.eqb_eq; lia.
Qed.

Lemma frame_ok_mem m s : frame_ok s -> frame_ok (set_mem m s).
Proof. done. Qed.

Lemma draws_glyph c x y s :
  frame_ok s -> 0 <= c < 128 -> 0 <= x < 80 -> 0 <= y < 53 ->
  draws (gprintchar c x y) s (λ px py, glyph_bit c (px - 8 * x) (py - 9 * y)).
Proof.
  intros Hs Hc Hx Hy. eapply draws_ext; [intros px py _ _; apply glyph_bits|].
  apply (draws_for 8 0); [done|]. intros row m Hr.
  apply (draws_for 8 0); [done|]. intros i m' Hi. rewrite set_mem_mem.
  apply draws_bit; try lia. by apply frame_ok_mem.
Qed.

(** C34: [gprintchar] of a character the font has paints exactly the set
    bits of its glyph white, eight by eight pixels at (8x, 9y), and changes
    no other pixel and no byte outside the frame. *)
Theorem gprintchar_draws c x y s
    (Hs : frame_ok s) (Hc : 0 <= c < 128) (Hx : 0 <= x < 80) (Hy : 0 <= y < 53) :
  ∃ m', gprintchar c x y s = Done tt (set_mem m' s) ∧
    (∀ px py, 0 <= px < 640 -> 0 <= py < 480 ->
       pixel m' (qemu_pl_fb s) px py =
         if glyph_bit c (px - 8 * x) (py - 9 * y) then white else pixel (g_mem s) (qemu_pl_fb s) px py) ∧
    (∀ a, 0 <= a < 2 ^ 32 -> ¬ (qemu_pl_fb s <= a < qemu_pl_fb s + 2 * (640 * 480)) ->
       rd m' a = rd (g_mem s) a).
Proof. by apply draws_glyph. Qed.

(** A character above 127, such as the 253 in the start-up banner,
    indexes the font of 128 glyphs out of bounds. *)
Theorem gprintc_outside_font c s (Hc : 128 <= c < 256) : gprintc c s = Fault (OutOfRange c).
Proof.
  unfold gprintc. mrun.
  rewrite !(proj2 (Z.eqb_neq c _)), (proj2 (Z.leb_le 32 c)) by lia. cbn [andb].
  assert (∀ x y, gprintchar c x y s = Fault (OutOfRange c)) as Hf.
  { intros x y. unfold gprintchar, glyph_row. rewrite u8_small by lia.
    replace (aget font8x8_basic c) with (@None (list Z)); [done|].
    unfold aget. rewrite decide_True by lia. symmetry. apply lookup_ge_None_2. cbn [length font8x8_basic]. lia. }
  assert (∀ A B (k : M graphics A) (f : A -> M graphics B) e, k s = Fault e -> (k ≫= f) s = Fault e) as Hbind.
  { intros A B k f e E. unfold mbind, M_bind. by rewrite E. }
  by apply Hbind, Hbind.
Qed.

(** The terminal of the graphics screen does not scroll: a line feed
    on line 24 leaves the cursor on it and every pixel as it was ([gprintc]
    calls the text console's [scroll] and not [gscroll]), so the next line is
    painted over the last. *)
Theorem gprintc_overprints s (Hy : term_y s = 24) :
  gprintc 10 s = Done tt (set_cursor 0 24 s).
Proof. unfold gprintc. mrun. by rewrite Hy. Qed.
End drawing.

(** ** Frame buffers *)

(** [fb_putpixel] stores blue, green and red at the pixel's place in
    its line and changes no other byte, when the frame is in memory. *)
Theorem fb_putpixel_stores fb x y color m
    (Hw : 3 <= pixwidth fb) (Hpitch : width fb * pixwidth fb <= pitch fb) (Hx : 0 <= x < width fb)
    (Hy : 0 <= y < height fb) (Hm : 0 <= memory_start fb)
    (Hend : memory_start fb + pitch fb * height fb <= 2 ^ 32) :
  let a := memory_start fb + (y * pitch fb + x * pixwidth fb) in
  memory_start fb <= a ∧ a + 3 <= memory_start fb + pitch fb * height fb ∧
  ∃ m', fb_putpixel fb x y color m = Done tt m' ∧
    rd m' a = Some (color mod 256) ∧ rd m' (a + 1) = Some (color / 256 mod 256) ∧
    rd m' (a + 2) = Some (color / 65536 mod 256) ∧
    ∀ b, ¬ (a <= b < a + 3) -> rd m' b = rd m b.
Proof.
  assert (0 <= width fb * pixwidth fb) by (apply Z.mul_nonneg_nonneg; lia).
  assert (0 <= y * pitch fb) by (apply Z.mul_nonneg_nonneg; lia). assert (0 <= x * pixwidth fb) by (apply Z.mul_nonneg_nonneg; lia).
  assert (x * pixwidth fb + 3 <= pitch fb) by nia. assert (y * pitch fb + pitch fb <= pitch fb * height fb) by nia.
  intros a. split; [unfold a; lia|]. split; [unfold a; lia|].
  assert (He : u32 (x * pixwidth fb + y * pitch fb) = a - memory_start fb) by (rewrite u32_small; unfold a; lia).
  eexists. split.
  - unfold fb_putpixel. rewrite He, !(u32_small (_ + _)) by (unfold a; lia).
    replace (memory_start fb + (a - memory_start fb)) with a by lia.
    replace (memory_start fb + (a - memory_start fb + 1)) with (a + 1) by lia.
    replace (memory_start fb + (a - memory_start fb + 2)) with (a + 2) by lia. reflexivity.
  - assert (0 <= a) by (unfold a; lia). assert (a + 3 <= 2 ^ 32) by (unfold a; lia). clearbody a.
    assert (∀ v, u8 (Z.land v 255) = v mod 256) as Hb.
    { intros v. change 255 with (Z.ones 8). rewrite Z.land_ones by lia. apply u8_small. zdm. }
    cbn [rd ram_mem ram_bytes]. rewrite !Hb, !Z.shiftr_div_pow2, !u32_small by lia.
    change (2 ^ 8) with 256; change (2 ^ 16) with 65536.
    split; [by rewrite lookup_insert_ne, lookup_insert_ne, lookup_insert_eq by lia|].
    split; [by rewrite lookup_insert_ne, lookup_insert_eq by lia|].
    split; [by rewrite lookup_insert_eq|]. intros b Hout. by rewrite !lookup_insert_ne by lia.
Qed.

(** ** Frames to draw on *)

Definition demo_screen : graphics := Graphics (Ram ∅) (Ports []) 0x200000 1 79 24.

Lemma gprintchar_draws_witness :
  ∃ m', gprintchar 65 79 24 demo_screen = Done tt (set_mem m' demo_screen) ∧
    pixel m' 0x200000 634 216 = white ∧ pixel m' 0x200000 632 216 = 0.
Proof.
  destruct (gprintchar_draws 65 79 24 demo_screen) as (m' & E & Hp & _); [by split|lia|lia|lia|].
  exists m'. split; [exact E|]. split.
  - exact (Hp 634 216 ltac:(lia) ltac:(lia)).
  - exact (Hp 632 216 ltac:(lia) ltac:(lia)).
Defined.

Lemma gprintc_outside_font_witness : gprintc 253 demo_screen = Fault (OutOfRange 253).
Proof. apply (gprintc_outside_font 253 demo_screen). lia. Defined.

Lemma gprintc_overprints_witness : gprintc 10 demo_screen = Done tt (set_cursor 0 24 demo_screen).
Proof. apply (gprintc_overprints demo_screen). reflexivity. Defined.

Lemma fb_putpixel_stores_witness :
  ∃ m', fb_putpixel bga_getFramebuffer 799 599 0x123456 (Ram ∅) = Done tt m' ∧
    rd m' (0xE0000000 + (599 * 3200 + 799 * 4)) = Some 0x56.
Proof.
  destruct (fb_putpixel_stores bga_getFramebuffer 799 599 0x123456 (Ram ∅)) as (_ & _ & m' & E & Hb & _);
    try (cbn; lia).
  exists m'. split; [exact E|exact Hb].
Defined.
