(* ===== verification/OrderedArrays.v ===== *)
(** * Ordered arrays (arch/x86/lib/ordered_array.c)

    An array of words in memory that insertion keeps sorted by a predicate.
    The predicate is a function pointer, called through a parameter. *)

From Stdlib Require Import Sorting.Sorted.
From S2P Require Import Prelude CString Ram.

Record ordered_array_t := OrderedArray { array : Z; size : Z; max_size : Z; less_than : Z }.
Definition set_size n a := OrderedArray (array a) n (max_size a) (less_than a).

Definition standard_lessthan_predicate (a b : Z) : Z := if a <? b then 1 else 0.

Section ops.
(** [call_lt p a b]: what the predicate at [p] answers. *)
Context (call_lt : Z -> Z -> Z -> Z).
(** The memory and the array the pointer argument points to. *)
Local Abbreviation K := (M (ram * ordered_array_t)).

Definition item_at (i : Z) : K Z := a ← gets snd; within (load32 (array a + 4 * i)).
Definition put_item (i v : Z) : K unit := a ← gets snd; within (store32 (array a + 4 * i) v).

(** [placement_kmalloc] is the allocator's. *)
Definition create_ordered_array {S} `{!Has ram S} (placement_kmalloc : Z -> M S Z)
    (max_size less_than : Z) : M S ordered_array_t :=
  p ← placement_kmalloc (u32 (max_size * 4));
  _ ← within (memset p 0 (u32 (max_size * 4)));
  mret (OrderedArray p 0 max_size less_than).
Definition place_ordered_array (addr max_size less_than : Z) : M ram ordered_array_t :=
  _ ← memset addr 0 (u32 (max_size * 4));
  mret (OrderedArray addr 0 max_size less_than).
Definition destroy_ordered_array {S} (free : Z -> M S unit) (a : ordered_array_t) : M S unit := free (array a).

Definition insert_ordered_array (item : Z) : K unit :=
  a ← gets snd;
  if less_than a =? 0 then mret tt
  else
    iterator ← while word_fuel (λ iterator,
      if iterator <? size a then
        v ← item_at iterator;
        mret (if truth (call_lt (less_than a) v item) then inl (u32 (iterator + 1)) else inr iterator)
      else mret (inr iterator)) 0;
    if iterator =? size a then
      put_item (size a) item;; modify (λ s, (fst s, set_size (u32 (size a + 1)) (snd s)))
    else
      tmp ← item_at iterator;
      put_item iterator item;;
      while word_fuel (λ '(iterator, tmp),
        if iterator <? size a then
          let iterator := u32 (iterator + 1) in
          tmp2 ← item_at iterator;
          put_item iterator tmp;;
          mret (inl (iterator, tmp2))
        else mret (inr tt)) (iterator, tmp);;
      modify (λ s, (fst s, set_size (u32 (size a + 1)) (snd s))).

(** The message on a bad index is left out: the code goes on. *)
Definition lookup_ordered_array (i : Z) : K Z := item_at i.

Definition remove_ordered_array (i : Z) : K unit :=
  a ← gets snd;
  while word_fuel (λ i,
    if i <? size a then
      v ← item_at (u32 (i + 1)); put_item i v;; mret (inl (u32 (i + 1)))
    else mret (inr tt)) i;;
  modify (λ s, (fst s, set_size (u32 (size a - 1)) (snd s))).
End ops.

(** ** Contents *)

(** The words of memory from [p] on. *)
Definition words_at (m : ram) (p : Z) (l : list Z) : Prop :=
  ∀ i x, l !! i = Some x -> word m (p + 4 * Z.of_nat i) = x.
Definition words (l : list Z) : Prop := Forall (λ x, 0 <= x < 2 ^ 32) l.
Definition fits (p : Z) (n : nat) : Prop := 0 <= p ∧ p + 4 * Z.of_nat n <= 2 ^ 32.
Definition same_outside (p : Z) (n : nat) (m m' : ram) : Prop :=
  ∀ a, 0 <= a < 2 ^ 32 -> ¬ (p <= a < p + 4 * Z.of_nat n) -> rd m' a = rd m a.

Section memory.
Implicit Types m : ram.

Lemma item_at_done m a i : item_at i (m, a) = Done (word m (array a + 4 * i)) (m, a).
Proof. done. Qed.
Lemma put_item_done m a i v : put_item i v (m, a) = Done tt (set_word (array a + 4 * i) v m, a).
Proof. done. Qed.

Lemma rd_set_word_out a v m b : 0 <= a -> a + 4 <= 2 ^ 32 -> ¬ (a <= b < a + 4) -> rd (set_word a v m) b = rd m b.
Proof. intros. unfold set_word. by rewrite !rd_set_byte by lia. Qed.

Lemma words_at_set m p l i v n :
  words_at m p l -> fits p n -> (length l <= n)%nat -> (i < n)%nat -> 0 <= v < 2 ^ 32 ->
  words_at (set_word (p + 4 * Z.of_nat i) v m) p (<[i := v]> l).
Proof.
  intros Hl [Hp Hn] Hlen Hi Hv j x Hj. destruct (decide (i = j)) as [<-|Hne].
  - rewrite word_set_eq, u32_small by done. apply list_lookup_insert_Some in Hj as [(_ & -> & _)|(? & _)]; done.
  - rewrite list_lookup_insert_ne in Hj by done. pose proof (lookup_lt_Some _ _ _ Hj).
    rewrite word_set_ne by lia. by apply Hl.
Qed.
End memory.

(** ** Insertion *)

Section insertion.
Context (lt : Z -> Z -> bool).

Fixpoint insert_pos (x : Z) (l : list Z) : nat :=
  match l with [] => 0 | y :: l' => if lt y x then S (insert_pos x l') else 0 end.
Fixpoint ins (x : Z) (l : list Z) : list Z :=
  match l with [] => [x] | y :: l' => if lt y x then y :: ins x l' else x :: y :: l' end.

Lemma insert_pos_le x l : (insert_pos x l <= length l)%nat.
Proof. induction l as [|y l IH]; cbn; [lia|]. destruct (lt y x); cbn; lia. Qed.

Lemma ins_take x l : ins x l = take (insert_pos x l) l ++ x :: drop (insert_pos x l) l.
Proof. induction l as [|y l IH]; [done|]. cbn. destruct (lt y x); [|done]. cbn. by rewrite IH. Qed.

Lemma insert_pos_before x l i y : (i < insert_pos x l)%nat -> l !! i = Some y -> lt y x = true.
Proof.
  revert i. induction l as [|z l IH]; intros i Hi Hy; [done|]. cbn in Hi.
  destruct (lt z x) eqn:E; [|lia]. destruct i as [|i]; [by injection Hy as <-|]. apply (IH i); [lia|done].
Qed.

Lemma insert_pos_at x l y : l !! insert_pos x l = Some y -> lt y x = false.
Proof. induction l as [|z l IH]; [done|]. cbn. destruct (lt z x) eqn:E; [apply IH|by intros [= <-]]. Qed.

Lemma ins_perm x l : ins x l ≡ₚ x :: l.
Proof. induction l as [|y l IH]; [done|]. cbn. destruct (lt y x); [|done]. rewrite IH. apply Permutation_swap. Qed.

Lemma length_ins x l : length (ins x l) = S (length l).
Proof. by rewrite ins_perm. Qed.

(** From the insertion point on, the elements move up by one. *)
Lemma ins_after x l i y : (insert_pos x l <= i)%nat -> l !! i = Some y -> ins x l !! S i = Some y.
Proof.
  intros Hi Hy. rewrite ins_take. pose proof (insert_pos_le x l).
  rewrite lookup_app_r by (rewrite length_take; lia). rewrite length_take_le by lia.
  replace (S i - insert_pos x l)%nat with (S (i - insert_pos x l)) by lia.
  change (drop (insert_pos x l) l !! (i - insert_pos x l)%nat = Some y). rewrite lookup_drop. by replace (insert_pos x l + (i - insert_pos x l))%nat with i by lia.
Qed.
End insertion.

Lemma ins_sorted x l : Sorted Z.le l -> Sorted Z.le (ins Z.ltb x l).
Proof.
  induction 1 as [|y l Hs IH Hh]; cbn; [by repeat constructor|]. destruct (Z.ltb_spec y x).
  - constructor; [done|]. destruct l as [|z l]; cbn in *; [constructor; lia|].
    destruct (z <? x); constructor; [by inversion Hh|lia].
  - constructor; [by constructor|]. constructor. lia.
Qed.

Section insert.
Context (call_lt : Z -> Z -> Z -> Z).
Implicit Types (m : ram) (a : ordered_array_t) (l : list Z).

(** The array at [a] holds [l] and its block has room for [n] words. *)
Record holds m a l n : Prop := {
  h_size : size a = Z.of_nat (length l);
  h_words : words_at m (array a) l;
  h_range : words l;
  h_fits : fits (array a) n;
  h_room : (length l <= n)%nat;
  h_fun : less_than a ≠ 0
}.

Definition lt_of a (x y : Z) : bool := truth (call_lt (less_than a) x y).

Lemma scan_runs m a l n x i :
  holds m a l n -> (i <= insert_pos (lt_of a) x l)%nat ->
  runs (λ iterator,
      if iterator <? size a then
        v ← item_at iterator;
        mret (if truth (call_lt (less_than a) v x) then inl (u32 (iterator + 1)) else inr iterator)
      else mret (inr iterator))
    (S (insert_pos (lt_of a) x l - i)) (Z.of_nat i) (m, a) (Z.of_nat (insert_pos (lt_of a) x l)) (m, a).
Proof.
  intros [Hsz Hw _ [Hp Hn] Hr _] Hi. pose proof (insert_pos_le (lt_of a) x l) as Hle.
  set (k := insert_pos (lt_of a) x l) in *. remember (k - i)%nat as d eqn:Hd.
  revert i Hi Hd. induction d as [|d IH]; intros i Hi Hd.
  - assert (i = k) as -> by lia. apply runs_end. destruct (Z.ltb_spec (Z.of_nat k) (size a)) as [Hk|Hk]; [|done].
    destruct (lookup_lt_is_Some_2 l k ltac:(lia)) as (y & Hy).
    rewrite (bind_Done _ _ _ _ _ (item_at_done _ _ _)), (Hw _ _ Hy).
    by rewrite (insert_pos_at (lt_of a) x l y Hy : truth _ = false).
  - eapply (runs_step _ _ _ _ (Z.of_nat (S i))); [|apply IH; lia].
    destruct (lookup_lt_is_Some_2 l i ltac:(lia)) as (y & Hy).
    rewrite (proj2 (Z.ltb_lt _ _)) by lia.
    rewrite (bind_Done _ _ _ _ _ (item_at_done _ _ _)), (Hw _ _ Hy).
    rewrite (insert_pos_before (lt_of a) x l i y ltac:(lia) Hy : truth _ = true).
    rewrite u32_small by lia. unfold mret, M_ret. do 2 f_equal. lia.
Qed.

(** The loop that moves the rest up, once the item is in place. *)
Lemma shift_runs a l w x p it tmp m :
  fits p (S (length l)) -> array a = p -> size a = Z.of_nat (length l) ->
  words l ->
  (insert_pos (lt_of a) x l <= it <= length l)%nat -> (l ++ [w]) !! it = Some tmp ->
  words_at m p (take (S it) (ins (lt_of a) x l) ++ drop (S it) (l ++ [w])) ->
  ∃ m', runs (λ '(iterator, tmp),
      if iterator <? size a then
        let iterator := u32 (iterator + 1) in
        tmp2 ← item_at iterator; put_item iterator tmp;; mret (inl (iterator, tmp2))
      else mret (inr tt)) (S (length l - it)) (Z.of_nat it, tmp) (m, a) tt (m', a) ∧
    words_at m' p (ins (lt_of a) x l) ∧ same_outside p (S (length l)) m m'.
Proof.
  intros [Hp Hn] Ha Hsz Hw Hit Htmp Hm. remember (length l - it)%nat as d eqn:Hd.
  revert it tmp m Hit Htmp Hm Hd. induction d as [|d IH]; intros it tmp m Hit Htmp Hm Hd.
  - assert (it = length l) as -> by lia. exists m. split; [|split; [|by intros b]].
    + apply runs_end. by rewrite (proj2 (Z.ltb_ge _ _)) by lia.
    + rewrite drop_ge, app_nil_r, take_ge in Hm by (rewrite ?length_app, ?length_ins; cbn; lia). exact Hm.
  - set (r := ins (lt_of a) x l) in *.
    assert (Hr : r !! S it = Some tmp).
    { apply ins_after; [lia|]. rewrite lookup_app_l in Htmp by lia. exact Htmp. }
    assert (Hrl : length r = S (length l)) by apply length_ins.
    destruct (lookup_lt_is_Some_2 (l ++ [w]) (S it) ltac:(rewrite length_app; cbn; lia)) as (tmp2 & Htmp2).
    assert (0 <= tmp < 2 ^ 32) as Htr.
    { unfold words in Hw. rewrite Forall_lookup in Hw. rewrite lookup_app_l in Htmp by lia. by apply (Hw it). }
    assert (Hnext : <[S it := tmp]> (take (S it) r ++ drop (S it) (l ++ [w]))
      = take (S (S it)) r ++ drop (S (S it)) (l ++ [w])).
    { rewrite insert_app_r_alt by (rewrite length_take; lia). rewrite length_take_le, Nat.sub_diag by lia.
      rewrite (drop_S _ _ _ Htmp2). cbn. rewrite (take_S_r _ _ _ Hr), <- app_assoc. done. }
    assert (Hread : word m (p + 4 * Z.of_nat (S it)) = tmp2).
    { apply Hm. rewrite lookup_app_r by (rewrite length_take; lia). rewrite length_take_le by lia.
      rewrite Nat.sub_diag, lookup_drop, Nat.add_0_r. exact Htmp2. }
    destruct (IH (S it) tmp2 (set_word (p + 4 * Z.of_nat (S it)) tmp m)) as (m' & E & Hm' & Hf).
    + lia.
    + exact Htmp2.
    + rewrite <- Hnext. apply (words_at_set m p _ (S it) tmp (S (length l))); [exact Hm|by split| |lia|done].
      rewrite length_app, length_take, length_drop, length_app. change (length [w]) with 1%nat. lia.
    + lia.
    + exists m'. split; [|split; [exact Hm'|]].
      * eapply (runs_step _ _ _ _ (Z.of_nat (S it), tmp2)); [|exact E].
        rewrite (proj2 (Z.ltb_lt _ _)) by lia. cbn zeta. rewrite u32_small by lia.
        replace (Z.of_nat it + 1) with (Z.of_nat (S it)) by lia.
        rewrite (bind_Done _ _ _ _ _ (item_at_done _ _ _)), Ha, Hread.
        by rewrite (bind_Done _ _ _ _ _ (put_item_done _ _ _ _)), Ha.
      * intros b Hb Hout. rewrite Hf by done. apply rd_set_word_out; lia.
Qed.
End insert.

Section array_properties.
Context (call_lt : Z -> Z -> Z -> Z).
Implicit Types (m : ram) (a : ordered_array_t) (l : list Z).

Lemma insert_array_spec m a l n x :
  holds m a l n -> (length l < n)%nat -> 0 <= x < 2 ^ 32 ->
  ∃ m', insert_ordered_array call_lt x (m, a)
      = Done tt (m', set_size (u32 (size a + 1)) a) ∧
    words_at m' (array a) (ins (lt_of call_lt a) x l) ∧ same_outside (array a) (S (length l)) m m'.
Proof.
  intros Hh Hroom Hx. pose proof (scan_runs call_lt m a l n x 0 Hh ltac:(lia)) as Hscan.
  destruct Hh as [Hsz Hw Hrange [Hp Hn] Hlen Hfun].
  pose proof (insert_pos_le (lt_of call_lt a) x l) as Hk.
  set (k := insert_pos (lt_of call_lt a) x l) in *.
  unfold insert_ordered_array. mrun. cbn [snd]. rewrite (proj2 (Z.eqb_neq _ 0)) by done.
  pose proof word_fuel_Z as Hfuel.
  mstep (runs_while _ _ word_fuel _ _ _ _ Hscan ltac:(lia)). clear Hscan.
  destruct (Z.eqb_spec (Z.of_nat k) (size a)) as [He|Hne].
  - assert (ins (lt_of call_lt a) x l = l ++ [x]) as ->.
    { rewrite ins_take. fold k. replace k with (length l) by lia. by rewrite firstn_all, drop_ge by lia. }
    rewrite Hsz. exists (set_word (array a + 4 * Z.of_nat (length l)) x m). split; [reflexivity|]. split.
    + intros i y Hi. destruct (decide (i = length l)) as [->|Hne].
      * rewrite lookup_app_r, Nat.sub_diag in Hi by lia. injection Hi as <-. by rewrite word_set_eq, u32_small.
      * assert (i < length l)%nat by (apply lookup_lt_Some in Hi; rewrite length_app in Hi; cbn in Hi; lia).
        rewrite lookup_app_l in Hi by lia. rewrite word_set_ne by lia. by apply Hw.
    + intros b Hb Hout. apply rd_set_word_out; lia.
  - destruct (lookup_lt_is_Some_2 l k ltac:(lia)) as (tmp & Htmp).
    rewrite (bind_Done _ _ _ _ _ (item_at_done _ _ _)), (Hw _ _ Htmp).
    rewrite (bind_Done _ _ _ _ _ (put_item_done _ _ _ _)).
    set (m1 := set_word (array a + 4 * Z.of_nat k) x m).
    set (w := word m (array a + 4 * Z.of_nat (length l))).
    assert (Hlw : words_at m (array a) (l ++ [w])).
    { intros i y Hi. apply lookup_app_Some in Hi as [Hi|[Hge Hi]]; [by apply Hw|].
      assert (i = length l) as ->.
      { apply lookup_lt_Some in Hi. cbn in Hi. lia. }
      rewrite Nat.sub_diag in Hi. by injection Hi as <-. }
    assert (Htake : take (S k) (ins (lt_of call_lt a) x l) ++ drop (S k) (l ++ [w]) = <[k := x]> (l ++ [w])).
    { rewrite insert_take_drop by (rewrite length_app; cbn; lia). rewrite ins_take. fold k.
      rewrite (take_app_le l) by lia. rewrite (take_app_ge (take k l)) by (rewrite length_take; lia).
      rewrite length_take_le by lia. replace (S k - k)%nat with 1%nat by lia. cbn [take].
      by rewrite <- app_assoc. }
    destruct (shift_runs call_lt a l w x (array a) k tmp m1) as (m' & E & Hm' & Hf).
    + split; [exact Hp|lia].
    + reflexivity.
    + exact Hsz.
    + exact Hrange.
    + fold k. lia.
    + rewrite lookup_app_l by lia. exact Htmp.
    + rewrite Htake. apply (words_at_set m _ _ k x (S (length l))); [exact Hlw|split; [exact Hp|lia]| |lia|exact Hx].
      rewrite length_app. cbn. lia.
    + exists m'. split; [|split; [exact Hm'|]].
      * mstep (runs_while _ _ word_fuel _ _ _ _ E ltac:(lia)). reflexivity.
      * intros b Hb Hout. rewrite Hf by done. apply rd_set_word_out; lia.
Qed.

(** C30: Inserting a word into a sorted array with the standard predicate and
    room in its block leaves the array sorted, holding the word and what it
    held, and changes no byte outside the words the array now has. *)
Theorem insert_keeps_sorted m a l n x
    (Hlt : ∀ y z, call_lt (less_than a) y z = standard_lessthan_predicate y z)
    (Hh : holds m a l n) (Hroom : (length l < n)%nat) (Hx : 0 <= x < 2 ^ 32) (Hs : Sorted Z.le l) :
  ∃ m' a' l', insert_ordered_array call_lt x (m, a) = Done tt (m', a') ∧ holds m' a' l' n ∧
    Sorted Z.le l' ∧ l' ≡ₚ x :: l ∧ same_outside (array a) (length l') m m'.
Proof.
  destruct (insert_array_spec m a l n x Hh Hroom Hx) as (m' & E & Hw & Hf).
  assert (ins (lt_of call_lt a) x l = ins Z.ltb x l) as Hins.
  { clear -Hlt. induction l as [|y l IH]; [done|]. cbn. rewrite IH. unfold lt_of at 1. rewrite Hlt.
    unfold standard_lessthan_predicate. by destruct (y <? x). }
  exists m', (set_size (u32 (size a + 1)) a), (ins Z.ltb x l). split; [exact E|]. clear E.
  rewrite Hins in Hw. destruct Hh as [Hsz _ Hrange [Hp Hn] Hlen Hfun].
  pose proof (ins_perm Z.ltb x l) as Hperm.
  split; [|split; [by apply ins_sorted|split; [exact Hperm|by rewrite length_ins]]].
  split; cbn [size array less_than set_size]; rewrite ?length_ins; try done.
  - rewrite u32_small; lia.
  - unfold words. rewrite Hperm. by constructor.
Qed.

(** The bound is not checked: with the array full the insertion writes
    the word behind its block. *)
Theorem insert_overflows m a l n x
    (Hh : holds m a l n) (Hfull : max_size a = Z.of_nat (length l)) (Hroom : (length l < n)%nat)
    (Hx : 0 <= x < 2 ^ 32) (Hlast : ∀ y, y ∈ l -> lt_of call_lt a y x = true) :
  ∃ m' a', insert_ordered_array call_lt x (m, a) = Done tt (m', a') ∧
    size a' = max_size a + 1 ∧ word m' (array a + 4 * max_size a) = x.
Proof.
  destruct (insert_array_spec m a l n x Hh Hroom Hx) as (m' & E & Hw & Hf).
  exists m', (set_size (u32 (size a + 1)) a). split; [exact E|]. clear E.
  destruct Hh as [Hsz _ _ [Hp Hn] _ _]. rewrite Hfull. split; [cbn; rewrite u32_small; lia|].
  apply Hw. assert (ins (lt_of call_lt a) x l = l ++ [x]) as ->.
  { clear -Hlast. induction l as [|y l IH]; [done|]. cbn.
    rewrite Hlast by apply list_elem_of_here. by rewrite IH by (intros; apply Hlast; by apply list_elem_of_further). }
  by rewrite lookup_app_r, Nat.sub_diag by lia.
Qed.

Lemma delete_next (l : list Z) i j : (i <= j)%nat -> delete i l !! j = l !! S j.
Proof. intros. by rewrite list_lookup_delete_ge. Qed.

(** The loop of [remove_ordered_array], over the words [l] and the one
    behind them. *)
Lemma remove_runs a l w i j m :
  fits (array a) (S (length l)) -> size a = Z.of_nat (length l) -> words l -> 0 <= w < 2 ^ 32 ->
  (i <= j <= length l)%nat ->
  words_at m (array a) (take j (delete i (l ++ [w])) ++ drop j (l ++ [w])) ->
  ∃ m', runs (λ i,
      if i <? size a then v ← item_at (u32 (i + 1)); put_item i v;; mret (inl (u32 (i + 1)))
      else mret (inr tt)) (S (length l - j)) (Z.of_nat j) (m, a) tt (m', a) ∧
    words_at m' (array a) (take (length l) (delete i (l ++ [w]))) ∧
    same_outside (array a) (S (length l)) m m'.
Proof.
  intros [Hp Hn] Hsz Hl Hw Hj Hm. remember (length l - j)%nat as d eqn:Hd.
  assert (Hlen : length (l ++ [w]) = S (length l)) by (rewrite length_app; cbn; lia).
  revert j m Hj Hm Hd. induction d as [|d IH]; intros j m Hj Hm Hd.
  - assert (j = length l) as -> by lia. exists m. split; [|split; [|by intros b]].
    + apply runs_end. by rewrite (proj2 (Z.ltb_ge _ _)) by lia.
    + intros k x Hk. apply Hm. by apply lookup_app_l_Some.
  - set (l' := l ++ [w]) in *. set (r := delete i l') in *.
    assert (Hrl : length r = length l) by (unfold r; rewrite length_delete by (apply lookup_lt_is_Some; lia); lia).
    destruct (lookup_lt_is_Some_2 l' (S j) ltac:(lia)) as (v & Hv).
    assert (Hr : r !! j = Some v) by (unfold r; rewrite delete_next by lia; exact Hv).
    destruct (lookup_lt_is_Some_2 l' j ltac:(lia)) as (old & Hold).
    assert (0 <= v < 2 ^ 32) as Hvr.
    { assert (words l') as Hl' by (apply Forall_app; split; [exact Hl|by constructor]).
      unfold words in Hl'. rewrite Forall_lookup in Hl'. by apply (Hl' (S j)). }
    assert (Hread : word m (array a + 4 * Z.of_nat (S j)) = v).
    { apply Hm. rewrite lookup_app_r by (rewrite length_take; lia). rewrite length_take_le by lia.
      rewrite lookup_drop. by replace (j + (S j - j))%nat with (S j) by lia. }
    assert (Hnext : <[j := v]> (take j r ++ drop j l') = take (S j) r ++ drop (S j) l').
    { rewrite insert_app_r_alt by (rewrite length_take; lia). rewrite length_take_le, Nat.sub_diag by lia.
      rewrite (drop_S _ _ _ Hold). cbn [insert list_insert]. by rewrite (take_S_r _ _ _ Hr), <- app_assoc. }
    destruct (IH (S j) (set_word (array a + 4 * Z.of_nat j) v m)) as (m' & E & Hm' & Hf); [lia| |lia|].
    + rewrite <- Hnext. apply (words_at_set m _ _ j v (S (length l))); [exact Hm|by split| |lia|exact Hvr].
      rewrite length_app, length_take, length_drop. lia.
    + exists m'. split; [|split; [exact Hm'|]].
      * eapply (runs_step _ _ _ _ (Z.of_nat (S j))); [|exact E].
        rewrite (proj2 (Z.ltb_lt _ _)) by lia. rewrite u32_small by lia.
        replace (Z.of_nat j + 1) with (Z.of_nat (S j)) by lia.
        rewrite (bind_Done _ _ _ _ _ (item_at_done _ _ _)), Hread.
        by rewrite (bind_Done _ _ _ _ _ (put_item_done _ _ _ _)).
      * intros b Hb Hout. rewrite Hf by done. apply rd_set_word_out; lia.
Qed.

(** Removal takes the element at the index out and keeps the others in
    order; an index outside the array takes the last element instead, and
    an empty array then claims to hold 2^32 - 1 elements. *)
Theorem remove_deletes m a l n i
    (Hram : ram_ok m) (Hh : holds m a l n) (Hroom : (length l < n)%nat) (Hi : 0 <= i < 2 ^ 32) :
  (i < Z.of_nat (length l) ->
   ∃ m' a', remove_ordered_array i (m, a) = Done tt (m', a') ∧ holds m' a' (delete (Z.to_nat i) l) n) ∧
  (Z.of_nat (length l) <= i -> l ≠ [] ->
   ∃ a', remove_ordered_array i (m, a) = Done tt (m, a') ∧ holds m a' (removelast l) n) ∧
  (Z.of_nat (length l) <= i -> l = [] ->
   ∃ a', remove_ordered_array i (m, a) = Done tt (m, a') ∧ size a' = 2 ^ 32 - 1).
Proof.
  destruct Hh as [Hsz Hw Hrange [Hp Hn] Hlen Hfun].
  assert (Hend : Z.of_nat (length l) <= i ->
    remove_ordered_array i (m, a) = Done tt (m, set_size (u32 (size a - 1)) a)).
  { intros Hge. unfold remove_ordered_array. mrun. cbn [snd].
    rewrite (bind_Done _ _ _ tt (m, a)); [reflexivity|].
    apply (runs_while _ 1); [|lia]. apply runs_end. by rewrite (proj2 (Z.ltb_ge _ _)) by lia. }
  split; [|split].
  - intros Hlt. set (w := word m (array a + 4 * Z.of_nat (length l))).
    assert (Hlw : words_at m (array a) (l ++ [w])).
    { intros j y Hj. apply lookup_app_Some in Hj as [Hj|[Hge Hj]]; [by apply Hw|].
      assert (j = length l) as -> by (apply lookup_lt_Some in Hj; cbn in Hj; lia).
      rewrite Nat.sub_diag in Hj. by injection Hj as <-. }
    destruct (remove_runs a l w (Z.to_nat i) (Z.to_nat i) m) as (m' & E & Hm' & _).
    + split; [exact Hp|lia].
    + exact Hsz.
    + exact Hrange.
    + by apply word_range.
    + lia.
    + rewrite delete_take_drop, take_app_le, take_take, Nat.min_id by (rewrite length_take, length_app; lia).
      by rewrite take_drop.
    + pose proof word_fuel_Z as Hfuel. rewrite Z2Nat.id in E by lia.
      exists m', (set_size (u32 (size a - 1)) a). split.
      { unfold remove_ordered_array. mrun. cbn [snd].
        by rewrite (bind_Done _ _ _ _ _ (runs_while _ _ word_fuel _ _ _ _ E ltac:(lia))). }
      clear E. set (k := Z.to_nat i) in *. assert (Hk : (k < length l)%nat) by (unfold k; lia).
      assert (delete k (l ++ [w]) = delete k l ++ [w]) as Hd.
      { rewrite !delete_take_drop, take_app_le, drop_app_le, app_assoc by lia. done. }
      assert (length (delete k l) = (length l - 1)%nat) as Hdl.
      { rewrite length_delete by (by apply lookup_lt_is_Some). lia. }
      split; cbn [size array less_than set_size]; rewrite ?Hdl; [rewrite u32_small; lia| | |by split|lia|done].
      * intros j y Hj. pose proof (lookup_lt_Some _ _ _ Hj). apply Hm'.
        rewrite Hd, lookup_take_lt by lia. by rewrite lookup_app_l by lia.
      * unfold words in *. rewrite delete_take_drop. apply Forall_app. split; [by apply Forall_take|by apply Forall_drop].
  - intros Hge Hne. exists (set_size (u32 (size a - 1)) a). split; [by apply Hend|].
    destruct (exists_last Hne) as (l' & x & ->). rewrite removelast_last. rewrite length_app in *. cbn [length] in *.
    split; cbn [size array less_than set_size]; [rewrite u32_small; lia| | |by split|lia|done].
    + intros j y Hj. apply Hw. by apply lookup_app_l_Some.
    + by apply Forall_app in Hrange as [? _].
  - intros Hge ->. exists (set_size (u32 (size a - 1)) a). split; [by apply Hend|]. cbn. by rewrite Hsz.
Qed.
End array_properties.

(** ** An array to run it on *)

Definition demo_array : ordered_array_t := OrderedArray 0x1000 3 4 0x500.
Definition demo_ram : ram := set_word 0x1000 10 (set_word 0x1004 20 (set_word 0x1008 30 (Ram ∅))).

Lemma demo_holds n : (3 <= n <= 100)%nat -> holds demo_ram demo_array [10; 20; 30] n.
Proof.
  intros Hn. split; [done| | |split; cbn; lia|cbn; lia|done].
  - intros [|[|[|i]]] x Hi; try (injection Hi as <-; by vm_compute). done.
  - repeat constructor; lia.
Qed.

Lemma insert_keeps_sorted_witness :
  ∃ m' a' l', insert_ordered_array (λ _, standard_lessthan_predicate) 15 (demo_ram, demo_array) = Done tt (m', a') ∧
    holds m' a' l' 4 ∧ Sorted Z.le l' ∧ l' ≡ₚ [15; 10; 20; 30] ∧ same_outside 0x1000 (length l') demo_ram m'.
Proof.
  apply (insert_keeps_sorted (λ _, standard_lessthan_predicate) demo_ram demo_array [10; 20; 30] 4 15).
  - done.
  - apply demo_holds. lia.
  - cbn. lia.
  - lia.
  - repeat constructor; lia.
Defined.

Lemma insert_overflows_witness :
  ∃ m' a', insert_ordered_array (λ _, standard_lessthan_predicate) 40 (demo_ram, OrderedArray 0x1000 3 3 0x500)
      = Done tt (m', a') ∧ size a' = 4 ∧ word m' 0x100C = 40.
Proof.
  apply (insert_overflows (λ _, standard_lessthan_predicate) demo_ram (OrderedArray 0x1000 3 3 0x500) [10; 20; 30] 4 40).
  - destruct (demo_holds 4 ltac:(lia)). by split.
  - done.
  - cbn. lia.
  - lia.
  - intros y Hy. rewrite !elem_of_cons, elem_of_nil in Hy. destruct Hy as [->|[->|[->|[]]]]; reflexivity.
Defined.

Lemma remove_deletes_witness :
  ∃ m' a', remove_ordered_array 1 (demo_ram, demo_array) = Done tt (m', a') ∧ holds m' a' [10; 30] 4.
Proof.
  destruct (remove_deletes demo_ram demo_array [10; 20; 30] 4 1) as [H _].
  - unfold demo_ram. repeat apply set_word_ok. intros b. unfold byte. cbn [ram_bytes]. rewrite lookup_empty. cbn. lia.
  - apply demo_holds. lia.
  - cbn. lia.
  - lia.
  - apply H. cbn. lia.
Defined.
