(* ===== verification/Threads.v ===== *)
(** * Threads (thread.c)

    The descriptor and the first stack frame of a thread, in raw memory, over
    any allocator. Log messages are left out; [thread_switch] is assembly. *)

From S2P Require Import Prelude CString Ram.

(** Offsets in [thread_t]; [level] is a byte, the others words. *)
Definition th_esp : Z := 0.
Definition th_ebp : Z := 4.
Definition th_eflags : Z := 20.
Definition th_tid : Z := 24.
Definition th_level : Z := 28.
Definition th_owner_pid : Z := 32.
Definition th_stack : Z := 36.
Definition sizeof_thread_t : Z := 48.
Definition THREAD_STACKSIZE : Z := 0x1000.

(** Memory, the allocator's state, the static variables. *)
Record threads (H : Type) := Threads {
  th_mem : ram; th_heap : H; thread_id : Z; current_thread : Z
}.
Arguments Threads {H}. Arguments th_mem {H}. Arguments th_heap {H}. Arguments thread_id {H}.
Arguments current_thread {H}.

Section threads.
Context {H : Type} (malloc : Z -> M H Z).
(** [&thread_exit] *)
Context (thread_exit_ptr : Z).
Implicit Types s : threads H.

#[export] Program Instance threads_mem : Has ram (threads H) := {
  part := th_mem; set_part m s := Threads m (th_heap s) (thread_id s) (current_thread s) }.
Solve All Obligations with (by repeat intros []).
Definition set_heap (h : H) s : threads H := Threads (th_mem s) h (thread_id s) (current_thread s).
Definition th_malloc (n : Z) : M (threads H) Z := zoom th_heap set_heap (malloc n).

(** [*--stack_ptr = v] *)
Definition push (sp v : Z) : M (threads H) Z :=
  let sp := u32 (sp - 4) in within (store32 sp v);; mret sp.

Definition thread_create (level pid fn : Z) : M (threads H) Z :=
  thread ← th_malloc sizeof_thread_t;
  _ ← within (memset thread 0 sizeof_thread_t);
  s ← get;
  within (store32 (thread + th_tid) (thread_id s));;
  modify (λ s, Threads (th_mem s) (th_heap s) (u32 (thread_id s + 1)) (current_thread s));;
  within (store8 (thread + th_level) level);;
  within (store32 (thread + th_owner_pid) pid);;
  stack ← th_malloc THREAD_STACKSIZE;
  within (store32 (thread + th_stack) stack);;
  stack ← within (load32 (thread + th_stack));
  _ ← within (memset stack 0 THREAD_STACKSIZE);
  stack ← within (load32 (thread + th_stack));
  (* [stack] points to words *)
  let stack_ptr := u32 (stack + 4 * 0x500) in
  stack_ptr ← push stack_ptr thread_exit_ptr;
  stack_ptr ← push stack_ptr fn;
  stack_ptr ← push stack_ptr 0;
  within (store32 (thread + th_ebp) stack_ptr);;
  within (store32 (thread + th_esp) stack_ptr);;
  within (store32 (thread + th_eflags) 0x200);;
  mret thread.

Definition threading_start : M (threads H) Z :=
  thread ← th_malloc sizeof_thread_t;
  s ← get;
  within (store32 (thread + th_tid) (thread_id s));;
  modify (λ s, Threads (th_mem s) (th_heap s) (u32 (thread_id s + 1)) thread);;
  mret thread.

(** The loop after the call of the scheduler has no exit. *)
Definition thread_exit (scheduler_update : M (threads H) unit) : M (threads H) unit :=
  scheduler_update;; while word_fuel (λ _, mret (inl tt)) tt.
End threads.

(** ** Writes by range *)

Section ranges.
Implicit Types m : ram.

(** [m'] differs from [m] in [[a, a + n)] only. *)
Definition only_in (a n : Z) m m' : Prop := ∀ b, ¬ (a <= b < a + n) -> rd m' b = rd m b.

Lemma only_in_word a n m m' b :
  only_in a n m m' -> 0 <= b -> b + 4 <= 2 ^ 32 -> b + 4 <= a ∨ a + n <= b -> word m' b = word m b.
Proof. intros Hm ? ? Hd. apply word_eq; [done|done|]. intros c Hc. apply Hm. lia. Qed.

Lemma store32_only a v m : 0 <= a -> a + 4 <= 2 ^ 32 -> only_in a 4 m (set_word a v m).
Proof. intros ? ? b Hb. unfold set_word. by rewrite !rd_set_byte by lia. Qed.

Lemma memset_ram a v n m :
  0 <= n -> 0 <= a -> a + n <= 2 ^ 32 -> ∃ m', memset a v n m = Done a m' ∧ only_in a n m m'.
Proof.
  intros Hn Ha Hend. unfold memset.
  assert (Hdiv : n = 4 * (n / 4) + n mod 4) by (apply Z.div_mod; lia).
  pose proof (Z.mod_pos_bound n 4 ltac:(lia)). pose proof (Z.div_pos n 4 ltac:(lia) ltac:(lia)).
  set (q := n / 4) in *. set (r := n mod 4) in *.
  destruct (for_up_inv (λ _, only_in a n m) (Z.to_nat q) 0 (λ i, store32 (a + 4 * i) (memset_word v)) m)
    as (m1 & E1 & H1); [|by intros b|].
  { intros i d Hi Hd. eexists. split; [apply store32_word|]. intros b Hb.
    rewrite (store32_only (a + 4 * i)) by lia. by apply Hd. }
  destruct (for_up_inv (λ _, only_in a n m) (Z.to_nat r) 0 (λ i, store8 (a + q * 4 + i) (u8 v)) m1)
    as (m2 & E2 & H2); [|exact H1|].
  { intros i d Hi Hd. exists (set_byte (a + q * 4 + i) (u8 v) d). split; [done|]. intros b Hb.
    rewrite rd_set_byte by lia. by apply Hd. }
  exists m2. mstep E1. by mstep E2.
Qed.
End ranges.

Section creation.
Context {H : Type} (malloc : Z -> M H Z) (thread_exit_ptr : Z).
Implicit Types (s : threads H) (m : ram).

Local Abbreviation T := (Threads (H := H)).

Lemma th_within {A} (k : M ram A) m h i c a m' :
  k m = Done a m' -> within k (T m h i c) = Done a (T m' h i c).
Proof. exact (within_done (T := ram) k (T m h i c) a m'). Qed.

Lemma th_store a v m h i c : within (store32 a v) (T m h i c) = Done tt (T (set_word a v m) h i c).
Proof. apply th_within, store32_word. Qed.

Lemma th_store8 a v m h i c : within (store8 a v) (T m h i c) = Done tt (T (set_byte a v m) h i c).
Proof. by apply th_within. Qed.

Lemma th_load a m h i c : within (load32 a) (T m h i c) = Done (word m a) (T m h i c).
Proof. apply th_within, load32_word. Qed.

Lemma push_done sp v m h i c :
  4 <= sp < 2 ^ 32 -> push sp v (T m h i c) = Done (sp - 4) (T (set_word (sp - 4) v m) h i c).
Proof. intros ?. unfold push. rewrite u32_small by lia. by rewrite (bind_Done _ _ _ _ _ (th_store _ _ _ _ _ _)). Qed.

Lemma th_malloc_done n m h i c p h' :
  malloc n h = Done p h' -> th_malloc malloc n (T m h i c) = Done p (T m h' i c).
Proof. exact (zoom_done th_heap set_heap (malloc n) (T m h i c) p h'). Qed.

(** The memory a creation ends with, from the memory [m5] with the stack
    cleared. *)
Definition frame_mem (t sp fn : Z) (m5 : ram) : ram :=
  set_word (t + th_eflags) 0x200 (set_word (t + th_esp) sp (set_word (t + th_ebp) sp
    (set_word sp 0 (set_word (sp + 4) fn (set_word (sp + 8) thread_exit_ptr m5))))).

(** The descriptor before its stack is there. *)
Definition described (t level pid tid st : Z) (m1 : ram) : ram :=
  set_word (t + th_stack) st (set_word (t + th_owner_pid) pid
    (set_byte (t + th_level) level (set_word (t + th_tid) tid m1))).

(** Where the two blocks lie. *)
Record blocks (t st : Z) : Prop := {
  bl_thread : 0 <= t ∧ t + sizeof_thread_t <= 2 ^ 32;
  bl_stack : 0 <= st ∧ st + 4 * 0x500 < 2 ^ 32;
  bl_apart : t + sizeof_thread_t <= st ∨ st + 4 * 0x500 <= t
}.

Lemma thread_create_done level pid fn s t st h1 h2 :
  malloc sizeof_thread_t (th_heap s) = Done t h1 -> malloc THREAD_STACKSIZE h1 = Done st h2 ->
  blocks t st ->
  ∃ m1 m5, only_in t sizeof_thread_t (th_mem s) m1 ∧
    only_in st THREAD_STACKSIZE (described t level pid (thread_id s) st m1) m5 ∧
    thread_create malloc thread_exit_ptr level pid fn s
    = Done t (Threads (frame_mem t (st + 0x13F4) fn m5) h2 (u32 (thread_id s + 1)) (current_thread s)).
Proof.
  intros E1 E2 [[Ht Ht'] [Hst Hst'] Hd]. unfold sizeof_thread_t, THREAD_STACKSIZE in *.
  destruct (memset_ram t 0 48 (th_mem s)) as (m1 & Em1 & Hm1); [lia|lia|lia|].
  destruct (memset_ram st 0 0x1000 (described t level pid (thread_id s) st m1)) as (m5 & Em5 & Hm5); [lia|lia|lia|].
  exists m1, m5. split; [exact Hm1|]. split; [exact Hm5|].
  assert (Hstk : word (described t level pid (thread_id s) st m1) (t + th_stack) = st).
  { unfold described. by rewrite word_set_eq, u32_small by lia. }
  assert (Hstk5 : word m5 (t + th_stack) = st).
  { rewrite <- Hstk. eapply only_in_word; [exact Hm5|unfold th_stack; lia..]. }
  destruct s as [m h i c]. cbn [th_mem th_heap thread_id current_thread] in *. unfold thread_create.
  rewrite (bind_Done _ _ _ _ _ (th_malloc_done _ _ _ _ _ _ _ E1)).
  rewrite (bind_Done _ _ _ _ _ (th_within (memset t 0 48) _ _ _ _ _ _ Em1)). clear Em1. mrun. cbn [thread_id].
  rewrite (bind_Done _ _ _ _ _ (th_store _ _ _ _ _ _)). mrun. cbn [th_mem th_heap thread_id current_thread].
  rewrite (bind_Done _ _ _ _ _ (th_store8 _ _ _ _ _ _)), (bind_Done _ _ _ _ _ (th_store _ _ _ _ _ _)).
  rewrite (bind_Done _ _ _ _ _ (th_malloc_done _ _ _ _ _ _ _ E2)).
  rewrite (bind_Done _ _ _ _ _ (th_store _ _ _ _ _ _)). fold (described t level pid i st m1).
  rewrite (bind_Done _ _ _ _ _ (th_load _ _ _ _ _)), Hstk.
  rewrite (bind_Done _ _ _ _ _ (th_within (memset st 0 0x1000) _ _ _ _ _ _ Em5)). clear Em5.
  rewrite (bind_Done _ _ _ _ _ (th_load _ _ _ _ _)), Hstk5.
  cbn zeta. rewrite (u32_small (st + 4 * 0x500)) by lia.
  rewrite (bind_Done _ _ _ _ _ (push_done (st + 4 * 0x500) _ _ _ _ _ ltac:(lia))).
  rewrite (bind_Done _ _ _ _ _ (push_done (st + 4 * 0x500 - 4) _ _ _ _ _ ltac:(lia))).
  rewrite (bind_Done _ _ _ _ _ (push_done (st + 4 * 0x500 - 4 - 4) _ _ _ _ _ ltac:(lia))).
  rewrite !(bind_Done _ _ _ _ _ (th_store _ _ _ _ _ _)). unfold frame_mem.
  replace (st + 4 * 0x500 - 4) with (st + 0x13F4 + 8) by lia. replace (st + 0x13F4 + 8 - 4) with (st + 0x13F4 + 4) by lia.
  by replace (st + 0x13F4 + 4 - 4) with (st + 0x13F4) by lia.
Qed.

(** [thread_create] describes the thread it was asked for, but the
    frame it starts on (the function, and [thread_exit] to return to) lies
    0x13F4 bytes above its stack's block of 0x1000: [stack + 0x500] counts
    words. Every word of the frame is written outside the block. *)
Theorem thread_create_frame level pid fn s t st h1 h2
    (E1 : malloc sizeof_thread_t (th_heap s) = Done t h1)
    (E2 : malloc THREAD_STACKSIZE h1 = Done st h2) (Hbl : blocks t st)
    (Hfn : 0 <= fn < 2 ^ 32) (Hexit : 0 <= thread_exit_ptr < 2 ^ 32) :
  ∃ s', thread_create malloc thread_exit_ptr level pid fn s = Done t s' ∧
    thread_id s' = u32 (thread_id s + 1) ∧
    (let m := th_mem s' in let sp := word m (t + th_esp) in
     sp = st + 0x13F4 ∧ word m (t + th_ebp) = sp ∧ word m (t + th_eflags) = 0x200 ∧
     word m (t + th_tid) = u32 (thread_id s) ∧ word m (t + th_owner_pid) = u32 pid ∧
     word m (t + th_stack) = st ∧
     word m sp = 0 ∧ word m (sp + 4) = fn ∧ word m (sp + 8) = thread_exit_ptr ∧
     st + THREAD_STACKSIZE <= sp).
Proof.
  destruct (thread_create_done level pid fn s t st h1 h2 E1 E2 Hbl) as (m1 & m5 & _ & Hm5 & E).
  eexists. split; [exact E|]. clear E E1 E2. cbn [th_mem thread_id]. split; [done|].
  destruct Hbl as [[Ht Ht'] [Hst Hst'] Hd]. unfold sizeof_thread_t, THREAD_STACKSIZE in *.
  assert (Hold : ∀ b, t <= b -> b + 4 <= t + 48 ->
    word m5 b = word (described t level pid (thread_id s) st m1) b).
  { intros b ? ?. eapply only_in_word; [exact Hm5|lia..]. }
  unfold frame_mem, th_eflags, th_esp, th_ebp, th_tid, th_owner_pid, th_stack in *.
  assert (Hsp : ∀ m, word (set_word (t + 20) 0x200 (set_word (t + 0) (st + 0x13F4) m)) (t + 0) = st + 0x13F4).
  { intros m. by rewrite word_set_ne, word_set_eq, u32_small by lia. }
  cbn zeta. rewrite Hsp. split; [done|].
  repeat split; repeat first [rewrite word_set_eq | rewrite word_set_ne by lia].
  all: try (rewrite u32_small by lia; done); try done; try lia.
  all: rewrite Hold by lia; unfold described, th_stack, th_owner_pid, th_level, th_tid.
  all: repeat first [rewrite word_set_eq | rewrite word_set_ne by lia].
  all: try (rewrite u32_small by lia; done); try done.
  unfold word. rewrite !byte_set_ne by (apply u32_ne; lia). apply word_set_eq.
Qed.
End creation.

(** ** A thread to create *)

(** The heap hands out memory from a pointer upwards. *)
Definition demo_malloc (n : Z) : M Z Z := λ p, Done p (p + n).
Definition demo_threads : threads Z := Threads (Ram ∅) 0x10000 7 0.

Lemma thread_create_frame_witness :
  ∃ s', thread_create demo_malloc 0x2000 0 1 0x3000 demo_threads = Done 0x10000 s' ∧ thread_id s' = 8 ∧
    let m := th_mem s' in let sp := word m (0x10000 + th_esp) in
    sp = 0x10030 + 0x13F4 ∧ word m (sp + 4) = 0x3000 ∧ 0x10030 + THREAD_STACKSIZE <= sp.
Proof.
  destruct (thread_create_frame demo_malloc 0x2000 0 1 0x3000 demo_threads 0x10000 0x10030 0x10030 0x11030 eq_refl eq_refl)
    as (s' & E & Hid & H1 & _ & _ & _ & _ & _ & _ & H2 & _ & H3); [split; unfold sizeof_thread_t; lia|lia|lia|].
  exists s'. split; [exact E|]. split; [exact Hid|]. split; [exact H1|]. split; [exact H2|exact H3].
Defined.
