(* ===== verification/PageAlloc.v ===== *)
(** * Physical frames and page tables (kernel/arch/x86)

    page_allocator.c, paging.c and lib/placement_malloc.c: the placement
    allocator that hands out memory behind the kernel, the bitmap of frames
    and the page directory, all kept in physical memory. Bit [n mod 32] of
    word [n / 32] of the bitmap says that frame [n] is in use. *)

From Stdlib Require Import Sorted.
From S2P Require Import Prelude CString Ram.

(** The global variables of the three files, the memory they point into,
    and the control registers. *)
Record pstate := PState {
  pmem : ram;
  placement_address : Z;
  frame : Z;
  frame_amount : Z;
  mem_end : Z;
  mem_end_aligned : Z;
  kernel_directory : Z;
  current_directory : Z;
  cr3 : Z;
  cr0 : Z;
  pf_handler : bool
}.
Local Abbreviation K := (M pstate).

Definition set_pmem m s := PState m (placement_address s) (frame s) (frame_amount s) (mem_end s)
  (mem_end_aligned s) (kernel_directory s) (current_directory s) (cr3 s) (cr0 s) (pf_handler s).
Definition set_placement p s := PState (pmem s) p (frame s) (frame_amount s) (mem_end s)
  (mem_end_aligned s) (kernel_directory s) (current_directory s) (cr3 s) (cr0 s) (pf_handler s).
Definition set_bitmap f n e s := PState (pmem s) (placement_address s) f n (mem_end s)
  e (kernel_directory s) (current_directory s) (cr3 s) (cr0 s) (pf_handler s).
Definition set_kernel_directory d s := PState (pmem s) (placement_address s) (frame s) (frame_amount s)
  (mem_end s) (mem_end_aligned s) d (current_directory s) (cr3 s) (cr0 s) (pf_handler s).
Definition set_paging d c3 c0 s := PState (pmem s) (placement_address s) (frame s) (frame_amount s)
  (mem_end s) (mem_end_aligned s) (kernel_directory s) d c3 c0 (pf_handler s).
Definition set_handler s := PState (pmem s) (placement_address s) (frame s) (frame_amount s) (mem_end s)
  (mem_end_aligned s) (kernel_directory s) (current_directory s) (cr3 s) (cr0 s) true.

Definition on_mem {A} : M ram A -> K A := zoom pmem set_pmem.
Definition ldw (a : Z) : K Z := on_mem (load32 a).
Definition stw (a v : Z) : K unit := on_mem (store32 a v).
(** read, modify, write: [*a op= ...] *)
Definition updw (a : Z) (f : Z -> Z) : K unit := v ← ldw a; stw a (f v).

(** ** The placement allocator (placement_malloc.c) *)

Definition placement_kmalloc (sz : Z) : K Z :=
  tmp ← gets placement_address;
  modify (set_placement (u32 (tmp + sz)));; mret tmp.

Definition page_align (a : Z) : Z := u32 (Z.land a 0xFFFFF000 + 0x1000).

Definition placement_kmalloc_a (sz align : Z) : K Z :=
  a ← gets placement_address;
  (if (align =? 1) && truth (Z.land a 0xFFFFF000)
   then modify (set_placement (page_align a)) else mret tt);;
  tmp ← gets placement_address;
  modify (set_placement (u32 (tmp + sz)));; mret tmp.

(** Returns the block and what is stored at [phys]. *)
Definition placement_kmalloc_ap (sz align : Z) : K (Z * Z) :=
  a ← gets placement_address;
  (if (align =? 1) && truth (Z.land a 0xFFFFF000)
   then modify (set_placement (page_align a)) else mret tt);;
  phys ← gets placement_address;
  tmp ← gets placement_address;
  modify (set_placement (u32 (tmp + sz)));; mret (tmp, phys).

(** ** The bitmap (page_allocator.c) *)

Definition INDEX_FROM_BIT (b : Z) : Z := b / 0x20.
Definition OFFSET_FROM_BIT (b : Z) : Z := b mod 0x20.

Definition pa_frame_amount : K Z := gets frame_amount.

(** [&frame[index]] *)
Definition frame_word (index : Z) : K Z := f ← gets frame; mret (u32 (f + 4 * index)).

Definition pa_set_frame (address : Z) : K unit :=
  let frame_addr := address / 0x1000 in
  let index := INDEX_FROM_BIT frame_addr in
  let offset := OFFSET_FROM_BIT frame_addr in
  a ← frame_word index; updw a (λ w, Z.lor w (u32 (Z.shiftl 1 offset))).

Definition pa_clear_frame (address : Z) : K unit :=
  let frame_addr := address / 0x1000 in
  let index := INDEX_FROM_BIT frame_addr in
  let offset := OFFSET_FROM_BIT frame_addr in
  a ← frame_word index; updw a (λ w, Z.land w (u32 (Z.lnot (Z.shiftl 1 offset)))).

Definition pa_test_frame (address : Z) : K Z :=
  let frame_addr := address / 0x1000 in
  let index := INDEX_FROM_BIT frame_addr in
  let offset := OFFSET_FROM_BIT frame_addr in
  a ← frame_word index; w ← ldw a; mret (Z.land w (u32 (Z.shiftl 1 offset))).

(** The inner loop: the first clear bit of word [i] from bit [j] on. *)
Definition first_bit (i : Z) : Z -> K (Z + option Z) := λ j,
  if j <? 32 then
    let testFrame := u32 (Z.shiftl 1 j) in
    a ← frame_word i; w ← ldw a;
    mret (if negb (truth (Z.land w testFrame)) then inr (Some (u32 (i * 0x20 + j))) else inl (j + 1))
  else mret (inr None).

Definition first_frame_step : Z -> K (Z + Z) := λ i,
  n ← gets frame_amount;
  if i <? INDEX_FROM_BIT n then
    a ← frame_word i; w ← ldw a;
    if negb (w =? 0xFFFFFFFF) then
      r ← loop 33 (first_bit i) 0;
      mret (match r with Some fr => inr fr | None => inl (i + 1) end)
    else mret (inl (i + 1))
  else mret (inr 0xFFFFFFFF).
Definition pa_first_frame : K Z := while word_fuel first_frame_step 0.

(** The bit fields of [page_t]: [width] bits from bit [lo]. *)
Definition get_field (lo width w : Z) : Z := Z.land (Z.shiftr w lo) (Z.ones width).
Definition set_field (lo width v w : Z) : Z :=
  Z.lor (Z.land w (Z.lnot (Z.shiftl (Z.ones width) lo)))
        (Z.shiftl (Z.land v (Z.ones width)) lo).
Definition page_present : Z * Z := (0, 1).
Definition page_rw : Z * Z := (1, 1).
Definition page_user : Z * Z := (2, 1).
Definition page_frame : Z * Z := (12, 20).
Definition read_field (f : Z * Z) (page : Z) : K Z :=
  w ← ldw page; mret (get_field (fst f) (snd f) w).
Definition write_field (f : Z * Z) (v page : Z) : K unit := updw page (set_field (fst f) (snd f) v).

(** The log messages are left out; [cli; hlt] stops the machine. *)
Definition pa_alloc_frame (page kernel rw : Z) : K unit :=
  if 1 <? kernel then mret tt
  else
    fr ← read_field page_frame page;
    if truth fr then mret tt
    else
      index ← pa_first_frame;
      if index =? 0xFFFFFFFF then halt_here
      else
        pa_set_frame (u32 (index * 0x1000));;
        write_field page_present 1 page;;
        write_field page_rw (b2z (truth rw)) page;;
        write_field page_user (b2z (negb (truth kernel))) page;;
        write_field page_frame index page.

Definition pa_free_frame (page : Z) : K unit :=
  ftf ← read_field page_frame page;
  if negb (truth ftf) then mret tt
  else pa_clear_frame ftf;; write_field page_frame 0 page.

Definition init_page_allocator : K unit :=
  e ← gets mem_end;
  let aligned := Z.land e 0xFFFFF000 in
  let amount := aligned / 4 in
  f ← placement_kmalloc (INDEX_FROM_BIT amount);
  modify (set_bitmap f amount aligned);;
  on_mem (memset f 0 (INDEX_FROM_BIT amount));; mret tt.

(** ** Page tables (paging.c) *)

Definition sizeof_page_table : Z := 4096.
Definition sizeof_page_directory : Z := 8196.
(** [&dir->tables[i]], [&dir->tablesPhysical[i]], [&dir->physicalAddr],
    [&table->pages[i]] *)
Definition dir_table (dir i : Z) : Z := dir + 4 * i.
Definition dir_physical (dir i : Z) : Z := dir + 4096 + 4 * i.
Definition dir_physicalAddr (dir : Z) : Z := dir + 8192.
Definition table_page (table i : Z) : Z := u32 (table + 4 * i).

Definition paging_get_page (address make dir : Z) : K Z :=
  let address := address / 0x1000 in
  let table_index := address / 1024 in
  t ← ldw (dir_table dir table_index);
  if truth t then mret (table_page t (address mod 1024))
  else if truth make then
    tp ← placement_kmalloc_ap sizeof_page_table 1;
    let '(table, temp) := tp in
    stw (dir_table dir table_index) table;;
    on_mem (memset table 0 sizeof_page_table);;
    stw (dir_physical dir table_index) (Z.lor temp 0x7);;
    t ← ldw (dir_table dir table_index);
    mret (table_page t (address mod 1024))
  else mret 0.

Definition paging_switch_directory (dir : Z) : K unit :=
  phys ← ldw (dir_physicalAddr dir);
  modify (λ s, set_paging dir phys (Z.lor (cr0 s) 0x80000000) s).

(** The loop of [paging_init]; its bound moves with [placement_address]. *)
Definition map_step : Z -> K (Z + unit) := λ i,
  p ← gets placement_address;
  if i <? u32 (p + 0x1000) then
    d ← gets kernel_directory;
    page ← paging_get_page i 1 d;
    pa_alloc_frame page 0 0;;
    mret (inl (u32 (i + 0x1000)))
  else mret (inr tt).

Definition paging_init : K unit :=
  init_page_allocator;;
  dp ← placement_kmalloc_ap sizeof_page_directory 1;
  let d := fst dp in
  modify (set_kernel_directory d);;
  on_mem (memset d 0 sizeof_page_directory);;
  while word_fuel map_step 0;;
  stw (dir_physicalAddr d) (dir_physical d 0);;
  modify set_handler;;
  paging_switch_directory d.

(** ** The bitmap as a set of frames *)

Section bitmap.
Implicit Types s : pstate.

Definition frames s : Z := 32 * INDEX_FROM_BIT (frame_amount s).
Definition used s (n : Z) : bool :=
  Z.testbit (word (pmem s) (frame s + 4 * (n / 32))) (n mod 32).

(** The whole bitmap lies in the address space. *)
Definition bitmap_ok s : Prop :=
  ram_ok (pmem s) ∧ 0 <= frame s ∧ frame s + 4 * INDEX_FROM_BIT (frame_amount s) <= 2 ^ 32.

Lemma ldw_done a s : ldw a s = Done (word (pmem s) a) s.
Proof. unfold ldw, on_mem. erewrite zoom_done by apply load32_word. by destruct s. Qed.
Lemma stw_done a v s : stw a v s = Done tt (set_pmem (set_word a v (pmem s)) s).
Proof. unfold stw, on_mem. by erewrite zoom_done by apply store32_word. Qed.
Lemma updw_done a f s : updw a f s = Done tt (set_pmem (set_word a (f (word (pmem s) a)) (pmem s)) s).
Proof. unfold updw. rewrite (bind_Done _ _ _ _ _ (ldw_done a s)). apply stw_done. Qed.

Lemma index_range s n : 0 <= n < frames s -> 0 <= n / 32 < INDEX_FROM_BIT (frame_amount s).
Proof. unfold frames. intros. zdm. Qed.

Lemma frame_word_done s n :
  bitmap_ok s -> 0 <= n < frames s -> frame_word (n / 32) s = Done (frame s + 4 * (n / 32)) s.
Proof.
  intros (_ & H1 & H2) Hn%index_range. unfold frame_word. mrun. by rewrite u32_small by lia.
Qed.

Lemma bit_pow i : 0 <= i < 32 -> u32 (Z.shiftl 1 i) = 2 ^ i.
Proof.
  intros. rewrite Z.shiftl_mul_pow2, Z.mul_1_l by lia.
  pose proof (Z.pow_lt_mono_r 2 i 32). pose proof (Z.pow_pos_nonneg 2 i). rewrite u32_small; lia.
Qed.

Lemma u32_testbit v i : 0 <= i < 32 -> Z.testbit (u32 v) i = Z.testbit v i.
Proof. intros. unfold u32. by rewrite Z.mod_pow2_bits_low by lia. Qed.

(** Replacing the word of frame [n] changes the frames of that word only. *)
Lemma used_set_word s n n' v :
  bitmap_ok s -> 0 <= n < frames s -> 0 <= n' < frames s ->
  used (set_pmem (set_word (frame s + 4 * (n / 32)) v (pmem s)) s) n' =
    if n' / 32 =? n / 32 then Z.testbit v (n' mod 32) else used s n'.
Proof.
  intros (_ & H1 & H2) Hn%index_range Hn'%index_range. unfold used. cbn [pmem set_pmem frame].
  pose proof (Z.mod_pos_bound n' 32 ltac:(lia)).
  destruct (Z.eqb_spec (n' / 32) (n / 32)) as [->|Hne].
  - by rewrite word_set_eq, u32_testbit.
  - by rewrite word_set_ne by lia.
Qed.

Lemma bitmap_ok_set s m : ram_ok m -> bitmap_ok s -> bitmap_ok (set_pmem m s).
Proof. intros ? (_ & ? & ?). by split. Qed.

Lemma frame_eq_mod n n' : n' / 32 = n / 32 -> (n' mod 32 =? n mod 32) = (n' =? n).
Proof.
  intros H. pose proof (Z.div_mod n 32 ltac:(lia)). pose proof (Z.div_mod n' 32 ltac:(lia)).
  destruct (Z.eqb_spec (n' mod 32) (n mod 32)), (Z.eqb_spec n' n); lia.
Qed.

(** The frame an address lies in is marked, and no other. *)
Lemma pa_set_frame_spec s address :
  let n := address / 0x1000 in
  bitmap_ok s -> 0 <= n < frames s ->
  ∃ m', pa_set_frame address s = Done tt (set_pmem m' s) ∧ ram_ok m' ∧
    (∀ a, 4 <= Z.abs (frame s + 4 * (n / 32) - a) -> 0 <= a < 2 ^ 32 - 4 -> word m' a = word (pmem s) a) ∧
    ∀ n', 0 <= n' < frames s -> used (set_pmem m' s) n' = (n' =? n) || used s n'.
Proof.
  intros n Hs Hn. unfold pa_set_frame. fold n. cbv zeta. unfold INDEX_FROM_BIT, OFFSET_FROM_BIT.
  change 0x20 with 32. mstep (frame_word_done s n Hs Hn). rewrite updw_done.
  eexists. split; [done|]. pose proof Hs as (Hm & H1 & H2). split; [auto with kernel|].
  pose proof (Z.mod_pos_bound n 32 ltac:(lia)). pose proof (index_range s n Hn).
  split. { intros a ? ?. apply word_set_ne; lia. }
  intros n' Hn'. rewrite used_set_word by done.
  pose proof (Z.mod_pos_bound n' 32 ltac:(lia)). rewrite bit_pow by lia.
  destruct (Z.eqb_spec (n' / 32) (n / 32)) as [He|Hne].
  - rewrite Z.lor_spec, Z.pow2_bits_eqb, Z.eqb_sym, frame_eq_mod by (done || lia).
    unfold used. rewrite He. apply orb_comm.
  - rewrite (proj2 (Z.eqb_neq n' n)); [done|]. by intros ->.
Qed.

Lemma pa_clear_frame_spec s address :
  let n := address / 0x1000 in
  bitmap_ok s -> 0 <= n < frames s ->
  ∃ m', pa_clear_frame address s = Done tt (set_pmem m' s) ∧ ram_ok m' ∧
    (∀ a, 4 <= Z.abs (frame s + 4 * (n / 32) - a) -> 0 <= a < 2 ^ 32 - 4 -> word m' a = word (pmem s) a) ∧
    ∀ n', 0 <= n' < frames s -> used (set_pmem m' s) n' = negb (n' =? n) && used s n'.
Proof.
  intros n Hs Hn. unfold pa_clear_frame. fold n. cbv zeta. unfold INDEX_FROM_BIT, OFFSET_FROM_BIT.
  change 0x20 with 32. mstep (frame_word_done s n Hs Hn). rewrite updw_done.
  eexists. split; [done|]. pose proof Hs as (Hm & H1 & H2). split; [auto with kernel|].
  pose proof (Z.mod_pos_bound n 32 ltac:(lia)). pose proof (index_range s n Hn).
  split. { intros a ? ?. apply word_set_ne; lia. }
  intros n' Hn'. rewrite used_set_word by done.
  pose proof (Z.mod_pos_bound n' 32 ltac:(lia)).
  destruct (Z.eqb_spec (n' / 32) (n / 32)) as [He|Hne].
  - rewrite Z.land_spec, u32_testbit, Z.lnot_spec, Z.shiftl_mul_pow2, Z.mul_1_l, Z.pow2_bits_eqb by lia.
    rewrite Z.eqb_sym, frame_eq_mod by done. unfold used. rewrite He. apply andb_comm.
  - rewrite (proj2 (Z.eqb_neq n' n)); [done|]. by intros ->.
Qed.

Lemma pa_test_frame_spec s address :
  let n := address / 0x1000 in
  bitmap_ok s -> 0 <= n < frames s ->
  pa_test_frame address s = Done (if used s n then 2 ^ (n mod 32) else 0) s.
Proof.
  intros n Hs Hn. unfold pa_test_frame. fold n. cbv zeta. unfold INDEX_FROM_BIT, OFFSET_FROM_BIT.
  change 0x20 with 32. mstep (frame_word_done s n Hs Hn). rewrite (bind_Done _ _ _ _ _ (ldw_done _ s)).
  pose proof (Z.mod_pos_bound n 32 ltac:(lia)). rewrite bit_pow, land_pow2 by lia. done.
Qed.

(** A word is all ones exactly when its 32 frames are in use. *)
Lemma word_full w :
  0 <= w < 2 ^ 32 -> (w =? 0xFFFFFFFF) = forallb (Z.testbit w) (seqZ 0 32).
Proof.
  intros Hw. apply eq_true_iff_eq. rewrite Z.eqb_eq, forallb_forall. split.
  - intros -> i Hi%list_elem_of_In%elem_of_seqZ. change 0xFFFFFFFF with (Z.ones 32).
    apply Z.ones_spec_low. lia.
  - intros Hall. change 0xFFFFFFFF with (Z.ones 32). apply Z.bits_inj'. intros i Hi.
    destruct (decide (i < 32)).
    + rewrite Z.ones_spec_low by lia. apply Hall, list_elem_of_In, elem_of_seqZ. lia.
    + rewrite Z.ones_spec_high by lia. rewrite <- (Z.mod_small w (2 ^ 32)) by done.
      apply Z.mod_pow2_bits_high. lia.
Qed.
End bitmap.

Section first_frame.
Implicit Types s : pstate.

Definition lowest_free s (r : Z) : Prop :=
  (0 <= r < frames s ∧ used s r = false ∧ ∀ n, 0 <= n < r -> used s n = true) ∨
  (r = 0xFFFFFFFF ∧ ∀ n, 0 <= n < frames s -> used s n = true).

Lemma first_bit_spec s i k : bitmap_ok s -> 0 <= i < INDEX_FROM_BIT (frame_amount s) ->
  INDEX_FROM_BIT (frame_amount s) <= 2 ^ 27 ->
  ∀ j, 0 <= j -> j + Z.of_nat k = 32 ->
  (∀ b, 0 <= b < j -> used s (32 * i + b) = true) ->
  ∃ r, loop (S k) (first_bit i) j s = Done r s ∧
    match r with
    | Some fr => ∃ b, 0 <= b < 32 ∧ fr = 32 * i + b ∧ used s fr = false ∧
        ∀ b', 0 <= b' < b -> used s (32 * i + b') = true
    | None => ∀ b, 0 <= b < 32 -> used s (32 * i + b) = true
    end.
Proof.
  intros Hs Hi Hmax. induction k as [|k IH]; intros j Hj Hk Hbelow.
  - exists None. replace j with 32 in * by lia. split; [done|exact Hbelow].
  - assert (Hu : used s (32 * i + j) = Z.testbit (word (pmem s) (frame s + 4 * i)) j).
    { unfold used. f_equal; [do 2 f_equal; zdm|zdm]. }
    assert (Hstep : first_bit i j s = Done (if used s (32 * i + j) then inl (j + 1)
        else inr (Some (32 * i + j))) s).
    { unfold first_bit. rewrite (proj2 (Z.ltb_lt _ _)) by lia. cbv zeta.
      pose proof (frame_word_done s (32 * i) Hs ltac:(unfold frames; lia)) as Hf.
      replace (32 * i / 32) with i in Hf by zdm. mstep Hf.
      rewrite (bind_Done _ _ _ _ _ (ldw_done _ s)). rewrite bit_pow, land_pow2, <- Hu by lia.
      pose proof (Z.pow_pos_nonneg 2 j). destruct (used s (32 * i + j)).
      - unfold truth. by rewrite (proj2 (Z.eqb_neq (2 ^ j) 0)) by lia.
      - cbn. by rewrite u32_small, Z.mul_comm by lia. }
    cbn [loop]. mstep Hstep. destruct (used s (32 * i + j)) eqn:E.
    + apply IH; [lia|lia|]. intros b Hb. destruct (decide (b = j)) as [->|]; [done|]. apply Hbelow. lia.
    + exists (Some (32 * i + j)). split; [done|]. exists j. split; [lia|]. done.
Qed.

Lemma pa_first_frame_spec s :
  bitmap_ok s -> INDEX_FROM_BIT (frame_amount s) <= 2 ^ 27 ->
  ∃ r, pa_first_frame s = Done r s ∧ lowest_free s r.
Proof.
  intros Hs Hmax.
  destruct (wp_Done pa_first_frame s (λ r s', s' = s ∧ lowest_free s r)) as (r & ? & ? & -> & ?);
    [|by exists r].
  apply (wp_while False first_frame_step (λ i s', s' = s ∧ 0 <= i ∧
    ∀ n, 0 <= n < 32 * i -> n < frames s -> used s n = true)
    (λ i _, Z.to_nat (INDEX_FROM_BIT (frame_amount s) - i))).
  - intros i ? (-> & Hi & Hbelow). unfold first_frame_step. unfold wp.
    rewrite (bind_Done _ _ _ _ _ (eq_refl : gets frame_amount s = Done (frame_amount s) s)).
    destruct (Z.ltb_spec i (INDEX_FROM_BIT (frame_amount s))) as [Hlt|Hge].
    + pose proof (frame_word_done s (32 * i) Hs ltac:(unfold frames; lia)) as Hf.
      replace (32 * i / 32) with i in Hf by zdm. mstep Hf.
      rewrite (bind_Done _ _ _ _ _ (ldw_done _ s)).
      assert (Hw : ∀ b, 0 <= b < 32 -> used s (32 * i + b) = Z.testbit (word (pmem s) (frame s + 4 * i)) b).
      { intros b Hb. unfold used. f_equal; [do 2 f_equal; zdm|zdm]. }
      assert (Hnext : (∀ b, 0 <= b < 32 -> used s (32 * i + b) = true) ->
        ∀ n, 0 <= n < 32 * (i + 1) -> n < frames s -> used s n = true).
      { intros Hall n Hn Hn'. destruct (decide (n < 32 * i)); [apply Hbelow; lia|].
        replace n with (32 * i + (n - 32 * i)) by lia. apply Hall. lia. }
      rewrite word_full by exact (word_range _ _ (proj1 Hs)).
      destruct (forallb _ _) eqn:Hall; cbn [negb].
      * rewrite forallb_forall in Hall. split; [|lia]. split; [done|]. split; [lia|]. apply Hnext.
        intros b Hb. rewrite Hw by done. apply Hall, list_elem_of_In, elem_of_seqZ. lia.
      * destruct (first_bit_spec s i 32 Hs ltac:(lia) Hmax 0) as (r & Hr & Hspec); [lia|lia|lia|].
        mstep Hr. destruct r as [fr|].
        -- split; [done|]. left. destruct Hspec as (b & Hb & -> & Hfree & Hlow).
           split; [unfold frames; lia|]. split; [done|]. intros n Hn.
           destruct (decide (n < 32 * i)); [apply Hbelow; unfold frames; lia|].
           replace n with (32 * i + (n - 32 * i)) by lia. apply Hlow. lia.
        -- split; [|lia]. split; [done|]. split; [lia|]. by apply Hnext.
    + split; [done|]. right. split; [done|]. intros n Hn. apply Hbelow; unfold frames in *; lia.
  - rewrite Z.sub_0_r. pose proof word_fuel_Z. lia.
  - split; [done|]. split; [lia|]. intros. lia.
Qed.
End first_frame.

(** ** Page table entries *)

Section fields.
Lemma get_field_bit lo width w k :
  0 <= lo -> 0 <= width -> 0 <= k ->
  Z.testbit (get_field lo width w) k = (k <? width) && Z.testbit w (k + lo).
Proof.
  intros. unfold get_field. rewrite Z.land_spec, Z.shiftr_spec, Z.testbit_ones by lia.
  rewrite (proj2 (Z.leb_le 0 k)) by lia. apply andb_comm.
Qed.

Lemma set_field_bit lo width v w k :
  0 <= lo -> 0 <= width -> 0 <= k ->
  Z.testbit (set_field lo width v w) k =
    if (lo <=? k) && (k <? lo + width) then Z.testbit v (k - lo) else Z.testbit w k.
Proof.
  intros. unfold set_field. rewrite Z.lor_spec, Z.land_spec, Z.lnot_spec, !Z.shiftl_spec by lia.
  rewrite Z.land_spec, !Z.testbit_ones by lia.
  destruct (Z.leb_spec lo k), (Z.ltb_spec k (lo + width)); cbn [andb].
  - rewrite (proj2 (Z.leb_le 0 (k - lo))), (proj2 (Z.ltb_lt (k - lo) width)) by lia.
    cbn [andb negb]. by rewrite andb_false_r, andb_true_r.
  - rewrite (proj2 (Z.ltb_ge (k - lo) width)) by lia.
    rewrite !andb_false_r. cbn [negb]. by rewrite andb_true_r, orb_false_r.
  - rewrite (proj2 (Z.leb_gt 0 (k - lo))) by lia.
    cbn [andb negb]. by rewrite andb_true_r, andb_false_r, orb_false_r.
  - rewrite (proj2 (Z.leb_gt 0 (k - lo))) by lia.
    cbn [andb negb]. by rewrite andb_true_r, andb_false_r, orb_false_r.
Qed.

Lemma get_set_eq lo width v w :
  0 <= lo -> 0 <= width -> get_field lo width (set_field lo width v w) = Z.land v (Z.ones width).
Proof.
  intros. apply Z.bits_inj'. intros k Hk. rewrite get_field_bit, set_field_bit by lia.
  rewrite Z.land_spec, Z.testbit_ones by lia. rewrite (proj2 (Z.leb_le 0 k)), (proj2 (Z.leb_le lo (k + lo))) by lia.
  cbn [andb]. destruct (Z.ltb_spec k width).
  - rewrite (proj2 (Z.ltb_lt _ _)) by lia. cbn [andb]. rewrite andb_true_r. f_equal. lia.
  - by rewrite andb_false_r.
Qed.

Lemma get_set_ne lo1 width1 lo2 width2 v w :
  0 <= lo1 -> 0 <= width1 -> 0 <= lo2 -> 0 <= width2 -> lo1 + width1 <= lo2 ∨ lo2 + width2 <= lo1 ->
  get_field lo1 width1 (set_field lo2 width2 v w) = get_field lo1 width1 w.
Proof.
  intros ? ? ? ? Hd. apply Z.bits_inj'. intros k Hk. rewrite !get_field_bit, set_field_bit by lia.
  destruct (Z.ltb_spec k width1); cbn [andb]; [|done].
  destruct (Z.leb_spec lo2 (k + lo1)), (Z.ltb_spec (k + lo1) (lo2 + width2)); cbn [andb]; done || lia.
Qed.

Lemma get_u32 lo width w :
  0 <= lo -> 0 <= width -> lo + width <= 32 -> get_field lo width (u32 w) = get_field lo width w.
Proof.
  intros. apply Z.bits_inj'. intros k Hk. rewrite !get_field_bit by lia.
  destruct (Z.ltb_spec k width); cbn [andb]; [|done]. apply u32_testbit. lia.
Qed.

Lemma land_ones_small v n : 0 <= v < 2 ^ n -> Z.land v (Z.ones n) = v.
Proof.
  intros Hv. destruct (decide (0 <= n)); [|rewrite Z.pow_neg_r in Hv by lia; lia].
  rewrite Z.land_ones by lia. by apply Z.mod_small.
Qed.
End fields.

Section pages.
Implicit Types s : pstate.

(** A page table entry that does not overlap the bitmap. *)
Definition outside s (page : Z) : Prop :=
  0 <= page < 2 ^ 32 - 4 ∧
  ∀ i, 0 <= i < INDEX_FROM_BIT (frame_amount s) -> 4 <= Z.abs (frame s + 4 * i - page).

Definition pte s (page : Z) (f : Z * Z) : Z := get_field (fst f) (snd f) (word (pmem s) page).

Lemma read_field_done f page s : read_field f page s = Done (pte s page f) s.
Proof. unfold read_field. by rewrite (bind_Done _ _ _ _ _ (ldw_done page s)). Qed.

Lemma write_field_spec f v page s :
  ram_ok (pmem s) ->
  ∃ m', write_field f v page s = Done tt (set_pmem m' s) ∧ ram_ok m' ∧
    word m' page = u32 (set_field (fst f) (snd f) v (word (pmem s) page)) ∧
    ∀ a, 4 <= Z.abs (page - a) -> Z.abs (page - a) + 4 <= 2 ^ 32 -> word m' a = word (pmem s) a.
Proof.
  intros Hm. unfold write_field. rewrite updw_done. eexists. split; [done|].
  split; [auto with kernel|]. split; [by rewrite word_set_eq|]. intros. by apply word_set_ne.
Qed.

(** The entry [pa_alloc_frame] leaves behind. *)
Definition mapped_entry (index kernel rw w : Z) : Z :=
  u32 (set_field 12 20 index (u32 (set_field 2 1 (b2z (negb (truth kernel)))
    (u32 (set_field 1 1 (b2z (truth rw)) (u32 (set_field 0 1 1 w))))))).

Lemma mapped_entry_fields index kernel rw w :
  let e := mapped_entry index kernel rw w in
  0 <= index < 2 ^ 20 ->
  get_field 12 20 e = index ∧ get_field 0 1 e = 1 ∧ get_field 1 1 e = b2z (truth rw) ∧
  get_field 2 1 e = b2z (negb (truth kernel)).
Proof.
  intros e Hi. unfold e, mapped_entry.
  assert (∀ b : bool, 0 <= b2z b < 2 ^ 1) by (intros []; cbn; lia).
  split_and!; repeat first [rewrite get_u32 by lia|rewrite get_set_eq by lia
    |rewrite get_set_ne by lia|rewrite land_ones_small by (done || lia)]; done.
Qed.

(** Words away from the entry keep their frames' bits. *)
Lemma used_outside s m' page n :
  outside s page -> bitmap_ok s -> 0 <= n < frames s ->
  (∀ a, 4 <= Z.abs (page - a) -> Z.abs (page - a) + 4 <= 2 ^ 32 -> word m' a = word (pmem s) a) ->
  used (set_pmem m' s) n = used s n.
Proof.
  intros (? & Hout) (_ & ? & ?) Hn%index_range Hw. unfold used. cbn [pmem set_pmem frame].
  specialize (Hout _ Hn). by rewrite Hw by lia.
Qed.

Lemma set_pmem_twice m1 m2 s : set_pmem m2 (set_pmem m1 s) = set_pmem m2 s.
Proof. done. Qed.

Lemma write_entry_spec page index kernel rw s :
  ram_ok (pmem s) ->
  ∃ m', (write_field page_present 1 page;; write_field page_rw (b2z (truth rw)) page;;
         write_field page_user (b2z (negb (truth kernel))) page;; write_field page_frame index page) s
      = Done tt (set_pmem m' s) ∧ ram_ok m' ∧
    word m' page = mapped_entry index kernel rw (word (pmem s) page) ∧
    ∀ a, 4 <= Z.abs (page - a) -> Z.abs (page - a) + 4 <= 2 ^ 32 -> word m' a = word (pmem s) a.
Proof.
  intros Hm.
  destruct (write_field_spec page_present 1 page s Hm) as (m1 & E1 & Hm1 & W1 & F1). mstep E1.
  destruct (write_field_spec page_rw (b2z (truth rw)) page (set_pmem m1 s) Hm1)
    as (m2 & E2 & Hm2 & W2 & F2). mstep E2. rewrite set_pmem_twice.
  destruct (write_field_spec page_user (b2z (negb (truth kernel))) page (set_pmem m2 s) Hm2)
    as (m3 & E3 & Hm3 & W3 & F3). mstep E3. rewrite set_pmem_twice.
  destruct (write_field_spec page_frame index page (set_pmem m3 s) Hm3) as (m4 & E4 & Hm4 & W4 & F4).
  exists m4. split; [exact E4|]. split; [done|]. cbn [pmem set_pmem] in *.
  split; [by rewrite W4, W3, W2, W1|]. intros a Ha1 Ha2. by rewrite F4, F3, F2, F1.
Qed.

(** What [pa_alloc_frame] does to an unmapped entry while frames last; only
    the bitmap's word of the new frame need lie apart from the entry. *)
Lemma pa_alloc_frame_near s page kernel rw r :
  bitmap_ok s -> INDEX_FROM_BIT (frame_amount s) <= 2 ^ 27 -> 0 <= page < 2 ^ 32 - 4 ->
  4 <= Z.abs (frame s + 4 * (r / 32) - page) -> kernel <= 1 ->
  pte s page page_frame = 0 -> lowest_free s r -> r < frames s -> r < 2 ^ 20 ->
  ∃ m', pa_alloc_frame page kernel rw s = Done tt (set_pmem m' s) ∧ ram_ok m' ∧
    word m' page = mapped_entry r kernel rw (word (pmem s) page) ∧
    (∀ n, 0 <= n < frames s -> 4 <= Z.abs (frame s + 4 * (n / 32) - page) ->
       used (set_pmem m' s) n = (n =? r) || used s n) ∧
    ∀ a, 0 <= a < 2 ^ 32 - 4 -> 4 <= Z.abs (page - a) ->
      4 <= Z.abs (frame s + 4 * (r / 32) - a) -> word m' a = word (pmem s) a.
Proof.
  intros Hs Hmax Hp Hout Hk Hpte Hlow Hr Hr20. unfold pa_alloc_frame.
  rewrite (proj2 (Z.ltb_ge _ _)) by lia. rewrite (bind_Done _ _ _ _ _ (read_field_done _ _ _)), Hpte.
  cbn [truth Z.eqb negb]. destruct (pa_first_frame_spec s Hs Hmax) as (r' & Hrun & Hlow').
  mstep Hrun.
  assert (r' = r ∧ 0 <= r) as [-> Hr0].
  { destruct Hlow as [(Hr1 & Hf & Hb)|(-> & Hb)]; [|lia]. split; [|lia].
    destruct Hlow' as [(Hr1' & Hf' & Hb')|(-> & Hb')].
    - destruct (Z.lt_trichotomy r r') as [Hlt|[->|Hlt]]; [|done|].
      + rewrite Hb' in Hf by lia. done.
      + rewrite Hb in Hf' by lia. done.
    - rewrite Hb' in Hf by lia. done. }
  rewrite (proj2 (Z.eqb_neq _ _)) by lia. rewrite u32_small by lia.
  destruct (pa_set_frame_spec s (r * 0x1000)) as (m1 & E1 & Hm1 & W1 & U1);
    [done|rewrite Z.div_mul by lia; lia|].
  rewrite Z.div_mul in * by lia. mstep E1.
  destruct (write_entry_spec page r kernel rw (set_pmem m1 s) Hm1) as (m2 & E2 & Hm2 & W2 & F2).
  exists m2. split; [exact E2|]. split; [done|]. cbn [pmem set_pmem] in *.
  split; [rewrite W2, W1; [done|exact Hout|lia]|]. split.
  - intros n Hn Hna. rewrite <- U1 by done. unfold used. cbn [pmem set_pmem frame].
    pose proof (index_range s n Hn). destruct Hs as (_ & ? & ?). rewrite F2; [done|lia|lia].
  - intros a Ha H1 H2. rewrite F2, W1 by lia. done.
Qed.

Lemma pa_alloc_frame_spec s page kernel rw r :
  bitmap_ok s -> INDEX_FROM_BIT (frame_amount s) <= 2 ^ 27 -> outside s page -> kernel <= 1 ->
  pte s page page_frame = 0 -> lowest_free s r -> r < frames s -> r < 2 ^ 20 ->
  ∃ m', pa_alloc_frame page kernel rw s = Done tt (set_pmem m' s) ∧ ram_ok m' ∧
    word m' page = mapped_entry r kernel rw (word (pmem s) page) ∧
    (∀ n, 0 <= n < frames s -> used (set_pmem m' s) n = (n =? r) || used s n) ∧
    ∀ a, 0 <= a < 2 ^ 32 - 4 -> 4 <= Z.abs (page - a) ->
      4 <= Z.abs (frame s + 4 * (r / 32) - a) -> word m' a = word (pmem s) a.
Proof.
  intros Hs Hmax [Hp Hout] Hk Hpte Hlow Hr Hr20.
  assert (0 <= r) by (destruct Hlow as [[? _]|[-> _]]; lia).
  destruct (pa_alloc_frame_near s page kernel rw r) as (m' & E & Hm & W & U & F);
    [done|done|done|by apply Hout, index_range|done..|].
  exists m'. split_and!; try done. intros n Hn. apply U; [done|]. by apply Hout, index_range.
Qed.

(** What [pa_free_frame] does: the frame number is taken for an address. *)
Lemma pa_free_frame_spec s page :
  let ftf := pte s page page_frame in
  bitmap_ok s -> outside s page -> ftf ≠ 0 -> ftf / 0x1000 < frames s ->
  ∃ m', pa_free_frame page s = Done tt (set_pmem m' s) ∧ ram_ok m' ∧
    pte (set_pmem m' s) page page_frame = 0 ∧
    ∀ n, 0 <= n < frames s -> used (set_pmem m' s) n = negb (n =? ftf / 0x1000) && used s n.
Proof.
  intros ftf Hs Hout Hne Hr. unfold pa_free_frame.
  rewrite (bind_Done _ _ _ _ _ (read_field_done _ _ _)). fold ftf. unfold truth.
  rewrite (proj2 (Z.eqb_neq _ _)) by done. cbn [negb].
  assert (0 <= ftf) by (apply Z.land_nonneg; right; done).
  destruct (pa_clear_frame_spec s ftf Hs ltac:(zdm)) as (m1 & E1 & Hm1 & W1 & U1). mstep E1.
  destruct (write_field_spec page_frame 0 page (set_pmem m1 s) Hm1) as (m2 & E2 & Hm2 & W2 & F2).
  exists m2. split; [exact E2|]. split; [done|]. cbn [pmem set_pmem] in *.
  split.
  - unfold pte. cbn [pmem set_pmem fst snd page_frame] in *. rewrite W2, get_u32, get_set_eq by lia. done.
  - intros n Hn. rewrite <- U1 by done.
    apply (used_outside (set_pmem m1 s) m2 page); [by destruct Hout; split| |done|done].
    by apply bitmap_ok_set.
Qed.
End pages.

(** ** The placement allocator *)

Section placement.
Implicit Types s : pstate.

Lemma land_page_mask a : 0 <= a < 2 ^ 32 -> Z.land a 0xFFFFF000 = a / 0x1000 * 0x1000.
Proof.
  intros Ha. apply Z.bits_inj'. intros k Hk.
  change 0xFFFFF000 with (Z.shiftl (Z.ones 20) 12). change 0x1000 with (2 ^ 12).
  rewrite <- Z.shiftr_div_pow2, <- Z.shiftl_mul_pow2 by lia.
  rewrite Z.land_spec, !Z.shiftl_spec by lia.
  destruct (decide (k < 12)).
  - rewrite !(Z.testbit_neg_r _ (k - 12)) by lia. apply andb_false_r.
  - rewrite Z.shiftr_spec, Z.testbit_ones by lia. replace (k - 12 + 12) with k by lia.
    rewrite (proj2 (Z.leb_le 0 (k - 12))) by lia. cbn [andb].
    destruct (Z.ltb_spec (k - 12) 20); [by rewrite andb_true_r|].
    rewrite <- (Z.mod_small a (2 ^ 32)), Z.mod_pow2_bits_high by lia. done.
Qed.

(** One request: its size, and whether it is to be page aligned. *)
Definition place (req : bool * Z) : K Z :=
  if fst req then p ← placement_kmalloc_ap (snd req) 1; mret (fst p) else placement_kmalloc (snd req).
Fixpoint place_all (reqs : list (bool * Z)) : K (list (Z * Z)) :=
  match reqs with
  | [] => mret []
  | req :: reqs' =>
      a ← place req; rest ← place_all reqs'; mret ((a, a + snd req) :: rest)
  end.

(** What a request uses up at most. *)
Definition cost (req : bool * Z) : Z := snd req + (if fst req then 0x1000 else 0).
Fixpoint total_cost (reqs : list (bool * Z)) : Z :=
  match reqs with [] => 0 | req :: reqs' => cost req + total_cost reqs' end.

Lemma place_spec req s :
  0x1000 <= placement_address s -> 0 <= snd req -> placement_address s + cost req < 2 ^ 32 ->
  ∃ a, place req s = Done a (set_placement (a + snd req) s) ∧ placement_address s <= a ∧
    a + snd req <= placement_address s + cost req ∧ (fst req = true -> a mod 0x1000 = 0).
Proof.
  destruct req as [al sz]. cbn [fst snd]. unfold cost, place. cbn [fst snd]. intros Hp Hsz Hc.
  destruct al.
  - unfold placement_kmalloc_ap. rewrite bind_assoc. mrun. cbn [Z.eqb Pos.eqb andb].
    unfold truth. rewrite land_page_mask by lia.
    rewrite (proj2 (Z.eqb_neq _ _)) by zdm. cbn [negb].
    unfold page_align. rewrite land_page_mask by lia. rewrite u32_small by zdm.
    exists (placement_address s / 0x1000 * 0x1000 + 0x1000).
    unfold mbind, M_bind, modify, gets, mret, M_ret. cbn [fst snd placement_address set_placement].
    rewrite u32_small by zdm. split; [done|]. split; [zdm|]. split; [zdm|]. intros _. zdm.
  - exists (placement_address s). unfold placement_kmalloc. mrun.
    rewrite u32_small by lia. split; [done|]. split; [lia|]. split; [lia|done].
Qed.

Lemma place_all_spec reqs : ∀ s,
  0x1000 <= placement_address s -> Forall (λ r, 0 <= snd r) reqs ->
  placement_address s + total_cost reqs < 2 ^ 32 ->
  ∃ bs s', place_all reqs s = Done bs s' ∧
    StronglySorted (λ b1 b2, snd b1 <= fst b2) bs ∧
    Forall (λ b, placement_address s <= fst b) bs ∧
    Forall2 (λ r b, snd b = fst b + snd r ∧ (fst r = true -> fst b mod 0x1000 = 0)) reqs bs.
Proof.
  induction reqs as [|req reqs IH]; intros s Hp Hsz Hc.
  - exists [], s. repeat constructor.
  - apply Forall_cons in Hsz as [Hsz0 Hsz]. cbn [total_cost] in Hc.
    assert (0 <= total_cost reqs).
    { clear -Hsz. induction Hsz as [|[al z] reqs Hz _ IH]; cbn in *; [lia|].
      unfold cost. cbn in *. destruct al; lia. }
    destruct (place_spec req s Hp Hsz0) as (a & E & Ha & Hend & Hal); [lia|].
    destruct (IH (set_placement (a + snd req) s)) as (bs & s' & E' & Hsort & Hlow & Hreq);
      [cbn; lia|done|cbn; lia|]. cbn [placement_address set_placement] in Hlow.
    exists ((a, a + snd req) :: bs), s'. cbn [place_all]. mstep E. mstep E'.
    split; [done|]. split; [by constructor|]. split; [|by constructor].
    constructor; [done|]. eapply Forall_impl; [exact Hlow|]. cbn. lia.
Qed.
End placement.

(** ** Properties *)

Section paging_properties.
Implicit Types s : pstate.

(** C31: [pa_alloc_frame] gives an unmapped page the lowest free frame: the
    entry becomes present with that frame and the permissions asked for,
    exactly that frame is marked, and no other word of memory changes. *)
Theorem pa_alloc_frame_lowest s page kernel rw r
    (Hs : bitmap_ok s) (Hmax : INDEX_FROM_BIT (frame_amount s) <= 2 ^ 27) (Hout : outside s page)
    (Hk : kernel <= 1) (Hpte : pte s page page_frame = 0)
    (Hr : 0 <= r < frames s) (Hr20 : r < 2 ^ 20) (Hfree : used s r = false)
    (Hlow : ∀ n, 0 <= n < r -> used s n = true) :
  ∃ m', pa_alloc_frame page kernel rw s = Done tt (set_pmem m' s) ∧
    let s' := set_pmem m' s in
    pte s' page page_frame = r ∧ pte s' page page_present = 1 ∧
    pte s' page page_rw = b2z (truth rw) ∧ pte s' page page_user = b2z (negb (truth kernel)) ∧
    (∀ n, 0 <= n < frames s -> used s' n = (n =? r) || used s n) ∧
    ∀ a, 0 <= a < 2 ^ 32 - 4 -> 4 <= Z.abs (page - a) ->
      4 <= Z.abs (frame s + 4 * (r / 32) - a) -> word m' a = word (pmem s) a.
Proof.
  destruct (pa_alloc_frame_spec s page kernel rw r) as (m' & E & _ & Hw & Hu & Hf);
    [done..|left; split; [done|]; by split|lia|done|].
  exists m'. split; [exact E|]. unfold pte. cbn [pmem set_pmem fst snd page_frame page_present page_rw page_user].
  rewrite Hw. destruct (mapped_entry_fields r kernel rw (word (pmem s) page)) as (? & ? & ? & ?); [lia|].
  split_and!; done.
Qed.

(** [pa_free_frame] leaks every frame: it clears the entry but passes
    the frame number to [pa_clear_frame], which expects an address, so the
    frame stays marked and frame [number / 4096] is marked free instead. *)
Theorem pa_free_frame_leaks s page
    (Hs : bitmap_ok s) (Hout : outside s page) (Hne : pte s page page_frame ≠ 0)
    (Hr : pte s page page_frame < frames s) (Hu : used s (pte s page page_frame) = true) :
  ∃ m', pa_free_frame page s = Done tt (set_pmem m' s) ∧
    let s' := set_pmem m' s in
    pte s' page page_frame = 0 ∧ used s' (pte s page page_frame) = true ∧
    used s' (pte s page page_frame / 4096) = false.
Proof.
  set (ftf := pte s page page_frame) in *.
  assert (0 <= ftf) by (apply Z.land_nonneg; right; done).
  destruct (pa_free_frame_spec s page Hs Hout Hne) as (m' & E & _ & Hp & Hall).
  { fold ftf. zdm. }
  fold ftf in Hall. exists m'. split; [exact E|]. cbv zeta. split; [exact Hp|]. split.
  - rewrite Hall, Hu, (proj2 (Z.eqb_neq _ _)) by zdm. done.
  - rewrite Hall by zdm. by rewrite Z.eqb_refl.
Qed.

(** C32: the blocks the placement allocator hands out follow one another in
    memory without overlap, start page aligned where alignment was asked
    for, and never lie below the kernel's end, while memory lasts. *)
Theorem placement_disjoint reqs s
    (Hstart : 0x1000 <= placement_address s) (Hsz : Forall (λ r, 0 <= snd r) reqs)
    (Hroom : placement_address s + total_cost reqs < 2 ^ 32) :
  ∃ bs s', place_all reqs s = Done bs s' ∧
    StronglySorted (λ b1 b2, snd b1 <= fst b2) bs ∧
    Forall (λ b, placement_address s <= fst b) bs ∧
    Forall2 (λ r b, snd b = fst b + snd r ∧ (fst r = true -> fst b mod 0x1000 = 0)) reqs bs.
Proof. by apply place_all_spec. Qed.

(** An address that is already page aligned is moved on by a whole
    page: the guard of [placement_kmalloc_a] tests the page number instead of
    the offset in the page. *)
Theorem placement_wastes_page s sz
    (Ha : 0x1000 <= placement_address s < 2 ^ 32 - 0x1000) (Hal : placement_address s mod 0x1000 = 0) :
  placement_kmalloc_a sz 1 s
    = Done (placement_address s + 0x1000) (set_placement (u32 (placement_address s + 0x1000 + sz)) s).
Proof.
  unfold placement_kmalloc_a. mrun. cbn [Z.eqb Pos.eqb andb]. unfold truth.
  rewrite land_page_mask, (proj2 (Z.eqb_neq _ _)) by zdm. cbn [negb].
  unfold page_align. rewrite land_page_mask by lia.
  replace (placement_address s / 0x1000 * 0x1000) with (placement_address s) by zdm.
  rewrite u32_small by lia. done.
Qed.
End paging_properties.

(** ** Examples: a bitmap of 64 frames at 2 MB, a page entry at 3 MB *)

Section paging_examples.
Definition demo (bitmap entry : Z) : pstate :=
  PState (set_word 0x300000 entry (set_word 0x200000 bitmap (Ram ∅))) 0x100000 0x200000 64
    0x400000 0x400000 0 0 0 0 false.

Lemma demo_ok bitmap entry : bitmap_ok (demo bitmap entry).
Proof.
  split; [|by vm_compute]. apply set_word_ok, set_word_ok. intros a. unfold byte. cbn.
  by rewrite lookup_empty.
Qed.

Lemma demo_outside bitmap entry : outside (demo bitmap entry) 0x300000.
Proof.
  split; [lia|]. intros i Hi. change (0 <= i < 2) in Hi.
  change (4 <= Z.abs (0x200000 + 4 * i - 0x300000)). lia.
Qed.

Lemma pa_alloc_frame_lowest_witness :
  ∃ m', pa_alloc_frame 0x300000 0 1 (demo 0x17 0) = Done tt (set_pmem m' (demo 0x17 0)) ∧
    let s' := set_pmem m' (demo 0x17 0) in
    pte s' 0x300000 page_frame = 3 ∧ pte s' 0x300000 page_present = 1 ∧
    pte s' 0x300000 page_rw = b2z (truth 1) ∧ pte s' 0x300000 page_user = b2z (negb (truth 0)) ∧
    (∀ n, 0 <= n < frames (demo 0x17 0) -> used s' n = (n =? 3) || used (demo 0x17 0) n) ∧
    ∀ a, 0 <= a < 2 ^ 32 - 4 -> 4 <= Z.abs (0x300000 - a) ->
      4 <= Z.abs (frame (demo 0x17 0) + 4 * (3 / 32) - a) -> word m' a = word (pmem (demo 0x17 0)) a.
Proof.
  apply (pa_alloc_frame_lowest (demo 0x17 0) 0x300000 0 1 3 (demo_ok _ _));
    [by vm_compute|apply demo_outside|by vm_compute..|].
  - intros n Hn. assert (n = 0 ∨ n = 1 ∨ n = 2) as [->|[->| ->]] by lia; by vm_compute.
Defined.

(** Frame 5 is freed: frame 0 becomes free, frame 5 stays in use. *)
Lemma pa_free_frame_leaks_witness :
  ∃ m', pa_free_frame 0x300000 (demo 0x3F 0x5007) = Done tt (set_pmem m' (demo 0x3F 0x5007)) ∧
    let s' := set_pmem m' (demo 0x3F 0x5007) in
    pte s' 0x300000 page_frame = 0 ∧ used s' (pte (demo 0x3F 0x5007) 0x300000 page_frame) = true ∧
    used s' (pte (demo 0x3F 0x5007) 0x300000 page_frame / 4096) = false.
Proof.
  apply (pa_free_frame_leaks (demo 0x3F 0x5007) 0x300000 (demo_ok _ _) (demo_outside _ _)); by vm_compute.
Defined.

Lemma placement_disjoint_witness :
  ∃ bs s', place_all [(false, 100); (true, 8196); (true, 4096)] (demo 0 0) = Done bs s' ∧
    StronglySorted (λ b1 b2, snd b1 <= fst b2) bs ∧ Forall (λ b, 0x100000 <= fst b) bs ∧
    Forall2 (λ r b, snd b = fst b + snd r ∧ (fst r = true -> fst b mod 0x1000 = 0))
      [(false, 100); (true, 8196); (true, 4096)] bs.
Proof. apply placement_disjoint; [by vm_compute|repeat constructor; cbn; lia|by vm_compute]. Defined.

Lemma placement_wastes_page_witness :
  placement_kmalloc_a 64 1 (demo 0 0) = Done 0x101000 (set_placement 0x101040 (demo 0 0)).
Proof. apply (placement_wastes_page (demo 0 0) 64); [by vm_compute|by vm_compute]. Defined.
End paging_examples.
