(* ===== verification/PagingInit.v ===== *)
(** * The kernel's page directory (kernel/arch/x86/paging.c)

    What [paging_init] leaves for the processor: walking the tables it built
    maps every address of the kernel to itself and no other address at all.
    Directory, tables and bitmap grow in the memory that is being mapped, so
    the loop's bound moves while it runs. *)

From S2P Require Import Prelude CString Ram PageAlloc.

(** The processor's walk: [cr3], the directory's entry, the table's. *)
Definition walk (m : ram) (cr3 v : Z) : option Z :=
  let pde := word m (cr3 + 4 * (v / 2 ^ 22)) in
  if Z.testbit pde 0 then
    let pte := word m (pde / 4096 * 4096 + 4 * (v / 4096 mod 1024)) in
    if Z.testbit pte 0 then Some (pte / 4096 * 4096 + v mod 4096) else None
  else None.
Definition translate (s : pstate) (v : Z) : option Z :=
  if Z.testbit (cr0 s) 31 then walk (pmem s) (cr3 s) v else Some v.

(** ** Clearing words *)

Lemma memset_words a q m :
  0 <= a -> 0 <= q -> a + 4 * q <= 2 ^ 32 -> ram_ok m ->
  ∃ m', memset a 0 (4 * q) m = Done a m' ∧ ram_ok m' ∧
    (∀ i, 0 <= i < q -> word m' (a + 4 * i) = 0) ∧
    ∀ b, 0 <= b -> b + 4 <= 2 ^ 32 -> b + 4 <= a ∨ a + 4 * q <= b -> word m' b = word m b.
Proof.
  intros Ha Hq Hend Hm. unfold memset. replace (4 * q / 4) with q by zdm. replace (4 * q mod 4) with 0 by zdm.
  destruct (for_up_inv (λ k m', ram_ok m' ∧ (∀ i, 0 <= i < k -> word m' (a + 4 * i) = 0) ∧
    ∀ b, 0 <= b -> b + 4 <= 2 ^ 32 -> b + 4 <= a ∨ a + 4 * q <= b -> word m' b = word m b)
    (Z.to_nat q) 0 (λ i, store32 (a + 4 * i) (memset_word 0)) m) as (m' & E & Hm' & Hz & Hout).
  - intros i m1 Hi (Hm1 & Hz & Hout). rewrite store32_word. eexists. split; [done|].
    change (memset_word 0) with 0. split; [auto with kernel|]. split.
    + intros k Hk. destruct (decide (k = i)) as [->|Hne]; [by rewrite word_set_eq|].
      rewrite word_set_ne by lia. apply Hz. lia.
    + intros b Hb0 Hb Hd. rewrite word_set_ne by lia. by apply Hout.
  - split; [done|]. split; [lia|done].
  - exists m'. mstep E. cbn [Z.to_nat for_up]. split; [done|]. split; [done|]. split; [|done].
    intros i Hi. apply Hz. lia.
Qed.

(** ** An entry of [paging_init] *)

Lemma fresh_entry n : 0 <= n < 2 ^ 20 -> mapped_entry n 0 0 0 = 4096 * n + 5.
Proof.
  intros Hn. unfold mapped_entry. change (u32 (set_field 2 1 _ _)) with 5. unfold set_field.
  rewrite land_ones_small by done. change (Z.land 5 _) with 5. rewrite lor_shiftl by lia.
  rewrite u32_small; lia.
Qed.

Lemma entry_bits n : 0 <= n -> Z.testbit (4096 * n + 5) 0 = true ∧ (4096 * n + 5) / 4096 = n.
Proof.
  intros Hn. split; [|zdm]. rewrite Z.bit0_odd. replace (4096 * n + 5) with (1 + 2 * (2048 * n + 2)) by lia.
  by rewrite Z.odd_add_mul_2.
Qed.

(** ** The layout *)

Section identity.
Context (s0 : pstate) (f d N : Z).
(** memory as it was *)
Context (m0 : ram).

(** [N] bytes are reserved for the bitmap at [f]; they hold the bits of the
    first [8 * N] frames. The directory is at [d], the tables behind it. *)
Record layout : Prop := {
  ly_frame : frame s0 = f;
  ly_amount : frame_amount s0 = 32 * N;
  ly_dir : kernel_directory s0 = d;
  ly_low : 0x1000 <= f;
  ly_above : f + N <= d;
  ly_aligned : d mod 4096 = 0;
  ly_words : N mod 4 = 0;
  ly_max : N <= 2 ^ 25 ∧ d <= 2 ^ 30;
  ly_room : d + 0x8000 <= 2 ^ 14 * N
}.

Definition tbl (j : Z) : Z := d + 12288 + 8192 * j.
(** How many tables the first [k] pages take, and where memory continues
    behind [t] tables. *)
Definition tables_for (k : Z) : Z := (k + 1023) / 1024.
Definition top_of (t : Z) : Z := if t =? 0 then d + 8196 else d + 8192 * (t + 1).

(** Memory with [t] tables and the first [k] pages mapped. *)
Record mapped_to (m : ram) (k t : Z) : Prop := {
  mt_ok : ram_ok m;
  mt_bits : ∀ n, 0 <= n < 8 * N -> Z.testbit (word m (f + 4 * (n / 32))) (n mod 32) = (n <? k);
  mt_dir : ∀ j, 0 <= j < 1024 -> word m (d + 4 * j) = if j <? t then tbl j else 0;
  mt_phys : ∀ j, 0 <= j < 1024 -> word m (d + 4096 + 4 * j) = if j <? t then tbl j + 7 else 0;
  mt_pages : ∀ j e, 0 <= j < t -> 0 <= e < 1024 ->
    word m (tbl j + 4 * e) = if 1024 * j + e <? k then 4096 * (1024 * j + e) + 5 else 0;
  mt_below : ∀ b, 0 <= b -> b + 4 <= f -> word m b = word m0 b
}.
Definition at_ (m : ram) (t : Z) : pstate := set_pmem m (set_placement (top_of t) s0).

Context (HL : layout).

Lemma page_bound k : 0 <= k -> 4096 * k < top_of (tables_for k) + 4096 ->
  k < 8 * N ∧ k < 2 ^ 19 ∧ tbl (k / 1024) + 4096 < 2 ^ 31.
Proof.
  destruct HL as [_ _ _ H1 H2 _ _ [H3 H4] H5]. unfold top_of, tables_for, tbl. intros Hk Hlt.
  assert (4096 * k < d + 8192 * ((k + 1023) / 1024) + 12292) by (destruct (_ =? 0); zdm).
  split; [|split]; zdm.
Qed.

Lemma mapped_lowest m k t : mapped_to m k t -> 0 <= k < 8 * N -> lowest_free (at_ m t) k.
Proof.
  intros [_ Hbits _ _ _ _] Hk. destruct HL as [Hf Ha _ _ _ _ _ _ _]. left. unfold frames, used, at_, INDEX_FROM_BIT.
  cbn [frame_amount frame pmem set_pmem set_placement]. rewrite Hf, Ha. change 0x20 with 32.
  split; [zdm|]. split.
  - rewrite Hbits by done. apply Z.ltb_irrefl.
  - intros n Hn. rewrite Hbits by lia. apply Z.ltb_lt. lia.
Qed.

Lemma at_bitmap_ok m k t : mapped_to m k t -> bitmap_ok (at_ m t) ∧ INDEX_FROM_BIT (frame_amount (at_ m t)) = N.
Proof.
  intros [Hok _ _ _ _ _]. destruct HL as [Hf Ha _ H1 H2 _ _ [H3 H4] _]. unfold bitmap_ok, at_, INDEX_FROM_BIT.
  cbn [frame_amount frame pmem set_pmem set_placement]. rewrite Hf, Ha. change 0x20 with 32.
  replace (32 * N / 32) with N by zdm. split; [|done]. split; [done|lia].
Qed.

(** The page of [k] becomes present, with frame [k]. *)
Lemma alloc_next m k :
  let t := k / 1024 + 1 in
  mapped_to m k t -> 0 <= k < 8 * N -> k < 2 ^ 19 -> tbl (k / 1024) + 4096 < 2 ^ 31 ->
  ∃ m', pa_alloc_frame (tbl (k / 1024) + 4 * (k mod 1024)) 0 0 (at_ m t) = Done tt (at_ m' t) ∧ mapped_to m' (k + 1) t.
Proof.
  intros t Hm Hk Hk19 Htop. pose proof (at_bitmap_ok m k t Hm) as [Hbm HN]. pose proof (mapped_lowest m k t Hm Hk) as Hlow.
  destruct HL as [Hf Ha Hdir H1 H2 H3 Hw [H4 H5] H6]. destruct Hm as [Hok Hbits Hd Hp Hpg Hb].
  set (page := tbl (k / 1024) + 4 * (k mod 1024)).
  assert (Hpage : d + 12288 <= page < 2 ^ 31 - 4) by (unfold page, tbl in *; zdm).
  assert (Hword : word m page = 0).
  { unfold page. rewrite Hpg by (unfold t; zdm). rewrite (proj2 (Z.ltb_ge _ _)) by zdm. done. }
  destruct (pa_alloc_frame_near (at_ m t) page 0 0 k) as (m' & E & Hok' & W & U & F).
  - done.
  - rewrite HN. lia.
  - lia.
  - cbn [at_ frame set_pmem set_placement]. rewrite Hf. zdm.
  - lia.
  - unfold pte, at_. cbn [pmem set_pmem]. by rewrite Hword.
  - done.
  - unfold frames. rewrite HN. lia.
  - lia.
  - exists m'. split; [exact E|]. cbn [at_ pmem frame set_pmem set_placement] in W, U, F. rewrite Hf in *.
    rewrite Hword, fresh_entry in W by lia.
    assert (Hkw : f + 4 * (k / 32) + 4 <= d) by zdm.
    assert (Hsame : ∀ a, d <= a < 2 ^ 31 -> 4 <= Z.abs (page - a) -> word m' a = word m a) by (intros; apply F; lia).
    split; [done| | | | |].
    + intros n Hn. assert (Hn' : f + 4 * (n / 32) + 4 <= d) by zdm.
      specialize (U n ltac:(unfold frames; rewrite HN; lia) ltac:(lia)). unfold used in U.
      cbn [at_ frame pmem set_pmem set_placement] in U. rewrite Hf in U. rewrite U, Hbits by done.
      destruct (Z.eqb_spec n k), (Z.ltb_spec n k), (Z.ltb_spec n (k + 1)); done || lia.
    + intros j Hj. rewrite Hsame by lia. by apply Hd.
    + intros j Hj. rewrite Hsame by lia. by apply Hp.
    + intros j e Hj He. destruct (decide (1024 * j + e = k)) as [Hjk|Hjk].
      * rewrite (proj2 (Z.ltb_lt _ _)) by lia. rewrite Hjk, <- W. f_equal. unfold page. f_equal; [f_equal; zdm|zdm].
      * assert (j <= k / 1024) by (unfold t in Hj; lia).
        rewrite Hsame; [|unfold tbl in *; lia|].
        -- rewrite Hpg by done. destruct (Z.ltb_spec (1024 * j + e) k), (Z.ltb_spec (1024 * j + e) (k + 1)); done || lia.
        -- unfold page, tbl. destruct (decide (j = k / 1024)) as [->|]; zdm.
    + intros b Hb0 Hb1. rewrite F by zdm. by apply Hb.
Qed.

Lemma ltb_next j t : j ≠ t -> (j <? t + 1) = (j <? t).
Proof. intros. destruct (Z.ltb_spec j t), (Z.ltb_spec j (t + 1)); done || lia. Qed.

Lemma placement_next t s : 0 <= t -> top_of t <= 2 ^ 31 -> placement_address s = top_of t ->
  placement_kmalloc_ap sizeof_page_table 1 s = Done (tbl t, tbl t) (set_placement (top_of (t + 1)) s).
Proof.
  destruct HL as [_ _ _ H1 H2 H3 _ [_ H4] H5]. intros Ht Hmax Hp. unfold placement_kmalloc_ap, sizeof_page_table.
  assert (Hpos : 4096 <= top_of t) by (unfold top_of in *; destruct (t =? 0); lia).
  mrun. rewrite Hp. cbn [Z.eqb Pos.eqb andb]. unfold truth. rewrite land_page_mask by lia.
  rewrite (proj2 (Z.eqb_neq _ _)) by zdm. cbn [negb]. unfold page_align. rewrite land_page_mask by lia.
  assert (Ha : top_of t / 0x1000 * 0x1000 + 0x1000 = tbl t).
  { unfold top_of, tbl. destruct (Z.eqb_spec t 0) as [->|]; zdm. }
  assert (Hb : 0 <= tbl t <= 2 ^ 31 + 4096) by (rewrite <- Ha; zdm).
  rewrite Ha, (u32_small (tbl t)) by lia.
  assert (Hn : tbl t + 4096 = top_of (t + 1)).
  { unfold top_of, tbl. rewrite (proj2 (Z.eqb_neq _ _)) by lia. lia. }
  unfold mbind, M_bind, modify, gets, mret, M_ret. cbn [placement_address set_placement].
  rewrite Hn, u32_small; [done|]. lia.
Qed.

Lemma aligned_lor a : a mod 4096 = 0 -> Z.lor a 7 = a + 7.
Proof.
  intros Ha. rewrite Z.lor_comm. replace a with (Z.shiftl (a / 4096) 12) at 1
    by (rewrite Z.shiftl_mul_pow2 by lia; zdm). rewrite lor_shiftl by lia. zdm.
Qed.

(** Memory once the table [t] has been cleared and entered. *)
Record table_entered (m m3 : ram) (t : Z) : Prop := {
  te_ok : ram_ok m3;
  te_dir : word m3 (d + 4 * t) = tbl t;
  te_phys : word m3 (d + 4096 + 4 * t) = tbl t + 7;
  te_pages : ∀ e, 0 <= e < 1024 -> word m3 (tbl t + 4 * e) = 0;
  te_far : ∀ b, 0 <= b -> b + 4 <= tbl t -> 4 <= Z.abs (d + 4096 + 4 * t - b) -> 4 <= Z.abs (d + 4 * t - b) ->
    word m3 b = word m b
}.

Lemma new_table m t : 0 <= t < 1024 -> tbl t + 4096 < 2 ^ 31 -> ram_ok m ->
  ∃ m2, memset (tbl t) 0 sizeof_page_table (set_word (d + 4 * t) (tbl t) m) = Done (tbl t) m2 ∧
    table_entered m (set_word (d + 4096 + 4 * t) (tbl t + 7) m2) t.
Proof.
  intros Ht Hmax Hok. destruct HL as [_ _ _ H1 H2 H3 _ [H4 H5] H6]. unfold tbl in *.
  set (m1 := set_word (d + 4 * t) _ m).
  destruct (memset_words (d + 12288 + 8192 * t) 1024 m1) as (m2 & E2 & Hok2 & Hz & Hout); [lia|lia|lia|by apply set_word_ok|].
  exists m2. split; [exact E2|]. split; unfold tbl.
  - by apply set_word_ok.
  - rewrite word_set_ne, Hout by lia. unfold m1. rewrite word_set_eq. apply u32_small. lia.
  - rewrite word_set_eq. apply u32_small. lia.
  - intros e He. rewrite word_set_ne by lia. by apply Hz.
  - intros b Hb0 Hb Hb1 Hb2. rewrite word_set_ne, Hout by lia. unfold m1. apply word_set_ne; lia.
Qed.

Lemma table_added m m3 t : 0 <= t < 1024 -> table_entered m m3 t ->
  mapped_to m (1024 * t) t -> mapped_to m3 (1024 * t) (t + 1).
Proof.
  intros Ht [T1 T2 T3 T4 Hfar] [Hok Hbits Hd Hp Hpg Hb]. destruct HL as [_ _ _ H1 H2 H3 Hw [H4 H5] H6].
  split; [done| | | | |].
  - intros n Hn. rewrite Hfar by (unfold tbl; zdm). by apply Hbits.
  - intros j Hj. destruct (Z.eq_dec j t) as [->|Hne]; [by rewrite T2, (proj2 (Z.ltb_lt _ _)) by lia|].
    rewrite Hfar by (unfold tbl; lia). rewrite Hd, (ltb_next j t Hne) by done. done.
  - intros j Hj. destruct (Z.eq_dec j t) as [->|Hne]; [by rewrite T3, (proj2 (Z.ltb_lt _ _)) by lia|].
    rewrite Hfar by (unfold tbl; lia). rewrite Hp, (ltb_next j t Hne) by done. done.
  - intros j e Hj He. destruct (Z.eq_dec j t) as [->|Hne].
    + rewrite T4, (proj2 (Z.ltb_ge _ _)) by lia. done.
    + rewrite Hfar by (unfold tbl; lia). by apply Hpg; [lia|].
  - intros b Hb0 Hb1. rewrite Hfar by (unfold tbl; lia). by apply Hb.
Qed.

(** The table that a thousand and twenty-four further pages need. *)
Lemma add_table m t : 0 <= t < 1024 -> tbl t + 4096 < 2 ^ 31 -> mapped_to m (1024 * t) t ->
  ∃ m', paging_get_page (4096 * (1024 * t)) 1 d (at_ m t) = Done (tbl t) (at_ m' (t + 1)) ∧ mapped_to m' (1024 * t) (t + 1).
Proof.
  intros Ht Hmax Hm. destruct HL as [Hf Ha Hdir H1 H2 H3 Hw [H4 H5] H6].
  destruct (new_table m t Ht Hmax (mt_ok _ _ _ Hm)) as (m2 & E2 & Hte). set (m3 := set_word (d + 4096 + 4 * t) _ m2) in *.
  exists m3. split; [|by apply (table_added m)]. set (m1 := set_word (d + 4 * t) (tbl t) m) in *.
  assert (Htop : top_of t <= 2 ^ 31) by (unfold top_of, tbl in *; destruct (t =? 0); lia).
  assert (E2' : ∀ s, pmem s = m1 -> on_mem (memset (tbl t) 0 sizeof_page_table) s = Done (tbl t) (set_pmem m2 s)).
  { intros s Hs. unfold on_mem. erewrite zoom_done; [done|]. rewrite Hs. exact E2. }
  unfold paging_get_page. cbv zeta. replace (4096 * (1024 * t) / 4096) with (1024 * t) by zdm.
  replace (1024 * t / 1024) with t by zdm. replace (1024 * t mod 1024) with 0 by zdm.
  rewrite (bind_Done _ _ _ _ _ (ldw_done _ (at_ m t))). cbn [at_ pmem set_pmem]. unfold dir_table.
  rewrite (mt_dir _ _ _ Hm), Z.ltb_irrefl by lia. cbn [truth Z.eqb negb].
  rewrite (bind_Done _ _ _ _ _ (placement_next t (at_ m t) ltac:(lia) Htop eq_refl)).
  cbv beta iota. rewrite (bind_Done _ _ _ _ _ (stw_done _ _ _)). cbn [at_ pmem set_pmem set_placement]. fold m1.
  rewrite (bind_Done _ _ (set_pmem m1 _) _ _ (E2' (set_pmem m1 _) eq_refl)), (bind_Done _ _ _ _ _ (stw_done _ _ _)).
  rewrite aligned_lor by (unfold tbl; zdm). unfold dir_physical. cbn [pmem set_pmem set_placement]. fold m3.
  rewrite (bind_Done _ _ _ _ _ (ldw_done _ _)). cbn [pmem set_pmem]. rewrite (te_dir _ _ _ Hte). unfold table_page, at_.
  rewrite u32_small by (unfold tbl in *; lia). do 2 f_equal. lia.
Qed.

Lemma map_step_spec m k :
  0 <= k -> mapped_to m k (tables_for k) -> 4096 * k < top_of (tables_for k) + 4096 ->
  ∃ m', map_step (4096 * k) (at_ m (tables_for k)) = Done (inl (4096 * (k + 1))) (at_ m' (tables_for (k + 1))) ∧
    mapped_to m' (k + 1) (tables_for (k + 1)).
Proof.
  intros Hk Hm Hlt. destruct (page_bound k Hk Hlt) as (Hb1 & Hb2 & Hb3).
  assert (HT : tables_for (k + 1) = k / 1024 + 1) by (unfold tables_for; zdm).
  assert (Hget : ∃ m1, paging_get_page (4096 * k) 1 d (at_ m (tables_for k))
      = Done (tbl (k / 1024) + 4 * (k mod 1024)) (at_ m1 (k / 1024 + 1)) ∧ mapped_to m1 k (k / 1024 + 1)).
  { destruct (Z.eq_dec (k mod 1024) 0) as [H0|H0].
    - assert (HT0 : tables_for k = k / 1024) by (unfold tables_for; zdm). rewrite HT0 in *.
      replace k with (1024 * (k / 1024)) in Hm at 1 by zdm.
      destruct (add_table m (k / 1024) ltac:(zdm) Hb3 Hm) as (m1 & E & Hm1). exists m1.
      replace (1024 * (k / 1024)) with k in E, Hm1 by zdm. split; [|done]. rewrite E, H0. f_equal. lia.
    - assert (HT0 : tables_for k = k / 1024 + 1) by (unfold tables_for; zdm). rewrite HT0 in *.
      exists m. split; [|done]. unfold paging_get_page. cbv zeta. replace (4096 * k / 4096) with k by zdm.
      assert (Hw : word (pmem (at_ m (k / 1024 + 1))) (dir_table d (k / 1024)) = tbl (k / 1024)).
      { unfold at_, dir_table. cbn [pmem set_pmem]. by rewrite (mt_dir _ _ _ Hm), (proj2 (Z.ltb_lt _ _)) by zdm. }
      rewrite (bind_Done _ _ _ _ _ (ldw_done _ _)), Hw. destruct HL as [_ _ _ H1 H2 _ _ [_ H4] H5].
      assert (0 < tbl (k / 1024)) by (unfold tbl; zdm).
      unfold truth. rewrite (proj2 (Z.eqb_neq _ _)) by lia. cbn [negb]. unfold table_page. rewrite u32_small by zdm. done. }
  destruct Hget as (m1 & E1 & Hm1). destruct (alloc_next m1 k Hm1 ltac:(lia) Hb2 Hb3) as (m2 & E2 & Hm2).
  rewrite HT. exists m2. split; [|exact Hm2]. unfold map_step.
  rewrite (bind_Done _ _ _ _ _ (eq_refl : gets placement_address (at_ m (tables_for k)) = Done (top_of (tables_for k)) _)).
  assert (Htop : 0 <= top_of (tables_for k) /\ top_of (tables_for k) + 0x1000 < 2 ^ 32).
  { destruct HL as [_ _ _ H1 H2 _ _ [_ H4] H5]. unfold top_of, tables_for in *. destruct (_ =? 0); zdm. }
  rewrite u32_small, (proj2 (Z.ltb_lt _ _)) by lia.
  rewrite (bind_Done _ _ _ _ _ (eq_refl : gets kernel_directory (at_ m (tables_for k)) = Done (kernel_directory s0) _)), (ly_dir HL).
  mstep E1. mstep E2. unfold mret, M_ret. do 2 f_equal. rewrite u32_small; lia.
Qed.

Lemma map_loop_spec m :
  mapped_to m 0 0 ->
  ∃ m' k, while word_fuel map_step 0 (at_ m 0) = Done tt (at_ m' (tables_for k)) ∧ mapped_to m' k (tables_for k) ∧
    0 <= k < 2 ^ 19 + 1 ∧ top_of (tables_for k) + 4096 <= 4096 * k.
Proof.
  intros Hm. destruct (wp_Done (while word_fuel map_step 0) (at_ m 0) (λ _ s', ∃ m' k, s' = at_ m' (tables_for k) ∧
    mapped_to m' k (tables_for k) ∧ 0 <= k < 2 ^ 19 + 1 ∧ top_of (tables_for k) + 4096 <= 4096 * k)) as ([] & s' & E & m' & k & -> & H);
    [|by exists m', k].
  apply (wp_while False map_step (λ i s', ∃ m' k, i = 4096 * k ∧ s' = at_ m' (tables_for k) ∧ 0 <= k < 2 ^ 19 + 1 ∧
    mapped_to m' k (tables_for k)) (λ i _, Z.to_nat (2 ^ 31 + 4096 - i))).
  - intros i s (m1 & k & -> & -> & Hk & Hm1). unfold wp.
    destruct (decide (4096 * k < top_of (tables_for k) + 4096)) as [Hlt|Hge].
    + destruct (map_step_spec m1 k ltac:(lia) Hm1 Hlt) as (m2 & E & Hm2). rewrite E.
      destruct (page_bound k ltac:(lia) Hlt) as (_ & Hb & _). split; [|lia].
      exists m2, (k + 1). split; [done|]. split; [done|]. split; [lia|done].
    + unfold map_step.
      rewrite (bind_Done _ _ _ _ _ (eq_refl : gets placement_address (at_ m1 (tables_for k)) = Done (top_of (tables_for k)) _)).
      assert (Htop : 0 <= top_of (tables_for k) /\ top_of (tables_for k) + 0x1000 < 2 ^ 32).
      { destruct HL as [_ _ _ H1 H2 _ _ [_ H4] H5]. unfold top_of, tables_for in *. destruct (_ =? 0); zdm. }
      rewrite u32_small, (proj2 (Z.ltb_ge _ _)) by lia. exists m1, k. split; [done|]. split; [done|]. lia.
  - rewrite Z.sub_0_r. pose proof word_fuel_Z. lia.
  - exists m, 0. split; [done|]. split; [done|]. by split.
Qed.

(** ** The walk *)

Lemma tbl_bits j : Z.testbit (tbl j + 7) 0 = true ∧ (tbl j + 7) / 4096 * 4096 = tbl j.
Proof.
  destruct HL as [_ _ _ _ _ H3 _ _ _]. unfold tbl. split; [|zdm].
  rewrite Z.bit0_odd. replace (d + 12288 + 8192 * j + 7) with (1 + 2 * (2048 * (d / 4096) + 6144 + 4096 * j + 3)) by zdm.
  by rewrite Z.odd_add_mul_2.
Qed.

Lemma walk_identity m k v :
  mapped_to m k (tables_for k) -> 0 <= k <= 2 ^ 20 -> 0 <= v < 2 ^ 32 ->
  walk m (d + 4096) v = if v <? 4096 * k then Some v else None.
Proof.
  intros Hm Hk Hv. unfold walk. set (j := v / 2 ^ 22). assert (Hj : 0 <= j < 1024) by (unfold j; zdm).
  rewrite (mt_phys _ _ _ Hm) by done. destruct (Z.ltb_spec j (tables_for k)) as [Hlt|Hge].
  - destruct (tbl_bits j) as [-> ->]. rewrite (mt_pages _ _ _ Hm) by zdm.
    assert (Hn : 1024 * j + v / 4096 mod 1024 = v / 4096) by (unfold j; zdm). rewrite Hn.
    destruct (Z.ltb_spec (v / 4096) k), (Z.ltb_spec v (4096 * k)); try zdm; [|done].
    destruct (entry_bits (v / 4096) ltac:(zdm)) as [-> ->]. f_equal. zdm.
  - cbn [Z.testbit]. destruct (Z.ltb_spec v (4096 * k)); [|done]. unfold tables_for, j in *. zdm.
Qed.
End identity.

(** ** The whole of [paging_init] *)

Section init.
Implicit Types s : pstate.

Definition bitmap_bytes s : Z := 32 * (mem_end s / 4096).
Definition directory_at s : Z := (placement_address s + bitmap_bytes s) / 4096 * 4096 + 4096.

(** Memory before the loop: bitmap and directory are cleared. *)
Definition before_loop s (m : ram) : pstate :=
  PState m (directory_at s + 8196) (placement_address s) (mem_end s / 4096 * 1024) (mem_end s)
    (mem_end s / 4096 * 4096) (directory_at s) (current_directory s) (cr3 s) (cr0 s) (pf_handler s).

Definition enough s : Prop :=
  0x1000 <= placement_address s ∧ 0 <= mem_end s < 2 ^ 32 ∧
  placement_address s + bitmap_bytes s + 0x9000 <= 2 ^ 30 ∧
  placement_address s + bitmap_bytes s + 0x9000 <= 2 ^ 14 * bitmap_bytes s.

Lemma enough_layout s m : enough s ->
  layout (before_loop s m) (placement_address s) (directory_at s) (bitmap_bytes s).
Proof.
  intros (H1 & H2 & H3 & H4). unfold bitmap_bytes, directory_at in *.
  split; cbn [before_loop frame frame_amount kernel_directory]; unfold directory_at, bitmap_bytes; zdm || (split; zdm) || done.
Qed.

Lemma init_page_allocator_spec s : enough s -> ram_ok (pmem s) ->
  ∃ m, init_page_allocator s = Done tt (PState m (placement_address s + bitmap_bytes s) (placement_address s)
      (mem_end s / 4096 * 1024) (mem_end s) (mem_end s / 4096 * 4096) (kernel_directory s)
      (current_directory s) (cr3 s) (cr0 s) (pf_handler s)) ∧ ram_ok m ∧
    (∀ i, 0 <= i < 8 * (mem_end s / 4096) -> word m (placement_address s + 4 * i) = 0) ∧
    ∀ b, 0 <= b -> b + 4 <= placement_address s -> word m b = word (pmem s) b.
Proof.
  intros (H1 & H2 & H3 & H4) Hok. unfold bitmap_bytes in *. set (q := mem_end s / 4096) in *.
  assert (0 <= q) by (unfold q; zdm).
  destruct (memset_words (placement_address s) (8 * q) (pmem s)) as (m & E & Hm & Hz & Hout); [lia|lia|lia|done|].
  exists m. split; [|split; [exact Hm|split; [exact Hz|intros b Hb0 Hb; apply Hout; lia]]]. unfold init_page_allocator. mrun.
  rewrite land_page_mask by done. change 0x1000 with 4096. fold q. unfold INDEX_FROM_BIT.
  replace (q * 4096 / 4 / 0x20) with (32 * q) by zdm. replace (q * 4096 / 4) with (q * 1024) by zdm.
  assert (Ep : placement_kmalloc (32 * q) s = Done (placement_address s) (set_placement (placement_address s + 32 * q) s))
    by (unfold placement_kmalloc; mrun; by rewrite u32_small by lia).
  mstep Ep. set (s1 := set_bitmap (placement_address s) (q * 1024) (q * 4096) (set_placement (placement_address s + 32 * q) s)).
  rewrite (bind_Done _ _ _ tt s1) by done.
  assert (Em : on_mem (memset (placement_address s) 0 (32 * q)) s1 = Done (placement_address s) (set_pmem m s1)).
  { unfold on_mem. erewrite zoom_done; [done|]. replace (32 * q) with (4 * (8 * q)) by lia. exact E. }
  by rewrite (bind_Done _ _ _ _ _ Em).
Qed.

Lemma clear_directory s m : enough s -> ram_ok m ->
  (∀ i, 0 <= i < 8 * (mem_end s / 4096) -> word m (placement_address s + 4 * i) = 0) ->
  (∀ b, 0 <= b -> b + 4 <= placement_address s -> word m b = word (pmem s) b) ->
  ∃ m', memset (directory_at s) 0 sizeof_page_directory m = Done (directory_at s) m' ∧
    mapped_to (placement_address s) (directory_at s) (bitmap_bytes s) (pmem s) m' 0 0.
Proof.
  intros He Hok Hz Hb. pose proof (enough_layout s m He) as [_ _ _ L1 L2 L3 _ [L4 L5] L6].
  destruct (memset_words (directory_at s) 2049 m) as (m' & E & Hm & Hz' & Hout); [lia|lia|lia|done|].
  exists m'. split; [exact E|]. split; [done| | | | |].
  - intros n Hn. rewrite Hout, Hz by (unfold bitmap_bytes in *; zdm). rewrite Z.testbit_0_l.
    symmetry. apply Z.ltb_ge. lia.
  - intros j Hj. rewrite Hz' by lia. by rewrite (proj2 (Z.ltb_ge _ _)) by lia.
  - intros j Hj. replace (directory_at s + 4096 + 4 * j) with (directory_at s + 4 * (1024 + j)) by lia.
    rewrite Hz' by lia. by rewrite (proj2 (Z.ltb_ge _ _)) by lia.
  - intros j e Hj. lia.
  - intros b Hb0 Hb1. rewrite Hout by lia. by apply Hb.
Qed.

Lemma directory_placed s s1 : enough s -> placement_address s1 = placement_address s + bitmap_bytes s ->
  placement_kmalloc_ap sizeof_page_directory 1 s1
  = Done (directory_at s, directory_at s) (set_placement (directory_at s + 8196) s1).
Proof.
  intros Hroom Hp. unfold placement_kmalloc_ap, sizeof_page_directory. mrun. rewrite Hp. cbn [Z.eqb Pos.eqb andb].
  pose proof (enough_layout s (Ram ∅) Hroom) as [_ _ _ L1 L2 L3 _ [L4 L5] L6]. destruct Hroom as (R1 & R2 & R3 & _).
  assert (R4 : 0 <= bitmap_bytes s) by (unfold bitmap_bytes; zdm). unfold truth.
  rewrite land_page_mask, (proj2 (Z.eqb_neq _ _)) by zdm. cbn [negb]. unfold page_align. rewrite land_page_mask by lia.
  change (_ / 0x1000 * 0x1000 + 0x1000) with (directory_at s). rewrite (u32_small (directory_at s)) by lia.
  unfold mbind, M_bind, modify, gets, mret, M_ret. cbn [placement_address set_placement]. by rewrite u32_small by lia.
Qed.

Lemma paging_init_spec s
    (Hok : ram_ok (pmem s)) (Hroom : enough s) :
  ∃ s' top, paging_init s = Done tt s' ∧
    placement_address s + bitmap_bytes s <= kernel_directory s' < placement_address s' ∧ placement_address s' + 0x1000 <= top ∧
    (∀ v, 0 <= v < 2 ^ 32 -> translate s' v = if v <? top then Some v else None) ∧
    current_directory s' = kernel_directory s' ∧ pf_handler s' = true ∧
    ∀ b, 0 <= b -> b + 4 <= placement_address s -> word (pmem s') b = word (pmem s) b.
Proof.
  destruct (init_page_allocator_spec s Hroom Hok) as (m1 & E1 & Hm1 & Hz1 & Hb1).
  destruct (clear_directory s m1 Hroom Hm1 Hz1 Hb1) as (m2 & E2 & Hm2).
  pose proof (enough_layout s m2 Hroom) as HL. set (d := directory_at s) in *.
  destruct (map_loop_spec _ _ _ _ (pmem s) HL m2 Hm2) as (m3 & k & E3 & Hm3 & Hk & Htop).
  set (s3 := at_ (before_loop s m2) d m3 (tables_for k)) in *.
  set (m4 := set_word (d + 8192) (d + 4096) m3).
  pose proof HL as [_ _ _ L1 L2 L3 _ [L4 L5] L6].
  assert (Hm4 : mapped_to (placement_address s) d (bitmap_bytes s) (pmem s) m4 k (tables_for k)).
  { destruct Hm3 as [? B D Ph Pg Hlow]. unfold m4. split; [by apply set_word_ok| | | | |]; intros;
      rewrite word_set_ne by (unfold tbl, tables_for in *; zdm); auto. }
  exists (set_paging d (d + 4096) (Z.lor (cr0 s) 0x80000000) (set_handler (set_pmem m4 s3))), (4096 * k).
  split; [|split; [|split; [|split; [|split; [reflexivity|split; [reflexivity|exact (mt_below _ _ _ _ _ _ _ Hm4)]]]]]].
  - unfold paging_init. mstep E1. set (s1 := PState _ _ _ _ _ _ _ _ _ _ _).
    pose proof (directory_placed s s1 Hroom eq_refl : _ = Done (d, d) (set_placement (d + 8196) s1)) as Ed.
    mstep Ed. cbn [fst]. set (s2 := set_kernel_directory d (set_placement (d + 8196) s1)).
    rewrite (bind_Done _ _ _ tt s2) by done.
    assert (Ec : on_mem (memset d 0 sizeof_page_directory) s2 = Done d (set_pmem m2 s2)).
    { unfold on_mem. erewrite zoom_done; [done|]. exact E2. }
    mstep Ec. change (set_pmem m2 s2) with (at_ (before_loop s m2) d m2 0). mstep E3.
    unfold dir_physicalAddr, dir_physical. rewrite Z.mul_0_r, Z.add_0_r.
    rewrite (bind_Done _ _ _ _ _ (stw_done _ _ _)). cbn [pmem s3 at_ set_pmem]. fold m4.
    unfold paging_switch_directory, dir_physicalAddr.
    rewrite (bind_Done _ _ _ tt (set_handler (set_pmem m4 s3))) by done.
    rewrite (bind_Done _ _ _ _ _ (ldw_done _ _)). cbn [pmem set_handler set_pmem]. unfold m4 at 1.
    rewrite word_set_eq, u32_small by lia. done.
  - cbn. unfold top_of, tables_for in *. destruct (_ =? 0); zdm.
  - cbn. exact Htop.
  - intros v Hv. unfold translate. cbn [cr0 set_paging cr3 pmem set_handler set_pmem].
    rewrite Z.lor_spec. change (Z.testbit 0x80000000 31) with true. rewrite orb_true_r.
    apply (walk_identity _ _ _ _ (pmem s) HL m4 k v Hm4); [lia|done].
Qed.
(** C11: [paging_init] identity-maps the kernel: when it returns, paging is on and
    the processor translates every address below some [top] to itself, and
    finds no page for any other. [top] lies a page or more above all the
    memory handed out so far, the bitmap, the directory and the tables built
    meanwhile included; memory below what the boot left is not written. *)
Theorem paging_init_identity s
    (Hok : ram_ok (pmem s)) (Hroom : enough s) :
  ∃ s' top, paging_init s = Done tt s' ∧
    placement_address s + bitmap_bytes s <= kernel_directory s' < placement_address s' ∧ placement_address s' + 0x1000 <= top ∧
    (∀ v, 0 <= v < 2 ^ 32 -> translate s' v = if v <? top then Some v else None) ∧
    current_directory s' = kernel_directory s' ∧ pf_handler s' = true ∧
    ∀ b, 0 <= b -> b + 4 <= placement_address s -> word (pmem s') b = word (pmem s) b.
Proof. by apply paging_init_spec. Qed.
End init.

(** A kernel ending at 1 MB + 200 KB with the memory that page_allocator.c
    assumes. *)
Definition boot_pages : pstate := PState (Ram ∅) 0x132000 0 0 0xF000000 0 0 0 0 0x11 false.

Lemma paging_init_identity_witness :
  ∃ s' top, paging_init boot_pages = Done tt s' ∧ 0x313000 <= top ∧
    translate s' 0xB8000 = Some 0xB8000 ∧ translate s' 0x313000 = Some 0x313000.
Proof.
  destruct (paging_init_identity boot_pages) as (s' & top & E & Hd & Htop & Ht & _).
  - intros a. unfold byte. change (ram_bytes (pmem boot_pages)) with (∅ : gmap Z Z). rewrite lookup_empty. cbn. lia.
  - repeat split; by vm_compute.
  - change (placement_address boot_pages + bitmap_bytes boot_pages) with 0x312000 in Hd.
    exists s', top. split; [exact E|]. split; [lia|].
    rewrite (Ht 0xB8000), (Ht 0x313000) by lia. clear Ht E. destruct (Z.ltb_spec 0xB8000 top), (Z.ltb_spec 0x313000 top); done || lia.
Defined.
