(* ===== verification/Regions.v ===== *)
(** * The region list (kernel/arch/x86/mman.c, kernel/arch/arm/rpi/mman.c)

    The two files are the same text. Regions are the nodes of a list linked
    by [next]; the first ones come from the static array [mman_prealloc], the
    others from malloc. *)

From S2P Require Import Prelude KHeap.

Record mman_region_t := Region {
  r_prev : Z; r_next : Z; r_used : Z; r_type : Z; r_flags : Z; r_start : Z; r_size : Z
}.
Definition set_r_prev z r := Region z (r_next r) (r_used r) (r_type r) (r_flags r) (r_start r) (r_size r).
Definition set_r_next z r := Region (r_prev r) z (r_used r) (r_type r) (r_flags r) (r_start r) (r_size r).
Definition set_r_size z r := Region (r_prev r) (r_next r) (r_used r) (r_type r) (r_flags r) (r_start r) z.
Definition sizeof_region : Z := 20.
Definition zero_region : mman_region_t := Region 0 0 0 0 0 0 0.

(** The variables of mman.c, and the state of malloc and memallocp. *)
Record mman (AS : Type) := Mman {
  regions : gmap Z mman_region_t;
  mman_region : Z;
  mman_prealloc_ptr : Z;
  mman_status : Z;
  r_sys : AS
}.
Arguments Mman {AS}. Arguments regions {AS}. Arguments mman_region {AS}.
Arguments mman_prealloc_ptr {AS}. Arguments mman_status {AS}. Arguments r_sys {AS}.

Section mman.
Context {AS : Type} `{!Allocator AS}.
(** The addresses of [mman_prealloc] and [_end], and the page allocator of
    memory.c. *)
Context (mman_prealloc end_ : Z) (memallocp : Z -> M AS Z).
Local Abbreviation K := (M (mman AS)).
Implicit Types s : mman AS.

Definition set_regions h s : mman AS := Mman h (mman_region s) (mman_prealloc_ptr s) (mman_status s) (r_sys s).
Definition set_status n s := Mman (regions s) (mman_region s) (mman_prealloc_ptr s) n (r_sys s).
Definition set_prealloc_ptr n s := Mman (regions s) (mman_region s) n (mman_status s) (r_sys s).
Definition set_mman_region a s := Mman (regions s) a (mman_prealloc_ptr s) (mman_status s) (r_sys s).
Definition set_sys (x : AS) s := Mman (regions s) (mman_region s) (mman_prealloc_ptr s) (mman_status s) x.

Definition ldr (a : Z) : K mman_region_t :=
  if a =? 0 then fail NullPointer
  else h ← gets regions; of_option (WildPointer a) (h !! a).
Definition updr (a : Z) (f : mman_region_t -> mman_region_t) : K unit :=
  r ← ldr a; modify (λ s, set_regions (<[a := f r]> (regions s)) s).

(** [malloc(sizeof(mman_region_t))]; the block's contents are arbitrary. *)
Definition malloc_region : K Z :=
  p ← zoom r_sys set_sys (am_malloc sizeof_region);
  if p =? 0 then mret 0
  else modify (λ s, set_regions (<[p := Region am_junk am_junk am_junk am_junk am_junk am_junk am_junk]> (regions s)) s);;
       mret p.

(** [&mman_prealloc[mman_prealloc_ptr++]] *)
Definition prealloc_region : K Z :=
  i ← gets mman_prealloc_ptr;
  modify (set_prealloc_ptr (u8 (i + 1)));;
  mret (mman_prealloc + sizeof_region * i).

Definition append_step (region : Z) : Z -> K (Z + unit) := λ parent_ptr,
  if parent_ptr =? 0 then updr region (set_r_next 0);; mret (inr tt)
  else
    p ← ldr parent_ptr;
    if r_next p =? 0 then
      updr parent_ptr (set_r_next region);;
      updr region (set_r_prev parent_ptr);;
      updr region (set_r_next 0);;
      mret (inr tt)
    else mret (inl (r_next p)).

Definition memsig (start size type flags : Z) : K Z :=
  if size =? 0 then mret 1
  else
    st ← gets mman_status;
    if st =? 0 then mret 2
    else
      region ← (if st =? 1 then prealloc_region else malloc_region);
      updr region (λ r, Region (r_prev r) (r_next r) 1 type flags start size);;
      r ← ldr region;
      (if (r_type r =? 1) && (st =? 1) then modify (set_status 2) else mret tt);;
      parent_ptr ← gets mman_region;
      while word_fuel (append_step region) parent_ptr;;
      mret 0.

Definition resize_step (region size : Z) : Z -> K (Z + Z) := λ parent_ptr,
  if parent_ptr =? 0 then mret (inr 2)
  else
    p ← ldr parent_ptr;
    r ← ldr region;
    if negb (parent_ptr =? region) && (r_start r <? r_start p) && (r_start p <? u32 (size + r_start r))
    then mret (inr 1)
    else if r_next p =? 0 then updr region (set_r_size size);; mret (inr 0)
    else mret (inl (r_next p)).

Definition memresize (region size : Z) : K Z :=
  ldr region;;
  parent_ptr ← gets mman_region;
  while word_fuel (resize_step region size) parent_ptr.

Definition get_kernel_heap : K Z :=
  parent_ptr ← gets mman_region;
  while word_fuel (λ parent_ptr,
    if parent_ptr =? 0 then mret (inr 0)
    else p ← ldr parent_ptr;
         mret (if r_type p =? 1 then inr parent_ptr else inl (r_next p)))
    parent_ptr.

Definition mem_heap_sbrk (amount : Z) : K Z :=
  heap ← get_kernel_heap;
  if amount =? 0 then h ← ldr heap; mret (u32 (r_start h + r_size h))
  else
    let actual_amount := amount / 0x1000 in
    let actual_amount := if actual_amount =? 0 then actual_amount + 1 else actual_amount in
    zoom r_sys set_sys (memallocp (s32 actual_amount)).

(** [memset] of the 0xFF entries of the array *)
Definition clear_prealloc (h : gmap Z mman_region_t) : gmap Z mman_region_t :=
  foldr (λ i h, <[mman_prealloc + sizeof_region * i := zero_region]> h) h (seqZ 0 0xFF).

Definition memman_init : K unit :=
  modify (λ s, set_regions (clear_prealloc (regions s)) s);;
  modify (set_mman_region mman_prealloc);;
  modify (set_status 1);;
  memsig 0 end_ 0 0x21;;
  memsig (u32 (end_ / 0x1000 * 0x1000 + 0x1000)) 0x100000 1 0x21;;
  mret tt.
End mman.

(** ** The list *)

(** Following [next] from [a] visits the regions [l]. *)
Fixpoint chain (h : gmap Z mman_region_t) (a : Z) (l : list (Z * mman_region_t)) : Prop :=
  match l with
  | [] => a = 0
  | (b, r) :: l' => a = b ∧ b ≠ 0 ∧ h !! b = Some r ∧ chain h (r_next r) l'
  end.

(** What a region says about memory. *)
Definition extent (x : Z * mman_region_t) : Z * Z * Z * Z :=
  (r_start x.2, r_size x.2, r_type x.2, r_flags x.2).

Section chains.
Implicit Types h : gmap Z mman_region_t.

Lemma chain_insert_out h a l b r : b ∉ l.*1 -> chain h a l -> chain (<[b := r]> h) a l.
Proof.
  revert a. induction l as [|[c rc] l IH]; intros a Hb; [done|].
  cbn. rewrite fmap_cons in Hb. apply not_elem_of_cons in Hb as [Hbc Hb]. intros (? & ? & ? & ?).
  rewrite lookup_insert_ne by (cbn in Hbc; congruence). auto.
Qed.

Lemma chain_lookup h a l b r : chain h a l -> (b, r) ∈ l -> h !! b = Some r ∧ b ≠ 0.
Proof.
  revert a. induction l as [|[c rc] l IH]; intros a; [intros ? []%not_elem_of_nil|].
  intros (? & ? & ? & Hl) [[= -> ->]|Hin]%elem_of_cons; [done|by eapply IH].
Qed.

(** Linking a region behind the last one. *)
Lemma chain_link h a l b rb c rc :
  chain h a (l ++ [(b, rb)]) -> NoDup (l ++ [(b, rb)]).*1 -> c ∉ (l ++ [(b, rb)]).*1 -> c ≠ 0 ->
  r_next rc = 0 ->
  chain (<[c := rc]> (<[b := set_r_next c rb]> h)) a (l ++ [(b, set_r_next c rb); (c, rc)]).
Proof.
  revert a. induction l as [|[d rd] l IH]; intros a; cbn [app chain].
  - intros (-> & Hb & Hlk & _) _ Hc Hc0 Hrc. cbn in Hc. apply not_elem_of_cons in Hc as [Hcb _].
    cbn in Hcb. rewrite lookup_insert_ne by done. rewrite !lookup_insert_eq. done.
  - intros (-> & Hd & Hlk & Hl) Hnd Hc Hc0 Hrc. cbn in Hnd, Hc.
    apply NoDup_cons in Hnd as [Hnin Hnd]. apply not_elem_of_cons in Hc as [Hcd Hc]. cbn in *.
    rewrite fmap_app in Hnin. apply not_elem_of_app in Hnin as [_ Hdb].
    cbn in Hdb. apply not_elem_of_cons in Hdb as [Hdb _]. cbn in Hdb.
    rewrite !lookup_insert_ne by done. split; [done|]. split; [done|]. split; [done|].
    by apply IH.
Qed.
End chains.

Section mman_specs.
Context {AS : Type} `{!Allocator AS}.
Context (mman_prealloc end_ : Z) (memallocp : Z -> M AS Z).
Implicit Types s : mman AS.

Lemma ldr_done s a r : a ≠ 0 -> regions s !! a = Some r -> ldr a s = Done r s.
Proof. intros Ha Hr. unfold ldr. rewrite (proj2 (Z.eqb_neq _ _)) by done. mrun. by rewrite Hr. Qed.

Lemma updr_done s a r f :
  a ≠ 0 -> regions s !! a = Some r -> updr a f s = Done tt (set_regions (<[a := f r]> (regions s)) s).
Proof. intros Ha Hr. unfold updr. by mstep (ldr_done s a r Ha Hr). Qed.

Lemma append_last region s b rb rc :
  b ≠ 0 -> region ≠ 0 -> region ≠ b -> regions s !! b = Some rb -> r_next rb = 0 ->
  regions s !! region = Some rc ->
  append_step region b s = Done (inr tt) (set_regions
    (<[region := set_r_next 0 (set_r_prev b rc)]> (<[b := set_r_next region rb]> (regions s))) s).
Proof.
  intros Hb Hr Hne Hrb Hnext Hrc. unfold append_step. rewrite (proj2 (Z.eqb_neq _ _)) by done.
  mstep (ldr_done s b rb Hb Hrb). rewrite Hnext. cbn [Z.eqb].
  mstep (updr_done s b rb (set_r_next region) Hb Hrb).
  set (s1 := set_regions _ s).
  assert (H1 : regions s1 !! region = Some rc) by (cbn; by rewrite lookup_insert_ne).
  mstep (updr_done s1 region rc (set_r_prev b) Hr H1).
  set (s2 := set_regions _ s1).
  assert (H2 : regions s2 !! region = Some (set_r_prev b rc)) by (cbn; by rewrite lookup_insert_eq).
  mstep (updr_done s2 region _ (set_r_next 0) Hr H2). unfold s2, s1. cbn.
  by rewrite insert_insert_eq.
Qed.

Lemma append_runs region s b rb rc l : ∀ a,
  chain (regions s) a (l ++ [(b, rb)]) -> region ≠ 0 -> region ≠ b ->
  regions s !! region = Some rc ->
  runs (append_step region) (S (length l)) a s tt (set_regions
    (<[region := set_r_next 0 (set_r_prev b rc)]> (<[b := set_r_next region rb]> (regions s))) s).
Proof.
  induction l as [|[d rd] l IH]; intros a; cbn [app chain].
  - intros (-> & Hb & Hlk & Hn) Hr Hne Hrc. apply runs_end. by apply append_last.
  - intros (-> & Hd & Hlk & Hl) Hr Hne Hrc. cbn [length].
    eapply runs_step; [|by apply IH].
    unfold append_step. rewrite (proj2 (Z.eqb_neq _ _)) by done.
    mstep (ldr_done s d rd Hd Hlk). rewrite (proj2 (Z.eqb_neq (r_next rd) 0)); [done|].
    destruct l as [|[? ?] l]; cbn in Hl; [by destruct Hl as (-> & ? & _)|by destruct Hl as (-> & ? & _)].
Qed.

(** A region whose record is [r0], filled in and linked behind the last. *)
Definition new_region (prev start size type flags : Z) (r0 : mman_region_t) : mman_region_t :=
  Region prev 0 1 type flags start size.

Lemma memsig_link s1 region r0 start size type flags l b rb st :
  chain (regions s1) (mman_region s1) (l ++ [(b, rb)]) -> NoDup (l ++ [(b, rb)]).*1 ->
  region ∉ (l ++ [(b, rb)]).*1 -> region ≠ 0 -> regions s1 !! region = Some r0 ->
  Z.of_nat (length l) < 2 ^ 32 ->
  let s' := set_regions (<[region := new_region b start size type flags r0]>
      (<[b := set_r_next region rb]> (regions s1)))
      (if (type =? 1) && (st =? 1) then set_status 2 s1 else s1) in
  (updr region (λ r, Region (r_prev r) (r_next r) 1 type flags start size);;
   r ← ldr region;
   (if (r_type r =? 1) && (st =? 1) then modify (set_status 2) else mret tt);;
   parent_ptr ← gets mman_region;
   while word_fuel (append_step region) parent_ptr;; mret 0) s1 = Done 0 s' ∧
  chain (regions s') (mman_region s') (l ++ [(b, set_r_next region rb); (region, new_region b start size type flags r0)]).
Proof.
  intros Hch Hnd Hnin Hne Hr0 Hlen s'.
  mstep (updr_done s1 region r0 (λ r, Region (r_prev r) (r_next r) 1 type flags start size) Hne Hr0).
  set (rc := Region (r_prev r0) (r_next r0) 1 type flags start size).
  set (s2 := set_regions _ s1).
  assert (H2 : regions s2 !! region = Some rc) by (cbn; by rewrite lookup_insert_eq).
  mstep (ldr_done s2 region rc Hne H2). cbn [r_type rc].
  set (s3 := if (type =? 1) && (st =? 1) then set_status 2 s2 else s2).
  assert (H3 : (if (type =? 1) && (st =? 1) then modify (set_status 2) else mret tt) s2 = Done tt s3)
    by (unfold s3; by destruct (_ && _)).
  mstep H3. assert (Hs3 : regions s3 = regions s2 ∧ mman_region s3 = mman_region s1)
    by (unfold s3; by destruct (_ && _)). destruct Hs3 as [Hr3 Hm3].
  rewrite (bind_Done _ _ _ _ _ (eq_refl : gets mman_region s3 = Done (mman_region s3) s3)), Hm3.
  assert (Hch3 : chain (regions s3) (mman_region s1) (l ++ [(b, rb)])).
  { rewrite Hr3. cbn. by apply chain_insert_out. }
  assert (Hneb : region ≠ b).
  { intros ->. apply Hnin. rewrite fmap_app, elem_of_app. right. by left. }
  pose proof (append_runs region s3 b rb rc l _ Hch3 Hne Hneb ltac:(by rewrite Hr3)) as Hruns.
  rewrite (bind_Done _ _ _ _ _ (runs_while _ _ word_fuel _ _ _ _ Hruns ltac:(pose proof word_fuel_Z; lia))).
  assert (Heq : set_regions (<[region := set_r_next 0 (set_r_prev b rc)]> (<[b := set_r_next region rb]> (regions s3))) s3 = s').
  { unfold s', s3. rewrite (insert_insert_ne _ _ b) by done.
    destruct (_ && _); unfold s2, set_regions; cbn; by rewrite insert_insert_eq, (insert_insert_ne _ _ b). }
  rewrite Heq. split; [done|].
  assert (Hs' : regions s' = <[region := new_region b start size type flags r0]> (<[b := set_r_next region rb]> (regions s1))
    ∧ mman_region s' = mman_region s1) by (unfold s'; by destruct (_ && _)).
  destruct Hs' as [-> ->]. by apply chain_link.
Qed.
End mman_specs.

Section mman_operations.
Context {AS : Type} `{!Allocator AS}.
Context (mman_prealloc end_ : Z) (memallocp : Z -> M AS Z).
Implicit Types s : mman AS.

(** ** Searching and resizing *)

Definition conflict (region start size : Z) (l : list (Z * mman_region_t)) : bool :=
  existsb (λ x, negb (x.1 =? region) && (start <? r_start x.2) && (r_start x.2 <? u32 (size + start))) l.

Lemma resize_runs region r size s l : ∀ a,
  chain (regions s) a l -> l ≠ [] -> region ≠ 0 -> regions s !! region = Some r ->
  ∃ n, (n <= length l)%nat ∧ runs (resize_step region size) n a s
    (if conflict region (r_start r) size l then 1 else 0)
    (if conflict region (r_start r) size l then s
     else set_regions (<[region := set_r_size size r]> (regions s)) s).
Proof.
  induction l as [|[b rb] l IH]; intros a; [done|]. cbn [chain]. intros (-> & Hb & Hlk & Hl) _ Hr0 Hr.
  assert (Hstep : resize_step region size b s =
    if negb (b =? region) && (r_start r <? r_start rb) && (r_start rb <? u32 (size + r_start r))
    then Done (inr 1) s
    else (if r_next rb =? 0 then updr region (set_r_size size);; mret (inr 0) else mret (inl (r_next rb))) s).
  { unfold resize_step. rewrite (proj2 (Z.eqb_neq _ _)) by done.
    mstep (ldr_done s b rb Hb Hlk). mstep (ldr_done s region r Hr0 Hr).
    by destruct (negb (b =? region) && (r_start r <? r_start rb) && (r_start rb <? u32 (size + r_start r))). }
  cbn [conflict existsb fst snd length].
  destruct (negb (b =? region) && (r_start r <? r_start rb) && (r_start rb <? u32 (size + r_start r))) eqn:E.
  - cbn [orb]. exists 1%nat. split; [lia|]. by apply runs_end.
  - cbn [orb]. destruct l as [|[c rc] l].
    + cbn in Hl. rewrite Hl in Hstep. cbn [Z.eqb] in Hstep. exists 1%nat. split; [lia|].
      apply runs_end. rewrite Hstep. by mstep (updr_done s region r (set_r_size size) Hr0 Hr).
    + destruct (IH (r_next rb)) as (n & Hn & Hruns); [done|done|done|done|].
      exists (S n). split; [cbn [length] in *; lia|]. eapply runs_step; [|exact Hruns].
      rewrite Hstep. rewrite (proj2 (Z.eqb_neq _ _)); [done|].
      destruct Hl as (Heq & Hc & _). by rewrite Heq.
Qed.

Fixpoint first_heap (l : list (Z * mman_region_t)) : Z :=
  match l with [] => 0 | (a, r) :: l' => if r_type r =? 1 then a else first_heap l' end.

Lemma get_kernel_heap_spec s l :
  chain (regions s) (mman_region s) l -> Z.of_nat (length l) < 2 ^ 31 ->
  get_kernel_heap s = Done (first_heap l) s.
Proof.
  intros Hch Hlen. unfold get_kernel_heap.
  rewrite (bind_Done _ _ _ _ _ (eq_refl : gets mman_region s = Done (mman_region s) s)).
  assert (∃ n, (n <= S (length l))%nat ∧ runs (λ parent_ptr,
    if parent_ptr =? 0 then mret (inr 0)
    else p ← ldr parent_ptr; mret (if r_type p =? 1 then inr parent_ptr else inl (r_next p)))
    n (mman_region s) s (first_heap l) s) as (n & Hn & Hruns).
  { revert Hch. generalize (mman_region s). clear Hlen.
    induction l as [|[b rb] l IH]; intros a; cbn [chain first_heap length].
    - intros ->. exists 1%nat. split; [lia|]. by apply runs_end.
    - intros (-> & Hb & Hlk & Hl). destruct (r_type rb =? 1) eqn:E.
      + exists 1%nat. split; [lia|]. apply runs_end. rewrite (proj2 (Z.eqb_neq _ _)) by done.
        mstep (ldr_done s b rb Hb Hlk). by rewrite E.
      + destruct (IH _ Hl) as (n & Hn & Hruns). exists (S n). split; [lia|].
        eapply runs_step; [|exact Hruns]. rewrite (proj2 (Z.eqb_neq _ _)) by done.
        mstep (ldr_done s b rb Hb Hlk). by rewrite E. }
  eapply runs_while; [exact Hruns|]. pose proof word_fuel_Z. lia.
Qed.

(** ** Start-up *)

Lemma clear_prealloc_lookup h i :
  0 <= i < 0xFF -> clear_prealloc mman_prealloc h !! (mman_prealloc + 20 * i) = Some zero_region.
Proof.
  unfold clear_prealloc. intros Hi. assert (Hin : i ∈ seqZ 0 0xFF) by (apply elem_of_seqZ; lia).
  revert Hin. generalize (seqZ 0 0xFF).
  intros l. induction l as [|j l IH]; [intros []%not_elem_of_nil|].
  cbn [foldr]. unfold sizeof_region in *. intros [->|Hin]%elem_of_cons; [by rewrite lookup_insert_eq|].
  destruct (decide (i = j)) as [->|]; [by rewrite lookup_insert_eq|].
  rewrite lookup_insert_ne by lia. auto.
Qed.

Lemma memsig_first s h start size type flags :
  mman_prealloc ≠ 0 -> size ≠ 0 -> type ≠ 1 -> h !! mman_prealloc = Some zero_region ->
  s = Mman h mman_prealloc 0 1 (r_sys s) ->
  memsig mman_prealloc start size type flags s = Done 0 (Mman
    (<[mman_prealloc := Region mman_prealloc 0 1 type flags start size]> h) mman_prealloc 1 1 (r_sys s)).
Proof.
  intros Hp Hsz Hty Hlk Hs. rewrite Hs. cbn [r_sys]. unfold memsig.
  rewrite (proj2 (Z.eqb_neq size 0)) by done.
  set (s0 := Mman _ _ _ _ _). rewrite (bind_Done _ _ _ _ _ (eq_refl : gets mman_status s0 = Done 1 s0)).
  cbn [Z.eqb Pos.eqb]. set (s1 := Mman h mman_prealloc 1 1 (r_sys s)).
  assert (H1 : prealloc_region mman_prealloc s0 = Done mman_prealloc s1)
    by (unfold prealloc_region; mrun; cbn; by rewrite Z.add_0_r).
  mstep H1.
  set (f := λ r, Region (r_prev r) (r_next r) 1 type flags start size).
  mstep (updr_done s1 mman_prealloc zero_region f Hp Hlk). set (s2 := set_regions _ s1).
  assert (H2 : regions s2 !! mman_prealloc = Some (f zero_region)) by (cbn; by rewrite lookup_insert_eq).
  mstep (ldr_done s2 mman_prealloc _ Hp H2). cbn [r_type f].
  rewrite (proj2 (Z.eqb_neq type 1)) by done. cbn [andb]. rewrite bind_ret.
  rewrite (bind_Done _ _ _ _ _ (eq_refl : gets mman_region s2 = Done mman_prealloc s2)).
  set (s3 := Mman (<[mman_prealloc := Region mman_prealloc 0 1 type flags start size]> h) mman_prealloc 1 1 (r_sys s)).
  assert (H3 : append_step mman_prealloc mman_prealloc s2 = Done (inr tt) s3).
  { unfold append_step. rewrite (proj2 (Z.eqb_neq _ _)) by done.
    mstep (ldr_done s2 mman_prealloc _ Hp H2). cbn [r_next f zero_region Z.eqb].
    mstep (updr_done s2 mman_prealloc _ (set_r_next mman_prealloc) Hp H2). set (s4 := set_regions _ s2).
    assert (H4 : regions s4 !! mman_prealloc = Some (set_r_next mman_prealloc (f zero_region)))
      by (cbn; by rewrite lookup_insert_eq).
    mstep (updr_done s4 mman_prealloc _ (set_r_prev mman_prealloc) Hp H4). set (s5 := set_regions _ s4).
    assert (H5 : regions s5 !! mman_prealloc = Some (set_r_prev mman_prealloc (set_r_next mman_prealloc (f zero_region))))
      by (cbn; by rewrite lookup_insert_eq).
    mstep (updr_done s5 mman_prealloc _ (set_r_next 0) Hp H5). unfold s5, s4, s2, s3, set_regions, s1. cbn.
    by rewrite !insert_insert_eq. }
  assert (Hrun : while word_fuel (append_step mman_prealloc) mman_prealloc s2 = Done tt s3).
  { eapply (runs_while _ 1); [by apply runs_end|]. pose proof word_fuel_Z. lia. }
  by mstep Hrun.
Qed.
End mman_operations.

(** ** Properties *)

Section mman_properties.
Context {AS : Type} `{!Allocator AS}.
Context (mman_prealloc end_ : Z) (memallocp : Z -> M AS Z).
Implicit Types s : mman AS.

(** C33: signalling a region puts it behind the regions there are, with the
    extent given, and changes none of them, whether its node comes from the
    static array or from malloc; the first heap region switches the memory
    manager to malloc. *)
Theorem memsig_appends s s1 l region r0 start size type flags
    (Hch : chain (regions s) (mman_region s) l) (Hne : l ≠ []) (Hnd : NoDup l.*1)
    (Hlen : Z.of_nat (length l) < 2 ^ 32)
    (Hst : mman_status s = 1 ∨ mman_status s = 2) (Hsz : size ≠ 0)
    (Hnew : (if mman_status s =? 1 then prealloc_region mman_prealloc else malloc_region) s = Done region s1)
    (Hr : region ≠ 0 ∧ region ∉ l.*1) (Hr0 : regions s1 !! region = Some r0) :
  ∃ s' l', memsig mman_prealloc start size type flags s = Done 0 s' ∧
    chain (regions s') (mman_region s') l' ∧ l'.*1 = l.*1 ++ [region] ∧
    extent <$> l' = (extent <$> l) ++ [(start, size, type, flags)] ∧
    mman_status s' = if type =? 1 then 2 else mman_status s.
Proof.
  destruct Hr as [Hrz Hrn].
  destruct (exists_last Hne) as (l0 & [b rb] & ->).
  assert (Hs1 : chain (regions s1) (mman_region s1) (l0 ++ [(b, rb)]) ∧ mman_status s1 = mman_status s).
  { destruct Hst as [Hst|Hst]; rewrite Hst in Hnew; cbn [Z.eqb Pos.eqb] in Hnew.
    - unfold prealloc_region in Hnew. injection Hnew as _ <-. by destruct s.
    - unfold malloc_region, zoom in Hnew. unfold mbind, M_bind in Hnew.
      destruct (am_malloc _ _) as [p x| | |]; try done.
      destruct (p =? 0); [by injection Hnew as <- _|]. injection Hnew as <- <-. cbn.
      split; [|done]. by apply chain_insert_out. }
  destruct Hs1 as [Hch1 Hst1].
  destruct (memsig_link s1 region r0 start size type flags l0 b rb (mman_status s) Hch1 Hnd Hrn Hrz Hr0)
    as [Hrun Hch']; [rewrite length_app in Hlen; lia|].
  eexists _, _. split; [|split; [exact Hch'|]].
  - unfold memsig. rewrite (proj2 (Z.eqb_neq size 0)) by done.
    rewrite (bind_Done _ _ _ _ _ (eq_refl : gets mman_status s = Done (mman_status s) s)).
    rewrite (proj2 (Z.eqb_neq (mman_status s) 0)) by lia. mstep Hnew. exact Hrun.
  - rewrite !fmap_app. cbn. rewrite <- !app_assoc. split; [done|]. split; [done|].
    destruct Hst as [Hst|Hst]; rewrite Hst, ?Hst1 in *; destruct (type =? 1); done.
Qed.

(** [memresize] grows a region only when no region that starts behind
    it starts inside the new extent; otherwise it returns 1 and changes
    nothing. *)
Theorem memresize_checks s l region r size
    (Hch : chain (regions s) (mman_region s) l) (Hlen : Z.of_nat (length l) < 2 ^ 31)
    (Hin : (region, r) ∈ l) :
  if conflict region (r_start r) size l
  then memresize region size s = Done 1 s
  else memresize region size s = Done 0 (set_regions (<[region := set_r_size size r]> (regions s)) s) ∧
    ∀ b rb, (b, rb) ∈ l -> b ≠ region -> r_start r < r_start rb -> u32 (size + r_start r) <= r_start rb.
Proof.
  destruct (chain_lookup _ _ _ _ _ Hch Hin) as [Hlk Hr0].
  destruct (resize_runs region r size s l _ Hch) as (n & Hn & Hruns); [by intros ->; apply not_elem_of_nil in Hin|done|done|].
  assert (Hrun : memresize region size s = Done (if conflict region (r_start r) size l then 1 else 0)
    (if conflict region (r_start r) size l then s
     else set_regions (<[region := set_r_size size r]> (regions s)) s)).
  { unfold memresize. mstep (ldr_done s region r Hr0 Hlk).
    rewrite (bind_Done _ _ _ _ _ (eq_refl : gets mman_region s = Done (mman_region s) s)).
    eapply runs_while; [exact Hruns|]. pose proof word_fuel_Z. lia. }
  destruct (conflict region (r_start r) size l) eqn:E; [exact Hrun|]. split; [exact Hrun|].
  intros b rb Hb Hne Hlt. destruct (Z.lt_ge_cases (r_start rb) (u32 (size + r_start r))); [|done].
  assert (Htrue : conflict region (r_start r) size l = true); [|congruence].
  apply existsb_exists. exists (b, rb). split; [by apply list_elem_of_In|]. cbn.
  rewrite (proj2 (Z.eqb_neq _ _)) by done. rewrite !(proj2 (Z.ltb_lt _ _)) by done. done.
Qed.

(** After [memman_init] the list is the kernel's region followed by the
    heap's, both in the static array, malloc is in use from then on, and
    [get_kernel_heap] finds the heap. *)
Theorem memman_init_regions s
    (Hboot : mman_prealloc_ptr s = 0) (Hp : 0 < mman_prealloc) (Hend : end_ ≠ 0) :
  ∃ s' l, memman_init mman_prealloc end_ s = Done tt s' ∧ chain (regions s') (mman_region s') l ∧
    l.*1 = [mman_prealloc; mman_prealloc + 20] ∧
    extent <$> l = [(0, end_, 0, 0x21); (u32 (end_ / 0x1000 * 0x1000 + 0x1000), 0x100000, 1, 0x21)] ∧
    mman_status s' = 2 ∧ get_kernel_heap s' = Done (mman_prealloc + 20) s'.
Proof.
  destruct s as [hs r0 p0 st0 x]. cbn in Hboot. subst p0. set (s := Mman hs r0 0 st0 x).
  set (h := clear_prealloc mman_prealloc (regions s)).
  assert (H0 : h !! mman_prealloc = Some zero_region).
  { pose proof (clear_prealloc_lookup mman_prealloc (regions s) 0 ltac:(lia)) as H.
    by rewrite Z.mul_0_r, Z.add_0_r in H. }
  pose proof (clear_prealloc_lookup mman_prealloc (regions s) 1 ltac:(lia)) as H1. fold h in H1.
  rewrite Z.mul_1_r in H1.
  unfold memman_init. mrun. fold h.
  set (s0 := set_status 1 _).
  assert (Hs0 : s0 = Mman h mman_prealloc 0 1 (r_sys s0)) by done.
  pose proof (memsig_first mman_prealloc s0 h 0 end_ 0 0x21 ltac:(lia) Hend ltac:(lia) H0 Hs0) as E1.
  mstep E1. set (k := Region mman_prealloc 0 1 0 0x21 0 end_).
  set (s1 := Mman _ _ _ _ _). set (start := u32 (end_ / 0x1000 * 0x1000 + 0x1000)).
  set (s2 := Mman (regions s1) mman_prealloc 2 1 (r_sys s1)).
  assert (Hch2 : chain (regions s2) (mman_region s2) ([] ++ [(mman_prealloc, k)])).
  { cbn. rewrite lookup_insert_eq. split_and!; [done|lia|done|done]. }
  destruct (memsig_link s2 (mman_prealloc + 20) zero_region start 0x100000 1 0x21 [] mman_prealloc k 1 Hch2)
    as [Hrun Hch].
  { repeat constructor. intros []%not_elem_of_nil. }
  { cbn. intros [?|[]%not_elem_of_nil]%elem_of_cons. cbn in *. lia. }
  { lia. } { cbn. by rewrite lookup_insert_ne by lia. } { done. }
  cbn [Z.eqb Pos.eqb andb] in Hrun, Hch. set (s' := set_regions _ _) in Hrun, Hch.
  exists s'. eexists. split; [|split; [exact Hch|]].
  - assert (E2 : memsig mman_prealloc start 0x100000 1 0x21 s1 = Done 0 s'); [|by mstep E2].
    unfold memsig. cbn [Z.eqb]. rewrite (bind_Done _ _ _ _ _ (eq_refl : gets mman_status s1 = Done 1 s1)).
    cbn [Z.eqb Pos.eqb].
    assert (E3 : prealloc_region mman_prealloc s1 = Done (mman_prealloc + 20) s2) by done.
    mstep E3. exact Hrun.
  - split; [done|]. split; [done|]. split; [done|].
    by rewrite (get_kernel_heap_spec s' _ Hch).
Qed.
End mman_properties.

Section mman_examples.
#[local] Existing Instance Bump.allocator.

Definition boot_mman : mman Bump.bump := Mman ∅ 0 0 0 (Bump.BumpState 0x10000 ∅).
Definition mman_after {A} (m : M (mman Bump.bump) A) s : mman Bump.bump :=
  match m s with Done _ s' => s' | _ => s end.
(** Kernel up to 0x150000, heap behind it; then a device region. *)
Definition two_regions : list (Z * mman_region_t) :=
  [(0x2000, Region 0x2000 0x2014 1 0 0x21 0 0x150000);
   (0x2014, Region 0x2000 0 1 1 0x21 0x151000 0x100000)].
Definition two_state : mman Bump.bump := Mman (list_to_map two_regions) 0x2000 2 2 (Bump.BumpState 0x10000 ∅).

Lemma two_chain : chain (regions two_state) (mman_region two_state) two_regions.
Proof. cbn. repeat split; by vm_compute. Qed.

Lemma memsig_appends_witness :
  ∃ s' l', memsig 0x2000 0xE0000000 0x1000 3 0x21 two_state = Done 0 s' ∧
    chain (regions s') (mman_region s') l' ∧ l'.*1 = two_regions.*1 ++ [0x10000] ∧
    extent <$> l' = (extent <$> two_regions) ++ [(0xE0000000, 0x1000, 3, 0x21)] ∧ mman_status s' = 2.
Proof.
  eapply (memsig_appends 0x2000 two_state _ two_regions 0x10000 _ 0xE0000000 0x1000 3 0x21 two_chain);
    [done| |by vm_compute|by right|done|by vm_compute|split; [done|]|by vm_compute].
  - apply (bool_decide_unpack _). by vm_compute.
  - apply (bool_decide_unpack _). by vm_compute.
Defined.

(** The kernel's region may not grow into the heap's. *)
Lemma memresize_checks_witness : memresize 0x2000 0x152000 two_state = Done 1 two_state.
Proof.
  exact (memresize_checks two_state two_regions 0x2000 (Region 0x2000 0x2014 1 0 0x21 0 0x150000) 0x152000
    two_chain ltac:(by vm_compute) ltac:(by left)).
Defined.

Lemma memman_init_regions_witness :
  ∃ s' l, memman_init 0x2000 0x14F123 boot_mman = Done tt s' ∧ chain (regions s') (mman_region s') l ∧
    l.*1 = [0x2000; 0x2000 + 20] ∧
    extent <$> l = [(0, 0x14F123, 0, 0x21); (u32 (0x14F123 / 0x1000 * 0x1000 + 0x1000), 0x100000, 1, 0x21)] ∧
    mman_status s' = 2 ∧ get_kernel_heap s' = Done (0x2000 + 20) s'.
Proof. by apply (memman_init_regions 0x2000 0x14F123 boot_mman). Defined.
End mman_examples.
