(* ===== verification/X86Memory.v ===== *)
(** * Kernel memory on x86 (kernel/arch/x86/memory.c)

    Page requests over the frame bitmap and the page tables of PageAlloc,
    and the [sbrk] malloc.c calls. [INDEX_FROM_BIT] is a macro without
    parentheses around its argument: [INDEX_FROM_BIT(pos + j)] is
    [pos + j / 0x20]. *)

From S2P Require Import Prelude Lock CString Ram PageAlloc KHeap Regions.

Record xmem := XMem { xp : pstate; mem_pagefree : Z; mem_lastpage : Z }.
Definition set_xp p x := XMem p (mem_pagefree x) (mem_lastpage x).
Definition set_lastpage z x := XMem (xp x) (mem_pagefree x) z.
Local Abbreviation K := (M xmem).

(** [mem_pagefree], [mem_lastpage] as initialised; [mmac_lock] is never
    assigned. *)
Definition x86_boot (p : pstate) : xmem := XMem p 0x1000000 0.
Definition mmac_lock : Z := 0.

Definition paged {A} : M pstate A -> K A := zoom xp set_xp.

Definition memory_set_total (ram_ : Z) : K unit := mret tt.

(** The inner loop: [None] when all pages pass, else the [j] that fails. *)
Definition test_step (pos pages : Z) : Z -> K (Z + option Z) := λ j,
  if j <? pages then
    t ← paged (pa_test_frame (u32 (pos + j / 0x20)));
    mret (if truth t then inr (Some j) else inl (j + 1))
  else mret (inr None).

(** The outer loop, on [i]; the result is [block]. *)
Definition block_step (pages : Z) : Z -> K (Z + Z) := λ i,
  amount ← paged pa_frame_amount;
  if u32 i <? amount then
    last ← gets mem_lastpage;
    let pos := s32 (u32 (i + last) mod amount) in
    if amount <? u32 (pos + pages) then mret (inl (i + (pages - 2) + 1))
    else
      r ← while word_fuel (test_step pos pages) 0;
      mret (match r with
            | Some j => inl (i + j + 1)
            | None => inr pos
            end)
  else mret (inr (-1)).
Definition find_block (pages : Z) : K Z := while word_fuel (block_step pages) 0.

Definition memory_mult_alloc_pages (pages : Z) : K Z :=
  amount ← paged pa_frame_amount;
  free ← gets mem_pagefree;
  if amount <? free then mret 0
  else
    block ← find_block pages;
    if block =? -1 then mret 0
    else
      for_up (Z.to_nat pages) 0 (λ i,
        paged (d ← gets kernel_directory;
               page ← paging_get_page (u32 (block + i)) 1 d;
               pa_alloc_frame page 0 0));;
      modify (set_lastpage (u32 (block + pages)));;
      mret (u32 block).

Definition memallocp (pages : Z) : K Z :=
  if pages <=? 0 then mret 0
  else
    mutex_lock mmac_lock;;
    ptr ← memory_mult_alloc_pages pages;
    (if ptr =? 0 then halt_here else mret tt);;
    mutex_unlock mmac_lock;;
    mret ptr.

Definition memory_dealloc_pages (pages : Z) : K unit :=
  if pages <=? 0 then mret tt
  else
    mutex_lock mmac_lock;;
    blk ← gets mem_lastpage;
    for_up (Z.to_nat pages) 0 (λ i,
      paged (d ← gets kernel_directory;
             page ← paging_get_page (u32 (blk - i)) 1 d;
             pa_free_frame page));;
    f ← paged pa_first_frame;
    modify (set_lastpage (u32 (f * 0x1000)));;
    mutex_unlock mmac_lock.

Definition sbrk (amount : Z) : K Z :=
  if amount =? 0 then gets mem_lastpage
  else
    let actual_amount := amount / 0x1000 in
    let actual_amount := if actual_amount =? 0 then actual_amount + 1 else actual_amount in
    memallocp (s32 actual_amount).

Definition brk (end_data_segment : Z) : K Z := mret 0.
Definition memory_parse_grub : K unit := mret tt.

(** Start-up, together with the region list. *)
Section memory_init.
Context {AS : Type} `{!Allocator AS} (mman_prealloc end_ : Z).

Definition memory_init : M (xmem * mman AS) unit :=
  zoom fst (λ x s, (x, snd s)) (
    mutex_init mmac_lock;;
    f ← paged pa_first_frame;
    modify (set_lastpage (u32 (f * 0x1000))));;
  zoom snd (λ r s, (fst s, r)) (memman_init mman_prealloc end_).
End memory_init.

(** ** Finding a block *)

Section blocks.
Implicit Types x : xmem.

Definition frame_free x (pos j : Z) : Prop := used (xp x) ((pos + j / 32) / 4096) = false.
Definition block_free x (pos pages : Z) : Prop := ∀ j, 0 <= j < pages -> frame_free x pos j.

(** The bitmap covers every address a request looks at. *)
Definition xmem_ok x : Prop :=
  bitmap_ok (xp x) ∧ 0 < frame_amount (xp x) <= 2 ^ 28 ∧ 0 <= mem_lastpage x < 2 ^ 31.

Lemma frames_cover x pos :
  xmem_ok x -> 0 <= pos < frame_amount (xp x) -> 4096 <= frame_amount (xp x) ->
  0 <= pos / 4096 < frames (xp x).
Proof. intros (_ & ? & _) ? ?. unfold frames, INDEX_FROM_BIT. zdm. Qed.

Lemma paged_done {A} (m : M pstate A) x a : m (xp x) = Done a (xp x) -> paged m x = Done a x.
Proof. intros H. unfold paged, zoom. rewrite H. by destruct x. Qed.

Lemma test_spec x pos pages :
  xmem_ok x -> 4096 <= frame_amount (xp x) -> 0 <= pos -> 0 < pages <= 2 ^ 20 -> pos + pages <= frame_amount (xp x) ->
  ∃ r, while word_fuel (test_step pos pages) 0 x = Done r x ∧
    match r with
    | Some j => 0 <= j < pages ∧ ¬ frame_free x pos j
    | None => block_free x pos pages
    end.
Proof.
  intros Hx Hbig Hpos Hpages Hend.
  destruct (wp_Done (while word_fuel (test_step pos pages) 0) x (λ r x', x' = x ∧
    match r with
    | Some j => 0 <= j < pages ∧ ¬ frame_free x pos j
    | None => block_free x pos pages
    end)) as (r & ? & ? & -> & ?); [|by exists r].
  apply (wp_while False (test_step pos pages)
    (λ j x', x' = x ∧ 0 <= j <= pages ∧ ∀ j', 0 <= j' < j -> frame_free x pos j')
    (λ j _, Z.to_nat (pages - j))).
  - intros j ? (-> & Hj & Hall). unfold test_step, wp.
    destruct (Z.ltb_spec j pages); [|split; [done|intros j' ?; apply Hall; lia]].
    assert (0 <= j / 0x20 <= j) by zdm. pose proof Hx as (Hb & ? & ?).
    pose proof (pa_test_frame_spec (xp x) (u32 (pos + j / 0x20)) Hb) as Ht.
    rewrite u32_small in Ht by lia.
    specialize (Ht ltac:(apply (frames_cover x); [done|lia|done])).
    rewrite u32_small by lia. mstep (paged_done _ x _ Ht).
    pose proof (Z.pow_pos_nonneg 2 (((pos + j / 32) / 4096) mod 32) ltac:(lia) ltac:(zdm)).
    change 0x1000 with 4096. change 0x20 with 32 in *.
    destruct (used (xp x) ((pos + j / 32) / 4096)) eqn:E; unfold truth.
    + rewrite (proj2 (Z.eqb_neq _ 0)) by lia. split; [done|]. split; [lia|].
      unfold frame_free. by rewrite E.
    + split; [|lia]. split; [done|]. split; [lia|]. intros j' Hj'.
      destruct (decide (j' = j)) as [->|]; [done|]. apply Hall. lia.
  - pose proof word_fuel_Z. lia.
  - split; [done|]. split; [lia|]. intros. lia.
Qed.

Lemma find_block_spec x pages :
  xmem_ok x -> 4096 <= frame_amount (xp x) -> 0 < pages <= 2 ^ 20 ->
  ∃ block, find_block pages x = Done block x ∧
    (block = -1 ∨ (0 <= block ∧ block + pages <= frame_amount (xp x) ∧ block_free x block pages)).
Proof.
  intros Hx Hbig Hpages. pose proof Hx as (Hb & Hn & Hlast).
  destruct (wp_Done (find_block pages) x (λ b x', x' = x ∧
    (b = -1 ∨ (0 <= b ∧ b + pages <= frame_amount (xp x) ∧ block_free x b pages))))
    as (r & ? & ? & -> & ?); [|by exists r].
  apply (wp_while False (block_step pages)
    (λ i x', x' = x ∧ 0 <= i <= frame_amount (xp x) + 2 ^ 20)
    (λ i _, Z.to_nat (frame_amount (xp x) + 2 ^ 20 - i))).
  - intros i ? (-> & Hi). unfold block_step, wp.
    rewrite (bind_Done _ _ _ _ _ (paged_done pa_frame_amount x _ eq_refl)).
    rewrite (u32_small i) by lia.
    destruct (Z.ltb_spec i (frame_amount (xp x))); [|split; [done|by left]].
    rewrite (bind_Done _ _ _ _ _ (eq_refl : gets mem_lastpage x = Done (mem_lastpage x) x)).
    pose proof (Z.mod_pos_bound (u32 (i + mem_lastpage x)) (frame_amount (xp x)) ltac:(lia)) as Hpos.
    rewrite s32_small by lia.
    set (pos := u32 (i + mem_lastpage x) mod frame_amount (xp x)) in *. cbv zeta.
    rewrite (u32_small (pos + pages)) by lia.
    destruct (Z.ltb_spec (frame_amount (xp x)) (pos + pages)).
    + destruct (decide (pages = 1)); [lia|]. split; [|lia]. split; [done|lia].
    + destruct (test_spec x pos pages Hx Hbig ltac:(lia) Hpages ltac:(lia)) as (r & Hr & Hspec).
      mstep Hr. destruct r as [j|].
      * destruct Hspec. split; [|lia]. split; [done|lia].
      * split; [done|]. right. split; [lia|]. split; [lia|done].
  - pose proof word_fuel_Z. lia.
  - split; [done|lia].
Qed.
End blocks.

(** ** Properties *)

Section memory_properties.
Implicit Types x : xmem.

(** The search for a block returns for every request of up to 2^20
    pages, without changing memory, and answers either -1 or a position
    inside memory for which every frame it tested is free. *)
Theorem find_block_free x pages
    (Hx : xmem_ok x) (Hbig : 4096 <= frame_amount (xp x)) (Hpages : 0 < pages <= 2 ^ 20) :
  ∃ block, find_block pages x = Done block x ∧
    (block = -1 ∨ (0 <= block ∧ block + pages <= frame_amount (xp x) ∧ block_free x block pages)).
Proof. by apply find_block_spec. Qed.

Lemma find_block_here x :
  xmem_ok x -> 4096 <= frame_amount (xp x) -> mem_lastpage x < frame_amount (xp x) ->
  used (xp x) (mem_lastpage x / 4096) = false -> find_block 1 x = Done (mem_lastpage x) x.
Proof.
  intros Hx Hbig Hlt Hfree. pose proof Hx as (_ & Hn & Hlast).
  eapply (runs_while _ 1); [|pose proof word_fuel_Z; lia]. apply runs_end. unfold block_step.
  rewrite (bind_Done _ _ _ _ _ (paged_done pa_frame_amount x _ eq_refl)).
  rewrite (u32_small 0), (proj2 (Z.ltb_lt _ _)) by lia.
  rewrite (bind_Done _ _ _ _ _ (eq_refl : gets mem_lastpage x = Done (mem_lastpage x) x)).
  rewrite Z.add_0_l, (u32_small (mem_lastpage x)), Z.mod_small, s32_small by lia. cbv zeta.
  rewrite (u32_small (mem_lastpage x + 1)), (proj2 (Z.ltb_ge _ _)) by lia.
  destruct (test_spec x (mem_lastpage x) 1 Hx Hbig) as (r & Hr & Hspec); [lia|lia|lia|].
  mstep Hr. destruct r as [j|]; [|done]. destruct Hspec as [Hj []]. unfold frame_free.
  replace j with 0 by lia. by rewrite Z.div_0_l, Z.add_0_r by lia.
Qed.

(** The page table entry of an address, when its table is there. *)
Definition entry_of x (address : Z) : Z :=
  table_page (word (pmem (xp x)) (dir_table (kernel_directory (xp x)) (address / 0x1000 / 1024)))
    (address / 0x1000 mod 1024).

(** Block numbers are used as addresses. Where the break lies in a free
    frame, [sbrk(0x1000)] returns the old break but moves it by a single
    byte, one for the one page asked for. *)
Theorem sbrk_moves_one_byte x
    (Hx : xmem_ok x) (Hbig : 4096 <= frame_amount (xp x)) (Hpf : mem_pagefree x <= frame_amount (xp x))
    (Hlast : 0 < mem_lastpage x < frame_amount (xp x))
    (Hfree : used (xp x) (mem_lastpage x / 4096) = false)
    (Htable : word (pmem (xp x)) (dir_table (kernel_directory (xp x)) (mem_lastpage x / 0x1000 / 1024)) ≠ 0)
    (Hentry : pte (xp x) (entry_of x (mem_lastpage x)) page_frame ≠ 0) :
  sbrk 0x1000 x = Done (mem_lastpage x) (set_lastpage (mem_lastpage x + 1) x).
Proof.
  pose proof Hx as (_ & Hn & _).
  assert (Hmult : memory_mult_alloc_pages 1 x = Done (mem_lastpage x) (set_lastpage (mem_lastpage x + 1) x)).
  { unfold memory_mult_alloc_pages.
    rewrite (bind_Done _ _ _ _ _ (paged_done pa_frame_amount x _ eq_refl)).
    rewrite (bind_Done _ _ _ _ _ (eq_refl : gets mem_pagefree x = Done (mem_pagefree x) x)).
    rewrite (proj2 (Z.ltb_ge _ _)) by done.
    rewrite (bind_Done _ _ _ _ _ (find_block_here x Hx Hbig ltac:(lia) Hfree)).
    rewrite (proj2 (Z.eqb_neq _ _)) by lia. change (Z.to_nat 1) with 1%nat. cbn [for_up].
    rewrite Z.add_0_r, !(u32_small (mem_lastpage x)) by lia.
    assert (Hpage : paged (d ← gets kernel_directory; page ← paging_get_page (mem_lastpage x) 1 d;
        pa_alloc_frame page 0 0) x = Done tt x).
    { apply paged_done. rewrite (bind_Done _ _ _ _ _ (eq_refl : gets kernel_directory (xp x) = Done (kernel_directory (xp x)) (xp x))).
      assert (Hget : paging_get_page (mem_lastpage x) 1 (kernel_directory (xp x)) (xp x)
        = Done (entry_of x (mem_lastpage x)) (xp x)).
      { unfold paging_get_page. rewrite (bind_Done _ _ _ _ _ (ldw_done _ _)). unfold truth.
        by rewrite (proj2 (Z.eqb_neq _ _)) by done. }
      mstep Hget. unfold pa_alloc_frame. cbn [Z.ltb Z.compare].
      rewrite (bind_Done _ _ _ _ _ (read_field_done _ _ _)). unfold truth.
      by rewrite (proj2 (Z.eqb_neq _ _)) by done. }
    rewrite bind_assoc. mstep Hpage. rewrite bind_ret. mrun. by rewrite u32_small by lia. }
  change (sbrk 0x1000 x) with (memallocp 1 x). unfold memallocp. cbn [Z.leb Z.compare].
  mstep (mutex_lock_null x). mstep Hmult. by rewrite (proj2 (Z.eqb_neq _ _)) by lia.
Qed.
End memory_properties.

Section memory_examples.
(** 8192 frame numbers, one page table at 4 MB for the directory at 5 MB,
    the break at 0x1000 whose page is mapped to frame 9. *)
Definition demo_pages : pstate :=
  PState (set_word 0x500000 0x400000 (set_word 0x400004 0x9007 (set_word 0x200000 1 (Ram ∅))))
    0x100000 0x200000 8192 0x8000 0x8000 0x500000 0x500000 0 0 false.
Definition demo_xmem : xmem := XMem demo_pages 4096 0x1000.

Lemma demo_xmem_ok : xmem_ok demo_xmem.
Proof.
  split; [|by vm_compute]. split; [|by vm_compute]. do 3 apply set_word_ok.
  intros a. unfold byte. cbn. by rewrite lookup_empty.
Qed.

Lemma find_block_free_witness :
  ∃ block, find_block 3 demo_xmem = Done block demo_xmem ∧
    (block = -1 ∨ (0 <= block ∧ block + 3 <= frame_amount (xp demo_xmem) ∧ block_free demo_xmem block 3)).
Proof. apply (find_block_free demo_xmem 3 demo_xmem_ok); by vm_compute. Defined.

Lemma sbrk_moves_one_byte_witness :
  sbrk 0x1000 demo_xmem = Done 0x1000 (set_lastpage 0x1001 demo_xmem).
Proof. apply (sbrk_moves_one_byte demo_xmem demo_xmem_ok); by vm_compute. Defined.
End memory_examples.
