(* ===== verification/Timing.v ===== *)
(** * Timers (kernel/timing.c, kernel/timer.c)

    The tick counters and the table of timers. Handlers are function
    pointers, called through the parameter [call]; what they do to the rest
    of the kernel's state is theirs, so the code is written for any state
    that has a clock. *)

From stdpp Require Import strings.
From S2P Require Import Prelude.

Record timer_t := Timer {
  name : string; fire_tick : Z; repeat_rate : Z; no : Z; handler : Z
}.
Definition no_timer : timer_t := Timer EmptyString 0 0 0 0.

(** The global variables of the two files. *)
Record clock := Clock {
  handlers : list timer_t;
  timer_hi : Z; timer_low : Z; device : Z; device_resoulution : Z
}.
Definition TIMERS : nat := 0xFF.
Definition set_handlers l c := Clock l (timer_hi c) (timer_low c) (device c) (device_resoulution c).
Definition set_ticks hi low c := Clock (handlers c) hi low (device c) (device_resoulution c).
Definition set_device d r c := Clock (handlers c) (timer_hi c) (timer_low c) d r.

(** The static initialisers. *)
Definition clock_boot : clock := Clock (replicate TIMERS no_timer) 0 0 0 1.

Section clock_ops.
Local Abbreviation K := (M clock).

Definition entry (i : Z) : K timer_t :=
  l ← gets handlers; of_option (OutOfRange i) (aget l i).
Definition set_entry (i : Z) (e : timer_t) : K unit :=
  entry i;; modify (λ c, set_handlers (aset i e (handlers c)) c).

Definition timer_getHi : K Z := gets timer_hi.
Definition timer_getLow : K Z := gets timer_low.
Definition timer_getDevice : K Z := gets device.
Definition timer_getDeviceRes : K Z := gets device_resoulution.

Definition timer_switchDevice (device_id : Z) : K unit :=
  if device_id =? 0 then modify (set_device 0 1)
  else if device_id =? 2 then modify (set_device 2 1)
  else modify (set_device 0 1).

Definition timer_getDeviceString (device : Z) : string :=
  if device =? 0 then "Programmable interrupt timer"
  else if device =? 1 then "Real time clock"
  else if device =? 2 then "ARM Integrated"
  else "Unknown".

Definition timer_getUptime : K Z :=
  hi ← gets timer_hi; r ← gets device_resoulution;
  let d := u32 (r * 1000) in
  if d =? 0 then fail DivideByZero else mret (hi / d).

(** The scan for a free slot; 0xFF when there is none. *)
Definition free_slot_step : Z -> K (Z + Z) := λ index,
  if index <? 0xFF then
    e ← entry index;
    mret (if fire_tick e =? 0 then inr index else inl (index + 1))
  else mret (inr index).

Definition timing_register_timer (name : string) (tick handler reschedule : Z) : K Z :=
  index ← loop (S TIMERS) free_slot_step 0;
  if index =? 0xFF then mret 0xFF
  else
    hi ← timer_getHi;
    set_entry index (Timer name (s32 (tick + hi)) reschedule index handler);;
    mret index.

Definition deregister_step (h : Z) : Z -> K (Z + unit) := λ index,
  if index <? 0xFF then
    e ← entry index;
    if handler e =? 0 then mret (inl (index + 1))
    else if handler e =? h then
      set_entry index (Timer (name e) 0 0 (no e) 0);; mret (inr tt)
    else mret (inl (index + 1))
  else mret (inr tt).
Definition timing_deregister_timer (h : Z) : K unit := loop (S TIMERS) (deregister_step h) 0.

Definition timing_remove_index (index : Z) : K unit :=
  e ← entry index; set_entry index (Timer (name e) (fire_tick e) 0 (no e) (handler e)).

(** The reaper's loop body. *)
Definition reap (tick : Z) (e : timer_t) : timer_t :=
  if fire_tick e =? 0 then e
  else if fire_tick e <? tick then Timer (name e) 0 0 (no e) 0
  else e.
Definition timing_reaper : K unit :=
  hi ← timer_getHi;
  let tick := s32 hi in
  for_up TIMERS 0 (λ i, e ← entry i; set_entry i (reap tick e)).

Definition timing_init (timing_reaper_ptr : Z) : K Z :=
  modify (set_handlers (replicate TIMERS no_timer));;
  timing_register_timer "timer_reaper" 100 timing_reaper_ptr 100;;
  mret 0.
End clock_ops.

Section ticking.
Context {S : Type} `{!Has clock S}.
(** Calling the handler at a pointer, with the timer's index for the pointer
    to its entry. *)
Context (call : Z -> Z -> M S unit).

Definition timer_body (tick i : Z) : M S unit :=
  e ← within (entry i);
  if fire_tick e =? 0 then mret tt
  else if fire_tick e =? tick then
    call (handler e) i;;
    e ← within (entry i);
    if negb (repeat_rate e =? 0) then
      within (set_entry i (Timer (name e) (s32 (tick + repeat_rate e)) (repeat_rate e) (no e) (handler e)))
    else mret tt
  else mret tt.

Definition cyclic_tasks (tick : Z) : M S Z :=
  for_up TIMERS 0 (timer_body tick);; mret 0.

Definition timer_recieveTick (device_id : Z) : M S unit :=
  c ← gets part;
  if device_id =? device c then
    let hi := u32 (timer_hi c + 1) in
    let d := u32 (device_resoulution c * 1000) in
    within (if d =? 0 then fail DivideByZero
            else modify (set_ticks hi (if hi mod d =? 0 then u32 (timer_low c + 1) else timer_low c)));;
    cyclic_tasks (s32 hi);; mret tt
  else mret tt.

(** [n] ticks of the device in use *)
Fixpoint ticks (n : nat) (device_id : Z) : M S unit :=
  match n with O => mret tt | Datatypes.S n' => timer_recieveTick device_id;; ticks n' device_id end.
End ticking.

(** ** The table *)

Section table.
Implicit Types c : clock.

Definition clock_ok c : Prop := length (handlers c) = TIMERS.

Lemma entry_done c i e : aget (handlers c) i = Some e -> entry i c = Done e c.
Proof. intros He. unfold entry. mrun. by rewrite He. Qed.

Lemma set_entry_done c i e e' :
  aget (handlers c) i = Some e -> set_entry i e' c = Done tt (set_handlers (aset i e' (handlers c)) c).
Proof. intros He. unfold set_entry. by mstep (entry_done c i e He). Qed.

Lemma entry_in c i : clock_ok c -> 0 <= i < 0xFF -> ∃ e, aget (handlers c) i = Some e.
Proof. intros Hc Hi. apply aget_lt. rewrite Hc. unfold TIMERS. lia. Qed.

Definition is_free c (i : Z) : Prop := ∃ e, aget (handlers c) i = Some e ∧ fire_tick e = 0.
Definition is_busy c (i : Z) : Prop := ∃ e, aget (handlers c) i = Some e ∧ fire_tick e ≠ 0.

Lemma free_slot_spec c k : ∀ i,
  clock_ok c -> 0 <= i -> i + Z.of_nat k = 0xFF -> (∀ j, 0 <= j < i -> is_busy c j) ->
  ∃ r, loop (S k) free_slot_step i c = Done r c ∧ 0 <= r <= 0xFF ∧
    (∀ j, 0 <= j < r -> is_busy c j) ∧ (r < 0xFF -> is_free c r).
Proof.
  induction k as [|k IH]; intros i Hc Hi Hk Hbusy.
  - exists 0xFF. replace i with 0xFF in * by lia. split; [done|]. split; [lia|]. split; [done|lia].
  - destruct (entry_in c i Hc) as [e He]; [lia|].
    assert (Hstep : free_slot_step i c = Done (if fire_tick e =? 0 then inr i else inl (i + 1)) c).
    { unfold free_slot_step. rewrite (proj2 (Z.ltb_lt _ _)) by lia. by mstep (entry_done c i e He). }
    remember (Datatypes.S k) as k' eqn:Hk'. cbn [loop]. mstep Hstep. subst k'.
    destruct (Z.eqb_spec (fire_tick e) 0) as [Hz|Hz].
    + exists i. split; [done|]. split; [lia|]. split; [done|]. intros _. by exists e.
    + destruct (IH (i + 1) Hc) as (r & Hr); [lia|lia| |by exists r].
      intros j Hj. destruct (decide (j = i)) as [->|]; [by exists e|]. apply Hbusy. lia.
Qed.

Lemma register_spec c nm tick h r :
  clock_ok c ->
  ∃ i, 0 <= i <= 0xFF ∧ (∀ j, 0 <= j < i -> is_busy c j) ∧ (i < 0xFF -> is_free c i) ∧
    timing_register_timer nm tick h r c = Done i
      (if i =? 0xFF then c
       else set_handlers (aset i (Timer nm (s32 (tick + timer_hi c)) r i h) (handlers c)) c).
Proof.
  intros Hc. destruct (free_slot_spec c TIMERS 0 Hc) as (i & Hi & Hr & Hb & Hf); [lia|done|lia|].
  exists i. split_and!; [lia|lia|done|done|]. unfold timing_register_timer. mstep Hi.
  destruct (Z.eqb_spec i 0xFF) as [->|Hne]; [done|].
  unfold timer_getHi. mrun. destruct Hf as (e & He & _); [lia|]. by rewrite (bind_Done _ _ _ _ _ (set_entry_done c i e _ He)).
Qed.
End table.

(** ** Periodic timers *)

Lemma filter_ext_in {A} (P Q : A -> Prop) `{∀ x, Decision (P x), ∀ x, Decision (Q x)} (l : list A) :
  (∀ x, x ∈ l -> P x ↔ Q x) -> filter P l = filter Q l.
Proof.
  induction l as [|x l IH]; intros Heq; [done|].
  rewrite !filter_cons. rewrite IH by (intros; apply Heq; by right).
  specialize (Heq x ltac:(by left)). by do 2 case_decide; tauto.
Qed.

Section periodic.
Context {S : Type} `{!Has clock S}.
Context (call : Z -> Z -> M S unit).
(** The calls made so far: tick, handler, index. *)
Context (trace : S -> list (Z * Z * Z)).
Context (trace_set : ∀ c s, trace (set_part c s) = trace s).
Context (i : Z) (Hi : 0 <= i < 0xFF).
(** A handler may change the table, but neither the clock nor the entry of
    timer [i] while that is still to fire. *)
Context (call_law : ∀ h j s e,
  clock_ok (part s) -> aget (handlers (part s)) i = Some e -> timer_hi (part s) <= fire_tick e ->
  ∃ s', call h j s = Done tt s' ∧ clock_ok (part s') ∧ timer_hi (part s') = timer_hi (part s) ∧
    device (part s') = device (part s) ∧ device_resoulution (part s') = device_resoulution (part s) ∧
    aget (handlers (part s')) i = Some e ∧ trace s' = trace s ++ [(timer_hi (part s), h, j)]).

Definition mine (x : Z * Z * Z) : bool := x.2 =? i.
Lemma filter_mine t h j : filter mine [(t, h, j)] = if j =? i then [(t, h, j)] else [].
Proof.
  assert (Hm : mine (t, h, j) = (j =? i)) by done.
  destruct (j =? i); [rewrite filter_cons_True|rewrite filter_cons_False]; try done;
    rewrite Hm; [done|by intros []].
Qed.

Definition again (tick : Z) (e : timer_t) : timer_t :=
  if fire_tick e =? tick then Timer (name e) (tick + repeat_rate e) (repeat_rate e) (no e) (handler e) else e.
Definition calls (tick : Z) (e : timer_t) : list (Z * Z * Z) :=
  if fire_tick e =? tick then [(tick, handler e, i)] else [].

(** The part of the state the other timers' handlers leave alone. *)
Definition stable (s s' : S) : Prop :=
  clock_ok (part s') ∧ timer_hi (part s') = timer_hi (part s) ∧ device (part s') = device (part s) ∧
  device_resoulution (part s') = device_resoulution (part s).

Lemma stable_refl s : clock_ok (part s) -> stable s s.
Proof. by repeat split. Qed.

Lemma stable_trans s1 s2 s3 : stable s1 s2 -> stable s2 s3 -> stable s1 s3.
Proof. intros (? & ? & ? & ?) (? & ? & ? & ?). repeat split; congruence. Qed.

Lemma set_entry_within s j e0 e' :
  clock_ok (part s) -> aget (handlers (part s)) j = Some e0 ->
  ∃ s', within (set_entry j e') s = Done tt s' ∧ stable s s' ∧ trace s' = trace s ∧
    handlers (part s') = aset j e' (handlers (part s)).
Proof.
  intros Hc He. eexists. split; [by eapply within_done, set_entry_done|].
  split; [|split; [apply trace_set|by rewrite part_set]].
  unfold stable, clock_ok. rewrite part_set. cbn. by rewrite length_aset.
Qed.

Lemma body_other s j e :
  clock_ok (part s) -> 0 <= j < 0xFF -> j ≠ i -> aget (handlers (part s)) i = Some e ->
  timer_hi (part s) <= fire_tick e ->
  ∃ s', timer_body call (timer_hi (part s)) j s = Done tt s' ∧ stable s s' ∧
    aget (handlers (part s')) i = Some e ∧ filter mine (trace s') = filter mine (trace s).
Proof.
  intros Hc Hj Hne He Hf. destruct (entry_in _ j Hc Hj) as [ej Hej]. unfold timer_body.
  rewrite (bind_Done _ _ _ _ _ (within_read _ s _ (entry_done _ _ _ Hej))).
  destruct (fire_tick ej =? 0); [exists s; by split; [|split; [apply stable_refl|]]|].
  destruct (fire_tick ej =? timer_hi (part s)); [|exists s; by split; [|split; [apply stable_refl|]]].
  destruct (call_law (handler ej) j s e Hc He Hf) as (s1 & E1 & Hc1 & H1 & H2 & H3 & He1 & Ht1).
  mstep E1. destruct (entry_in _ j Hc1 Hj) as [ej1 Hej1].
  rewrite (bind_Done _ _ _ _ _ (within_read _ s1 _ (entry_done _ _ _ Hej1))).
  assert (Hfilter : filter mine (trace s1) = filter mine (trace s)).
  { rewrite Ht1, filter_app, filter_mine, (proj2 (Z.eqb_neq _ _)) by done. by rewrite app_nil_r. }
  assert (Hst : stable s s1) by done.
  destruct (repeat_rate ej1 =? 0); cbn [negb]; [by exists s1|].
  destruct (set_entry_within s1 j ej1 (Timer (name ej1) (s32 (timer_hi (part s) + repeat_rate ej1))
    (repeat_rate ej1) (no ej1) (handler ej1)) Hc1 Hej1) as (s2 & E2 & Hst2 & Ht2 & Hl2).
  exists s2. split; [exact E2|]. split; [by eapply stable_trans|].
  rewrite Hl2, Ht2, aget_aset_ne by done. done.
Qed.

Lemma body_mine s e :
  clock_ok (part s) -> aget (handlers (part s)) i = Some e -> 0 < timer_hi (part s) <= fire_tick e ->
  0 < repeat_rate e -> timer_hi (part s) + repeat_rate e < 2 ^ 31 ->
  ∃ s', timer_body call (timer_hi (part s)) i s = Done tt s' ∧ stable s s' ∧
    aget (handlers (part s')) i = Some (again (timer_hi (part s)) e) ∧
    filter mine (trace s') = filter mine (trace s) ++ calls (timer_hi (part s)) e.
Proof.
  intros Hc He Hf Hr Hmax. unfold timer_body.
  rewrite (bind_Done _ _ _ _ _ (within_read _ s _ (entry_done _ _ _ He))).
  rewrite (proj2 (Z.eqb_neq (fire_tick e) 0)) by lia. unfold again, calls.
  destruct (fire_tick e =? timer_hi (part s)) eqn:E.
  - destruct (call_law (handler e) i s e Hc He ltac:(lia)) as (s1 & E1 & Hc1 & H1 & H2 & H3 & He1 & Ht1).
    mstep E1. rewrite (bind_Done _ _ _ _ _ (within_read _ s1 _ (entry_done _ _ _ He1))).
    rewrite (proj2 (Z.eqb_neq (repeat_rate e) 0)) by lia. cbn [negb]. rewrite s32_small by lia.
    destruct (set_entry_within s1 i e (Timer (name e) (timer_hi (part s) + repeat_rate e)
      (repeat_rate e) (no e) (handler e)) Hc1 He1) as (s2 & E2 & Hst2 & Ht2 & Hl2).
    exists s2. split; [exact E2|]. split; [by eapply stable_trans|].
    rewrite Hl2, Ht2, aget_aset_eq by (rewrite Hc1; unfold TIMERS; lia). split; [done|].
    by rewrite Ht1, filter_app, filter_mine, Z.eqb_refl.
  - exists s. split; [done|]. split; [by apply stable_refl|]. by rewrite app_nil_r.
Qed.

Definition ready (s : S) (e : timer_t) (T : Z) : Prop :=
  clock_ok (part s) ∧ aget (handlers (part s)) i = Some e ∧ timer_hi (part s) = T.

Lemma cyclic_mine s e T :
  ready s e T -> 0 < T <= fire_tick e -> 0 < repeat_rate e -> T + repeat_rate e < 2 ^ 31 ->
  ∃ s', cyclic_tasks call T s = Done 0 s' ∧ stable s s' ∧
    aget (handlers (part s')) i = Some (again T e) ∧
    filter mine (trace s') = filter mine (trace s) ++ calls T e.
Proof.
  intros (Hc & He & HT) Hf Hr Hmax.
  destruct (for_up_inv (λ (j : Z) (s' : S), stable s s' ∧
    aget (handlers (part s')) i = Some (if j <=? i then e else again T e) ∧
    filter mine (trace s') = filter mine (trace s) ++ (if j <=? i then [] else calls T e))
    TIMERS 0 (timer_body call T) s) as (s' & Hrun & Hst & He' & Ht').
  - intros j s1 Hj (Hst & He1 & Ht1). change (Z.of_nat TIMERS) with 0xFF in Hj.
    pose proof Hst as (Hc1 & Hhi & _). assert (HT1 : timer_hi (part s1) = T) by congruence.
    destruct (Z.leb_spec j i) as [Hle|Hlt].
    + destruct (decide (j = i)) as [->|Hne].
      * destruct (body_mine s1 e Hc1 He1) as (s2 & E2 & Hst2 & He2 & Ht2); [lia|done|lia|].
        rewrite HT1 in E2, He2, Ht2. exists s2. split; [exact E2|].
        split; [by eapply stable_trans|]. rewrite (proj2 (Z.leb_gt _ _)) by lia.
        split; [done|]. by rewrite Ht2, Ht1, app_nil_r.
      * destruct (body_other s1 j e Hc1) as (s2 & E2 & Hst2 & He2 & Ht2); [lia|done|done|lia|].
        rewrite HT1 in E2. exists s2. split; [exact E2|].
        split; [by eapply stable_trans|]. rewrite (proj2 (Z.leb_le _ _)) by lia.
        split; [done|]. by rewrite Ht2, Ht1.
    + destruct (body_other s1 j (again T e) Hc1) as (s2 & E2 & Hst2 & He2 & Ht2); [lia|lia|done| |].
      { rewrite HT1. unfold again. destruct (fire_tick e =? T); cbn; lia. }
      rewrite HT1 in E2. exists s2. split; [exact E2|].
      split; [by eapply stable_trans|]. rewrite (proj2 (Z.leb_gt _ _)) by lia.
      split; [done|]. by rewrite Ht2, Ht1.
  - rewrite (proj2 (Z.leb_le 0 i)) by lia. split; [by apply stable_refl|]. by rewrite app_nil_r.
  - change (0 + Z.of_nat TIMERS) with 0xFF in He', Ht'. rewrite (proj2 (Z.leb_gt _ _)) in He', Ht' by lia.
    exists s'. unfold cyclic_tasks. by mstep Hrun.
Qed.

Lemma tick_mine s e T dev :
  ready s e T -> 0 <= T < fire_tick e -> 0 < repeat_rate e -> T + 1 + repeat_rate e < 2 ^ 31 ->
  device (part s) = dev -> 0 < device_resoulution (part s) < 2 ^ 20 ->
  ∃ s', timer_recieveTick call dev s = Done tt s' ∧ ready s' (again (T + 1) e) (T + 1) ∧
    device (part s') = dev ∧ device_resoulution (part s') = device_resoulution (part s) ∧
    filter mine (trace s') = filter mine (trace s) ++ calls (T + 1) e.
Proof.
  intros (Hc & He & HT) Hf Hr Hmax Hd Hres. unfold timer_recieveTick.
  rewrite (bind_Done _ _ _ _ _ (eq_refl : gets part s = Done (part s) s)).
  rewrite Hd, Z.eqb_refl, HT. cbv zeta. rewrite !(u32_small (T + 1)), (u32_small (_ * 1000)) by lia.
  rewrite (proj2 (Z.eqb_neq (device_resoulution (part s) * 1000) 0)) by lia.
  set (low := if (T + 1) mod (device_resoulution (part s) * 1000) =? 0
      then u32 (timer_low (part s) + 1) else timer_low (part s)). set (c1 := set_ticks (T + 1) low (part s)).
  assert (H1 : within (modify (set_ticks (T + 1) low)) s = Done tt (set_part c1 s)) by (by apply within_done).
  mstep H1. rewrite s32_small by lia.
  destruct (cyclic_mine (set_part c1 s) e (T + 1)) as (s' & Hrun & (Hc' & Hhi & Hd' & Hr') & He' & Ht');
    [|lia|done|lia|].
  { split; [|split]; rewrite part_set; done. }
  exists s'. mstep Hrun. rewrite part_set in Hhi, Hd', Hr'. cbn in Hhi, Hd', Hr'.
  split; [done|]. split; [by repeat split|]. split; [congruence|]. split; [done|].
  by rewrite Ht', trace_set.
Qed.

Lemma ticks_mine n : ∀ s e T dev,
  ready s e T -> 0 <= T < fire_tick e -> 0 < repeat_rate e ->
  T + Z.of_nat n + repeat_rate e < 2 ^ 31 ->
  device (part s) = dev -> 0 < device_resoulution (part s) < 2 ^ 20 ->
  ∃ s', ticks call n dev s = Done tt s' ∧
    filter mine (trace s') = filter mine (trace s) ++
      ((λ t, (t, handler e, i)) <$> filter (λ t, fire_tick e <= t ∧ (t - fire_tick e) mod repeat_rate e = 0)
        (seqZ (T + 1) (Z.of_nat n))).
Proof.
  induction n as [|n IH]; intros s e T dev Hs Hf Hr Hmax Hd Hres.
  - exists s. split; [done|]. by rewrite app_nil_r.
  - destruct (tick_mine s e T dev Hs) as (s1 & E1 & Hs1 & Hd1 & Hres1 & Ht1); [lia|lia|lia|done|done|].
    cbn [ticks]. rewrite (seqZ_cons (T + 1)) by lia.
    replace (Z.pred (Z.of_nat (Datatypes.S n))) with (Z.of_nat n) by lia.
    assert (Hag : 0 <= T + 1 < fire_tick (again (T + 1) e) ∧ repeat_rate (again (T + 1) e) = repeat_rate e
      ∧ handler (again (T + 1) e) = handler e).
    { unfold again. destruct (Z.eqb_spec (fire_tick e) (T + 1)); cbn; split_and!; done || lia. }
    destruct Hag as (Ha1 & Ha2 & Ha3).
    destruct (IH s1 (again (T + 1) e) (T + 1) dev Hs1) as (s' & E' & Ht'); [lia|lia|lia|done|by rewrite Hres1|].
    exists s'. mstep E1. split; [exact E'|]. rewrite Ht', Ht1, <- app_assoc, Ha2, Ha3. f_equal.
    unfold calls, again. destruct (Z.eqb_spec (fire_tick e) (T + 1)) as [Heq|Hne].
    + rewrite filter_cons_True by (rewrite Heq, Z.sub_diag; split; [lia|apply Z.mod_0_l; lia]).
      cbn [fmap list_fmap]. cbn [app]. f_equal. f_equal. cbn [fire_tick].
      apply filter_ext_in. intros t Ht%elem_of_seqZ. rewrite Heq.
      replace (t - (T + 1 + repeat_rate e)) with (t - (T + 1) + (-1) * repeat_rate e) by lia.
      rewrite Z.mod_add by lia. split; [intros []; split; [lia|done]|].
      intros [? Hm]. split; [|done]. apply Z.div_exact in Hm; [|lia].
      set (q := (t - (T + 1)) / repeat_rate e) in *. destruct (Z.le_gt_cases q 0); nia.
    + rewrite filter_cons_False by lia. done.
Qed.
End periodic.

(** ** Properties *)

Section timer_properties.
Context {S : Type} `{!Has clock S}.

(** C25: a periodic timer is called at every tick it is due and at no other:
    over any run of ticks, the calls of timer [i] are those at the ticks
    [fire], [fire + rate], [fire + 2 rate], ... that fall into the run,
    whatever the handlers of the other timers do to the rest of the table. *)
Theorem periodic_timer_fires (call : Z -> Z -> M S unit) (trace : S -> list (Z * Z * Z)) i n s e T dev
    (Htrace : ∀ c s, trace (set_part c s) = trace s) (Hi : 0 <= i < 0xFF)
    (Hcall : ∀ h j s e, clock_ok (part s) -> aget (handlers (part s)) i = Some e ->
      timer_hi (part s) <= fire_tick e ->
      ∃ s', call h j s = Done tt s' ∧ clock_ok (part s') ∧ timer_hi (part s') = timer_hi (part s) ∧
        device (part s') = device (part s) ∧ device_resoulution (part s') = device_resoulution (part s) ∧
        aget (handlers (part s')) i = Some e ∧ trace s' = trace s ++ [(timer_hi (part s), h, j)])
    (Hs : ready i s e T) (Hfire : 0 <= T < fire_tick e) (Hrate : 0 < repeat_rate e)
    (Hmax : T + Z.of_nat n + repeat_rate e < 2 ^ 31)
    (Hdev : device (part s) = dev) (Hres : 0 < device_resoulution (part s) < 2 ^ 20) :
  ∃ s', ticks call n dev s = Done tt s' ∧
    filter (mine i) (trace s') = filter (mine i) (trace s) ++
      ((λ t, (t, handler e, i)) <$>
        filter (λ t, fire_tick e <= t ∧ (t - fire_tick e) mod repeat_rate e = 0) (seqZ (T + 1) (Z.of_nat n))).
Proof. by apply (ticks_mine call trace Htrace i Hi Hcall n s e T dev). Qed.

End timer_properties.

(** Registering a timer uses the first free slot, sets its next tick to
    the given distance from now and leaves every other slot alone; with no
    free slot it returns 0xFF and changes nothing. *)
Theorem register_first_free c nm tick h r
    (Hc : clock_ok c) :
  ∃ i, 0 <= i <= 0xFF ∧ (∀ j, 0 <= j < i -> is_busy c j) ∧
    if i =? 0xFF then timing_register_timer nm tick h r c = Done 0xFF c
    else is_free c i ∧ ∃ c', timing_register_timer nm tick h r c = Done i c' ∧
      aget (handlers c') i = Some (Timer nm (s32 (tick + timer_hi c)) r i h) ∧
      (∀ j, j ≠ i -> aget (handlers c') j = aget (handlers c) j) ∧ timer_hi c' = timer_hi c.
Proof.
  destruct (register_spec c nm tick h r Hc) as (i & Hi & Hb & Hf & Hrun).
  exists i. split; [done|]. split; [done|]. destruct (Z.eqb_spec i 0xFF) as [->|Hne]; [done|].
  split; [apply Hf; lia|]. eexists. split; [exact Hrun|]. cbn. split.
  - apply aget_aset_eq. rewrite Hc. unfold TIMERS. lia.
  - split; [|done]. intros j Hj. by apply aget_aset_ne.
Qed.

Section timer_examples.
(** A handler that only logs its call. *)
Definition log_call (h j : Z) : M (clock * list (Z * Z * Z)) unit :=
  modify (λ s, (fst s, snd s ++ [(timer_hi (fst s), h, j)])).
Definition one_timer : clock :=
  Clock (aset 0 (Timer "blink" 3 5 0 0x1000) (replicate TIMERS no_timer)) 0 0 0 1.

Lemma periodic_timer_fires_witness :
  ∃ s', ticks log_call 20 0 (one_timer, []) = Done tt s' ∧
    filter (mine 0) (snd s') = [] ++ ((λ t, (t, 0x1000, 0)) <$>
      filter (λ t, 3 <= t ∧ (t - 3) mod 5 = 0) (seqZ (0 + 1) 20)).
Proof.
  apply (periodic_timer_fires log_call snd 0 20 (one_timer, []) (Timer "blink" 3 5 0 0x1000) 0 0).
  - done.
  - lia.
  - intros h j s e Hc He _. exists (fst s, snd s ++ [(timer_hi (fst s), h, j)]). by split_and!.
  - by split_and!.
  - cbn. lia.
  - cbn. lia.
  - cbn. lia.
  - done.
  - cbn. lia.
Defined.

Lemma register_first_free_witness :
  ∃ i, 0 <= i <= 0xFF ∧ (∀ j, 0 <= j < i -> is_busy one_timer j) ∧
    if i =? 0xFF then timing_register_timer "x" 10 0x2000 0 one_timer = Done 0xFF one_timer
    else is_free one_timer i ∧ ∃ c', timing_register_timer "x" 10 0x2000 0 one_timer = Done i c' ∧
      aget (handlers c') i = Some (Timer "x" (s32 (10 + timer_hi one_timer)) 0 i 0x2000) ∧
      (∀ j, j ≠ i -> aget (handlers c') j = aget (handlers one_timer) j) ∧ timer_hi c' = timer_hi one_timer.
Proof. by apply (register_first_free one_timer "x" 10 0x2000 0). Defined.
End timer_examples.
