(* ===== verification/ArmPort.v ===== *)
(** * The ARM boards (arm/integrator-cp: arm4-xrq.c, drivers/serial.c,
      drivers/timer.c; arm/rpi/drivers/uart.c)

    The exception vectors as instructions the processor decodes, the
    dispatch of exceptions, the serial lines of the two boards. *)

From S2P Require Import Prelude CString Ram Ports Timing.

(** ** Exception vectors *)

Definition ARM4_XRQ_RESET : Z := 0x00.
Definition ARM4_XRQ_UNDEF : Z := 0x01.
Definition ARM4_XRQ_SWINT : Z := 0x02.
Definition ARM4_XRQ_ABRTP : Z := 0x03.
Definition ARM4_XRQ_ABRTD : Z := 0x04.
Definition ARM4_XRQ_RESV1 : Z := 0x05.
Definition ARM4_XRQ_IRQ : Z := 0x06.
Definition ARM4_XRQ_FIQ : Z := 0x07.

Definition arm4_xrqinstall (ndx addr : Z) : M ram unit :=
  store32 (0x0 + 4 * ndx) (Z.lor 0xEA000000 (Z.shiftr (u32 (addr - 8 - 4 * ndx)) 2)).

(** The entry points, naked functions around assembly. *)
Class Entries := {
  k_exphandler_reset_entry : Z; k_exphandler_undef_entry : Z; k_exphandler_swi_entry : Z;
  k_exphandler_abrtp_entry : Z; k_exphandler_abrtd_entry : Z; k_exphandler_irq_entry : Z;
  k_exphandler_fiq_entry : Z
}.

(** Memory and the status register. The [swi 4] at the end of the set-up,
    a test of the vector, is left out, and so are log messages. *)
Record arm := Arm { arm_mem : ram; cpsr : Z }.
#[export] Program Instance arm_has_mem : Has ram arm := { part := arm_mem; set_part m s := Arm m (cpsr s) }.
Solve All Obligations with (by repeat intros []).

Definition arm4_cpsrget : M arm Z := gets cpsr.
Definition arm4_cpsrset (r : Z) : M arm unit := modify (λ s, Arm (arm_mem s) (u32 r)).
Definition arm4_xrqenable_fiq : M arm unit := r ← arm4_cpsrget; arm4_cpsrset (Z.land r (Z.lnot (Z.shiftl 1 6))).
Definition arm4_xrqenable_irq : M arm unit := r ← arm4_cpsrget; arm4_cpsrset (Z.land r (Z.lnot (Z.shiftl 1 7))).

Definition arm4_xrqsetup `{!Entries} : M arm unit :=
  within (arm4_xrqinstall ARM4_XRQ_RESET k_exphandler_reset_entry);;
  within (arm4_xrqinstall ARM4_XRQ_UNDEF k_exphandler_undef_entry);;
  within (arm4_xrqinstall ARM4_XRQ_SWINT k_exphandler_swi_entry);;
  within (arm4_xrqinstall ARM4_XRQ_ABRTP k_exphandler_abrtp_entry);;
  within (arm4_xrqinstall ARM4_XRQ_ABRTD k_exphandler_abrtd_entry);;
  within (arm4_xrqinstall ARM4_XRQ_IRQ k_exphandler_irq_entry);;
  within (arm4_xrqinstall ARM4_XRQ_FIQ k_exphandler_fiq_entry);;
  r ← arm4_cpsrget;
  arm4_cpsrset (Z.land r (Z.lnot (Z.shiftl 1 7))).

(** ** Dispatch *)

Definition PIC_IRQ_STATUS : Z := 0x0.
Definition PIC_IRQ_ENABLESET : Z := 0x2.
Definition REG_LOAD : Z := 0x00.
Definition REG_CTRL : Z := 0x02.
Definition REG_INTCLR : Z := 0x03.
Definition REG_BGLOAD : Z := 0x06.

Section dispatch.
Context `{!Bus} {S : Type} `{!Has ports S, !Has ram S, !Has clock S}.
Context (call : Z -> Z -> M S unit).
(** The greeting on [swi 4], and the report of an exception. *)
Context (swi_working : Z -> M S unit) (unhandled : Z -> M S unit).

Definition arm4_xrq_handler (lr type : Z) : M S unit :=
  if type =? ARM4_XRQ_IRQ then
    status ← within (mmio_read (0x14000000 + 4 * PIC_IRQ_STATUS));
    if truth (Z.land status 0x20) then
      within (mmio_write (0x13000000 + 4 * REG_INTCLR) 1);;
      timer_recieveTick call 0x2
    else mret tt
  else if type =? ARM4_XRQ_SWINT then
    w ← within (load32 (lr - 4));
    let swi := Z.land w 0xffff in
    if swi =? 4 then swi_working swi else mret tt
  else if negb (type =? ARM4_XRQ_IRQ) && negb (type =? ARM4_XRQ_FIQ) && negb (type =? ARM4_XRQ_SWINT)
  then unhandled type
  else mret tt.

(** drivers/timer.c; the message is left out *)
Definition icp_timer_setup : M S unit :=
  within (mmio_write (0x14000000 + 4 * PIC_IRQ_ENABLESET)
    (Z.lor (Z.lor (Z.shiftl 1 5) (Z.shiftl 1 6)) (Z.shiftl 1 7)));;
  within (mmio_write (0x13000000 + 4 * REG_LOAD) 0x1000);;
  within (mmio_write (0x13000000 + 4 * REG_BGLOAD) 40000);;
  within (mmio_write (0x13000000 + 4 * REG_CTRL)
    (Z.lor (Z.lor (Z.lor (Z.lor 0x80 0x40) 0x02) 0x00) (Z.shiftl 1 5)));;
  within (mmio_write (0x13000000 + 4 * REG_INTCLR) (Z.lnot 0));;
  within (timer_switchDevice 0x2).
End dispatch.

(** ** The serial lines *)

Section uart.
Context `{!Bus}.
(** The data and flag registers: 0x16000000 and 0x16000018 on the
    Integrator, 0x20201000 and 0x20201018 on the Raspberry Pi. *)
Context (UART_DR UART_FR : Z).

Definition wait_not_full : M ports unit :=
  while word_fuel (λ _, v ← mmio_read UART_FR; mret (if truth (Z.land v 0x20) then inl tt else inr tt)) tt.

(** [serial_write] calls itself with a carriage return after a line feed. *)
Fixpoint uart_write (fuel : nat) (c : Z) : M ports unit :=
  match fuel with
  | O => spin
  | Datatypes.S fuel' =>
      wait_not_full;; mmio_write UART_DR c;; if c =? 10 then uart_write fuel' 13 else mret tt
  end.
Definition serial_write (c : Z) : M ports unit := uart_write 2 c.
(** The pointer advances to the terminator. *)
Definition serial_writes {S} `{!Has ports S} (ld : Z -> M S Z) (s : Z) : M S unit :=
  each_char ld (λ _ v, within (serial_write v)) s.

(** Integrator: returns 0 when nothing was received. *)
Definition serial_read : M ports Z :=
  v ← mmio_read UART_FR;
  if negb (truth (Z.land v 0x10)) then d ← mmio_read UART_DR; mret (u8 d) else mret 0x0.
End uart.

Definition ICP_DR : Z := 0x16000000.
Definition ICP_FR : Z := 0x16000000 + 0x18.
Definition RPI_DR : Z := 0x20201000 + 0x00.
Definition RPI_FR : Z := 0x20201000 + 0x18.

(** uart.c *)
Definition rpi_serial_init : M ports unit :=
  mmio_write (0x20201000 + 0x30) 0x0;;
  mmio_write (0x20200000 + 0x94) 0x0;;
  mmio_write (0x20200000 + 0x98) (Z.lor (Z.shiftl 1 14) (Z.shiftl 1 15));;
  mmio_write (0x20200000 + 0x98) 0x0;;
  mmio_write (0x20201000 + 0x44) 0x7ff;;
  mmio_write (0x20201000 + 0x24) 1;;
  mmio_write (0x20201000 + 0x28) 40;;
  mmio_write (0x20201000 + 0x2C) (Z.lor (Z.lor (Z.shiftl 1 4) (Z.shiftl 1 5)) (Z.shiftl 1 6));;
  mmio_write (0x20201000 + 0x38)
    (foldl Z.lor (Z.shiftl 1 1) (Z.shiftl 1 <$> [4; 5; 6; 7; 8; 9; 10]));;
  mmio_write (0x20201000 + 0x30) (Z.lor (Z.lor (Z.shiftl 1 0) (Z.shiftl 1 8)) (Z.shiftl 1 9)).

(** ** Vectors as the processor runs them *)

(** A branch instruction without condition at address [a]: its target, or
    nothing when the word is another instruction. *)
Definition branch_target (a w : Z) : option Z :=
  if w / 2 ^ 24 =? 0xEA then Some (u32 (a + 8 + 4 * signed 24 w)) else None.

Lemma install_word ndx addr :
  addr mod 4 = 0 -> 0 <= ndx < 8 -> 8 + 4 * ndx <= addr < 2 ^ 25 ->
  branch_target (4 * ndx) (u32 (Z.lor 0xEA000000 (Z.shiftr (u32 (addr - 8 - 4 * ndx)) 2))) = Some addr.
Proof.
  intros Hal Hn Ha. rewrite (u32_small (addr - _ - _)), Z.shiftr_div_pow2 by lia. change (2 ^ 2) with 4.
  set (o := (addr - 8 - 4 * ndx) / 4). assert (Ho : addr = 8 + 4 * ndx + 4 * o) by (unfold o; zdm).
  assert (0 <= o < 2 ^ 23) by (unfold o; zdm).
  rewrite Z.lor_comm. change 0xEA000000 with (Z.shiftl 0xEA 24). rewrite lor_shiftl by lia.
  rewrite (u32_small (o + _)) by (change (2 ^ 24) with 16777216; change (2 ^ 32) with 4294967296;
    change (2 ^ 23) with 8388608 in *; lia).
  unfold branch_target, signed. change (2 ^ 24) with 16777216. change (2 ^ (24 - 1)) with 8388608.
  change (2 ^ 23) with 8388608 in *.
  replace ((o + 0xEA * 16777216) / 16777216) with 0xEA by zdm. rewrite Z.eqb_refl.
  replace ((o + 0xEA * 16777216) mod 16777216) with o by zdm.
  rewrite (proj2 (Z.ltb_lt o 8388608)) by lia. f_equal. rewrite u32_small; lia.
Qed.

Definition vector (m : ram) (ndx : Z) : option Z := branch_target (4 * ndx) (word m (4 * ndx)).

Section vectors.
Context `{!Entries}.

Definition entry (ndx : Z) : option Z :=
  if ndx =? ARM4_XRQ_RESET then Some k_exphandler_reset_entry
  else if ndx =? ARM4_XRQ_UNDEF then Some k_exphandler_undef_entry
  else if ndx =? ARM4_XRQ_SWINT then Some k_exphandler_swi_entry
  else if ndx =? ARM4_XRQ_ABRTP then Some k_exphandler_abrtp_entry
  else if ndx =? ARM4_XRQ_ABRTD then Some k_exphandler_abrtd_entry
  else if ndx =? ARM4_XRQ_IRQ then Some k_exphandler_irq_entry
  else if ndx =? ARM4_XRQ_FIQ then Some k_exphandler_fiq_entry
  else None.

Lemma install_done ndx addr m c :
  within (arm4_xrqinstall ndx addr) (Arm m c) =
  Done tt (Arm (set_word (4 * ndx) (Z.lor 0xEA000000 (Z.shiftr (u32 (addr - 8 - 4 * ndx)) 2)) m) c).
Proof. exact (within_done (T := ram) (arm4_xrqinstall ndx addr) (Arm m c) _ _ (store32_word _ _ _)). Qed.

(** C35: After the set-up each of the seven vectors is a branch to its entry
    point, when the entry points are word-aligned and in the first 32
    megabytes after the table; the reserved vector is left alone, and
    ordinary interrupts are enabled. *)
Theorem arm_vectors_installed s
    (He : ∀ ndx a, entry ndx = Some a -> a mod 4 = 0 ∧ 0x24 <= a < 2 ^ 25) :
  ∃ s', arm4_xrqsetup s = Done tt s' ∧
    (∀ ndx a, entry ndx = Some a -> vector (arm_mem s') ndx = Some a) ∧
    word (arm_mem s') (4 * ARM4_XRQ_RESV1) = word (arm_mem s) (4 * ARM4_XRQ_RESV1) ∧
    Z.testbit (cpsr s') 7 = false ∧
    (∀ i, 0 <= i < 32 -> i ≠ 7 -> Z.testbit (cpsr s') i = Z.testbit (cpsr s) i).
Proof.
  destruct s as [m c]. eexists. split; [|split; [|split; [|split]]].
  - unfold arm4_xrqsetup. rewrite !(bind_Done _ _ _ _ _ (install_done _ _ _ _)). mrun. reflexivity.
  - intros ndx a Hn. destruct (He ndx a Hn) as [Hal Hr]. cbn [arm_mem].
    unfold entry, ARM4_XRQ_RESET, ARM4_XRQ_UNDEF, ARM4_XRQ_SWINT, ARM4_XRQ_ABRTP, ARM4_XRQ_ABRTD, ARM4_XRQ_IRQ,
      ARM4_XRQ_FIQ in *. unfold vector.
    repeat match type of Hn with
    | (if ?x =? ?y then _ else _) = _ =>
        destruct (Z.eqb_spec x y) as [->|_];
        [injection Hn as <-; repeat first [rewrite word_set_eq|rewrite word_set_ne by lia];
         apply install_word; [done|lia|lia]|]
    end. done.
  - cbn [arm_mem]. unfold ARM4_XRQ_RESET, ARM4_XRQ_UNDEF, ARM4_XRQ_SWINT, ARM4_XRQ_ABRTP, ARM4_XRQ_ABRTD,
      ARM4_XRQ_RESV1, ARM4_XRQ_IRQ, ARM4_XRQ_FIQ. by rewrite !word_set_ne by lia.
  - cbn [cpsr]. unfold u32. rewrite Z.mod_pow2_bits_low, Z.land_spec, Z.lnot_spec by lia.
    change (Z.testbit (Z.shiftl 1 7) 7) with true. apply andb_false_r.
  - intros i Hi Hne. cbn [cpsr]. unfold u32. rewrite Z.mod_pow2_bits_low, Z.land_spec, Z.lnot_spec, Z.shiftl_1_l by lia.
    rewrite Z.pow2_bits_false by lia. apply andb_true_r.
Qed.
End vectors.

(** ** Timer interrupts *)

Section ticking.
Context `{!Bus} {S : Type} `{!Has ports S, !Has ram S, !Has clock S}.
Context (call : Z -> Z -> M S unit) (swi_working unhandled : Z -> M S unit).

(** The interrupt controller's answer in state [s]. *)
Definition pic_status (s : S) : Z := u32 (reply (accesses (part s)) 32 0x14000000).
Definition acknowledged (s : S) : S :=
  let p := Ports (accesses (part s) ++ [In 32 0x14000000]) in
  set_part (Ports (accesses p ++ [Out 32 0x1300000C 1])) (set_part p s).

(** An interrupt is a tick exactly when the controller reports the
    timer, whose interrupt is cleared before the tick; a fast interrupt and
    a software interrupt other than 4 change nothing. *)
Theorem arm_irq_ticks lr s :
  (Z.testbit (pic_status s) 5 = true ->
   arm4_xrq_handler call swi_working unhandled lr ARM4_XRQ_IRQ s = timer_recieveTick call 2 (acknowledged s)) ∧
  (Z.testbit (pic_status s) 5 = false ->
   ∃ s', arm4_xrq_handler call swi_working unhandled lr ARM4_XRQ_IRQ s = Done tt s' ∧
     s' = set_part (Ports (accesses (part s) ++ [In 32 0x14000000])) s) ∧
  arm4_xrq_handler call swi_working unhandled lr ARM4_XRQ_FIQ s = Done tt s ∧
  (Z.land (word (part s) (lr - 4)) 0xffff ≠ 4 ->
   arm4_xrq_handler call swi_working unhandled lr ARM4_XRQ_SWINT s = Done tt s).
Proof.
  assert (Hread : within (mmio_read (0x14000000 + 4 * PIC_IRQ_STATUS)) s
    = Done (pic_status s) (set_part (Ports (accesses (part s) ++ [In 32 0x14000000])) s)) by done.
  assert (Hbit : truth (Z.land (pic_status s) 0x20) = Z.testbit (pic_status s) 5).
  { change 0x20 with (2 ^ 5). rewrite land_pow2 by lia. unfold truth. by destruct (Z.testbit _ 5). }
  split; [|split; [|split]].
  - intros Hb. unfold arm4_xrq_handler. rewrite (eq_refl : (ARM4_XRQ_IRQ =? ARM4_XRQ_IRQ) = true).
    rewrite (bind_Done _ _ _ _ _ Hread), Hbit, Hb.
    rewrite (bind_Done _ _ _ tt (acknowledged s)); [done|].
    unfold acknowledged. apply (within_done (T := ports)). by rewrite part_set.
  - intros Hb. eexists. split; [|done]. unfold arm4_xrq_handler.
    rewrite (eq_refl : (ARM4_XRQ_IRQ =? ARM4_XRQ_IRQ) = true).
    by rewrite (bind_Done _ _ _ _ _ Hread), Hbit, Hb.
  - done.
  - intros Hne. unfold arm4_xrq_handler.
    rewrite (eq_refl : (ARM4_XRQ_SWINT =? ARM4_XRQ_IRQ) = false), (eq_refl : (ARM4_XRQ_SWINT =? ARM4_XRQ_SWINT) = true).
    rewrite (bind_Done _ _ _ _ _ (within_read (T := ram) (load32 (lr - 4)) s _ (load32_word _ _))).
    cbn zeta. by rewrite (proj2 (Z.eqb_neq _ 4)).
Qed.
End ticking.

(** ** Text on a serial line *)

Definition crlf (l : list Z) : list Z := l ≫= λ c, if c =? 10 then [10; 13] else [c].

Section uart_text.
Context `{!Bus} (UART_DR UART_FR : Z).
Context (Hdr : 0 <= UART_DR < 2 ^ 32) (Hfr : 0 <= UART_FR < 2 ^ 32).
Implicit Types p : ports.

(** The flag register after [k] reads of it, and the promise that the
    transmitter is not full for ever. *)
Definition reads (k : nat) p : ports := Ports (accesses p ++ replicate k (In 32 UART_FR)).
Definition full (k : nat) p : bool := truth (Z.land (u32 (reply (accesses (reads k p)) 32 UART_FR)) 0x20).
Definition empties (n : nat) p : Prop :=
  ∃ k, (k < n)%nat ∧ full k p = false ∧ ∀ j, (j < k)%nat -> full j p = true.

Lemma reads_reads k p : reads k (reads 1 p) = reads (Datatypes.S k) p.
Proof. unfold reads. cbn. by rewrite <- app_assoc. Qed.

Lemma wait_done n p :
  empties n p -> Z.of_nat n <= 2 ^ 32 -> ∃ k, wait_not_full UART_FR p = Done tt (reads k p).
Proof.
  intros (k & Hk & Hno & Hyes) Hn. exists (Datatypes.S k).
  apply (runs_while _ (Datatypes.S k)); [|pose proof word_fuel_Z; lia].
  assert (∀ p, mmio_read UART_FR p = Done (u32 (reply (accesses p) 32 UART_FR)) (reads 1 p)) as Hread.
  { intros q. unfold mmio_read. by rewrite (u32_small UART_FR). }
  assert (∀ q, reads 0 q = q) as H0 by (intros []; unfold reads; cbn; by rewrite app_nil_r).
  clear Hk. revert p Hno Hyes. induction k as [|k IH]; intros p Hno Hyes.
  - apply runs_end. mstep (Hread p). unfold full in Hno. rewrite H0 in Hno. by rewrite Hno.
  - eapply runs_step.
    + mstep (Hread p). specialize (Hyes 0%nat ltac:(lia)). unfold full in Hyes. rewrite H0 in Hyes. by rewrite Hyes.
    + rewrite <- (reads_reads (Datatypes.S k)). apply IH.
      * unfold full in *. by rewrite reads_reads.
      * intros j Hj. unfold full in *. rewrite reads_reads. apply Hyes. lia.
Qed.

Lemma sent_reads k p : sent UART_DR (reads k p) = sent UART_DR p.
Proof.
  unfold sent, reads. cbn. rewrite omap_app. replace (omap (sent_by UART_DR) (replicate k (In 32 UART_FR))) with (@nil Z).
  - apply app_nil_r.
  - by induction k.
Qed.

Lemma uart_write_done n fuel c p :
  (∀ q, empties n q) -> Z.of_nat n <= 2 ^ 32 -> 0 <= c < 256 -> (2 <= fuel)%nat ->
  ∃ p', uart_write UART_DR UART_FR fuel c p = Done tt p' ∧
    sent UART_DR p' = sent UART_DR p ++ (if c =? 10 then [10; 13] else [c]).
Proof.
  intros He Hn Hc Hfuel.
  assert (∀ c p, 0 <= c < 256 -> ∃ p', (wait_not_full UART_FR;; mmio_write UART_DR c) p = Done tt p' ∧
    sent UART_DR p' = sent UART_DR p ++ [c]) as Hone.
  { clear c p Hc. intros c p Hc. destruct (wait_done n p (He p) Hn) as (k & Hw).
    eexists. mstep Hw. unfold mmio_write. rewrite (u32_small UART_DR) by done. split; [reflexivity|].
    rewrite sent_app. change (sent UART_DR (Ports _)) with (sent UART_DR (reads k p)). rewrite sent_reads.
    cbn [sent_by]. rewrite Z.eqb_refl. cbn [option_list]. by rewrite Z.mod_small by lia. }
  destruct fuel as [|[|fuel]]; [lia|lia|]. destruct (Hone c p Hc) as (p1 & E1 & H1).
  assert (∀ (k : M ports unit) q q', (wait_not_full UART_FR;; mmio_write UART_DR c) q = Done tt q' ->
    (wait_not_full UART_FR;; mmio_write UART_DR c;; k) q = k q') as Hseq.
  { intros k q q' E. rewrite <- (bind_assoc (wait_not_full UART_FR) (λ _, mmio_write UART_DR c) (λ _, k)). by mstep E. }
  cbn [uart_write]. rewrite (Hseq _ _ _ E1). destruct (Z.eqb_spec c 10) as [->|Hn10]; [|by exists p1].
  destruct (Hone 13 p1 ltac:(lia)) as (p2 & E2 & H2). exists p2.
  rewrite <- (bind_assoc (wait_not_full UART_FR) (λ _, mmio_write UART_DR 13)). mstep E2. cbn. split; [done|].
  by rewrite H2, H1, <- app_assoc.
Qed.

(** When the transmitter never stays full, [serial_writes] of a string
    returns having sent its characters in order, a carriage return after
    each line feed, and memory is as it was; the recursion of [serial_write]
    is at most two deep. *)
Theorem serial_writes_sends {B} `{!ByteMem B} n (m : B) s l p
    (He : ∀ q, empties n q) (Hn : Z.of_nat n <= 2 ^ 32) (Hl : cstr m s l) :
  ∃ p', serial_writes UART_DR UART_FR (λ a, within (load8 a)) s (m, p) = Done tt (m, p') ∧
    sent UART_DR p' = sent UART_DR p ++ crlf l.
Proof.
  destruct (each_char_runs (λ a, within (load8 a)) (λ _ v, within (serial_write UART_DR UART_FR v))
    (λ i (st : B * ports), fst st = m ∧ sent UART_DR (snd st) = sent UART_DR p ++ crlf (take i l)) s l (m, p))
    as ([m' p'] & E & <- & Hsent).
  - intros i [m1 q] Hi [Hm _]. cbn in Hm. subst m1. apply within_read, (cstr_load m s l i Hi Hl).
  - intros i [m1 q] Hi [Hm Hq]. cbn in Hm, Hq. subst m1.
    pose proof (char_at_lt l i (cstr_chars _ _ _ Hl) Hi) as Hc.
    destruct (uart_write_done n 2 (char_at l i) q He Hn ltac:(lia) ltac:(lia)) as (q' & Hw & Hs).
    exists (m, q'). split; [exact (within_done (T := ports) (serial_write UART_DR UART_FR (char_at l i)) (m, q) _ _ Hw)|].
    split; [done|]. cbn [snd]. rewrite Hs, Hq, <- app_assoc. f_equal.
    apply lookup_lt_is_Some in Hi as (v & Hv). unfold char_at. rewrite (take_S_r _ _ _ Hv), Hv. cbn [default].
    unfold crlf. rewrite bind_app. cbn. by rewrite app_nil_r.
  - eapply Forall_impl; [exact (cstr_chars _ _ _ Hl)|]. intros v [? _]. cbn in *. lia.
  - pose proof (cstr_range _ _ _ Hl). lia.
  - split; [done|]. cbn. by rewrite app_nil_r.
  - exists p'. split; [exact E|]. cbn in Hsent. by rewrite Hsent, firstn_all.
Qed.
End uart_text.

(** ** Boards to run it on *)

#[local] Instance demo_entries : Entries := {|
  k_exphandler_reset_entry := 0x8000; k_exphandler_undef_entry := 0x8010; k_exphandler_swi_entry := 0x8020;
  k_exphandler_abrtp_entry := 0x8030; k_exphandler_abrtd_entry := 0x8040; k_exphandler_irq_entry := 0x8050;
  k_exphandler_fiq_entry := 0x8060
|}.

Lemma arm_vectors_installed_witness :
  ∃ s', arm4_xrqsetup (Arm (Ram ∅) 0xD3) = Done tt s' ∧ vector (arm_mem s') ARM4_XRQ_IRQ = Some 0x8050.
Proof.
  destruct (arm_vectors_installed (Arm (Ram ∅) 0xD3)) as (s' & E & H & _).
  - intros ndx a. unfold entry. repeat case_match; intros [= <-]; (split; [reflexivity|cbn; lia]).
  - exists s'. split; [exact E|]. by apply H.
Defined.

(** A transmitter that is never full, and the string "a" and a line feed. *)
#[local] Instance quiet_line : Bus := λ _ _ _, 0.
Definition demo_line : gmap Z Z := {[ 200 := 97; 201 := 10; 202 := 0 ]}.

Lemma serial_writes_sends_witness :
  ∃ p', serial_writes ICP_DR ICP_FR (λ a, within (load8 a)) 200 (demo_line, Ports []) = Done tt (demo_line, p') ∧
    sent ICP_DR p' = [97; 10; 13].
Proof.
  apply (serial_writes_sends ICP_DR ICP_FR ltac:(done) ltac:(done) 1 demo_line 200 [97; 10] (Ports [])).
  - intros q. exists 0%nat. split; [lia|]. split; [done|]. lia.
  - lia.
  - vm_compute; repeat split; discriminate.
Defined.

(** A board whose controller reports its timer. *)
Record board := Board { b_mem : ram; b_ports : ports; b_clock : clock }.
#[export] Program Instance board_mem : Has ram board := {
  part := b_mem; set_part m s := Board m (b_ports s) (b_clock s) }.
Solve All Obligations with (by repeat intros []).
#[export] Program Instance board_ports : Has ports board := {
  part := b_ports; set_part p s := Board (b_mem s) p (b_clock s) }.
Solve All Obligations with (by repeat intros []).
#[export] Program Instance board_clock : Has clock board := {
  part := b_clock; set_part c s := Board (b_mem s) (b_ports s) c }.
Solve All Obligations with (by repeat intros []).
Definition timer_line : Bus := λ _ _ _, 0x20.
Definition demo_board : board := Board (Ram ∅) (Ports []) (set_device 2 1 clock_boot).

Lemma arm_irq_ticks_witness :
  arm4_xrq_handler (H := timer_line) (λ _ _, mret tt) (λ _, mret tt) (λ _, mret tt) 0x8000 ARM4_XRQ_IRQ demo_board
  = timer_recieveTick (λ _ _, mret tt) 2
      (Board (Ram ∅) (Ports [In 32 0x14000000; Out 32 0x1300000C 1]) (set_device 2 1 clock_boot)).
Proof.
  destruct (arm_irq_ticks (H := timer_line) (λ _ _, mret tt) (λ _, mret tt) (λ _, mret tt) 0x8000 demo_board) as [H _].
  by apply H.
Defined.
