(* ===== verification/Tasks.v ===== *)
(** * Periodic kernel tasks (kernel/wd.c, kernel/kmonitor.c,
      kernel/scheduler.c)

    The watchdog, the kernel monitor and the scheduler, each registered with
    the timers of Timing, and the kernel state in which the timers call
    them. Messages on the serial line and the console are left out. *)

From stdpp Require Import strings.
From S2P Require Import Prelude KHeap Timing.

(** ** The watchdog (wd.c) *)

Record wd := Wd {
  wd_kmain : Z; wd_kmain_o : Z; wd_kmain_hangups : Z; wd_total_hangups : Z; wd_enabled : Z
}.
Definition wd_boot : wd := Wd 0 0 0 0 1.
Definition WD_HU_LIMIT : Z := 0x500.
Definition WD_NOTIFY_KMAIN : Z := 0x10.
Definition WD_HU_LIMIT_KMAIN : Z := 200.

Section watchdog.
Local Abbreviation K := (M wd).
Definition set_wd_enabled z w := Wd (wd_kmain w) (wd_kmain_o w) (wd_kmain_hangups w) (wd_total_hangups w) z.
Definition wd_disable : K unit := modify (set_wd_enabled 0).
Definition wd_enable : K unit := modify (set_wd_enabled 1).

Definition wd_notify (source : Z) : K unit :=
  e ← gets wd_enabled;
  if negb (truth e) then mret tt
  else if source =? WD_NOTIFY_KMAIN then
    modify (λ w, Wd (s32 (wd_kmain w + 1)) (wd_kmain_o w) (wd_kmain_hangups w) (wd_total_hangups w) (wd_enabled w))
  else mret tt.

(** [panic] stops the machine. *)
Definition wd_evaluate : K unit :=
  w ← get;
  (if wd_kmain w =? wd_kmain_o w then
     put (Wd (wd_kmain w) (wd_kmain_o w) (s32 (wd_kmain_hangups w + 1)) (s32 (wd_total_hangups w + 1)) (wd_enabled w))
   else mret tt);;
  w ← get;
  (if WD_HU_LIMIT <? wd_total_hangups w then halt_here
   else if WD_HU_LIMIT_KMAIN <? wd_kmain_hangups w then halt_here
   else mret tt);;
  modify (λ w, Wd (wd_kmain w) (wd_kmain w) (wd_kmain_hangups w) (wd_total_hangups w) (wd_enabled w)).

Definition wd_get_kmain_hangups : K Z := gets wd_kmain_hangups.
Definition wd_get_hangups : K Z := gets wd_total_hangups.
End watchdog.

(** ** The scheduler (scheduler.c) *)

Record tlist_t := TList { t_next : Z; t_thread : Z }.
Record sched (AS : Type) := Sched {
  tnodes : gmap Z tlist_t; tqueue : Z; tcurrent : Z; scheduler_state : Z; s_sys : AS
}.
Arguments Sched {AS}. Arguments tnodes {AS}. Arguments tqueue {AS}. Arguments tcurrent {AS}.
Arguments scheduler_state {AS}. Arguments s_sys {AS}.

Section scheduler.
Context {AS : Type} `{!Allocator AS}.
Local Abbreviation K := (M (sched AS)).
Implicit Types s : sched AS.

Definition set_tnodes h s := Sched h (tqueue s) (tcurrent s) (scheduler_state s) (s_sys s).
Definition set_tqueue a s := Sched (tnodes s) a (tcurrent s) (scheduler_state s) (s_sys s).
Definition set_tcurrent a s := Sched (tnodes s) (tqueue s) a (scheduler_state s) (s_sys s).
Definition set_sched_state z s := Sched (tnodes s) (tqueue s) (tcurrent s) z (s_sys s).
Definition set_s_sys (x : AS) s := Sched (tnodes s) (tqueue s) (tcurrent s) (scheduler_state s) x.

Definition ldt (a : Z) : K tlist_t :=
  if a =? 0 then fail NullPointer else h ← gets tnodes; of_option (WildPointer a) (h !! a).
Definition updt (a : Z) (f : tlist_t -> tlist_t) : K unit :=
  n ← ldt a; modify (λ s, set_tnodes (<[a := f n]> (tnodes s)) s).
Definition malloc_tlist : K Z :=
  p ← zoom s_sys set_s_sys (am_malloc 8);
  if p =? 0 then mret 0
  else modify (λ s, set_tnodes (<[p := TList am_junk am_junk]> (tnodes s)) s);; mret p.

(** The source only selects the next thread: its call of [thread_switch] is
    commented out (scheduler.c:29), so that no thread runs. *)
Definition scheduler_update : K unit :=
  st ← gets scheduler_state;
  if negb (truth st) then mret tt
  else
    c ← gets tcurrent; n ← ldt c;
    modify (set_tcurrent (t_next n));;
    c ← gets tcurrent;
    (if c =? 0 then q ← gets tqueue; modify (set_tcurrent q) else mret tt);;
    c ← gets tcurrent; n ← ldt c;
    mret tt.

Definition find_last : Z -> K (Z + Z) := λ test,
  n ← ldt test; mret (if truth (t_next n) then inl (t_next n) else inr test).

Definition scheduler_add_thread (thread : Z) : K unit :=
  thread_item ← malloc_tlist;
  updt thread_item (λ n, TList (t_next n) thread);;
  updt thread_item (λ n, TList 0 (t_thread n));;
  test ← gets tqueue;
  last ← while word_fuel find_last test;
  updt last (λ n, TList thread_item (t_thread n));;
  modify (set_sched_state 1).

(** The part of [scheduler_init] before its timer is registered. *)
Definition scheduler_start (first_thread : Z) : K unit :=
  p ← malloc_tlist;
  modify (set_tqueue p);;
  updt p (λ n, TList 0 (t_thread n));;
  updt p (λ n, TList (t_next n) first_thread);;
  q ← gets tqueue; modify (set_tcurrent q).
End scheduler.

(** ** The kernel's timers *)

(** The addresses of the handlers: distinct functions. *)
Class Handlers := {
  timing_reaper_ptr : Z; wd_evaluate_ptr : Z; kmonitor_check_ptr : Z; scheduler_update_ptr : Z;
  handlers_nodup : NoDup [0; timing_reaper_ptr; wd_evaluate_ptr; kmonitor_check_ptr; scheduler_update_ptr]
}.

Record tasks (AS : Type) := Tasks { t_clock : clock; t_wd : wd; t_sched : sched AS }.
Arguments Tasks {AS}. Arguments t_clock {AS}. Arguments t_wd {AS}. Arguments t_sched {AS}.

#[export] Program Instance tasks_clock {AS} : Has clock (tasks AS) := {
  part := t_clock; set_part c s := Tasks c (t_wd s) (t_sched s)
}.
Solve All Obligations with (intros; by repeat match goal with s : tasks _ |- _ => destruct s end).
#[export] Program Instance tasks_wd {AS} : Has wd (tasks AS) := {
  part := t_wd; set_part w s := Tasks (t_clock s) w (t_sched s)
}.
Solve All Obligations with (intros; by repeat match goal with s : tasks _ |- _ => destruct s end).
#[export] Program Instance tasks_sched {AS} : Has (sched AS) (tasks AS) := {
  part := t_sched; set_part c s := Tasks (t_clock s) (t_wd s) c
}.
Solve All Obligations with (intros; by repeat match goal with s : tasks _ |- _ => destruct s end).

Section kernel.
Context {AS : Type} `{!Allocator AS} `{!Handlers}.
Local Abbreviation K := (M (tasks AS)).

Definition kmonitor_check : K unit := mret tt.

(** Calling a handler by its address. *)
Definition call_handler (h i : Z) : K unit :=
  if h =? timing_reaper_ptr then within timing_reaper
  else if h =? wd_evaluate_ptr then within wd_evaluate
  else if h =? kmonitor_check_ptr then kmonitor_check
  else if h =? scheduler_update_ptr then within scheduler_update
  else fail (WildPointer h).

Definition wd_init : K unit :=
  within (timing_register_timer "kernel_wd" 25 wd_evaluate_ptr 25);; mret tt.
Definition kmonitor_init : K unit :=
  within (timing_register_timer "kmonitor_wd" 10 kmonitor_check_ptr 10);; mret tt.
Definition scheduler_init (first_thread : Z) : K unit :=
  within (scheduler_start first_thread);;
  within (timing_register_timer "scheduler_update" 5 scheduler_update_ptr 5);; mret tt.
(** What kmain starts: the timers and the watchdog. *)
Definition kmain_timers : K unit := within (timing_init timing_reaper_ptr);; wd_init.
End kernel.

(** ** What the watchdog tolerates *)

Inductive wd_cmd := Notify (source : Z) | Evaluate | Enable | Disable.

Section watchdog_spec.
Definition wd_exec (c : wd_cmd) : M wd unit :=
  match c with
  | Notify source => wd_notify source | Evaluate => wd_evaluate | Enable => wd_enable | Disable => wd_disable
  end.
Fixpoint wd_run (cs : list wd_cmd) : M wd unit :=
  match cs with [] => mret tt | c :: cs' => wd_exec c;; wd_run cs' end.

(** Is the watchdog listening, did kmain report since the last evaluation,
    and how often did it not. *)
Record wd_view := View { listening : bool; reported : bool; hangs : nat }.
Definition wd_step (c : wd_cmd) (v : wd_view) : wd_view :=
  match c with
  | Notify source =>
      if listening v && (source =? WD_NOTIFY_KMAIN) then View (listening v) true (hangs v) else v
  | Evaluate => View (listening v) false (hangs v + (if reported v then 0 else 1))
  | Enable => View true (reported v) (hangs v)
  | Disable => View false (reported v) (hangs v)
  end.
(** [None]: more than 200 hang-ups. *)
Fixpoint wd_meaning (cs : list wd_cmd) (v : wd_view) : option wd_view :=
  match cs with
  | [] => Some v
  | c :: cs' => let v' := wd_step c v in if (200 <? hangs v')%nat then None else wd_meaning cs' v'
  end.

Definition wd_rep (n : nat) (w : wd) (v : wd_view) : Prop :=
  0 <= wd_kmain_o w <= wd_kmain w ∧ wd_kmain w <= Z.of_nat n ∧
  reported v = negb (wd_kmain w =? wd_kmain_o w) ∧ listening v = truth (wd_enabled w) ∧
  wd_kmain_hangups w = Z.of_nat (hangs v) ∧ wd_total_hangups w = Z.of_nat (hangs v) ∧ (hangs v <= 200)%nat.

Lemma wd_exec_spec n c w v :
  wd_rep n w v -> Z.of_nat n + 1 < 2 ^ 31 ->
  if (200 <? hangs (wd_step c v))%nat then ∃ w', wd_exec c w = Halted w'
  else ∃ w', wd_exec c w = Done tt w' ∧ wd_rep (S n) w' (wd_step c v).
Proof.
  destruct w as [k o h t e], v as [l r g]. intros (Ho & Hk & Hr & Hl & Hh & Ht & Hg) Hn.
  cbn [wd_kmain wd_kmain_o wd_kmain_hangups wd_total_hangups wd_enabled listening reported hangs] in *.
  subst h t l r. destruct c as [source| | |]; cbn [wd_step wd_exec listening reported hangs].
  - unfold wd_notify, gets, modify, mbind, M_bind, mret, M_ret. cbn [wd_enabled].
    destruct (truth e) eqn:He; [destruct (source =? WD_NOTIFY_KMAIN)|]; cbn [andb negb hangs];
      rewrite (proj2 (Nat.ltb_ge _ _)) by done; eexists; (split; [done|]);
      unfold wd_rep; cbn [wd_kmain wd_kmain_o wd_kmain_hangups wd_total_hangups wd_enabled listening reported hangs].
    + rewrite s32_small by lia. rewrite (proj2 (Z.eqb_neq (k + 1) o)) by lia. split_and!; done || lia.
    + split_and!; done || lia.
    + split_and!; done || lia.
  - unfold wd_evaluate, WD_HU_LIMIT, WD_HU_LIMIT_KMAIN. rewrite (bind_Done _ _ _ _ _ (eq_refl : get _ = Done _ _)).
    cbn [wd_kmain wd_kmain_o wd_kmain_hangups wd_total_hangups wd_enabled].
    destruct (Z.eqb_spec k o) as [->|Hne]; cbn [negb].
    + rewrite bind_assoc || idtac. rewrite (bind_Done _ _ _ _ _ (eq_refl : put _ _ = Done _ _)).
      rewrite (bind_Done _ _ _ _ _ (eq_refl : get _ = Done _ _)).
      cbn [wd_kmain wd_kmain_o wd_kmain_hangups wd_total_hangups wd_enabled].
      rewrite !s32_small by lia. rewrite (proj2 (Z.ltb_ge _ _)) by lia.
      destruct (Nat.ltb_spec 200 (g + 1)).
      * rewrite (proj2 (Z.ltb_lt _ _)) by lia. eexists. done.
      * rewrite (proj2 (Z.ltb_ge _ _)) by lia. eexists. split; [done|].
        unfold wd_rep. cbn. rewrite Z.eqb_refl. split_and!; done || lia.
    + rewrite bind_ret. rewrite (bind_Done _ _ _ _ _ (eq_refl : get _ = Done _ _)).
      cbn [wd_kmain wd_kmain_o wd_kmain_hangups wd_total_hangups wd_enabled].
      rewrite !(proj2 (Z.ltb_ge _ _)) by lia. rewrite (proj2 (Nat.ltb_ge _ _)) by lia.
      eexists. split; [done|]. unfold wd_rep. cbn. rewrite Z.eqb_refl. split_and!; done || lia.
  - rewrite (proj2 (Nat.ltb_ge _ _)) by done. eexists. split; [done|].
    unfold wd_rep. cbn. split_and!; done || lia.
  - rewrite (proj2 (Nat.ltb_ge _ _)) by done. eexists. split; [done|].
    unfold wd_rep. cbn. split_and!; done || lia.
Qed.

Lemma wd_run_spec cs : ∀ n w v,
  wd_rep n w v -> Z.of_nat n + Z.of_nat (length cs) < 2 ^ 31 ->
  match wd_meaning cs v with
  | Some v' => ∃ w', wd_run cs w = Done tt w' ∧ wd_total_hangups w' = Z.of_nat (hangs v') ∧ (hangs v' <= 200)%nat
  | None => ∃ w', wd_run cs w = Halted w'
  end.
Proof.
  induction cs as [|c cs IH]; intros n w v Hrep Hn; cbn [wd_meaning wd_run].
  - exists w. split; [done|]. split; apply Hrep.
  - cbn [length] in Hn. pose proof (wd_exec_spec n c w v Hrep ltac:(lia)) as Hc.
    destruct (200 <? hangs (wd_step c v))%nat.
    + destruct Hc as [w' Hc]. exists w'. unfold mbind, M_bind. by rewrite Hc.
    + destruct Hc as (w' & Hc & Hrep'). mstep Hc. eapply IH; [exact Hrep'|lia].
Qed.
End watchdog_spec.

(** ** The thread queue *)

Section queue.
Context {AS : Type} `{!Allocator AS}.
Implicit Types s : sched AS.

(** From [a], [next] visits the nodes [l] with their threads. *)
Fixpoint queue (h : gmap Z tlist_t) (a : Z) (l : list (Z * Z)) : Prop :=
  match l with
  | [] => a = 0
  | (b, t) :: l' => a = b ∧ b ≠ 0 ∧ ∃ n, h !! b = Some (TList n t) ∧ queue h n l'
  end.

Record queue_ok s (l : list (Z * Z)) : Prop := {
  qo_queue : queue (tnodes s) (tqueue s) l;
  qo_nodup : NoDup l.*1;
  qo_alloc : am_ok (s_sys s);
  qo_live : ∀ a, a ∈ l.*1 -> is_Some (am_live (s_sys s) !! a)
}.

Lemma queue_out h a l b n : b ∉ l.*1 -> queue h a l -> queue (<[b := n]> h) a l.
Proof.
  revert a. induction l as [|[c t] l IH]; intros a Hb; [done|].
  rewrite fmap_cons in Hb. apply not_elem_of_cons in Hb as [Hbc Hb]. cbn in Hbc.
  intros (-> & Hc & m & Hm & Hl). split; [done|]. split; [done|]. exists m.
  rewrite lookup_insert_ne by done. auto.
Qed.

Lemma queue_snoc h a l b t c u :
  queue h a (l ++ [(b, t)]) -> NoDup (l ++ [(b, t)]).*1 -> c ∉ (l ++ [(b, t)]).*1 -> c ≠ 0 ->
  h !! c = Some (TList 0 u) -> queue (<[b := TList c t]> h) a (l ++ [(b, t); (c, u)]).
Proof.
  revert a. induction l as [|[d v] l IH]; intros a; cbn [app queue].
  - intros (-> & Hb & n & Hn & _) _ Hc Hc0 Hu. cbn in Hc. apply not_elem_of_cons in Hc as [Hcb _]. cbn in Hcb.
    split; [done|]. split; [done|]. exists c. rewrite lookup_insert_eq. split; [done|].
    split; [done|]. split; [done|]. exists 0. by rewrite lookup_insert_ne.
  - intros (-> & Hd & n & Hn & Hl) Hnd Hc Hc0 Hu. rewrite fmap_cons in Hnd, Hc.
    apply NoDup_cons in Hnd as [Hnin Hnd]. apply not_elem_of_cons in Hc as [Hcd Hc]. cbn [fst] in *.
    assert (b ≠ d). { intros ->. apply Hnin. rewrite fmap_app, elem_of_app. right. by left. }
    split; [done|]. split; [done|]. exists n. rewrite lookup_insert_ne by done. split; [done|]. by apply IH.
Qed.

Lemma ldt_done s a n : a ≠ 0 -> tnodes s !! a = Some n -> ldt a s = Done n s.
Proof. intros Ha Hn. unfold ldt. rewrite (proj2 (Z.eqb_neq _ _)) by done. mrun. by rewrite Hn. Qed.
Lemma updt_done s a n f :
  a ≠ 0 -> tnodes s !! a = Some n -> updt a f s = Done tt (set_tnodes (<[a := f n]> (tnodes s)) s).
Proof. intros Ha Hn. unfold updt. by mstep (ldt_done s a n Ha Hn). Qed.

Lemma find_last_runs s b t l : ∀ a,
  queue (tnodes s) a (l ++ [(b, t)]) -> runs find_last (Datatypes.S (length l)) a s b s.
Proof.
  induction l as [|[d v] l IH]; intros a; cbn [app queue].
  - intros (-> & Hb & n & Hn & ->). apply runs_end. unfold find_last. by mstep (ldt_done s b _ Hb Hn).
  - intros (-> & Hd & n & Hn & Hl). eapply runs_step; [|by apply IH].
    unfold find_last. mstep (ldt_done s d _ Hd Hn). cbn [t_next]. unfold truth.
    rewrite (proj2 (Z.eqb_neq n 0)); [done|]. destruct l as [|[? ?] ?]; by destruct Hl as (-> & ? & _).
Qed.

(** A new node, filled in. *)
Lemma new_node s l k :
  queue_ok s l -> am_room (Datatypes.S k) (s_sys s) ->
  ∃ p s', (∀ f : Z -> M (sched AS) unit, (malloc_tlist ≫= f) s = f p s') ∧ p ≠ 0 ∧ (p ∉ l.*1) ∧
    tnodes s' = <[p := TList am_junk am_junk]> (tnodes s) ∧ tqueue s' = tqueue s ∧
    tcurrent s' = tcurrent s ∧ scheduler_state s' = scheduler_state s ∧ am_room k (s_sys s') ∧
    queue_ok s' l ∧ is_Some (am_live (s_sys s') !! p).
Proof.
  intros [Hq Hnd Ha Hlive] Hroom.
  destruct (am_malloc_room _ k 8 Ha Hroom) as (p & x & Hm & Hp & Hroom'); [unfold small_block; lia|].
  destruct (am_malloc_fresh _ 8 p x Ha ltac:(unfold max_request; lia) Hm Hp)
    as (Hx & n & _ & Hnone & Hlive' & _).
  assert (Hpl : p ∉ l.*1). { intros Hin. destruct (Hlive _ Hin) as [z Hz]. congruence. }
  exists p, (set_tnodes (<[p := TList am_junk am_junk]> (tnodes s)) (set_s_sys x s)).
  split. { intros f. unfold malloc_tlist, zoom, mbind, M_bind. rewrite Hm. by rewrite (proj2 (Z.eqb_neq _ _)). }
  do 7 (split; [done|]). split; [|cbn; rewrite Hlive', lookup_insert_eq; by eexists].
  split; [by apply queue_out|done|done|]. intros a Hin. cbn. rewrite Hlive'.
  destruct (decide (a = p)) as [->|]; [by rewrite lookup_insert_eq; eexists|].
  rewrite lookup_insert_ne by done. by apply Hlive.
Qed.

Lemma add_thread_spec s l thread k :
  queue_ok s l -> l ≠ [] -> am_room (Datatypes.S k) (s_sys s) -> Z.of_nat (length l) < 2 ^ 32 ->
  ∃ p s', scheduler_add_thread thread s = Done tt s' ∧ queue_ok s' (l ++ [(p, thread)]) ∧
    tcurrent s' = tcurrent s ∧ scheduler_state s' = 1 ∧ am_room k (s_sys s').
Proof.
  intros Hok Hne Hroom Hlen. destruct (exists_last Hne) as (l0 & [b t] & ->).
  destruct (new_node s _ k Hok Hroom) as (p & s1 & Hrun & Hp & Hpl & Hh & Hq & Hc & Hst & Hr & Hok1 & Hlp).
  exists p. unfold scheduler_add_thread. rewrite Hrun.
  assert (H1 : tnodes s1 !! p = Some (TList am_junk am_junk)) by (by rewrite Hh, lookup_insert_eq).
  mstep (updt_done s1 p _ (λ n, TList (t_next n) thread) Hp H1). set (s2 := set_tnodes _ s1).
  assert (H2 : tnodes s2 !! p = Some (TList am_junk thread)) by (cbn; by rewrite lookup_insert_eq).
  mstep (updt_done s2 p _ (λ n, TList 0 (t_thread n)) Hp H2). set (s3 := set_tnodes _ s2).
  rewrite (bind_Done _ _ _ _ _ (eq_refl : gets tqueue s3 = Done (tqueue s3) s3)).
  assert (Hq3 : queue (tnodes s3) (tqueue s3) (l0 ++ [(b, t)])).
  { cbn. by apply queue_out, queue_out, Hok1. }
  pose proof (find_last_runs s3 b t l0 _ Hq3) as Hruns.
  rewrite length_app in Hlen. cbn in Hlen.
  rewrite (bind_Done _ _ _ _ _ (runs_while _ _ word_fuel _ _ _ _ Hruns ltac:(pose proof word_fuel_Z; lia))).
  assert (H3 : tnodes s3 !! p = Some (TList 0 thread)) by (cbn; by rewrite lookup_insert_eq).
  assert (Hb : b ≠ 0 ∧ ∃ n, tnodes s3 !! b = Some (TList n t)).
  { clear -Hq3. revert Hq3. generalize (tqueue s3). induction l0 as [|[? ?] l0 IH]; intros a0; cbn [app queue].
    - intros (_ & ? & n & ? & _). eauto.
    - intros (_ & _ & n & _ & Hl). by eapply IH. }
  destruct Hb as (Hb0 & n & Hb). mstep (updt_done s3 b _ (λ n, TList p (t_thread n)) Hb0 Hb).
  eexists. split; [done|]. split; [|split; [exact Hc|split; [done|exact Hr]]].
  destruct Hok1 as [_ Hnd Ha Hlive]. split.
  - cbn [tnodes set_tnodes tqueue set_sched_state t_thread]. rewrite <- app_assoc. cbn [app].
    by apply queue_snoc.
  - rewrite fmap_app. apply NoDup_app. split; [done|]. split; [|repeat constructor; intros []%not_elem_of_nil].
    intros a Hin [->|[]%not_elem_of_nil]%elem_of_cons. done.
  - done.
  - intros a. rewrite fmap_app, elem_of_app. intros [Hin|[->|[]%not_elem_of_nil]%elem_of_cons]; [by apply Hlive|done].
Qed.

(** [tcurrent] is the [k]th node. *)
Definition at_index s (l : list (Z * Z)) (k : nat) : Prop := l.*1 !! k = Some (tcurrent s).

Lemma queue_next h l : ∀ a k b t,
  queue h a l -> l !! k = Some (b, t) ->
  b ≠ 0 ∧ ∃ n, h !! b = Some (TList n t) ∧ n = default 0 (l.*1 !! Datatypes.S k).
Proof.
  induction l as [|[c u] l IH]; intros a k b t; [done|]. cbn [queue].
  intros (-> & Hc & n & Hn & Hl). destruct k as [|k].
  - intros [= <- <-]. split; [done|]. exists n. split; [done|].
    destruct l as [|[d v] l]; cbn in *; [done|by destruct Hl].
  - intros Hk. eapply IH; [exact Hl|exact Hk].
Qed.

Lemma update_spec s l k :
  queue_ok s l -> at_index s l k -> scheduler_state s = 1 ->
  ∃ s', scheduler_update s = Done tt s' ∧ queue_ok s' l ∧
    at_index s' l (Datatypes.S k mod length l)%nat ∧ scheduler_state s' = 1.
Proof.
  intros Hok Hk Hst. pose proof Hok as [Hq Hnd Ha Hlive].
  pose proof (lookup_lt_Some _ _ _ Hk) as Hlt. rewrite length_fmap in Hlt.
  destruct (lookup_lt_is_Some_2 l k Hlt) as [[b t] Hkl].
  assert (Hb : tcurrent s = b).
  { unfold at_index in Hk. rewrite list_lookup_fmap, Hkl in Hk. by injection Hk. }
  destruct (queue_next _ _ _ _ _ _ Hq Hkl) as (Hb0 & n & Hn & Hnext).
  unfold scheduler_update. rewrite (bind_Done _ _ _ _ _ (eq_refl : gets scheduler_state s = Done (scheduler_state s) s)).
  rewrite Hst. cbn [truth Z.eqb negb]. rewrite (bind_Done _ _ _ _ _ (eq_refl : gets tcurrent s = Done (tcurrent s) s)).
  rewrite Hb. mstep (ldt_done s b _ Hb0 Hn).
  rewrite (bind_Done _ _ _ _ _ (eq_refl : modify _ s = Done tt (set_tcurrent n s))).
  rewrite (bind_Done _ _ _ _ _ (eq_refl : gets tcurrent (set_tcurrent n s) = Done n (set_tcurrent n s))).
  set (idx := (Datatypes.S k mod length l)%nat).
  assert (Hcur : ∃ c u m, l !! idx = Some (c, u) ∧ c ≠ 0 ∧ tnodes s !! c = Some (TList m u) ∧
    (if n =? 0 then q ← gets tqueue; modify (set_tcurrent q) else mret tt) (set_tcurrent n s)
      = Done tt (set_tcurrent c s)).
  { destruct (decide (Datatypes.S k = length l)) as [Hend|Hne].
    - assert (idx = 0)%nat as Hi by (unfold idx; rewrite Hend; by apply Nat.Div0.mod_same).
      rewrite lookup_ge_None_2 in Hnext by (rewrite length_fmap; lia). cbn in Hnext. subst n. cbn [Z.eqb].
      destruct l as [|[c u] l]; [cbn in Hlt; lia|]. destruct Hq as (Hqc & Hc0 & m & Hm & _).
      exists c, u, m. rewrite Hi. split; [done|]. split; [done|]. split; [done|].
      rewrite (bind_Done _ _ _ _ _ (eq_refl : gets tqueue (set_tcurrent 0 s) = Done (tqueue s) _)).
      by rewrite Hqc.
    - assert (idx = Datatypes.S k)%nat as Hi by (unfold idx; apply Nat.mod_small; lia).
      destruct (lookup_lt_is_Some_2 l (Datatypes.S k)) as [[c u] Hc]; [lia|].
      destruct (queue_next _ _ _ _ _ _ Hq Hc) as (Hc0 & m & Hm & _).
      assert (n = c) as -> by (by rewrite Hnext, list_lookup_fmap, Hc).
      exists c, u, m. rewrite Hi. split; [done|]. split; [done|]. split; [done|].
      by rewrite (proj2 (Z.eqb_neq _ _)) by done. }
  destruct Hcur as (c & u & m & Hidx & Hc0 & Hm & Hrun). mstep Hrun.
  rewrite (bind_Done _ _ _ _ _ (eq_refl : gets tcurrent (set_tcurrent c s) = Done c (set_tcurrent c s))).
  mstep (ldt_done (set_tcurrent c s) c _ Hc0 Hm). eexists. split; [done|]. split; [by destruct Hok; split|].
  split; [|done]. unfold at_index. by rewrite list_lookup_fmap, Hidx.
Qed.
End queue.

(** ** Properties *)

(** C26: the watchdog lets the kernel run exactly as long as kmain failed to
    report between evaluations at most 200 times in total: any sequence of
    reports, evaluations and switching on and off returns with that count,
    and it stops the machine at the 201st failure. *)
Theorem watchdog_tolerance cs
    (Hlen : Z.of_nat (length cs) < 2 ^ 31) :
  match wd_meaning cs (View true false 0) with
  | Some v => ∃ w, wd_run cs wd_boot = Done tt w ∧ wd_total_hangups w = Z.of_nat (hangs v) ∧ (hangs v <= 200)%nat
  | None => ∃ w, wd_run cs wd_boot = Halted w
  end.
Proof. apply (wd_run_spec cs 0); [|lia]. unfold wd_rep. cbn. split_and!; done || lia. Qed.

Lemma watchdog_tolerance_witness :
  ∃ w, wd_run [Evaluate; Notify 0x10; Evaluate; Disable; Notify 0x10; Evaluate] wd_boot = Done tt w ∧
    wd_total_hangups w = 2 ∧ (2 <= 200)%nat.
Proof.
  apply (watchdog_tolerance [Evaluate; Notify 0x10; Evaluate; Disable; Notify 0x10; Evaluate]).
  by vm_compute.
Defined.

Section scheduler_properties.
Context {AS : Type} `{!Allocator AS}.

Fixpoint add_threads (ts : list Z) : M (sched AS) unit :=
  match ts with [] => mret tt | t :: ts' => scheduler_add_thread t;; add_threads ts' end.
Fixpoint updates (n : nat) : M (sched AS) unit :=
  match n with O => mret tt | Datatypes.S n' => scheduler_update;; updates n' end.
(** The thread of [tcurrent]. *)
Definition current_thread : M (sched AS) Z := c ← gets tcurrent; n ← ldt c; mret (t_thread n).

Lemma add_threads_spec ts : ∀ s l,
  queue_ok s l -> l ≠ [] -> at_index s l 0 -> am_room (length ts) (s_sys s) ->
  Z.of_nat (length l + length ts) < 2 ^ 32 ->
  ∃ s' ps, add_threads ts s = Done tt s' ∧ queue_ok s' (l ++ ps) ∧ at_index s' (l ++ ps) 0 ∧
    ps.*2 = ts ∧ scheduler_state s' = if decide (ts = []) then scheduler_state s else 1.
Proof.
  induction ts as [|t ts IH]; intros s l Hok Hne Hidx Hroom Hlen.
  - exists s, []. rewrite app_nil_r. done.
  - cbn [length] in *.
    destruct (add_thread_spec s l t (length ts) Hok Hne Hroom) as (p & s1 & E1 & Hok1 & Hc1 & Hst1 & Hr1); [lia|].
    destruct (IH s1 (l ++ [(p, t)])) as (s' & ps & E' & Hok' & Hidx' & Hps & Hst'); [done| | |done| |].
    { by destruct l. }
    { unfold at_index in *. rewrite fmap_app, lookup_app_l, Hc1; [done|].
      rewrite length_fmap. destruct l; [done|cbn; lia]. }
    { rewrite length_app. cbn. lia. }
    exists s', ((p, t) :: ps). cbn [add_threads]. mstep E1. rewrite <- app_assoc in Hok', Hidx'.
    split; [done|]. split; [done|]. split; [done|]. split; [cbn; by rewrite Hps|].
    rewrite Hst'. by case_decide.
Qed.

Lemma updates_spec n : ∀ s l k,
  queue_ok s l -> at_index s l k -> scheduler_state s = 1 ->
  ∃ s', updates n s = Done tt s' ∧ queue_ok s' l ∧ at_index s' l ((k + n) mod length l)%nat.
Proof.
  induction n as [|n IH]; intros s l k Hok Hk Hst.
  - exists s. split; [done|]. split; [done|]. rewrite Nat.add_0_r, Nat.mod_small; [done|].
    apply lookup_lt_Some in Hk. by rewrite length_fmap in Hk.
  - destruct (update_spec s l k Hok Hk Hst) as (s1 & E1 & Hok1 & Hk1 & Hst1).
    destruct (IH s1 l _ Hok1 Hk1 Hst1) as (s' & E' & Hok' & Hk'). exists s'. cbn [updates]. mstep E1.
    split; [done|]. split; [done|]. rewrite Nat.Div0.add_mod_idemp_l in Hk'.
    by replace (k + Datatypes.S n)%nat with (Datatypes.S k + n)%nat by lia.
Qed.

(** The first thread: its node is the queue. *)
Lemma start_spec t n (s : sched AS) :
  am_ok (s_sys s) -> am_room (S n) (s_sys s) -> scheduler_state s = 0 ->
  ∃ s1 p, scheduler_start t s = Done tt s1 ∧ queue_ok s1 [(p, t)] ∧ at_index s1 [(p, t)] 0 ∧
    am_room n (s_sys s1) ∧ scheduler_state s1 = 0.
Proof.
  intros Hok Hroom Hst.
  destruct (am_malloc_room (s_sys s) n 8 Hok Hroom) as (p & x & Hm & Hp & Hroom'); [unfold small_block; lia|].
  destruct (am_malloc_fresh _ 8 p x Hok ltac:(unfold max_request; lia) Hm Hp) as (Hx & z & _ & _ & Hlive & _).
  exists (Sched (<[p := TList 0 t]> (tnodes s)) p p 0 x), p. split; [|split; [|by split]].
  - set (sa := set_tnodes (<[p := TList am_junk am_junk]> (tnodes s)) (set_s_sys x s)).
    assert (Ea : malloc_tlist s = Done p sa).
    { unfold malloc_tlist, zoom, mbind, M_bind. rewrite Hm. by rewrite (proj2 (Z.eqb_neq _ _)). }
    unfold scheduler_start. mstep Ea. set (sb := set_tqueue p sa).
    rewrite (bind_Done _ _ _ _ _ (eq_refl : modify (set_tqueue p) sa = Done tt sb)).
    assert (H1 : tnodes sb !! p = Some (TList am_junk am_junk)) by apply lookup_insert_eq.
    mstep (updt_done sb p _ (λ n, TList 0 (t_thread n)) Hp H1). set (sc := set_tnodes _ sb).
    assert (H2 : tnodes sc !! p = Some (TList 0 am_junk)) by apply lookup_insert_eq.
    mstep (updt_done sc p _ (λ n, TList (t_next n) t) Hp H2).
    unfold sc, sb, sa, gets, modify, mbind, M_bind, set_tnodes, set_s_sys, set_tqueue, set_tcurrent.
    cbn [tnodes tqueue tcurrent scheduler_state s_sys t_next]. by rewrite !insert_insert_eq, Hst.
  - split.
    + split; [done|]. split; [done|]. exists 0. split; [apply lookup_insert_eq|done].
    + repeat constructor. intros []%not_elem_of_nil.
    + done.
    + intros a [->|[]%not_elem_of_nil]%elem_of_cons. cbn. rewrite Hlive, lookup_insert_eq. by eexists.
Qed.

(** A scheduler with one thread is not switched on. *)
Lemma updates_off n (s : sched AS) : scheduler_state s = 0 -> updates n s = Done tt s.
Proof.
  intros Hst. induction n as [|n IH]; [done|]. cbn [updates].
  assert (Hu : scheduler_update s = Done tt s).
  { unfold scheduler_update. rewrite (bind_Done _ _ _ _ _ (eq_refl : gets scheduler_state s = Done (scheduler_state s) s)).
    by rewrite Hst. }
  by mstep Hu.
Qed.

Lemma current_spec (s : sched AS) l k b c :
  queue_ok s l -> at_index s l k -> l !! k = Some (b, c) -> current_thread s = Done c s.
Proof.
  intros Hok Hi Hb. destruct (queue_next _ _ _ _ _ _ (qo_queue _ _ Hok) Hb) as (Hb0 & m & Hbm & _).
  unfold current_thread. rewrite (bind_Done _ _ _ _ _ (eq_refl : gets tcurrent s = Done (tcurrent s) s)).
  assert (tcurrent s = b) as -> by (unfold at_index in Hi; rewrite list_lookup_fmap, Hb in Hi; by injection Hi).
  by mstep (ldt_done s b _ Hb0 Hbm).
Qed.

(** C24: the scheduler selects threads round robin: started with one thread
    and given others, after any number of updates the thread that [tcurrent]
    designates is the one that many places further, counting round the queue
    in the order of arrival. Selecting is all the code does: it switches to
    no thread. *)
Theorem scheduler_round_robin t ts n (s : sched AS)
    (Hok : am_ok (s_sys s)) (Hroom : am_room (S (length ts)) (s_sys s))
    (Hst : scheduler_state s = 0) (Hlen : Z.of_nat (length ts) < 2 ^ 31) :
  ∃ c s', (scheduler_start t;; add_threads ts;; updates n;; current_thread) s = Done c s' ∧
    (t :: ts) !! (n mod S (length ts))%nat = Some c.
Proof.
  destruct (start_spec t (length ts) s Hok Hroom Hst) as (s1 & p & E1 & Hok1 & Hi1 & Hr1 & Hst1).
  destruct (add_threads_spec ts s1 [(p, t)] Hok1) as (s2 & ps & E2 & Hok2 & Hi2 & Hps & Hst2);
    [done|done|done|cbn; lia|].
  assert (Hn : length ps = length ts) by (rewrite <- Hps; by rewrite length_fmap).
  assert (Hcur : ∃ s3, updates n s2 = Done tt s3 ∧ queue_ok s3 ((p, t) :: ps) ∧
    at_index s3 ((p, t) :: ps) (n mod S (length ts))%nat).
  { case_decide as Hts.
    - subst ts. destruct ps; [|done]. exists s2. cbn [length]. rewrite Nat.mod_1_r, updates_off; [done|congruence].
    - destruct (updates_spec n s2 _ 0 Hok2 Hi2 Hst2) as (s3 & E3 & Hok3 & Hi3). exists s3.
      cbn [app length] in *. by rewrite Hn in Hi3. }
  destruct Hcur as (s3 & E3 & Hok3 & Hi3).
  destruct (lookup_lt_is_Some_2 ((p, t) :: ps) (n mod S (length ts))%nat) as [[b c] Hb].
  { apply lookup_lt_Some in Hi3. by rewrite length_fmap in Hi3. }
  exists c, s3. mstep E1. mstep E2. mstep E3. split; [by eapply current_spec|].
  replace (t :: ts) with (((p, t) :: ps).*2) by (cbn; by rewrite Hps).
  by rewrite list_lookup_fmap, Hb.
Qed.
End scheduler_properties.

Section task_examples.
#[local] Existing Instance Bump.allocator.

Lemma scheduler_round_robin_witness :
  ∃ c s', (scheduler_start 10;; add_threads [20; 30];; updates 4;; current_thread)
    (Sched ∅ 0 0 0 (Bump.BumpState 0x1000 ∅)) = Done c s' ∧ [10; 20; 30] !! 1%nat = Some c.
Proof.
  apply (scheduler_round_robin 10 [20; 30] 4 (Sched ∅ 0 0 0 (Bump.BumpState 0x1000 ∅))); done.
Defined.

End task_examples.

(** ** The watchdog under the timers *)

Section deadline.
Context {AS : Type} `{!Allocator AS} {hs : Handlers}.
Implicit Types (w : wd) (q : sched AS).

(** The kernel at tick [T]: the reaper and the watchdog wait for their next
    multiples of 100 and 25, the other slots are free. *)
Definition reaper_at T := Timer "timer_reaper" (T / 100 * 100 + 100) 100 0 timing_reaper_ptr.
Definition watchdog_at T := Timer "kernel_wd" (T / 25 * 25 + 25) 25 1 wd_evaluate_ptr.
Definition table a b : list timer_t := a :: b :: replicate 253 no_timer.
Definition kernel_at T w q : tasks AS :=
  Tasks (Clock (table (reaper_at T) (watchdog_at T)) T (T / 1000) 0 1) w q.
Definition with_table a b c w q : tasks AS :=
  Tasks (Clock (table a b) (timer_hi c) (timer_low c) (device c) (device_resoulution c)) w q.

Lemma for_up_idle {R} n : ∀ from (f : Z -> M R unit) (r : R),
  (∀ i, from <= i < from + Z.of_nat n -> f i r = Done tt r) -> for_up n from f r = Done tt r.
Proof.
  clear. induction n as [|n IH]; intros from f r Hf; [done|]. cbn [for_up].
  mstep (Hf from ltac:(lia)). apply IH. intros. apply Hf. lia.
Qed.

Lemma for_up_two {R} n (f : Z -> M R unit) (r : R) :
  for_up (2 + n) 0 f r = (f 0;; f 1;; for_up n 2 f) r.
Proof. done. Qed.

Lemma table_free a b i : 2 <= i < 255 -> aget (table a b) i = Some no_timer.
Proof.
  intros Hi. unfold aget. rewrite decide_True by lia. unfold table.
  replace (Z.to_nat i) with (Datatypes.S (Datatypes.S (Z.to_nat i - 2))) by lia. cbn [lookup list_lookup].
  apply lookup_replicate_2. lia.
Qed.

Lemma table_0 a b : aget (table a b) 0 = Some a.
Proof. done. Qed.
Lemma table_1 a b : aget (table a b) 1 = Some b.
Proof. done. Qed.
Lemma set_table_0 a b a' : aset 0 a' (table a b) = table a' b.
Proof. done. Qed.
Lemma set_table_1 a b b' : aset 1 b' (table a b) = table a b'.
Proof. done. Qed.
Lemma set_table_free a b i : 2 <= i < 255 -> aset i no_timer (table a b) = table a b.
Proof.
  intros Hi. unfold aset. rewrite decide_True by lia. apply list_insert_id.
  pose proof (table_free a b i Hi) as H. unfold aget in H. by rewrite decide_True in H by lia.
Qed.

(** The reaper finds nothing to reap while both timers are still to fire. *)
Lemma reaper_idle a b hi low dev res :
  0 <= hi < 2 ^ 31 -> hi <= fire_tick a -> hi <= fire_tick b ->
  timing_reaper (Clock (table a b) hi low dev res) = Done tt (Clock (table a b) hi low dev res).
Proof.
  intros Hhi Ha Hb. set (c := Clock _ _ _ _ _). unfold timing_reaper.
  rewrite (bind_Done _ _ _ _ _ (eq_refl : timer_getHi c = Done hi c)). rewrite s32_small by lia. cbv zeta.
  assert (Hr : ∀ e, hi <= fire_tick e -> reap hi e = e).
  { intros e He. unfold reap. destruct (fire_tick e =? 0); [done|].
    by rewrite (proj2 (Z.ltb_ge _ _)) by lia. }
  assert (Hstep : ∀ i e, aget (table a b) i = Some e -> reap hi e = e -> aset i e (table a b) = table a b ->
    (e ← entry i; set_entry i (reap hi e)) c = Done tt c).
  { intros i e He Hre Hset. mstep (entry_done c i e He). rewrite (set_entry_done c i e _ He), Hre.
    unfold set_handlers. cbn. by rewrite Hset. }
  change TIMERS with (2 + 253)%nat. rewrite for_up_two.
  mstep (Hstep 0 a (table_0 a b) (Hr a Ha) eq_refl). mstep (Hstep 1 b (table_1 a b) (Hr b Hb) eq_refl).
  apply for_up_idle. intros i Hi.
  apply (Hstep i no_timer); [apply table_free; lia|done|apply set_table_free; lia].
Qed.

Lemma call_reaper s c' :
  timing_reaper (part s) = Done tt c' -> call_handler (AS := AS) timing_reaper_ptr 0 s = Done tt (set_part c' s).
Proof. intros H. unfold call_handler. rewrite Z.eqb_refl. by apply within_done. Qed.

Lemma call_watchdog (s : tasks AS) : call_handler wd_evaluate_ptr 1 s = within wd_evaluate s.
Proof.
  pose proof handlers_nodup as Hnd. unfold call_handler.
  rewrite (proj2 (Z.eqb_neq _ _)), Z.eqb_refl; [done|]. intros H.
  apply NoDup_cons in Hnd as [_ Hnd]. apply NoDup_cons in Hnd as [Hnin _]. apply Hnin. rewrite H. by left.
Qed.

(** The slots of the reaper and the watchdog at tick [T]. *)
Lemma body_reaper b T low w q :
  0 < T < 2 ^ 30 -> T <= fire_tick b ->
  timer_body call_handler T 0 (Tasks (Clock (table (reaper_at (T - 1)) b) T low 0 1) w q)
    = Done tt (Tasks (Clock (table (reaper_at T) b) T low 0 1) w q).
Proof.
  intros HT Hb. set (s := Tasks _ w q). unfold timer_body.
  assert (He : aget (handlers (part s)) 0 = Some (reaper_at (T - 1))) by done.
  rewrite (bind_Done _ _ _ _ _ (within_read _ s _ (entry_done _ _ _ He))).
  assert (Hf : T <= fire_tick (reaper_at (T - 1)) ∧ fire_tick (reaper_at (T - 1)) ≠ 0) by (cbn; zdm).
  rewrite (proj2 (Z.eqb_neq (fire_tick (reaper_at (T - 1))) 0)) by lia.
  destruct (Z.eqb_spec (fire_tick (reaper_at (T - 1))) T) as [Heq|Hne]; cbn in Heq || cbn in Hne.
  - cbn [handler reaper_at].
    rewrite (bind_Done _ _ _ _ _ (call_reaper s _ (reaper_idle (reaper_at (T - 1)) b T low 0 1 ltac:(lia) (proj1 Hf) Hb))).
    change (set_part _ s) with s.
    rewrite (bind_Done _ _ _ _ _ (within_read _ s _ (entry_done _ _ _ He))).
    cbn [repeat_rate reaper_at Z.eqb negb name no handler]. rewrite s32_small by lia.
    rewrite (within_done _ _ _ _ (set_entry_done _ _ _ _ He)). unfold s, set_handlers. cbn.
    do 4 f_equal. rewrite set_table_0. unfold reaper_at. do 2 f_equal. zdm.
  - unfold s. do 4 f_equal. unfold reaper_at. f_equal. f_equal. zdm.
Qed.

Lemma body_watchdog a T low w q :
  0 < T < 2 ^ 30 ->
  match (if T mod 25 =? 0 then wd_evaluate w else Done tt w) with
  | Done _ w' => timer_body call_handler T 1 (Tasks (Clock (table a (watchdog_at (T - 1))) T low 0 1) w q)
      = Done tt (Tasks (Clock (table a (watchdog_at T)) T low 0 1) w' q)
  | Halted w' => ∃ s', timer_body call_handler T 1 (Tasks (Clock (table a (watchdog_at (T - 1))) T low 0 1) w q)
      = Halted s'
  | _ => True
  end.
Proof.
  intros HT. set (s := Tasks _ w q). unfold timer_body.
  assert (He : aget (handlers (part s)) 1 = Some (watchdog_at (T - 1))) by done.
  rewrite (bind_Done _ _ _ _ _ (within_read _ s _ (entry_done _ _ _ He))).
  rewrite (proj2 (Z.eqb_neq (fire_tick (watchdog_at (T - 1))) 0)) by (cbn; zdm).
  assert (Heq : (fire_tick (watchdog_at (T - 1)) =? T) = (T mod 25 =? 0)).
  { cbn. apply eq_true_iff_eq. rewrite !Z.eqb_eq. zdm. }
  rewrite Heq. destruct (Z.eqb_spec (T mod 25) 0) as [Hz|Hz].
  - cbn [handler watchdog_at]. destruct (wd_evaluate w) as [[] w'| |w'|] eqn:Ew; [|done| |done].
    + set (s' := set_part w' s).
      assert (Hcall : call_handler wd_evaluate_ptr 1 s = Done tt s')
        by (rewrite call_watchdog; by apply within_done).
      mstep Hcall. assert (He' : aget (handlers (part s')) 1 = Some (watchdog_at (T - 1))) by done.
      rewrite (bind_Done _ _ _ _ _ (within_read _ s' _ (entry_done _ _ _ He'))).
      cbn [repeat_rate watchdog_at Z.eqb negb name no handler]. rewrite s32_small by lia.
      rewrite (within_done _ _ _ _ (set_entry_done _ _ _ _ He')). unfold s', s, set_handlers. cbn.
      do 4 f_equal. rewrite set_table_1. unfold watchdog_at. do 3 f_equal. zdm.
    + eexists. apply bind_Halted. rewrite call_watchdog. by apply (zoom_Halted _ _ wd_evaluate s w').
  - unfold s. do 4 f_equal. unfold watchdog_at. do 3 f_equal. zdm.
Qed.

Lemma body_free a b T low w q i :
  2 <= i < 255 ->
  timer_body call_handler T i (Tasks (Clock (table a b) T low 0 1) w q)
    = Done tt (Tasks (Clock (table a b) T low 0 1) w q).
Proof.
  intros Hi. unfold timer_body. set (s := Tasks _ w q).
  assert (He : aget (handlers (part s)) i = Some no_timer) by (by apply table_free).
  by rewrite (bind_Done _ _ _ _ _ (within_read _ s _ (entry_done _ _ _ He))).
Qed.

Lemma kernel_tick T w q :
  0 <= T -> T + 1 < 2 ^ 30 ->
  match (if (T + 1) mod 25 =? 0 then wd_evaluate w else Done tt w) with
  | Done _ w' => timer_recieveTick call_handler 0 (kernel_at T w q) = Done tt (kernel_at (T + 1) w' q)
  | Halted w' => ∃ s', timer_recieveTick call_handler 0 (kernel_at T w q) = Halted s'
  | _ => True
  end.
Proof.
  intros HT Hmax. set (s := kernel_at T w q).
  set (s1 := Tasks (Clock (table (reaper_at T) (watchdog_at T)) (T + 1) ((T + 1) / 1000) 0 1) w q).
  assert (Hrecv : timer_recieveTick call_handler 0 s = (cyclic_tasks call_handler (T + 1);; mret tt) s1).
  { unfold timer_recieveTick. rewrite (bind_Done _ _ _ _ _ (eq_refl : gets part s = Done (part s) s)).
    cbn [part tasks_clock t_clock s kernel_at device timer_hi device_resoulution timer_low Z.eqb].
    rewrite !(u32_small (T + 1)), (u32_small (1 * 1000)) by lia.
    change (1 * 1000) with 1000. cbn [Z.eqb].
    rewrite s32_small by lia.
    assert (Hlow : (if (T + 1) mod 1000 =? 0 then u32 (T / 1000 + 1) else T / 1000) = (T + 1) / 1000).
    { destruct (Z.eqb_spec ((T + 1) mod 1000) 0); [rewrite u32_small|]; zdm. }
    rewrite Hlow. by rewrite (bind_Done _ _ _ _ _ (within_done (modify _) s tt _ eq_refl)). }
  rewrite Hrecv. unfold cyclic_tasks. change TIMERS with (2 + 253)%nat.
  assert (H0 : timer_body call_handler (T + 1) 0 s1
    = Done tt (Tasks (Clock (table (reaper_at (T + 1)) (watchdog_at T)) (T + 1) ((T + 1) / 1000) 0 1) w q)).
  { unfold s1. pose proof (body_reaper (watchdog_at T) (T + 1) ((T + 1) / 1000) w q ltac:(lia)) as Hb.
    replace (T + 1 - 1) with T in Hb by lia. apply Hb. cbn. zdm. }
  set (s2 := Tasks _ w q) in H0.
  pose proof (body_watchdog (reaper_at (T + 1)) (T + 1) ((T + 1) / 1000) w q ltac:(lia)) as Hwd.
  replace (T + 1 - 1) with T in Hwd by lia. fold s2 in Hwd.
  assert (Hfor : ∀ r, for_up (2 + 253) 0 (timer_body call_handler (T + 1)) s1 = r ->
    ((for_up (2 + 253) 0 (timer_body call_handler (T + 1));; mret 0);; mret tt) s1
    = match r with Done _ s' => Done tt s' | Fault e => Fault e | Halted s' => Halted s' | Spin => Spin end).
  { intros r <-. unfold mbind, M_bind. by destruct (for_up _ _ _ s1). }
  destruct (if (T + 1) mod 25 =? 0 then wd_evaluate w else Done tt w) as [[] w'| |w'|]; [|done| |done].
  - erewrite Hfor; [|rewrite for_up_two; mstep H0; mstep Hwd; apply for_up_idle; intros i Hi; apply body_free; lia].
    done.
  - destruct Hwd as (s' & Hwd). exists s'.
    erewrite Hfor; [|rewrite for_up_two; mstep H0; by apply bind_Halted]. done.
Qed.

Lemma kernel_ticks n : ∀ T w q,
  0 <= T -> T + Z.of_nat n < 2 ^ 30 ->
  match wd_run (replicate (Z.to_nat ((T + Z.of_nat n) / 25 - T / 25)) Evaluate) w with
  | Done _ w' => ticks call_handler n 0 (kernel_at T w q) = Done tt (kernel_at (T + Z.of_nat n) w' q)
  | Halted _ => ∃ s', ticks call_handler n 0 (kernel_at T w q) = Halted s'
  | _ => True
  end.
Proof.
  induction n as [|n IH]; intros T w q HT Hmax.
  - rewrite Z.add_0_r, Z.sub_diag. done.
  - cbn [ticks]. pose proof (kernel_tick T w q HT ltac:(lia)) as Ht.
    assert (Hk : ∀ w', (T + Z.of_nat (Datatypes.S n)) = (T + 1 + Z.of_nat n)) by lia.
    specialize (Hk w). rewrite Hk.
    destruct (Z.eqb_spec ((T + 1) mod 25) 0) as [Hz|Hz].
    + replace (Z.to_nat ((T + 1 + Z.of_nat n) / 25 - T / 25))
        with (Datatypes.S (Z.to_nat ((T + 1 + Z.of_nat n) / 25 - (T + 1) / 25))) by zdm.
      cbn [replicate wd_run wd_exec]. unfold mbind at 1, M_bind at 1.
      destruct (wd_evaluate w) as [[] w1| |w1|]; [| done | |done].
      * specialize (IH (T + 1) w1 q ltac:(lia) ltac:(lia)).
        destruct (wd_run _ w1) as [[] w2| |w2|]; try done.
        -- by mstep Ht.
        -- destruct IH as (s' & IH). exists s'. by mstep Ht.
      * destruct Ht as (s' & Ht). exists s'. by apply bind_Halted.
    + replace (Z.to_nat ((T + 1 + Z.of_nat n) / 25 - T / 25))
        with (Z.to_nat ((T + 1 + Z.of_nat n) / 25 - (T + 1) / 25)) by zdm.
      specialize (IH (T + 1) w q ltac:(lia) ltac:(lia)).
      destruct (wd_run _ w) as [[] w2| |w2|]; try done.
      * by mstep Ht.
      * destruct IH as (s' & IH). exists s'. by mstep Ht.
Qed.

Lemma silent_meaning k : ∀ g,
  wd_meaning (replicate k Evaluate) (View true false g)
    = if (200 <? g + k)%nat && negb (k =? 0)%nat then None else Some (View true false (g + k)).
Proof.
  induction k as [|k IH]; intros g; cbn [replicate wd_meaning wd_step reported listening hangs].
  - by rewrite andb_false_r, Nat.add_0_r.
  - rewrite andb_true_r. destruct (Nat.ltb_spec 200 (g + 1)).
    + by rewrite (proj2 (Nat.ltb_lt _ _)) by lia.
    + rewrite IH. replace (g + 1 + k)%nat with (g + Datatypes.S k)%nat by lia.
      destruct k as [|k]; [|by rewrite andb_true_r].
      by rewrite andb_false_r, (proj2 (Nat.ltb_ge _ _)) by lia.
Qed.

Definition halted {R A} (o : outcome R A) : bool := match o with Halted _ => true | _ => false end.

(** C27: the timers, the reaper and the watchdog together, from boot: if
    kmain never reports, the machine runs until tick 5024 and is stopped at
    tick 5025, the watchdog's 201st evaluation. *)
Theorem watchdog_deadline n q
    (Hn : Z.of_nat n < 2 ^ 30) :
  let o := (kmain_timers;; ticks call_handler n 0) (Tasks clock_boot wd_boot q) in
  if Z.of_nat n <? 5025 then returned o = true else halted o = true.
Proof.
  intros o.
  assert (Ho : o = ticks call_handler n 0 (kernel_at 0 wd_boot q)) by reflexivity.
  pose proof (kernel_ticks n 0 wd_boot q ltac:(lia) ltac:(lia)) as Ht.
  change (0 / 25) with 0 in Ht. rewrite Z.add_0_l, Z.sub_0_r in Ht.
  set (k := Z.to_nat (Z.of_nat n / 25)) in *.
  pose proof (wd_run_spec (replicate k Evaluate) 0 wd_boot (View true false 0)) as Hw.
  rewrite silent_meaning, length_replicate in Hw. cbn [Nat.add] in Hw.
  specialize (Hw ltac:(unfold wd_rep; cbn; split_and!; done || lia) ltac:(unfold k; zdm)).
  rewrite Ho. destruct (Z.ltb_spec (Z.of_nat n) 5025) as [Hlt|Hge].
  - rewrite (proj2 (Nat.ltb_ge 200 k)) in Hw by (unfold k; zdm). cbn [andb] in Hw.
    destruct Hw as (w & Hw & _). rewrite Hw in Ht. by rewrite Ht.
  - rewrite (proj2 (Nat.ltb_lt 200 k)), (proj2 (Nat.eqb_neq k 0)) in Hw by (unfold k; zdm). cbn [andb negb] in Hw.
    destruct Hw as (w & Hw). rewrite Hw in Ht. destruct Ht as (s' & ->). done.
Qed.
End deadline.

Section deadline_examples.
#[local] Existing Instance Bump.allocator.
#[local] Program Instance example_handlers : Handlers := {
  timing_reaper_ptr := 0x101000; wd_evaluate_ptr := 0x102000; kmonitor_check_ptr := 0x103000;
  scheduler_update_ptr := 0x104000
}.
Next Obligation. apply (bool_decide_unpack _). by vm_compute. Qed.

Lemma watchdog_deadline_witness :
  returned ((kmain_timers;; ticks call_handler 30 0)
    (Tasks clock_boot wd_boot (Sched ∅ 0 0 0 (Bump.BumpState 0x1000 ∅)))) = true.
Proof. exact (watchdog_deadline 30 _ ltac:(by vm_compute)). Defined.
End deadline_examples.
