(* ===== verification/Keyboard.v ===== *)
(** * Character input (kernel/arch/x86/drivers/keyboard.c, kernel/input.c)

    Both files keep a queue of characters in a static array of 255 bytes
    whose first zero byte ends it, and shift the array down by one on every
    read. The loop reads one element past the array: [past] is the byte that
    lies there. Scan codes from 128 on index past the 128-byte tables:
    [kbdus_past] is what lies there. *)

From S2P Require Import Prelude Lock.

(** ** Arrays of 255 bytes *)

Definition BUFFER : nat := 0xFF.

Section arrays.
Context (past : Z).
Local Abbreviation K := (M (list Z)).

Definition rd_at (i : Z) : K Z :=
  l ← get;
  if i =? 0xFF then mret past else of_option (OutOfRange i) (aget l i).
Definition wr_at (i v : Z) : K unit :=
  l ← get; of_option (OutOfRange i) (aget l i);; put (aset i v l).

(** [while (i < 0xFF) { a[i] = a[i + 1]; i++; }] *)
Definition shift_down : K unit := for_up BUFFER 0 (λ i, c ← rd_at (i + 1); wr_at i c).
End arrays.

(** ** The PS/2 keyboard driver *)

Definition KB_TRAP_CTL : Z := 1.
Definition KB_TRAP_LSHIFT : Z := 2.
Definition KB_TRAP_RSHIFT : Z := 3.
Definition KB_TRAP_ALT : Z := 4.
Definition KB_CAPS : Z := 5.
Definition KB_F1 : Z := 6.

Definition kbdus : list Z :=
  [0; 27; 49; 50; 51; 52; 53; 54; 55; 56; 57; 48; 45; 61; 8; 9;
   113; 119; 101; 114; 116; 121; 117; 105; 111; 112; 91; 93; 10; KB_TRAP_CTL;
   97; 115; 100; 102; 103; 104; 106; 107; 108; 59; 39; 96; KB_TRAP_LSHIFT;
   92; 122; 120; 99; 118; 98; 110; 109; 44; 46; 47; KB_TRAP_RSHIFT;
   42; KB_TRAP_ALT; 32; KB_CAPS; KB_F1] ++ replicate 14 0 ++ [45; 0; 0; 0; 43] ++ replicate 49 0.

Definition kbdus_caps : list Z :=
  [0; 27; 33; 64; 35; 36; 37; 94; 38; 42; 40; 41; 95; 43; 8; 9;
   81; 87; 69; 82; 84; 89; 85; 73; 79; 80; 123; 125; 10; KB_TRAP_CTL;
   65; 83; 68; 70; 71; 72; 74; 75; 76; 58; 34; 126; KB_TRAP_LSHIFT;
   124; 90; 88; 67; 86; 66; 78; 77; 60; 62; 63; KB_TRAP_RSHIFT;
   42; KB_TRAP_ALT; 32; KB_CAPS; KB_F1] ++ replicate 14 0 ++ [45; 0; 0; 0; 43] ++ replicate 49 0.

(** [irq1]: is [kb_handler] registered for IRQ 1 *)
Record kb := Kb {
  buffer : list Z; buffer_i : Z;
  kb_shift : Z; kb_caps : Z; kb_alt : Z; kb_ctl : Z; kb_extended : Z; irq1 : bool
}.
Definition set_buffer b i k := Kb b i (kb_shift k) (kb_caps k) (kb_alt k) (kb_ctl k) (kb_extended k) (irq1 k).
Definition set_shift z k := Kb (buffer k) (buffer_i k) z (kb_caps k) (kb_alt k) (kb_ctl k) (kb_extended k) (irq1 k).
Definition set_ctl z k := Kb (buffer k) (buffer_i k) (kb_shift k) (kb_caps k) (kb_alt k) z (kb_extended k) (irq1 k).
Definition set_extended z k := Kb (buffer k) (buffer_i k) (kb_shift k) (kb_caps k) (kb_alt k) (kb_ctl k) z (irq1 k).
Definition set_irq1 b k := Kb (buffer k) (buffer_i k) (kb_shift k) (kb_caps k) (kb_alt k) (kb_ctl k) (kb_extended k) b.

Definition kb_boot : kb := Kb (replicate BUFFER 0) 0 0 0 0 0 0 false.

Section keyboard.
Context (past : Z) (kbdus_past : Z -> Z).
Local Abbreviation K := (M kb).

Definition in_buffer {A} : M (list Z) A -> K A := zoom buffer (λ b k, set_buffer b (buffer_i k) k).
(** [kbio_mutex], the null pointer *)
Definition kbio_mutex : Z := 0.

Definition key_of (table : list Z) (scancode : Z) : Z := default (kbdus_past scancode) (aget table scancode).

(** [scancode] is the byte read from port 0x60. *)
Definition kb_handler (scancode : Z) : K unit :=
  k ← get;
  if truth (kb_extended k) then modify (set_extended 0)
  else if scancode =? 0xE0 then modify (set_extended 1)
  else if scancode =? 0xAA then modify (set_shift 0)
  else if scancode =? 0x2A then modify (set_shift 1)
  else if truth (Z.land scancode 0x80) then
    if key_of kbdus scancode =? KB_TRAP_CTL then modify (set_ctl 1)
    else if key_of kbdus scancode =? KB_TRAP_LSHIFT then modify (set_shift 1)
    else mret tt
  else if buffer_i k =? 0xFF then mret tt
  else
    (if truth (kb_shift k) || truth (kb_caps k)
     then in_buffer (wr_at (buffer_i k) (key_of kbdus_caps scancode))
     else in_buffer (wr_at (buffer_i k) (key_of kbdus scancode)));;
    modify (λ k, set_buffer (buffer k) (u32 (buffer_i k + 1)) k).

Definition kb_start : K Z :=
  modify (set_irq1 true);;
  in_buffer (for_up BUFFER 0 (λ i, wr_at i 0));;
  mret 0.
Definition kb_stop : K Z := modify (set_irq1 false);; mret 0.

Definition kb_read : K Z :=
  c ← in_buffer (rd_at past 0);
  if c =? 0 then mutex_unlock kbio_mutex;; mret 0
  else
    mutex_lock kbio_mutex;;
    to_send ← in_buffer (rd_at past 0);
    in_buffer (wr_at 0 0);;
    in_buffer (shift_down past);;
    modify (λ k, set_buffer (buffer k) (u32 (buffer_i k - 1)) k);;
    mutex_unlock kbio_mutex;;
    mret to_send.
End keyboard.

(** ** The input queue (input.c) *)

Record inputq := InputQ { ibuffer : list Z; ibuffer_i : Z }.
Definition input_boot : inputq := InputQ (replicate BUFFER 0) 0.

Section input.
Context (past : Z).
Local Abbreviation K := (M inputq).
Definition in_ibuffer {A} : M (list Z) A -> K A := zoom ibuffer (λ b q, InputQ b (ibuffer_i q)).

(** The message for a full queue is printed and the character stored all
    the same. *)
Definition input_add_char (c : Z) : K unit :=
  if c =? 0 then mret tt
  else
    i ← gets ibuffer_i;
    in_ibuffer (wr_at i c);;
    modify (λ q, InputQ (ibuffer q) (u32 (ibuffer_i q + 1))).

Definition input_read : K Z :=
  c ← in_ibuffer (rd_at past 0);
  if c =? 0 then mret 0
  else
    to_send ← in_ibuffer (rd_at past 0);
    in_ibuffer (wr_at 0 0);;
    in_ibuffer (shift_down past);;
    modify (λ q, InputQ (ibuffer q) (u32 (ibuffer_i q - 1)));;
    mret to_send.
End input.

(** ** Queues in arrays *)

Section queues.
Context (past : Z).
Implicit Types l q : list Z.

(** The array that holds the queue [q] after [r] characters were read: the
    byte behind the array has been shifted in once for each of them. *)
Definition filled (r : nat) q : list Z :=
  q ++ replicate (BUFFER - length q - r) 0 ++ replicate (r `min` (BUFFER - length q)) past.

Lemma filled_length r q : (length q <= BUFFER)%nat -> length (filled r q) = BUFFER.
Proof. intros. unfold filled. rewrite !length_app, !length_replicate. lia. Qed.

Lemma rd_at_done l i x : aget l i = Some x -> 0 <= i < 0xFF -> rd_at past i l = Done x l.
Proof.
  intros Hx Hi. unfold rd_at. mrun. rewrite (proj2 (Z.eqb_neq _ _)) by lia. by rewrite Hx.
Qed.

Lemma wr_at_done l i v : 0 <= i < Z.of_nat (length l) -> wr_at i v l = Done tt (aset i v l).
Proof. intros Hi. unfold wr_at. mrun. destruct (aget_lt l i Hi) as [x ->]. done. Qed.

Lemma aget_nat l (i : nat) : aget l (Z.of_nat i) = l !! i.
Proof. unfold aget. rewrite decide_True by lia. by rewrite Nat2Z.id. Qed.

Lemma shift_down_spec l :
  length l = BUFFER -> shift_down past l = Done tt (drop 1 l ++ [past]).
Proof.
  intros Hl. set (l' := drop 1 l ++ [past]).
  assert (Hl' : length l' = BUFFER) by (unfold l'; rewrite length_app, length_drop, Hl; done).
  destruct (for_up_inv (λ i s, 0 <= i ∧ s = take (Z.to_nat i) l' ++ drop (Z.to_nat i) l) BUFFER 0
    (λ i, c ← rd_at past (i + 1); wr_at i c) l) as (s & Hrun & _ & Hs).
  - intros i s Hi [_ ->]. change (Z.of_nat BUFFER) with 255 in Hi. set (n := Z.to_nat i).
    set (s := take n l' ++ drop n l).
    assert (Hlen : length s = BUFFER) by (unfold s; rewrite length_app, length_take, length_drop, Hl, Hl'; unfold BUFFER; lia).
    assert (Hx : ∃ x, rd_at past (i + 1) s = Done x s ∧ l' !! n = Some x).
    { destruct (decide (i = 254)) as [->|Hne].
      - exists past. split; [done|]. unfold l', n. rewrite lookup_app_r by (rewrite length_drop, Hl; done).
        by rewrite length_drop, Hl.
      - destruct (aget_lt s (i + 1)) as [x Hx]; [rewrite Hlen; unfold BUFFER; lia|].
        exists x. split; [apply rd_at_done; [done|lia]|].
        replace (i + 1) with (Z.of_nat (S n)) in Hx by lia. rewrite aget_nat in Hx. unfold s in Hx.
        rewrite lookup_app_r in Hx by (rewrite length_take; lia).
        rewrite length_take, Hl', lookup_drop in Hx.
        replace (n + (S n - n `min` BUFFER))%nat with (S n) in Hx by (unfold BUFFER; lia).
        unfold l'. rewrite lookup_app_l by (rewrite length_drop, Hl; unfold BUFFER; lia).
        rewrite lookup_drop. exact Hx. }
    destruct Hx as (x & Hrd & Hx). exists (aset i x s). mstep Hrd.
    split; [apply wr_at_done; rewrite Hlen; unfold BUFFER; lia|]. split; [lia|].
    replace (Z.to_nat (i + 1)) with (S n) by lia. rewrite (take_S_r _ _ x) by done.
    unfold aset. rewrite decide_True by lia. fold n. unfold s.
    rewrite insert_app_r_alt by (rewrite length_take; lia).
    rewrite length_take, Hl'. replace (n - n `min` BUFFER)%nat with 0%nat by (unfold BUFFER; lia).
    rewrite <- app_assoc. f_equal.
    destruct (drop n l) as [|y l2] eqn:Hd; [apply (f_equal length) in Hd; rewrite length_drop, Hl in Hd; cbn in Hd; unfold BUFFER in Hd; lia|].
    cbn. f_equal. replace (S n) with (n + 1)%nat by lia. by rewrite <- drop_drop, Hd.
  - split; [lia|]. done.
  - change (0 + Z.of_nat BUFFER) with 255 in Hs. unfold shift_down. rewrite Hrun, Hs.
    rewrite take_ge, drop_ge, app_nil_r; [done|rewrite Hl; unfold BUFFER; lia|rewrite Hl'; unfold BUFFER; lia].
Qed.

Lemma enqueue r q c :
  (length q < BUFFER)%nat -> wr_at (Z.of_nat (length q)) c (filled r q) = Done tt (filled r (q ++ [c])).
Proof.
  intros Hq. rewrite wr_at_done by (rewrite filled_length; lia). f_equal.
  unfold aset. rewrite decide_True, Nat2Z.id by lia. unfold filled.
  rewrite insert_app_r_alt, Nat.sub_diag, <- app_assoc by lia. f_equal.
  rewrite length_app. cbn [length].
  destruct (decide (BUFFER - length q - r = 0)%nat) as [Hz|Hz].
  - replace (r `min` (BUFFER - length q))%nat with (S (r `min` (BUFFER - (length q + 1)))) by lia.
    rewrite Hz. replace (BUFFER - (length q + 1) - r)%nat with 0%nat by lia. done.
  - replace (r `min` (BUFFER - (length q + 1)))%nat with (r `min` (BUFFER - length q))%nat by lia.
    by replace (BUFFER - length q - r)%nat with (S (BUFFER - (length q + 1) - r)) by lia.
Qed.

(** The first byte, 0 for an empty queue until 255 characters were read. *)
Lemma filled_0 r q :
  (length q <= BUFFER)%nat -> past = 0 ∨ (r < BUFFER)%nat -> aget (filled r q) 0 = Some (default 0 (head q)).
Proof.
  intros Hq Hr. unfold aget, filled. rewrite decide_True by lia. change (Z.to_nat 0) with 0%nat.
  destruct q as [|c q]; [|done]. cbn [length app head default]. destruct (decide (r < BUFFER)%nat) as [Hlt|Hge].
  - by replace (BUFFER - 0 - r)%nat with (S (BUFFER - 1 - r)) by lia.
  - destruct Hr as [->|]; [|done]. replace (BUFFER - 0 - r)%nat with 0%nat by lia.
    by replace (r `min` (BUFFER - 0))%nat with (S 254) by (unfold BUFFER in *; lia).
Qed.

Lemma dequeue r c q :
  (length (c :: q) <= BUFFER)%nat -> (wr_at 0 0;; shift_down past) (filled r (c :: q)) = Done tt (filled (S r) q).
Proof.
  intros Hq. mstep (wr_at_done (filled r (c :: q)) 0 0 ltac:(rewrite filled_length by done; done)).
  rewrite shift_down_spec by (rewrite length_aset; by apply filled_length). f_equal.
  unfold aset. rewrite decide_True by lia. change (Z.to_nat 0) with 0%nat. unfold filled at 1.
  set (z := replicate _ 0). set (p := replicate _ past).
  change (drop 1 (<[0%nat:=0]> ((c :: q) ++ z ++ p)) ++ [past]) with ((q ++ z ++ p) ++ [past]).
  unfold z, p, filled. rewrite <- !app_assoc. f_equal. cbn [length] in *.
  f_equal; [f_equal; lia|].
  replace (S r `min` (BUFFER - length q))%nat with (r `min` (BUFFER - S (length q)) + 1)%nat by lia.
  by rewrite replicate_add.
Qed.
End queues.

(** ** What the keyboard promises *)

Inductive kb_cmd := Key (scancode : Z) | Read.

Section keyboard_spec.
Context (kbdus_past : Z -> Z) (past : Z).
Implicit Types q : list Z.

Definition kb_exec (c : kb_cmd) : M kb (option Z) :=
  match c with
  | Key scancode => kb_handler kbdus_past scancode;; mret None
  | Read => c ← kb_read past; mret (Some c)
  end.
Fixpoint kb_run (cs : list kb_cmd) : M kb (list (option Z)) :=
  match cs with [] => mret [] | c :: cs' => r ← kb_exec c; rs ← kb_run cs'; mret (r :: rs) end.

(** The modifiers, and the characters typed and not yet read. *)
Record kview := KView { kv_extended : bool; kv_shift : bool; typed : list Z }.

Definition key_meaning (scancode : Z) (v : kview) : kview :=
  if kv_extended v then KView false (kv_shift v) (typed v)
  else if scancode =? 0xE0 then KView true (kv_shift v) (typed v)
  else if scancode =? 0xAA then KView false false (typed v)
  else if scancode =? 0x2A then KView false true (typed v)
  else if 128 <=? scancode then
    KView false (kv_shift v || (key_of kbdus_past kbdus scancode =? KB_TRAP_LSHIFT)) (typed v)
  else if (length (typed v) =? BUFFER)%nat then v
  else KView false (kv_shift v)
    (typed v ++ [key_of kbdus_past (if kv_shift v then kbdus_caps else kbdus) scancode]).
Definition kb_meaning (c : kb_cmd) (v : kview) : kview * option Z :=
  match c with
  | Key scancode => (key_meaning scancode v, None)
  | Read => match typed v with
            | [] => (v, Some 0)
            | c :: q => (if c =? 0 then v else KView (kv_extended v) (kv_shift v) q, Some c)
            end
  end.
Fixpoint kb_meaning_all (cs : list kb_cmd) (v : kview) : kview * list (option Z) :=
  match cs with
  | [] => (v, [])
  | c :: cs' =>
      let (v1, r) := kb_meaning c v in let (v2, rs) := kb_meaning_all cs' v1 in (v2, r :: rs)
  end.

(** Scan codes are bytes. *)
Definition kb_cmd_ok (c : kb_cmd) : Prop :=
  match c with Key sc => 0 <= sc < 256 | Read => True end.
Fixpoint reads (cs : list kb_cmd) : nat :=
  match cs with [] => O | Read :: cs' => S (reads cs') | Key _ :: cs' => reads cs' end.

(** The driver's variables when [r] characters have been read. *)
Record kb_rep (r : nat) (k : kb) (v : kview) : Prop := {
  kr_buffer : buffer k = filled past r (typed v);
  kr_count : buffer_i k = Z.of_nat (length (typed v));
  kr_room : (length (typed v) <= BUFFER)%nat;
  kr_ext : truth (kb_extended k) = kv_extended v;
  kr_shift : truth (kb_shift k) = kv_shift v;
  kr_caps : kb_caps k = 0
}.

Lemma high_bit sc : 0 <= sc < 256 -> truth (Z.land sc 0x80) = (128 <=? sc).
Proof.
  intros Hsc. assert (Hall : forallb (λ sc, Bool.eqb (truth (Z.land sc 0x80)) (128 <=? sc)) (seqZ 0 256) = true)
    by by vm_compute.
  rewrite forallb_forall in Hall. apply Bool.eqb_prop, Hall, list_elem_of_In, elem_of_seqZ. lia.
Qed.

Lemma in_buffer_done {A} (m : M (list Z) A) k a b :
  m (buffer k) = Done a b -> in_buffer m k = Done a (set_buffer b (buffer_i k) k).
Proof. intros H. unfold in_buffer. by rewrite (zoom_done _ _ _ _ _ _ H). Qed.

Lemma store_key r (k : kb) v c :
  kb_rep r k v -> (length (typed v) < BUFFER)%nat ->
  ∃ k', (in_buffer (wr_at (buffer_i k) c);;
         modify (λ k, set_buffer (buffer k) (u32 (buffer_i k + 1)) k)) k = Done tt k' ∧
    kb_rep r k' (KView (kv_extended v) (kv_shift v) (typed v ++ [c])).
Proof.
  intros [Hb Hc Hr He Hs Hcap] Hlt.
  assert (Hw : in_buffer (wr_at (buffer_i k) c) k
    = Done tt (set_buffer (filled past r (typed v ++ [c])) (buffer_i k) k)).
  { apply in_buffer_done. rewrite Hb, Hc. by apply enqueue. }
  eexists. split; [by mstep Hw|]. split; cbn; try done.
  - rewrite u32_small by (rewrite Hc; unfold BUFFER in *; lia). rewrite Hc, length_app. cbn. lia.
  - rewrite length_app. cbn. lia.
Qed.

Lemma kb_handler_spec r k v sc :
  kb_rep r k v -> 0 <= sc < 256 ->
  ∃ k', kb_handler kbdus_past sc k = Done tt k' ∧ kb_rep r k' (key_meaning sc v).
Proof.
  intros Hrep Hsc. pose proof Hrep as [Hb Hc Hr He Hs Hcap].
  unfold kb_handler, key_meaning. rewrite (bind_Done _ _ _ _ _ (eq_refl : get k = Done k k)).
  rewrite He. destruct (kv_extended v) eqn:Ev; [eexists; split; [done|]; by split|].
  destruct (sc =? 0xE0); [eexists; split; [done|]; by split|].
  destruct (sc =? 0xAA); [eexists; split; [done|]; by split|].
  destruct (sc =? 0x2A); [eexists; split; [done|]; by split|].
  rewrite high_bit by done. destruct (Z.leb_spec 128 sc) as [Hge|Hlt].
  - destruct (Z.eqb_spec (key_of kbdus_past kbdus sc) KB_TRAP_CTL) as [->|Hctl].
    + eexists. split; [done|]. cbn. rewrite orb_false_r. by split.
    + destruct (key_of kbdus_past kbdus sc =? KB_TRAP_LSHIFT); eexists; (split; [done|]).
      * rewrite orb_true_r. by split.
      * rewrite orb_false_r. by split.
  - assert (Hfull : (buffer_i k =? 0xFF) = (length (typed v) =? BUFFER)%nat).
    { rewrite Hc. apply eq_true_iff_eq. rewrite Z.eqb_eq, Nat.eqb_eq. unfold BUFFER. lia. }
    rewrite Hfull. destruct (Nat.eqb_spec (length (typed v)) BUFFER) as [Heq|Hne].
    + by exists k.
    + rewrite Hs, Hcap. change (truth 0) with false. rewrite orb_false_r.
      destruct (store_key r k v (key_of kbdus_past (if kv_shift v then kbdus_caps else kbdus) sc) Hrep)
        as (k' & Hrun & Hrep'); [lia|].
      exists k'. rewrite Ev in Hrep'. split; [|done]. by destruct (kv_shift v).
Qed.

Lemma kb_read_spec r k v :
  kb_rep r k v -> past = 0 ∨ (r < BUFFER)%nat ->
  ∃ r' k', (r' <= S r)%nat ∧ kb_read past k = Done (default 0 (head (typed v))) k' ∧
    kb_rep r' k' (kb_meaning Read v).1.
Proof.
  intros Hrep Hpast. pose proof Hrep as [Hb Hc Hr He Hs Hcap].
  assert (Hrd : in_buffer (rd_at past 0) k = Done (default 0 (head (typed v))) k).
  { rewrite (in_buffer_done _ k (default 0 (head (typed v))) (buffer k)); [by destruct k|].
    apply rd_at_done; [rewrite Hb; by apply filled_0|lia]. }
  unfold kb_read. mstep Hrd. cbn [kb_meaning].
  destruct (typed v) as [|c q] eqn:Hq; cbn [head from_option id fst] in *.
  { exists r, k. split; [lia|]. split; [done|]. by split; rewrite ?Hq. }
  destruct (Z.eqb_spec c 0) as [->|Hne].
  { exists r, k. split; [lia|]. split; [done|]. by split; rewrite ?Hq. }
  mstep (mutex_lock_null k). mstep Hrd.
  assert (Hw : (in_buffer (wr_at 0 0);; in_buffer (shift_down past)) k
    = Done tt (set_buffer (filled past (S r) q) (buffer_i k) k)).
  { pose proof (dequeue past r c q Hr) as Hd. apply bind_inv in Hd as ([] & b & H1 & H2).
    rewrite <- Hb in H1. mstep (in_buffer_done _ k _ _ H1).
    by rewrite (in_buffer_done _ (set_buffer b (buffer_i k) k) _ _ H2). }
  apply bind_inv in Hw as ([] & k1 & H1 & H2). mstep H1. mstep H2.
  eexists (S r), _. split; [lia|]. split; [done|]. cbn [length] in *.
  split; cbn; try done; [|lia].
  rewrite u32_small by (rewrite Hc; unfold BUFFER in *; lia). lia.
Qed.

Lemma kb_run_spec cs : ∀ r k v,
  kb_rep r k v -> Forall kb_cmd_ok cs -> past = 0 ∨ (r + reads cs <= BUFFER)%nat ->
  ∃ r' k', kb_run cs k = Done (kb_meaning_all cs v).2 k' ∧ kb_rep r' k' (kb_meaning_all cs v).1.
Proof.
  induction cs as [|c cs IH]; intros r k v Hrep Hm Hpast; [by exists r, k|].
  apply Forall_cons in Hm as [Hc Hm]. cbn [kb_run kb_meaning_all].
  assert (∃ r1 k1, kb_exec c k = Done (kb_meaning c v).2 k1 ∧ kb_rep r1 k1 (kb_meaning c v).1 ∧
    (past = 0 ∨ (r1 + reads cs <= BUFFER)%nat)) as (r1 & k1 & E1 & Hrep1 & Hpast1).
  { destruct c as [sc|].
    - destruct (kb_handler_spec r k v sc Hrep Hc) as (k1 & E1 & H1). exists r, k1. cbn. by mstep E1.
    - cbn [reads] in Hpast. destruct (kb_read_spec r k v Hrep) as (r1 & k1 & Hr1 & E1 & H1); [lia|].
      exists r1, k1. cbn [kb_exec]. mstep E1. split; [|split; [done|lia]].
      destruct v as [e s [|c q]]; done. }
  destruct (kb_meaning c v) as [v1 o]. destruct (IH r1 k1 v1 Hrep1 Hm Hpast1) as (r2 & k2 & E2 & Hrep2).
  destruct (kb_meaning_all cs v1) as [v2 rs]. exists r2, k2. mstep E1. by mstep E2.
Qed.
End keyboard_spec.

(** ** Properties *)

Section keyboard_properties.
Context (kbdus_past : Z -> Z).

(** C28: whatever keys are pressed and released and whenever the driver is
    read, it is a queue of at most 255 characters: reads return the typed
    characters in order, upper case while shift is held, 0 when there are
    none; keys pressed while 255 characters wait are dropped. A key without a
    character queues a 0, and reads return that 0 for ever once it is at the
    front. The byte behind the array, which every read shifts in, does not
    show in the first 255 reads; if it is 0 it never does. *)
Theorem keyboard_is_queue past cs
    (Hkeys : Forall kb_cmd_ok cs) (Hpast : past = 0 ∨ (reads cs <= BUFFER)%nat) :
  ∃ r k, (kb_start;; kb_run kbdus_past past cs) kb_boot
      = Done (kb_meaning_all kbdus_past cs (KView false false [])).2 k ∧
    kb_rep past r k (kb_meaning_all kbdus_past cs (KView false false [])).1.
Proof.
  assert (Hstart : kb_start kb_boot = Done 0 (set_irq1 true kb_boot)) by (vm_compute; reflexivity).
  destruct (kb_run_spec kbdus_past past cs 0 (set_irq1 true kb_boot) (KView false false [])) as (r & k & Hrun & Hrep).
  - split; [vm_compute; reflexivity|reflexivity|cbn; lia|reflexivity..].
  - exact Hkeys.
  - exact Hpast.
  - exists r, k. split; [|exact Hrep]. rewrite (bind_Done _ _ _ _ _ Hstart). exact Hrun.
Qed.

(** A key that maps to 0 blocks the keyboard: once its 0 is at the
    front of the array, every read returns 0, whatever is typed. *)
Theorem keyboard_blocked past cs k
    (Hlen : length (buffer k) = BUFFER) (Hfront : aget (buffer k) 0 = Some 0)
    (Hcount : 1 <= buffer_i k <= 0xFF) (Hcs : Forall (λ c, match c with Key sc => 0 <= sc < 256 | Read => True end) cs) :
  ∃ rs k', kb_run kbdus_past past cs k = Done rs k' ∧ Forall (λ r, r = None ∨ r = Some 0) rs.
Proof.
  revert k Hlen Hfront Hcount. induction Hcs as [|c cs Hc _ IH]; intros k Hlen Hfront Hcount.
  - exists [], k. by split.
  - assert (∃ r k1, kb_exec kbdus_past past c k = Done r k1 ∧ (r = None ∨ r = Some 0) ∧
      length (buffer k1) = BUFFER ∧ aget (buffer k1) 0 = Some 0 ∧ 1 <= buffer_i k1 <= 0xFF)
      as (r & k1 & E1 & Hr & H1 & H2 & H3).
    { destruct c as [sc|]; cbn [kb_exec].
      - assert (∃ k1, kb_handler kbdus_past sc k = Done tt k1 ∧
          length (buffer k1) = BUFFER ∧ aget (buffer k1) 0 = Some 0 ∧ 1 <= buffer_i k1 <= 0xFF) as (k1 & E & ?).
        { unfold kb_handler. rewrite (bind_Done _ _ _ _ _ (eq_refl : get k = Done k k)).
          do 4 (case_match; [eexists; split; [reflexivity|done]|]).
          destruct (truth (Z.land sc 0x80)).
          { repeat case_match; (eexists; split; [reflexivity|done]). }
          destruct (Z.eqb_spec (buffer_i k) 0xFF); [by exists k|].
          assert (Hstore : ∀ c, ∃ k1, (in_buffer (wr_at (buffer_i k) c);;
            modify (λ k, set_buffer (buffer k) (u32 (buffer_i k + 1)) k)) k = Done tt k1 ∧
            length (buffer k1) = BUFFER ∧ aget (buffer k1) 0 = Some 0 ∧ 1 <= buffer_i k1 <= 0xFF).
          { intros c. assert (Hw : wr_at (buffer_i k) c (buffer k) = Done tt (aset (buffer_i k) c (buffer k)))
              by (apply wr_at_done; rewrite Hlen; unfold BUFFER; lia).
            eexists. split; [by mstep (in_buffer_done _ k _ _ Hw)|]. cbn.
            rewrite length_aset, aget_aset_ne, u32_small by lia. split; [done|]. split; [done|lia]. }
          destruct (truth (kb_shift k) || truth (kb_caps k)); apply Hstore. }
        exists None, k1. mstep E. by split; [|split; [left|]].
      - exists (Some 0), k. split; [|by split; [right|]]. unfold kb_read.
        assert (Hrd : in_buffer (rd_at past 0) k = Done 0 k).
        { rewrite (in_buffer_done _ k 0 (buffer k)); [by destruct k|]. apply rd_at_done; [done|lia]. }
        rewrite bind_assoc. by mstep Hrd. }
    destruct (IH k1 H1 H2 H3) as (rs & k' & E' & Hrs). exists (r :: rs), k'. cbn [kb_run].
    mstep E1. mstep E'. split; [done|]. by constructor.
Qed.

(** input.c stores the 256th character behind its array. *)
Lemma input_overflow q c :
  length (ibuffer q) = BUFFER -> ibuffer_i q = 0xFF -> c ≠ 0 -> input_add_char c q = Fault (OutOfRange 0xFF).
Proof.
  intros Hl Hi Hc. unfold input_add_char. rewrite (proj2 (Z.eqb_neq _ _)) by done.
  rewrite (bind_Done _ _ _ _ _ (eq_refl : gets ibuffer_i q = Done (ibuffer_i q) q)), Hi.
  unfold in_ibuffer, zoom, wr_at, mbind at 1, M_bind at 1. mrun.
  assert (aget (ibuffer q) 0xFF = None) as Hn.
  { unfold aget. rewrite decide_True by lia. apply lookup_ge_None. rewrite Hl. done. }
  unfold mbind, M_bind. by rewrite Hn.
Qed.
End keyboard_properties.

Section keyboard_examples.
(** shift, H, release, i, read, read, read, F2, i, read, read; 7 lies behind
    the array. *)
Lemma keyboard_is_queue_witness :
  ∃ r k, (kb_start;; kb_run (λ _, 0) 7
      [Key 0x2A; Key 0x23; Key 0xAA; Key 0x17; Read; Read; Read; Key 0x3C; Key 0x17; Read; Read]) kb_boot
      = Done [None; None; None; None; Some 72; Some 105; Some 0; None; None; Some 0; Some 0] k ∧
    kb_rep 7 r k (KView false false [0; 105]).
Proof.
  apply (keyboard_is_queue (λ _, 0) 7
    [Key 0x2A; Key 0x23; Key 0xAA; Key 0x17; Read; Read; Read; Key 0x3C; Key 0x17; Read; Read]).
  - repeat constructor; lia.
  - right. apply (bool_decide_unpack _). by vm_compute.
Defined.

(** F2 maps to 0; then "a" is typed and read. *)
Lemma keyboard_blocked_witness :
  ∃ rs k', kb_run (λ _, 0) 0 [Key 0x1E; Read; Read] (set_buffer (replicate BUFFER 0) 1 kb_boot) = Done rs k' ∧
    Forall (λ r, r = None ∨ r = Some 0) rs.
Proof.
  apply (keyboard_blocked (λ _, 0) 0 [Key 0x1E; Read; Read] (set_buffer (replicate BUFFER 0) 1 kb_boot));
    [done|done|by vm_compute|repeat constructor; lia].
Defined.
End keyboard_examples.
