(* ===== verification/Fs.v ===== *)
(** * State of the file system code

    Objects of the kernel store (lists, tree nodes) next to the bytes of
    memory: strings, mount entries and file system nodes are blocks of the
    allocator whose contents are bytes. What a client needs to know about
    such blocks: who owns which, and what a step leaves alone. *)

From S2P Require Import Prelude KHeap CString Ram.

Record fs (AS : Type) := Fs {
  f_obj : kstate AS;
  f_mem : ram;
  vfs_tree : Z;
  vfs_root : Z;
  vfs_root_node : Z
}.
Arguments Fs {AS} _ _ _ _ _.
Arguments f_obj {AS} _.
Arguments f_mem {AS} _.
Arguments vfs_tree {AS} _.
Arguments vfs_root {AS} _.
Arguments vfs_root_node {AS} _.

Section fs_ops.
Context {AS : Type} `{!Allocator AS}.
Implicit Types s : fs AS.
Local Abbreviation K := (M (fs AS)).

Definition set_obj (o : kstate AS) s := Fs o (f_mem s) (vfs_tree s) (vfs_root s) (vfs_root_node s).
Definition set_fmem (m : ram) s := Fs (f_obj s) m (vfs_tree s) (vfs_root s) (vfs_root_node s).
Definition set_vfs_tree (z : Z) s := Fs (f_obj s) (f_mem s) z (vfs_root s) (vfs_root_node s).
Definition set_vfs_root (z : Z) s := Fs (f_obj s) (f_mem s) (vfs_tree s) z (vfs_root_node s).
Definition set_vfs_root_node (z : Z) s := Fs (f_obj s) (f_mem s) (vfs_tree s) (vfs_root s) z.

#[export] Program Instance fs_has_obj : Has (kstate AS) (fs AS) := { part := f_obj; set_part := set_obj }.
Solve All Obligations with (by intros; repeat match goal with s : fs _ |- _ => destruct s end).
#[export] Program Instance fs_has_mem : Has ram (fs AS) := { part := f_mem; set_part := set_fmem }.
Solve All Obligations with (by intros; repeat match goal with s : fs _ |- _ => destruct s end).

(** Code of the store and code of memory, run here. *)
Definition obj {A} (m : M (kstate AS) A) : K A := within m.
Definition mem {A} (m : M ram A) : K A := within m.

(** [malloc] and [free] of a block of bytes *)
Definition fmalloc (size : Z) : K Z := obj (kmalloc size (OData [])).
Definition ffree (p : Z) : K unit := obj (kfree p).

(** malloc.c's [realloc]; the block's header holds its size *)
Definition frealloc (pointer size : Z) : K Z :=
  new_block ← fmalloc size;
  (if negb (pointer =? 0) && (size =? 0) then ffree pointer else mret tt);;
  (if negb (pointer =? 0) && negb (new_block =? 0) then
     old ← gets (λ s, default 0 (am_live (astate (f_obj s)) !! pointer));
     _ ← mem (memcpy new_block pointer (if size <? old then size else old));
     ffree pointer
   else mret tt);;
  mret new_block.

(** string.c's [strdup] *)
Definition fstrdup (str : Z) : K Z :=
  len ← mem (strlen str);
  d ← fmalloc (u32 (len + 1));
  if d =? 0 then mret 0 else _ ← mem (strcpy d str); mret d.

(** [p->field] and [p->field = v] at the field's offset, for structures of
    bytes; through the null pointer it is an error. *)
Definition ldf (p off : Z) : K Z :=
  if p =? 0 then fail NullPointer else mem (load32 (p + off)).
Definition stf (p off v : Z) : K unit :=
  if p =? 0 then fail NullPointer else mem (store32 (p + off) v).
End fs_ops.

(** ** Owned blocks

    [live] maps the address of every allocated block to its size. A step
    owns the objects and blocks it may change or free; [frame own s s'] says
    that nothing else has changed between the two states, the static data
    of the kernel included. *)

Section frames.
Context {AS : Type} `{!Allocator AS}.
Implicit Types (s : fs AS) (own : list Z).

Definition live s : gmap Z Z := am_live (astate (f_obj s)).
Definition store s : gmap Z KHeap.obj := heap (f_obj s).
Definition fs_ok s : Prop := kst_ok (f_obj s).
Definition fs_room (n : nat) s : Prop := am_room n (astate (f_obj s)).

(** Byte [b] is static data, or lies in a block outside [own]. *)
Definition guarded own s (b : Z) : Prop :=
  b <= am_base ∨ ∃ p k, p ∉ own ∧ live s !! p = Some k ∧ p <= b < p + k.

Record frame own s s' : Prop := {
  fr_store a : a ∉ own -> store s' !! a = store s !! a;
  fr_live a : a ∉ own -> live s' !! a = live s !! a;
  fr_bytes b : guarded own s b -> rd (f_mem s') b = rd (f_mem s) b;
  fr_globals : vfs_tree s' = vfs_tree s ∧ vfs_root s' = vfs_root s ∧ vfs_root_node s' = vfs_root_node s
}.

Lemma frame_refl own s : frame own s s.
Proof. done. Qed.

Lemma guarded_mono own own' s b : (∀ a, a ∈ own' -> a ∈ own) -> guarded own s b -> guarded own' s b.
Proof. intros Hsub [?|(p & k & Hp & ?)]; [by left|]. right. exists p, k. split; [auto|done]. Qed.

Lemma guarded_frame own s s' b : frame own s s' -> guarded own s b -> guarded own s' b.
Proof.
  intros Hf [?|(p & k & Hp & Hl & ?)]; [by left|]. right. exists p, k.
  by rewrite (fr_live _ _ _ Hf).
Qed.

Lemma frame_mono own own' s s' : (∀ a, a ∈ own -> a ∈ own') -> frame own s s' -> frame own' s s'.
Proof.
  intros Hsub [F1 F2 F3 F4]. split; [auto..| |done].
  intros b Hb. apply F3. by eapply guarded_mono.
Qed.

Lemma frame_trans own s1 s2 s3 : frame own s1 s2 -> frame own s2 s3 -> frame own s1 s3.
Proof.
  intros H12 H23. split.
  - intros a Ha. by rewrite (fr_store _ _ _ H23), (fr_store _ _ _ H12).
  - intros a Ha. by rewrite (fr_live _ _ _ H23), (fr_live _ _ _ H12).
  - intros b Hb. rewrite (fr_bytes _ _ _ H23), (fr_bytes _ _ _ H12); [done|done|].
    by eapply guarded_frame.
  - destruct (fr_globals _ _ _ H12) as (<- & <- & <-). apply (fr_globals _ _ _ H23).
Qed.

(** Every object of the store lies in an allocated block. *)
Lemma store_live s a : fs_ok s -> live s !! a = None -> store s !! a = None.
Proof.
  intros (_ & Hl & _) Ha. apply eq_None_not_Some. intros Hs%Hl. unfold live in Ha.
  rewrite Ha in Hs. by destruct Hs.
Qed.

(** What is neither allocated before nor after need not be mentioned. *)
Lemma frame_shrink own own' s s' :
  fs_ok s -> fs_ok s' ->
  (∀ a, a ∈ own -> a ∈ own' ∨ live s !! a = None ∧ live s' !! a = None) ->
  frame own s s' -> frame own' s s'.
Proof.
  intros Hok Hok' Hsub [F1 F2 F3 F4]. split; [| | |done].
  - intros a Ha. destruct (decide (a ∈ own)) as [Hin|]; [|auto].
    destruct (Hsub _ Hin) as [?|[Hn Hn']]; [done|].
    by rewrite (store_live _ _ Hok Hn), (store_live _ _ Hok' Hn').
  - intros a Ha. destruct (decide (a ∈ own)) as [Hin|]; [|auto].
    destruct (Hsub _ Hin) as [?|[Hn Hn']]; [done|]. congruence.
  - intros b [?|(p & k & Hp & Hl & ?)]; apply F3; [by left|]. right. exists p, k.
    split; [|done]. intros Hin. destruct (Hsub _ Hin) as [?|[Hn _]]; [done|congruence].
Qed.

(** *** Blocks and strings *)

(** [p] is an allocated block of bytes, at least [n] of them. *)
Definition blk s (p n : Z) : Prop :=
  store s !! p = Some (OData []) ∧ ∃ k, live s !! p = Some k ∧ n <= k.

Lemma blk_frame own s s' p n : p ∉ own -> frame own s s' -> blk s p n -> blk s' p n.
Proof.
  intros Hp Hf [Hs Hl]. split; [by rewrite (fr_store _ _ _ Hf)|].
  by rewrite (fr_live _ _ _ Hf).
Qed.

Lemma blk_range s p n : fs_ok s -> blk s p n -> am_base < p ∧ p + n <= 2 ^ 32 ∧ p ≠ 0.
Proof.
  intros (Hok & _) (_ & k & Hl & ?). pose proof (am_range _ _ _ Hok Hl) as (? & ? & ?).
  pose proof am_base_pos. lia.
Qed.

Lemma blk_top s p n : fs_ok s -> fs_room 1 s -> blk s p n -> p + n < 2 ^ 32.
Proof. intros (Hok & _) Hroom (_ & k & Hl & ?). pose proof (am_room_top _ _ _ Hok Hroom Hl). lia. Qed.

Lemma blk_live s p n : blk s p n -> live s !! p ≠ None.
Proof. intros (_ & k & -> & _). done. Qed.

Lemma blk_mono s p n m : m <= n -> blk s p n -> blk s p m.
Proof. intros ? [Hs (k & Hl & ?)]. split; [done|]. exists k. split; [done|lia]. Qed.

(** Blocks of bytes are not objects of other types. *)
Lemma blk_not_obj {T} `{!IsObj T} s p n a (x : T) :
  (∀ bs, of_obj (T := T) (OData bs) = None) -> blk s p n -> kobj (store s) a = Some x -> a ≠ p.
Proof. intros Hno [Hs _] Hx ->. unfold kobj in Hx. rewrite Hs in Hx. cbn in Hx. by rewrite Hno in Hx. Qed.

(** The bytes [a .. a + n - 1] are static or in one block outside [own]. *)
Definition secure own s (a n : Z) : Prop :=
  0 <= a ∧ (a + n <= am_base ∨ ∃ p k, p ∉ own ∧ live s !! p = Some k ∧ p <= a ∧ a + n <= p + k).

Lemma secure_guarded own s a n i : secure own s a n -> 0 <= i < n -> guarded own s (a + i).
Proof. intros (? & [?|(p & k & ? & ? & ? & ?)]) Hi; [left; lia|]. right. exists p, k. split_and!; (done || lia). Qed.

Lemma secure_frame own s s' a n : frame own s s' -> secure own s a n -> secure own s' a n.
Proof.
  intros Hf (? & [?|(p & k & ? & Hl & ?)]); (split; [done|]); [by left|]. right. exists p, k.
  by rewrite (fr_live _ _ _ Hf).
Qed.

Lemma secure_mono own own' s a n : (∀ b, b ∈ own' -> b ∈ own) -> secure own s a n -> secure own' s a n.
Proof. intros Hsub (? & [?|(p & k & Hp & ?)]); (split; [done|]); [by left|]. right. exists p, k. split; [auto|done]. Qed.

Lemma blk_secure s p n own : fs_ok s -> p ∉ own -> blk s p n -> secure own s p n.
Proof.
  intros Hok Hp Hb. destruct (blk_range _ _ _ Hok Hb). destruct Hb as (_ & k & Hl & ?).
  pose proof am_base_pos. split; [lia|]. right. exists p, k. split_and!; (done || lia).
Qed.

Lemma cstr_stable own s s' a l :
  frame own s s' -> secure own s a (Z.of_nat (length l) + 1) -> cstr (f_mem s) a l -> cstr (f_mem s') a l.
Proof.
  intros Hf Hs. apply cstr_frame. intros i Hi. apply (fr_bytes _ _ _ Hf).
  eapply secure_guarded; [done|lia].
Qed.

(** A string in a block of its own. *)
Definition str s (p : Z) (l : list Z) : Prop := blk s p (Z.of_nat (length l) + 1) ∧ cstr (f_mem s) p l.

Lemma str_frame own s s' p l : fs_ok s -> p ∉ own -> frame own s s' -> str s p l -> str s' p l.
Proof.
  intros Hok Hp Hf [Hb Hc]. split; [by eapply blk_frame|].
  eapply cstr_stable; [done|by apply blk_secure|done].
Qed.

(** A string that may be static. *)
Definition text own s (p : Z) (l : list Z) : Prop :=
  secure own s p (Z.of_nat (length l) + 1) ∧ cstr (f_mem s) p l.

Lemma text_frame own own' s s' p l :
  (∀ a, a ∈ own' -> a ∈ own) -> frame own' s s' -> text own s p l -> text own s' p l.
Proof.
  intros Hsub Hf [Hs Hc]. apply (frame_mono _ own) in Hf; [|done].
  split; [by eapply secure_frame|by eapply cstr_stable].
Qed.

Lemma text_mono own own' s p l : (∀ a, a ∈ own' -> a ∈ own) -> text own s p l -> text own' s p l.
Proof. intros Hsub [Hs Hc]. split; [by eapply secure_mono|done]. Qed.

Lemma str_text own s p l : fs_ok s -> p ∉ own -> str s p l -> text own s p l.
Proof. intros ? ? [? ?]. split; [by apply blk_secure|done]. Qed.

(** *** Steps *)

Lemma obj_done {A} (m : M (kstate AS) A) s x o : m (f_obj s) = Done x o -> obj m s = Done x (set_obj o s).
Proof. intros H. exact (within_done (S := fs AS) (T := kstate AS) m s x o H). Qed.

Lemma obj_read {A} (m : M (kstate AS) A) s x : m (f_obj s) = Done x (f_obj s) -> obj m s = Done x s.
Proof. intros H. exact (within_read (S := fs AS) (T := kstate AS) m s x H). Qed.

Lemma mem_read {A} (m : M ram A) s x : m (f_mem s) = Done x (f_mem s) -> mem m s = Done x s.
Proof. intros H. exact (within_read (S := fs AS) (T := ram) m s x H). Qed.

Lemma mem_done {A} (m : M ram A) s x d : m (f_mem s) = Done x d -> mem m s = Done x (set_fmem d s).
Proof. intros H. exact (within_done (S := fs AS) (T := ram) m s x d H). Qed.

Lemma ram_total (d : ram) a n : 0 <= a -> a + n <= 2 ^ 32 -> mapped d a n.
Proof. intros ? ?. split_and!; [done..|]. intros. by eexists. Qed.

(** Writing inside a block. *)
Lemma frame_fill s p k a n f d :
  fs_ok s -> blk s p k -> p <= a -> a + n <= p + k -> filled a n f (f_mem s) d ->
  frame [p] s (set_fmem d s).
Proof.
  intros Hok Hb Ha Hn Hd. pose proof (blk_range _ _ _ Hok Hb). destruct Hb as (_ & kp & Hl & ?).
  split; [done|done| |done]. intros b Hb. cbn [set_fmem f_mem]. rewrite Hd, decide_False; [done|].
  destruct Hb as [?|(q & kq & Hq & Hlq & ?)]; [lia|]. rewrite elem_of_cons in Hq.
  destruct Hok as (Hok & _).
  pose proof (am_disjoint _ _ _ _ _ Hok Hl Hlq ltac:(naive_solver)). lia.
Qed.

Lemma fs_ok_mem s d : fs_ok s -> fs_ok (set_fmem d s).
Proof. done. Qed.

Lemma fmalloc_spec s n sz :
  fs_ok s -> fs_room (S n) s -> 0 <= sz <= small_block ->
  ∃ p s', fmalloc sz s = Done p s' ∧ fs_ok s' ∧ fs_room n s' ∧ live s !! p = None ∧
    blk s' p sz ∧ f_mem s' = f_mem s ∧ frame [p] s s'.
Proof.
  intros Hok Hroom Hsz. pose proof Hok as (Ha & _).
  destruct (am_malloc_room _ _ _ Ha Hroom Hsz) as (p & a & Hm & Hp & Hroom').
  assert (Hsz' : 0 <= sz <= max_request) by (unfold small_block, max_request in *; lia).
  destruct (am_malloc_fresh _ _ _ _ Ha Hsz' Hm Hp) as (_ & k & ? & Hfresh & Hl & Hdis).
  destruct (kmalloc_ok sz (OData []) _ _ _ Hok Hsz' Hm Hp) as [Hn Hok'].
  eexists p, _. split; [unfold fmalloc; apply obj_done; by apply kmalloc_done|].
  split; [done|]. split; [done|]. split; [done|].
  split; [|split; [done|split]]; unfold blk, store, live; cbn.
  - rewrite lookup_insert_eq. split; [done|]. exists k. by rewrite Hl, lookup_insert_eq.
  - intros b Hb. rewrite lookup_insert_ne; [done|set_solver].
  - intros b Hb. rewrite Hl, lookup_insert_ne; [done|set_solver].
  - done.
  - done.
Qed.

Lemma ffree_spec s p o :
  fs_ok s -> store s !! p = Some o ->
  ∃ s', ffree p s = Done tt s' ∧ fs_ok s' ∧ (∀ n, fs_room n s -> fs_room n s') ∧
    live s' !! p = None ∧ f_mem s' = f_mem s ∧ frame [p] s s'.
Proof.
  intros Hok Hp. pose proof Hok as (Ha & Hl & H0).
  destruct (Hl p) as [k Hk]; [by eexists|].
  destruct (am_free_live _ _ _ Ha Hk) as (a & Hf & Hok' & Hdel & Hroom).
  destruct (kfree_ok p (f_obj s) Hok (mk_is_Some _ _ Hp)) as (o' & Hrun & Hok2 & Hh & Hc & _).
  assert (o' = KState (delete p (heap (f_obj s))) a (console (f_obj s))) as ->.
  { unfold kfree in Hrun. destruct (Z.eqb_spec p 0) as [->|]; [unfold store in Hp; congruence|].
    unfold store in Hp. rewrite Hp, Hf in Hrun. by injection Hrun. }
  eexists. split; [unfold ffree; by apply obj_done|]. split; [done|]. split; [apply Hroom|].
  split; [unfold live; cbn; by rewrite Hdel, lookup_delete_eq|]. split; [done|].
  split; [| |done|done]; unfold store, live; cbn; intros b Hb.
  - rewrite lookup_delete_ne; [done|set_solver].
  - rewrite Hdel, lookup_delete_ne; [done|set_solver].
Qed.

(** Copying into a block. *)
Lemma memcpy_frame s p k a src n :
  fs_ok s -> blk s p k -> p <= a -> a + n <= p + k -> 0 <= n -> readable (f_mem s) src n ->
  a + n <= src ∨ src + n <= a ->
  ∃ d, mem (memcpy a src n) s = Done a (set_fmem d s) ∧
    filled a n (λ i, rd (f_mem s) (src + i)) (f_mem s) d ∧ frame [p] s (set_fmem d s).
Proof.
  intros Hok Hb Ha Hend Hn Hsrc Hdis. pose proof (blk_range _ _ _ Hok Hb). pose proof am_base_pos.
  destruct (memcpy_spec (f_mem s) a src n Hn Hsrc) as (d & Hrun & Hf).
  { apply ram_total; lia. }
  { lia. }
  exists d. split; [by apply mem_done|]. split; [done|]. by eapply frame_fill.
Qed.

(** Two places that do not overlap: a block and anything outside it. *)
Lemma secure_apart own s p k n a m :
  fs_ok s -> p ∈ own -> blk s p k -> n <= k -> secure own s a m -> p + n <= a ∨ a + m <= p.
Proof.
  intros Hok Hp Hb Hn (? & [?|(q & kq & Hq & Hlq & ? & ?)]);
    pose proof (blk_range _ _ _ Hok Hb); [lia|].
  destruct Hb as (_ & kp & Hl & ?). destruct Hok as (Hok & _).
  pose proof (am_disjoint _ _ _ _ _ Hok Hl Hlq ltac:(naive_solver)). lia.
Qed.

(** A string copied to the start of a block. *)
Lemma copy_string s p k src l :
  fs_ok s -> blk s p k -> Z.of_nat (length l) + 1 <= k -> text [p] s src l ->
  ∃ d, mem (memcpy p src (Z.of_nat (length l) + 1)) s = Done p (set_fmem d s) ∧
    cstr d p l ∧ frame [p] s (set_fmem d s).
Proof.
  intros Hok Hb Hk [Hsec Hc].
  destruct (secure_apart [p] s p k (Z.of_nat (length l) + 1) _ _ Hok ltac:(set_solver) Hb Hk Hsec) as [Hd|Hd].
  all: destruct (memcpy_frame s p k p src (Z.of_nat (length l) + 1)) as (d & Hrun & Hf & Hfr);
    [done|done|lia|lia|lia|by apply cstr_readable|lia|].
  all: exists d; split; [done|]; split; [|done]; pose proof (blk_range _ _ _ Hok Hb); pose proof am_base_pos.
  all: eapply (cstr_copy (f_mem s) d src); [lia|lia| |done]; intros i Hi; rewrite Hf, decide_True by lia;
    f_equal; lia.
Qed.

(** *** Several steps *)

Lemma obj_bind {A B} (m : M (kstate AS) A) (f : A -> M (kstate AS) B) s :
  obj (m ≫= f) s = (obj m ≫= λ x, obj (f x)) s.
Proof.
  unfold obj, within, zoom, mbind, M_bind. destruct s as [o d t r rn]. cbn. destruct (m o) as [x o'| | |]; [|done..].
  cbn. by destruct (f x o').
Qed.

(** What a computation that owns [own] and leaves room for [n] more
    allocations does to a state. *)
Record step own n s s' : Prop := {
  st_ok : fs_ok s';
  st_frame : frame own s s';
  st_room : fs_room n s'
}.

Lemma step_trans own n1 n2 s1 s2 s3 : step own n1 s1 s2 -> step own n2 s2 s3 -> step own n2 s1 s3.
Proof. intros [] []. split; [done|by eapply frame_trans|done]. Qed.
Lemma step_mono own own' n s s' : (∀ a, a ∈ own -> a ∈ own') -> step own n s s' -> step own' n s s'.
Proof. intros ? []. split; [done|by eapply frame_mono|done]. Qed.

Lemma kobj_frame {T} `{!IsObj T} own s s' a : frame own s s' -> a ∉ own -> kobj (T := T) (store s') a = kobj (store s) a.
Proof. intros Hf Ha. unfold kobj. by rewrite (fr_store _ _ _ Hf). Qed.
Lemma kobj_live {T} `{!IsObj T} s a (x : T) : fs_ok s -> kobj (store s) a = Some x -> live s !! a ≠ None.
Proof. intros Hok Hx Hn. apply (store_live _ _ Hok) in Hn. unfold kobj in Hx. by rewrite Hn in Hx. Qed.
Lemma kobj_nonnull {T} `{!IsObj T} s a (x : T) : fs_ok s -> kobj (store s) a = Some x -> a ≠ 0.
Proof. intros (_ & _ & H0) Hx ->. unfold kobj, store in Hx. by rewrite H0 in Hx. Qed.

(** Reading an object, writing its fields, allocating a new one. *)
Lemma obj_load {T} `{!IsObj T} s a (x : T) : fs_ok s -> kobj (store s) a = Some x -> obj (load a) s = Done x s.
Proof. intros Hok Hx. apply obj_read, load_done; [by eapply kobj_nonnull|done]. Qed.

Lemma obj_upd {T} `{!IsObj T} s n a (x : T) f :
  fs_ok s -> fs_room n s -> kobj (store s) a = Some x ->
  ∃ s', obj (upd a f) s = Done tt s' ∧ step [a] n s s' ∧ kobj (store s') a = Some (f x) ∧ f_mem s' = f_mem s ∧ live s' = live s.
Proof.
  intros Hok Hroom Hx. pose proof (kobj_nonnull _ _ _ Hok Hx) as H0.
  eexists. split; [by apply obj_done, upd_done|].
  split; [|split; [unfold store; cbn; apply kobj_insert_eq|done]].
  split; [|split; [|done..]|done].
  - apply kst_ok_set; [done|]. exact (kobj_Some _ _ _ Hx).
  - intros b Hb. unfold store. cbn. rewrite lookup_insert_ne; [done|set_solver].
Qed.

Lemma obj_alloc {T} `{!IsObj T} s n sz (x : T) :
  fs_ok s -> fs_room (S n) s -> 0 <= sz <= small_block ->
  ∃ p s', obj (kmalloc sz (to_obj x)) s = Done p s' ∧ step [p] n s s' ∧ live s !! p = None ∧
    kobj (store s') p = Some x ∧ f_mem s' = f_mem s.
Proof.
  intros Hok Hroom Hsz. pose proof Hok as (Ha & _).
  destruct (am_malloc_room _ _ _ Ha Hroom Hsz) as (p & a & Hm & Hp & Hroom').
  assert (Hsz' : 0 <= sz <= max_request) by (unfold small_block, max_request in *; lia).
  destruct (am_malloc_fresh _ _ _ _ Ha Hsz' Hm Hp) as (_ & k & ? & Hfresh & Hl & Hdis).
  destruct (kmalloc_ok sz (to_obj x) _ _ _ Hok Hsz' Hm Hp) as [Hn Hok'].
  eexists p, _. split; [apply obj_done; by apply kmalloc_done|].
  split; [split; [done|split; [| |done|done]|done]|split; [done|split; [|done]]]; unfold store, live; cbn.
  - intros b Hb. rewrite lookup_insert_ne; [done|set_solver].
  - intros b Hb. rewrite Hl, lookup_insert_ne; [done|set_solver].
  - apply kobj_insert_eq.
Qed.

(** The words of a block. *)
Lemma word_frame own s s' a k off :
  fs_ok s -> frame own s s' -> a ∉ own -> blk s a k -> 0 <= off -> off + 4 <= k ->
  word (f_mem s') (a + off) = word (f_mem s) (a + off).
Proof.
  intros Hok Hf Ha Hb Hoff Hk. pose proof (blk_range _ _ _ Hok Hb). pose proof am_base_pos.
  pose proof (blk_secure s a k own Hok Ha Hb) as Hsec.
  apply word_eq; [lia|lia|]. intros b Hbr. apply (fr_bytes _ _ _ Hf). replace b with (a + (b - a)) by lia.
  eapply secure_guarded; [done|lia].
Qed.

Lemma ldf_done s p off : p ≠ 0 -> ldf p off s = Done (word (f_mem s) (p + off)) s.
Proof. intros H0. unfold ldf. rewrite (proj2 (Z.eqb_neq _ _)) by done. by apply mem_read, load32_word. Qed.

Lemma rd_set_word a v m b : 0 <= a -> a + 4 <= 2 ^ 32 -> ¬ (a <= b < a + 4) -> rd (set_word a v m) b = rd m b.
Proof. intros. unfold set_word. by rewrite !rd_set_byte by lia. Qed.

Lemma stf_done s n p k off v :
  fs_ok s -> fs_room n s -> blk s p k -> 0 <= off -> off + 4 <= k ->
  ∃ s', stf p off v s = Done tt s' ∧ step [p] n s s' ∧ word (f_mem s') (p + off) = u32 v ∧
    (∀ b, ¬ (p + off <= b < p + off + 4) -> rd (f_mem s') b = rd (f_mem s) b) ∧ f_obj s' = f_obj s.
Proof.
  intros Hok Hroom Hb Hoff Hk. pose proof (blk_range _ _ _ Hok Hb). pose proof am_base_pos.
  exists (set_fmem (set_word (p + off) v (f_mem s)) s). split.
  { unfold stf. rewrite (proj2 (Z.eqb_neq _ _)) by lia. by apply mem_done, store32_word. }
  assert (∀ b, ¬ (p + off <= b < p + off + 4) -> rd (set_word (p + off) v (f_mem s)) b = rd (f_mem s) b) as Hout.
  { intros b Hbb. apply rd_set_word; lia. }
  split; [|split; [apply word_set_eq|split; [exact Hout|done]]].
  split; [done| |done]. split; [done|done| |done]. cbn. intros b Hg. apply Hout.
  destruct Hb as (_ & kp & Hl & ?). destruct Hg as [?|(q & kq & Hq & Hlq & ?)]; [lia|].
  pose proof (am_disjoint _ _ _ _ _ (proj1 Hok) Hl Hlq ltac:(set_solver)). lia.
Qed.

(** [strdup] *)
Lemma fstrdup_spec s n a l :
  fs_ok s -> fs_room (S n) s -> text [] s a l -> Z.of_nat (length l) + 1 <= small_block ->
  ∃ p s', fstrdup a s = Done p s' ∧ step [p] n s s' ∧ live s !! p = None ∧ str s' p l.
Proof.
  intros Hok Hroom [Hsec Hc] Hl. unfold small_block in Hl. unfold fstrdup.
  mstep (mem_read (strlen a) s _ (strlen_spec _ _ _ Hc ltac:(lia))).
  rewrite u32_small by lia.
  destruct (fmalloc_spec s n (Z.of_nat (length l) + 1) Hok Hroom) as (p & s1 & Hrun & Hok1 & Hr1 & Hp & Hb & Hm & Hf);
    [unfold small_block; lia|]. mstep Hrun.
  pose proof (blk_range _ _ _ Hok1 Hb) as (? & ? & Hp0). rewrite (proj2 (Z.eqb_neq _ _)) by done.
  pose proof am_base_pos.
  assert (Hc1 : cstr (f_mem s1) a l) by (by rewrite Hm).
  assert (Hsec1 : secure [p] s1 a (Z.of_nat (length l) + 1)).
  { eapply secure_frame; [exact Hf|]. destruct Hsec as (? & [?|(q & k & _ & Hq & ?)]); (split; [done|]); [by left|].
    right. exists q, k. split; [|done]. intros ->%list_elem_of_singleton. congruence. }
  assert (∃ d, mem (strcpy p a) s1 = Done p (set_fmem d s1) ∧ cstr d p l ∧ frame [p] s1 (set_fmem d s1)) as (d & Hcp & Hcd & Hfd).
  { destruct (secure_apart [p] s1 p _ (Z.of_nat (length l) + 1) _ _ Hok1 ltac:(set_solver) Hb ltac:(lia) Hsec1) as [Hd|Hd].
    all: destruct (strcpy_spec (f_mem s1) p a l Hc1 ltac:(lia)) as (d & Hcp & Hcd & Hfl); [apply ram_total; lia|lia|].
    all: exists d; split; [by apply mem_done|]; split; [done|]; eapply frame_fill; [done|done| | |exact Hfl]; lia. }
  mstep Hcp. exists p, (set_fmem d s1). split; [done|].
  split; [split; [done|by eapply frame_trans|done]|done].
Qed.
End frames.
