(* ===== verification/Vfs.v ===== *)
(** * The virtual file system (kernel/vfs.c)

    The dispatch of operations to a node's functions, the path
    canonicalizer, the mount tree and the opening of paths. The functions a
    file system puts into its nodes are called through [Drivers], by their
    address. *)

From S2P Require Import Prelude KHeap KList CString Fs Tree Printf.

(** ** Layout of the structures (kernel/includes/beryllium/vfs.h) *)

(** [struct vfs_node]: [name] at 0, then 32-bit fields *)
Definition N_type : Z := 256.
Definition N_flags : Z := 260.
Definition N_permissions : Z := 264.
Definition N_uid : Z := 268.
Definition N_gid : Z := 272.
Definition N_inode : Z := 276.
Definition N_length : Z := 280.
Definition N_read : Z := 292.
Definition N_write : Z := 296.
Definition N_open : Z := 300.
Definition N_close : Z := 304.
Definition N_ioctl : Z := 308.
Definition N_readdir : Z := 312.
Definition N_finddir : Z := 316.
Definition N_create : Z := 320.
Definition sizeof_node : Z := 328.

(** [struct vfs_entry] *)
Definition E_name : Z := 0.
Definition E_file : Z := 4.
Definition sizeof_entry : Z := 8.

(** [struct dirent] *)
Definition D_name : Z := 0.
Definition D_ino : Z := 128.
Definition sizeof_dirent : Z := 132.

Definition VFS_FILE : Z := Z.shiftl 1 0.
Definition VFS_DIRECTORY : Z := Z.shiftl 1 1.
Definition VFS_CHARDEVICE : Z := Z.shiftl 1 2.
Definition VFS_MOUNTPOINT : Z := Z.shiftl 1 6.
Definition VFS_PERMISSION_READ : Z := 0x01.
Definition VFS_PERMISSION_WRITE : Z := 0x02.
Definition PATH_SEPARATOR : Z := 47.

(** Where the linker puts the string constants. *)
Class Literals := {
  lit_root : Z; (** "[root]" *)
  lit_sep : Z; (** PATH_SEPARATOR_STRING *)
  lit_up : Z; (** PATH_UP *)
  lit_dot : Z; (** PATH_DOT *)
  lit_cwd : Z; (** "/", the working directory *)
  lit_fmt : Z (** "%s" *)
}.

(** The functions in a node, by address. *)
Class Drivers (AS : Type) := {
  call_read : Z -> Z -> Z -> Z -> Z -> M (fs AS) Z;
  call_write : Z -> Z -> Z -> Z -> Z -> M (fs AS) Z;
  call_open : Z -> Z -> Z -> M (fs AS) unit;
  call_close : Z -> Z -> M (fs AS) unit;
  call_ioctl : Z -> Z -> M (fs AS) unit;
  call_readdir : Z -> Z -> Z -> M (fs AS) Z;
  call_finddir : Z -> Z -> Z -> M (fs AS) Z;
  call_create : Z -> Z -> Z -> Z -> M (fs AS) unit
}.

Section vfs.
Context {AS : Type} `{!Allocator AS} `{!Literals}.
Local Abbreviation K := (M (fs AS)).

Definition vfs_init : K unit :=
  t ← obj tree_create;
  modify (set_vfs_tree t);;
  r ← fmalloc sizeof_entry;
  modify (set_vfs_root r);;
  nm ← fstrdup lit_root;
  stf r E_name nm;;
  stf r E_file 0;;
  t ← gets vfs_tree; r ← gets vfs_root;
  obj (tree_set_root t r).

(** *** Paths *)

(** [strtok_r(path, ...)] and [strtok_r(NULL, ...)] until it returns null,
    [step] on every token; [save] is not initialised. *)
Definition each_token (path : Z) (step : Z -> K unit) : K unit :=
  r ← mem (strtok_r path lit_sep am_junk);
  while word_fuel (λ '(pch, save),
    if pch =? 0 then mret (inr tt)
    else
      step pch;;
      r ← mem (strtok_r 0 lit_sep save);
      mret (inl r)) r.

(** A copy of the path element is pushed on the list. *)
Definition push_copy (out pch : Z) : K unit :=
  n ← mem (strlen pch);
  s ← fmalloc (u32 (n + 1));
  n ← mem (strlen pch);
  _ ← mem (memcpy s pch (u32 (n + 1)));
  _ ← obj (list_insert out s);
  mret tt.

(** [path = malloc(strlen(s) + 1); memcpy(path, s, strlen(s) + 1)] *)
Definition copy_path (str : Z) : K Z :=
  n ← mem (strlen str);
  path ← fmalloc (u32 (n + 1));
  n ← mem (strlen str);
  _ ← mem (memcpy path str (u32 (n + 1)));
  mret path.

(** One element of the new path: up, stay, or down. *)
Definition canon_step (out pch : Z) : K unit :=
  c ← mem (strcmp pch lit_up);
  if c =? 0 then
    n ← obj (list_pop out);
    if n =? 0 then mret tt
    else
      nd ← obj (load n);
      ffree (ln_value nd);;
      ffree n
  else
    c ← mem (strcmp pch lit_dot);
    if c =? 0 then mret tt else push_copy out pch.

(** The length of the joined path, and the join. *)
Definition joined_size (out : Z) : K Z :=
  r ← each_of (B := Z) out (λ size _ item,
    n ← mem (strlen (ln_value item));
    mret (inl (u32 (size + u32 (n + 1))))) 0;
  mret (match r with inl size | inr size => size end).

Definition join (out output : Z) : K unit :=
  _ ← each_of (B := Z) out (λ output_offset _ item,
    mem (store8 output_offset PATH_SEPARATOR);;
    let output_offset := u32 (output_offset + 1) in
    n ← mem (strlen (ln_value item));
    _ ← mem (memcpy output_offset (ln_value item) (u32 (n + 1)));
    n ← mem (strlen (ln_value item));
    mret (inl (u32 (output_offset + n)))) output;
  mret tt.

Definition canonicalize_path (cwd input : Z) : K Z :=
  out ← obj list_create;
  len ← mem (strlen input);
  c ← mem (load8 input);
  (if truth len && negb (c =? PATH_SEPARATOR) then
     path ← copy_path cwd;
     each_token path (push_copy out);;
     ffree path
   else mret tt);;
  path ← copy_path input;
  each_token path (canon_step out);;
  ffree path;;
  size ← joined_size out;
  output ← fmalloc (u32 (size + 1));
  output ← (if size =? 0 then
     output ← frealloc output 2;
     mem (store8 output PATH_SEPARATOR);;
     mem (store8 (u32 (output + 1)) 0);;
     mret output
   else join out output;; mret output);
  obj (list_destroy out);;
  obj (list_free out);;
  ffree out;;
  mret output.

(** *** The mount tree *)

(** [path] cut into strings at its separators; how many there were *)
Definition cut_path (p path_len : Z) : K Z :=
  r ← while word_fuel (λ '(i, n),
    if i <? p + path_len then
      c ← mem (load8 i);
      if c =? PATH_SEPARATOR then mem (store8 i 0);; mret (inl (i + 1, u32 (n + 1)))
      else mret (inl (i + 1, n))
    else mret (inr n)) (p, 0);
  mem (store8 (u32 (p + path_len)) 0);;
  mret r.

(** The child of [node] whose entry is called [at], null if there is none. *)
Definition find_child (node at_ : Z) : K Z :=
  nd ← obj (load node);
  r ← each_of (A := unit) (tn_children nd) (λ _ _ child,
    let tchild := ln_value child in
    tc ← obj (load tchild);
    name ← ldf (tn_value tc) E_name;
    c ← mem (strcmp name at_);
    mret (if c =? 0 then inr tchild else inl tt)) tt;
  mret (match r with inr tchild => tchild | inl _ => 0 end).

Definition make_child (node at_ : Z) : K Z :=
  ent ← fmalloc sizeof_entry;
  nm ← fstrdup at_;
  stf ent E_name nm;;
  stf ent E_file 0;;
  t ← gets vfs_tree;
  obj (tree_node_insert_child t node ent).

(** [if (ent->file) return 3; ent->file = local_root] *)
Definition set_file (ent local_root : Z) : K Z :=
  file ← ldf ent E_file;
  if file =? 0 then stf ent E_file local_root;; mret 0 else mret 3.

(** Down the tree along the names from [at_] to [lim], making the missing
    nodes. *)
Definition mount_walk (node at_ lim : Z) : K Z :=
  while word_fuel (λ '(node, at_),
    if lim <=? at_ then mret (inr node)
    else
      found ← find_child node at_;
      node ← (if found =? 0 then make_child node at_ else mret found);
      n ← mem (strlen at_);
      mret (inl (node, u32 (u32 (at_ + n) + 1)))) (node, at_).

Definition vfs_mount (path local_root : Z) : K Z :=
  t ← gets vfs_tree;
  if t =? 0 then mret 1
  else
  c ← (if path =? 0 then mret 0 else mem (load8 path));
  if (path =? 0) || negb (c =? PATH_SEPARATOR) then mret 2
  else
    p ← fstrdup path;
    path_len ← mem (strlen p);
    _ ← cut_path p path_len;
    let i := u32 (p + 1) in
    tr ← obj (load t);
    let root_node := t_root tr in
    c ← mem (load8 i);
    ret_val ← (if c =? 0 then
       rn ← obj (load root_node);
       r ← set_file (tn_value rn) local_root;
       (if r =? 0 then modify (set_vfs_root_node local_root) else mret tt);;
       mret r
     else
       node ← mount_walk root_node i (u32 (p + path_len));
       nd ← obj (load node);
       set_file (tn_value nd) local_root);
    ffree p;;
    mret ret_val.

(** [*outpath] and [*outdepth], the caller's locals, are passed and
    returned. *)
Record walk := Walk {
  w_node : Z; w_last : Z; w_at : Z; w_outpath : Z; w_depth : Z; w_tree_depth : Z
}.

(** [malloc(sizeof(vfs_node_t)); memcpy(clone, node, sizeof(vfs_node_t))] *)
Definition clone_node (node : Z) : K Z :=
  clone ← fmalloc sizeof_node;
  _ ← mem (memcpy clone node sizeof_node);
  mret clone.

(** the end of the last of [path_depth + 1] strings *)
Definition path_end (path path_depth : Z) : K Z :=
  while word_fuel (λ '(depth, path),
    if path_depth <? depth then mret (inr path)
    else
      n ← mem (strlen path);
      mret (inl (u32 (depth + 1), u32 (path + u32 (n + 1))))) (0, path).

Definition mount_step (path : Z) (w : walk) : K (walk + walk) :=
  if path <=? w_at w then mret (inr w)
  else
    tchild ← find_child (w_node w) (w_at w);
    if tchild =? 0 then mret (inr w)
    else
      n ← mem (strlen (w_at w));
      let at_ := u32 (u32 (w_at w + n) + 1) in
      tc ← obj (load tchild);
      file ← ldf (tn_value tc) E_file;
      let hit := negb (file =? 0) in
      mret (inl (Walk tchild (if hit then file else w_last w) at_
                   (if hit then at_ else w_outpath w) (s32 (w_depth w + 1))
                   (if hit then w_depth w else w_tree_depth w))).

Definition get_mount_point (path path_depth outpath : Z) : K (Z * Z * Z) :=
  path ← path_end path path_depth;
  last ← gets vfs_root_node;
  t ← gets vfs_tree;
  tr ← obj (load t);
  w ← while word_fuel (mount_step path) (Walk (t_root tr) last outpath outpath 1 0);
  if w_last w =? 0 then mret (0, w_outpath w, u32 (w_tree_depth w))
  else
    last_clone ← clone_node (w_last w);
    mret (last_clone, w_outpath w, u32 (w_tree_depth w)).
End vfs.

(** *** Dispatch to the functions of a node *)

Section dispatch.
Context {AS : Type} `{!Allocator AS} `{!Literals} `{!Drivers AS}.
Local Abbreviation K := (M (fs AS)).

Definition read_vfs (node offset size buffer : Z) : K Z :=
  f ← ldf node N_read;
  if f =? 0 then mret 0 else call_read f node offset size buffer.

Definition write_vfs (node offset size buffer : Z) : K Z :=
  f ← ldf node N_write;
  if f =? 0 then mret 0 else call_write f node offset size buffer.

Definition open_vfs (node flags : Z) : K unit :=
  f ← ldf node N_open;
  if f =? 0 then mret tt else call_open f node flags.

Definition ioctl_vfs (node : Z) : K unit :=
  f ← ldf node N_ioctl;
  if f =? 0 then mret tt else call_ioctl f node.

Definition close_vfs (node : Z) : K unit :=
  r ← gets vfs_root_node;
  if node =? r then mret tt
  else
    f ← ldf node N_close;
    if f =? 0 then mret tt else call_close f node.

Definition readdir_vfs (node index : Z) : K Z :=
  ty ← ldf node N_type;
  f ← ldf node N_readdir;
  if truth (Z.land ty VFS_DIRECTORY) && truth f then call_readdir f node index else mret 0.

Definition finddir_vfs (node name : Z) : K Z :=
  ty ← ldf node N_type;
  f ← ldf node N_finddir;
  if truth (Z.land ty VFS_DIRECTORY) && truth f then call_finddir f node name else mret 0.

(** The directories between the mount point and the file. *)
Definition open_step (path path_depth flags : Z) : Z * Z * Z -> K (Z * Z * Z + Z) :=
  λ '(node_ptr, path_offset, depth),
  if negb (depth <? path_depth) then ffree path;; mret (inr 0)
  else
    node_next ← finddir_vfs node_ptr path_offset;
    ffree node_ptr;;
    let node_ptr := node_next in
    if node_ptr =? 0 then ffree path;; mret (inr 0)
    else if depth =? u32 (path_depth - 1) then
      open_vfs node_ptr flags;; ffree path;; mret (inr node_ptr)
    else
      n ← mem (strlen path_offset);
      mret (inl (node_ptr, u32 (path_offset + u32 (n + 1)), u32 (depth + 1))).

Definition kopen (filename flags : Z) : K Z :=
  t ← gets vfs_tree;
  tr ← obj (load t);
  if (t_root tr =? 0) || (filename =? 0) then mret 0
  else
    path ← canonicalize_path lit_cwd filename;
    path_len ← mem (strlen path);
    if path_len =? 1 then
      root_clone ← fmalloc sizeof_node;
      r ← gets vfs_root_node;
      _ ← mem (memcpy root_clone r sizeof_node);
      ffree path;;
      mret root_clone
    else
      path_depth ← cut_path path path_len;
      node_ptr ← fmalloc sizeof_node;
      m ← get_mount_point path path_depth (u32 (path + 1));
      let '(mount_point, path_offset, depth) := m in
      if u32 (path + path_len) <=? path_offset then ffree path;; mret mount_point
      else
        _ ← mem (memcpy node_ptr mount_point sizeof_node);
        while word_fuel (open_step path path_depth flags) (node_ptr, path_offset, depth).

(** The start of the last element of the path. *)
Definition last_element (path : Z) : K Z :=
  n ← mem (strlen path);
  while word_fuel (λ f_path,
    if negb (path <? f_path) then mret (inr f_path)
    else
      c ← mem (load8 f_path);
      mret (if c =? PATH_SEPARATOR then inr (u32 (f_path + 1)) else inl (u32 (f_path - 1))))
    (u32 (u32 (path + n) - 1)).

(** [parent_path] is the whole path: it is never cut at the last element. *)
Definition create_file_vfs (name permission : Z) : K Z :=
  path ← canonicalize_path lit_cwd name;
  n ← mem (strlen path);
  parent_path ← fmalloc (u32 (n + 4));
  _ ← mem (sprintf parent_path lit_fmt [path]);
  f_path ← last_element path;
  parent ← kopen parent_path 0;
  ffree parent_path;;
  if parent =? 0 then mret (-1)
  else
    f ← ldf parent N_create;
    (if f =? 0 then mret tt else call_create f parent f_path permission);;
    ffree path;;
    ffree parent;;
    mret 0.
End dispatch.
