(* ===== verification/VfsPath.v ===== *)
(** * Canonical paths (kernel/vfs.c, canonicalize_path)

    What [canonicalize_path] computes, and that it gives back all the memory
    it takes but the block of its result. *)

From S2P Require Import Prelude Dll KHeap KList CString Ram Fs Tree Vfs.

(** ** Paths as sequences of names *)

Definition elements (l : list Z) : list (list Z) := words [47] [] l.

(** One element: [..] goes up, [.] stays, a name goes down. *)
Definition canon_elem (stack : list (list Z)) (w : list Z) : list (list Z) :=
  if bool_decide (w = [46; 46]) then take (length stack - 1) stack
  else if bool_decide (w = [46]) then stack
  else stack ++ [w].

Definition relative (input : list Z) : bool :=
  match input with [] => false | c :: _ => negb (c =? 47) end.
Definition canon (cwd input : list Z) : list (list Z) :=
  foldl canon_elem (if relative input then elements cwd else []) (elements input).

Definition joined (ws : list (list Z)) : list Z := concat ((λ w, 47 :: w) <$> ws).
Definition render (ws : list (list Z)) : list Z := match ws with [] => [47] | _ => joined ws end.

Lemma joined_snoc ws w : joined (ws ++ [w]) = joined ws ++ 47 :: w.
Proof. unfold joined. rewrite fmap_app, concat_app. cbn. by rewrite app_nil_r. Qed.

(** Every word takes characters of its own. *)
Lemma words_size ds cur l :
  (length (concat (words ds cur l)) + length (words ds cur l) <= length cur + length l + 1)%nat.
Proof.
  revert cur. induction l as [|x l IH]; intros cur; cbn.
  - destruct cur; cbn; rewrite ?length_app; cbn; lia.
  - destruct (in_set ds x).
    + destruct cur as [|c cur]; [etrans; [apply IH|cbn; lia]|].
      pose proof (IH []) as H. cbn in *. rewrite length_app. lia.
    + pose proof (IH (cur ++ [x])) as H. rewrite length_app in H. cbn in *. lia.
Qed.

Lemma length_joined ws : length (joined ws) = (length (concat ws) + length ws)%nat.
Proof.
  unfold joined. induction ws as [|w ws IH]; [done|]. cbn. rewrite !length_app, IH. cbn. lia.
Qed.

Lemma canon_elem_size stack w :
  (length (joined (canon_elem stack w)) <= length (joined stack) + length w + 1)%nat.
Proof.
  unfold canon_elem. repeat case_bool_decide; [|lia|].
  - rewrite !length_joined, length_take.
    pose proof (f_equal (λ x, length (concat x)) (take_drop (length stack - 1) stack)) as Hlen.
    cbv beta in Hlen. rewrite concat_app, length_app in Hlen. lia.
  - rewrite joined_snoc, length_app. cbn. lia.
Qed.

Lemma canon_fold_size ws stack :
  (length (joined (foldl canon_elem stack ws)) <= length (joined stack) + length (concat ws) + length ws)%nat.
Proof.
  revert stack. induction ws as [|w ws IH]; intros stack; cbn [foldl concat length]; [lia|].
  etrans; [apply IH|]. pose proof (canon_elem_size stack w). rewrite (length_app w). lia.
Qed.

Lemma canon_size cwd input : (length (joined (canon cwd input)) <= length cwd + length input + 2)%nat.
Proof.
  unfold canon. etrans; [apply canon_fold_size|].
  pose proof (words_size [47] [] input). pose proof (words_size [47] [] cwd).
  rewrite length_joined. unfold elements in *. cbn [length] in *. case_match; cbn [concat length]; lia.
Qed.

(** ** Memory *)

(** The characters [l] at [a], not necessarily terminated. *)
Definition chars (m : ram) (a : Z) (l : list Z) : Prop :=
  ∀ i x, l !! i = Some x -> 0 < x < 256 ∧ rd m (a + Z.of_nat i) = Some x.

Lemma chars_cstr m a l l2 : 0 <= a -> chars m a l -> cstr m (a + Z.of_nat (length l)) l2 -> cstr m a (l ++ l2).
Proof.
  revert a. induction l as [|x l IH]; intros a Ha Hl H2.
  - cbn in H2. by rewrite Z.add_0_r in H2.
  - cbn [app cstr]. destruct (Hl 0%nat x eq_refl) as [? Hx]. rewrite Z.add_0_r in Hx.
    split; [done|]. split; [done|]. split; [done|]. apply IH; [lia| |].
    + intros i y Hy. destruct (Hl (S i) y Hy) as [? Hy']. split; [done|]. rewrite <- Hy'. f_equal. lia.
    + cbn in H2. by replace (a + 1 + Z.of_nat (length l)) with (a + Z.of_nat (S (length l))) by lia.
Qed.

Lemma cstr_app_chars m a l : cstr m a l -> chars m a l.
Proof.
  revert a. induction l as [|x l IH]; intros a; cbn [cstr]; [done|]. intros (? & Hx & ? & Hl) i y Hy.
  destruct i as [|i]; cbn in Hy.
  - injection Hy as ->. by rewrite Z.add_0_r.
  - destruct (IH _ Hl i y Hy) as [? Hr]. split; [done|]. rewrite <- Hr. f_equal. lia.
Qed.

Section steps.
Context {AS : Type} `{!Allocator AS} `{!Literals}.
Implicit Types (s : fs AS) (own : list Z) (ns : list (Z * Z)).

Lemma fs_room_le n m s : (m <= n)%nat -> fs_room n s -> fs_room m s.
Proof. intros Hle. induction Hle as [|n Hle IH]; [done|]. intros Hr. by apply IH, am_room_S. Qed.

(** *** What is owned since [s0]

    Everything at [own] was allocated after [s0], and nothing else has
    changed. *)
Record owns s0 own s : Prop := {
  ow_ok : fs_ok s;
  ow_frame : frame own s0 s;
  ow_fresh a : a ∈ own -> live s0 !! a = None
}.

Lemma owns_refl s : fs_ok s -> owns s [] s.
Proof. split; [done..|set_solver]. Qed.

Lemma owns_step s0 own s s' : fs_ok s' -> frame own s s' -> owns s0 own s -> owns s0 own s'.
Proof. intros Hok Hf [? ? ?]. split; [done|by eapply frame_trans|done]. Qed.

Lemma owns_new s0 own s a : owns s0 own s -> live s !! a = None -> live s0 !! a = None.
Proof.
  intros [_ Hf Hfr] Ha. destruct (decide (a ∈ own)); [auto|]. by rewrite <- (fr_live _ _ _ Hf).
Qed.

Lemma owns_alloc s0 own s s' p :
  fs_ok s' -> live s !! p = None -> frame (p :: own) s s' -> owns s0 own s -> owns s0 (p :: own) s'.
Proof.
  intros Hok Hp Hf Ho. pose proof (owns_new _ _ _ _ Ho Hp). destruct Ho as [? Hf0 Hfr].
  split; [done| |].
  - eapply frame_trans; [|done]. eapply frame_mono; [|done]. set_solver.
  - intros a. rewrite elem_of_cons. intros [->|?]; auto.
Qed.

Lemma owns_free s0 own own' s s' :
  fs_ok s0 -> fs_ok s' -> frame own s s' -> (∀ a, a ∈ own' -> a ∈ own) ->
  (∀ a, a ∈ own -> a ∈ own' ∨ live s' !! a = None) -> owns s0 own s -> owns s0 own' s'.
Proof.
  intros Hok0 Hok Hf Hsub Hgone [? Hf0 Hfr]. split; [done| |auto].
  eapply (frame_shrink own); [done|done| |by eapply frame_trans].
  intros a Ha. destruct (Hgone a Ha); auto.
Qed.

Lemma owns_own s0 own own' s : (∀ a, a ∈ own <-> a ∈ own') -> owns s0 own s -> owns s0 own' s.
Proof.
  intros Heq [? Hf Hfr]. split; [done| |naive_solver]. eapply frame_mono; [|done]. naive_solver.
Qed.

(** *** Lists in the store *)

Lemma list_live s l ns : fs_ok s -> list_rep (store s) l ns ->
  live s !! l ≠ None ∧ ∀ a, a ∈ ns.*1 -> live s !! a ≠ None.
Proof.
  intros Hok Hrep. assert (∀ a, is_Some (store s !! a) -> live s !! a ≠ None) as Hlv.
  { intros a Ha Hn. rewrite (store_live _ _ Hok Hn) in Ha. by destruct Ha. }
  split; [apply Hlv; exact (kobj_Some _ _ _ (rep_obj _ _ _ Hrep))|]. intros a Ha. apply Hlv.
  destruct (list_rep_node _ _ _ _ Hrep Ha) as (nd & Hnd & _). exact (kobj_Some _ _ _ Hnd).
Qed.

Lemma list_stable own s s' l ns :
  frame own s s' -> l ∉ own -> (∀ a, a ∈ ns.*1 -> a ∉ own) ->
  list_rep (store s) l ns -> list_rep (store s') l ns.
Proof.
  intros Hf Hl Hns. apply list_rep_frame; [by apply (fr_store _ _ _ Hf)|].
  intros a Ha. apply (fr_store _ _ _ Hf). auto.
Qed.

(** A store that only changed at [l] and the nodes of the list. *)
Lemma frame_hframe fp s h' : hframe fp (store s) h' -> frame fp s (set_obj (set_heap h' (f_obj s)) s).
Proof. intros [F _]. split; [|done..]. intros a Ha. by apply F. Qed.

Lemma insert_spec s l ns v n :
  fs_ok s -> fs_room (S n) s -> list_rep (store s) l ns ->
  ∃ a s', obj (list_insert l v) s = Done a s' ∧ fs_ok s' ∧ fs_room n s' ∧
    list_rep (store s') l (ns ++ [(a, v)]) ∧ live s !! a = None ∧ f_mem s' = f_mem s ∧
    frame (a :: l :: ns.*1) s s'.
Proof.
  intros Hok Hroom Hrep. pose proof Hok as (Ha & _).
  destruct (am_malloc_room _ _ 12 Ha Hroom) as (p & al & Hm & Hp & Hroom'); [unfold small_block; lia|].
  destruct (am_malloc_fresh _ 12 _ _ Ha ltac:(unfold max_request; lia) Hm Hp) as (_ & k & _ & Hfresh & Hl & _).
  destruct (list_insert_spec _ _ _ v _ _ Hok Hrep Hm Hp) as (h' & Hrun & Hrep' & Hok' & Hnone & Hout).
  exists p. eexists. split; [by apply obj_done|]. split; [done|]. split; [done|]. split; [done|].
  split; [done|]. split; [done|]. split; [| |done|done].
  - intros a Hnot. apply Hout. set_solver.
  - intros a Hnot. unfold live. cbn. rewrite Hl, lookup_insert_ne; [done|set_solver].
Qed.

Lemma create_spec s n :
  fs_ok s -> fs_room (S n) s ->
  ∃ l s', obj list_create s = Done l s' ∧ fs_ok s' ∧ fs_room n s' ∧ list_rep (store s') l [] ∧
    live s !! l = None ∧ f_mem s' = f_mem s ∧ frame [l] s s'.
Proof.
  intros Hok Hroom. pose proof Hok as (Ha & _).
  destruct (am_malloc_room _ _ 12 Ha Hroom) as (p & al & Hm & Hp & Hroom'); [unfold small_block; lia|].
  destruct (am_malloc_fresh _ 12 _ _ Ha ltac:(unfold max_request; lia) Hm Hp) as (_ & k & _ & Hfresh & Hl & _).
  destruct (list_create_spec _ _ _ Hok Hm Hp) as (Hrun & Hrep & Hok' & Hnone).
  exists p. eexists. split; [by apply obj_done|]. split; [done|]. split; [done|]. split; [done|].
  split; [done|]. split; [done|]. split; [| |done|done].
  - intros a Hnot. unfold store. cbn. rewrite lookup_insert_ne; [done|set_solver].
  - intros a Hnot. unfold live. cbn. rewrite Hl, lookup_insert_ne; [done|set_solver].
Qed.

Lemma pop_spec s l ns a v :
  fs_ok s -> list_rep (store s) l (ns ++ [(a, v)]) ->
  ∃ s', obj (list_pop l) s = Done a s' ∧ fs_ok s' ∧ (∀ n, fs_room n s -> fs_room n s') ∧
    list_rep (store s') l ns ∧ kobj (store s') a = Some (ListNode 0 0 v) ∧ f_mem s' = f_mem s ∧
    live s' = live s ∧ frame (l :: (ns ++ [(a, v)]).*1) s s'.
Proof.
  intros Hok Hrep. destruct (list_pop_spec _ _ _ _ _ Hrep) as (h' & Hrun & Hrep' & Ha & Hfr).
  eexists. split; [by apply obj_done|]. split; [by eapply hframe_kst_ok|]. split; [done|].
  split; [done|]. split; [done|]. split; [done|]. split; [done|]. by apply frame_hframe.
Qed.

(** *** Tokens *)

Lemma strtok_step s str save l a :
  (if str =? 0 then save else str) = a -> cstr (f_mem s) a l -> a ≠ 0 -> cstr (f_mem s) lit_sep [47] ->
  match elements l with
  | [] => ∃ z, mem (strtok_r str lit_sep save) s = Done (0, z) s
  | w :: ws => ∃ d token save' l', mem (strtok_r str lit_sep save) s = Done (token, save') (set_fmem d s) ∧
      cstr d token w ∧ cstr d save' l' ∧ ws = elements l' ∧ a <= token ∧
      token + Z.of_nat (length w) <= a + Z.of_nat (length l) ∧ a <= save' ∧
      save' + Z.of_nat (length l') = a + Z.of_nat (length l) ∧ (length l' < length l)%nat ∧
      ∀ b, ¬ (a <= b < a + Z.of_nat (length l)) -> rd d b = rd (f_mem s) b
  end.
Proof.
  intros <- Hl Ha Hds. pose proof (strtok_r_spec (f_mem s) str lit_sep save [47] l Hl Ha Hds) as Htr.
  cbv zeta in Htr. unfold elements. rewrite words_step. cbv zeta.
  set (a := if str =? 0 then save else str) in *.
  set (k := span (in_set [47]) l) in *. set (rest := drop k l) in *. set (t := span _ rest) in *.
  assert (Hk : (k <= length l)%nat) by apply span_le.
  assert (Hlr : length rest = (length l - k)%nat) by apply length_drop.
  assert (Ht : (t <= length rest)%nat) by apply span_le.
  destruct rest as [|x r] eqn:Hrest.
  - eexists. apply mem_read. exact Htr.
  - rewrite <- Hrest in *. destruct Htr as (d & save' & Hrun & Htok & Hrem & ? & ? & Hend & Hout & _).
    assert (length rest ≠ 0%nat) by (by rewrite Hrest).
    exists d, (a + Z.of_nat k), save', (drop (S t) rest). split; [by apply mem_done|].
    rewrite length_take, length_drop in *.
    split; [done|]. split; [done|]. split; [done|]. split; [lia|]. split; [lia|]. split; [lia|].
    split; [lia|]. split; [lia|]. intros b Hb. apply Hout. lia.
Qed.

(** The token loop, for a step that leaves the path alone: [I ws] says what
    holds when the words [ws] have been dealt with. *)
Lemma each_token_spec (step : Z -> M (fs AS) unit) (I : list (list Z) -> fs AS -> Prop) path l :
  path ≠ 0 ->
  (∀ ws s, I ws s -> cstr (f_mem s) lit_sep [47]) ->
  (∀ ws s d, I ws s -> (∀ b, ¬ (path <= b < path + Z.of_nat (length l)) -> rd d b = rd (f_mem s) b) ->
    I ws (set_fmem d s)) ->
  (∀ ws w pch s, I ws s -> (length ws < length l)%nat -> cstr (f_mem s) pch w -> path <= pch ->
    pch + Z.of_nat (length w) <= path + Z.of_nat (length l) ->
    ∃ s', step pch s = Done tt s' ∧ I (ws ++ [w]) s' ∧
      ∀ b, path <= b <= path + Z.of_nat (length l) -> rd (f_mem s') b = rd (f_mem s) b) ->
  ∀ s, I [] s -> cstr (f_mem s) path l ->
    ∃ s', each_token path step s = Done tt s' ∧ I (elements l) s'.
Proof.
  intros Hpath Hsep Hmem Hstep s HI Hc. pose proof (cstr_range _ _ _ Hc) as [? ?].
  set (body := λ '(pch, save), if pch =? 0 then mret (inr tt)
    else step pch;; r ← mem (strtok_r 0 lit_sep save); mret (inl r) : M (fs AS) (Z * Z + unit)).
  assert (∀ n rest str save ws s, (length rest < n)%nat -> I ws s ->
    let a := if str =? 0 then save else str in
    (length ws + length rest <= length l)%nat -> cstr (f_mem s) a rest -> path <= a ->
    a + Z.of_nat (length rest) = path + Z.of_nat (length l) ->
    ∃ r s1 s' k, mem (strtok_r str lit_sep save) s = Done r s1 ∧ runs body k r s1 tt s' ∧
      (k <= length rest + 1)%nat ∧ I (ws ++ elements rest) s') as Hgo.
  { intros n. induction n as [|n IH]; intros rest str save ws s1 Hn HI1 a Hws Hca Hpa Hend; [lia|].
    pose proof (strtok_step s1 str save rest a eq_refl Hca ltac:(lia) (Hsep _ _ HI1)) as Htok.
    destruct (elements rest) as [|w ws'] eqn:Hel.
    - destruct Htok as [z Hz]. exists (0, z), s1, s1, 1%nat. rewrite app_nil_r.
      split; [done|]. split; [by constructor|]. split; [lia|done].
    - destruct Htok as (d & token & save' & l' & Hrun & Hw & Hl' & Hws' & ? & ? & ? & Hend' & Hlt & Hout).
      assert (HI2 : I ws (set_fmem d s1)) by (apply Hmem; [done|]; intros b Hb; apply Hout; lia).
      destruct (Hstep ws w token (set_fmem d s1)) as (s2 & Hrun2 & HI3 & Hkeep); [done|lia|done|lia|lia|].
      destruct (IH l' 0 save' (ws ++ [w]) s2) as (r & s3 & s4 & k & Hr & Hruns & Hk & HI4);
        [lia|done|rewrite length_app; cbn; lia| |cbn; lia|cbn; lia|].
      { cbn. eapply cstr_frame; [|exact Hl']. intros i Hi. apply Hkeep. lia. }
      exists (token, save'), (set_fmem d s1), s4, (S k). split; [done|]. split; [|split; [lia|]].
      + eapply runs_step; [|exact Hruns]. unfold body. rewrite (proj2 (Z.eqb_neq _ _)) by lia.
        mstep Hrun2. by mstep Hr.
      + rewrite Hws'. by rewrite <- app_assoc in HI4. }
  destruct (Hgo (S (length l)) l path am_junk [] s) as (r & s1 & s' & k & Hr & Hruns & Hk & HI');
    [lia|done|cbn; lia|by rewrite (proj2 (Z.eqb_neq _ _)) by done|rewrite (proj2 (Z.eqb_neq _ _)) by done; lia..|].
  exists s'. split; [|done]. unfold each_token. mstep Hr.
  apply (runs_while _ _ _ _ _ _ _ Hruns). pose proof word_fuel_Z. lia.
Qed.

(** *** The string constants *)

Definition static_text s (a : Z) (l : list Z) : Prop :=
  0 <= a ∧ a + Z.of_nat (length l) + 1 <= am_base ∧ cstr (f_mem s) a l.
Record literals_ok s : Prop := {
  lo_sep : static_text s lit_sep [47];
  lo_up : static_text s lit_up [46; 46];
  lo_dot : static_text s lit_dot [46];
  lo_cwd : static_text s lit_cwd [47]
}.

Lemma static_frame own s s' a l : frame own s s' -> static_text s a l -> static_text s' a l.
Proof.
  intros Hf (? & ? & Hc). split; [done|]. split; [done|]. eapply cstr_stable; [done| |done].
  split; [done|]. left. lia.
Qed.

Lemma literals_frame own s s' : frame own s s' -> literals_ok s -> literals_ok s'.
Proof. intros Hf [? ? ? ?]. split; by eapply static_frame. Qed.

Lemma secure_fresh own s a n p : live s !! p = None -> secure own s a n -> secure (p :: own) s a n.
Proof.
  intros Hp (? & [?|(q & k & Hq & Hl & ?)]); (split; [done|]); [by left|]. right. exists q, k.
  split; [|done]. rewrite not_elem_of_cons. split; [congruence|done].
Qed.

(** *** The stack of names *)

(** The list [out] holds copies of the names [ws]; apart from the list, its
    nodes and the copies, only the blocks [ext] are owned. *)
Record stack_rep s0 ext out n ws ns s : Prop := {
  sr_owns : owns s0 (ext ++ out :: ns.*1 ++ ns.*2) s;
  sr_list : list_rep (store s) out ns;
  sr_strs : Forall2 (str s) ns.*2 ws;
  sr_nodup : NoDup ns.*2;
  sr_ext p : p ∈ ext -> store s !! p = Some (OData []);
  sr_apart v : v ∈ ns.*2 -> v ∉ ext;
  sr_room : fs_room n s;
  sr_lits : literals_ok s
}.
Definition stacked s0 ext out n ws s : Prop := ∃ ns, stack_rep s0 ext out n ws ns s.

(** The contents of the blocks [ext] are the same in [s']. *)
Definition ext_same (ext : list Z) s s' : Prop :=
  ∀ q k, q ∈ ext -> live s !! q = Some k ->
    live s' !! q = Some k ∧ ∀ b, q <= b < q + k -> rd (f_mem s') b = rd (f_mem s) b.

Lemma ext_same_refl ext s : ext_same ext s s.
Proof. by intros q k Hq Hl. Qed.
#[local] Hint Resolve ext_same_refl : core.

Lemma ext_same_trans ext s1 s2 s3 : ext_same ext s1 s2 -> ext_same ext s2 s3 -> ext_same ext s1 s3.
Proof.
  intros H12 H23 q k Hq Hl. destruct (H12 _ _ Hq Hl) as [Hl2 Hb2]. destruct (H23 _ _ Hq Hl2) as [Hl3 Hb3].
  split; [done|]. intros b Hb. by rewrite Hb3, Hb2.
Qed.

Lemma ext_same_frame ext own s s' : (∀ q, q ∈ ext -> q ∉ own) -> frame own s s' -> ext_same ext s s'.
Proof.
  intros Hd Hf q k Hq Hl. split; [rewrite (fr_live _ _ _ Hf); auto|]. intros b Hb.
  apply (fr_bytes _ _ _ Hf). right. exists q, k. auto.
Qed.

Lemma stack_str s0 ext out n ws ns s v : stack_rep s0 ext out n ws ns s -> v ∈ ns.*2 ->
  store s !! v = Some (OData []).
Proof.
  intros Hr [i Hi]%list_elem_of_lookup.
  destruct (Forall2_lookup_l _ _ _ _ _ (sr_strs _ _ _ _ _ _ _ Hr) Hi) as (w & _ & [[Hs _] _]). done.
Qed.

Lemma strs_frame own s s' vs ws :
  fs_ok s -> frame own s s' -> (∀ v, v ∈ vs -> v ∉ own) -> Forall2 (str s) vs ws -> Forall2 (str s') vs ws.
Proof.
  intros Hok Hf Hd Hs. induction Hs as [|v w vs ws Hv Hs IH]; constructor.
  - eapply str_frame; [done| |done|done]. apply Hd. set_solver.
  - apply IH. intros u Hu. apply Hd. set_solver.
Qed.

(** Bytes are not list structure. *)
Lemma stack_data_ne s0 ext out n ws ns s v :
  stack_rep s0 ext out n ws ns s -> store s !! v = Some (OData []) -> v ≠ out ∧ v ∉ ns.*1.
Proof.
  intros Hr Hv. pose proof (sr_list _ _ _ _ _ _ _ Hr) as Hrep. split.
  - intros ->. pose proof (rep_obj _ _ _ Hrep) as Ho. unfold kobj in Ho. by rewrite Hv in Ho.
  - intros Hin. destruct (list_rep_node _ _ _ _ Hrep Hin) as (nd & Hnd & _).
    unfold kobj in Hnd. by rewrite Hv in Hnd.
Qed.

Lemma stack_live s0 ext out n ws ns s a :
  stack_rep s0 ext out n ws ns s -> live s !! a = None ->
  a ∉ ext ∧ a ≠ out ∧ a ∉ ns.*1 ∧ a ∉ ns.*2.
Proof.
  intros Hr Ha. pose proof (store_live _ _ (ow_ok _ _ _ (sr_owns _ _ _ _ _ _ _ Hr)) Ha) as Hs.
  destruct (list_live _ _ _ (ow_ok _ _ _ (sr_owns _ _ _ _ _ _ _ Hr)) (sr_list _ _ _ _ _ _ _ Hr)) as [Ho Hn].
  split_and!.
  - intros Hin. by rewrite (sr_ext _ _ _ _ _ _ _ Hr _ Hin) in Hs.
  - by intros ->.
  - intros Hin. by apply (Hn a Hin).
  - intros Hin. by rewrite (stack_str _ _ _ _ _ _ _ _ Hr Hin) in Hs.
Qed.

(** A step that touches none of the structure. *)
Lemma stack_step s0 ext ext' out n n' ws ns s s' own :
  stack_rep s0 ext out n ws ns s -> frame own s s' -> (∀ a, a ∈ own -> a ∉ out :: ns.*1 ++ ns.*2) ->
  owns s0 (ext' ++ out :: ns.*1 ++ ns.*2) s' -> (∀ p, p ∈ ext' -> store s' !! p = Some (OData [])) ->
  (∀ v, v ∈ ns.*2 -> v ∉ ext') -> fs_room n' s' -> stack_rep s0 ext' out n' ws ns s'.
Proof.
  intros Hr Hf Hown Ho Hext Hap Hroom. pose proof Hr as [[Hok _ _] Hl Hs Hnd _ _ _ Hlit].
  split; [done| | |done|done|done|done|by eapply literals_frame].
  - eapply list_stable; [done|..|done].
    + intros Hin. specialize (Hown _ Hin). set_solver.
    + intros a Ha Hin. specialize (Hown _ Hin). set_solver.
  - eapply strs_frame; [done|done| |done]. intros v Hv Hin. specialize (Hown _ Hin). set_solver.
Qed.

(** Taking a block of bytes. *)
Lemma stack_alloc s0 ext out n ws ns s sz :
  stack_rep s0 ext out (S n) ws ns s -> 0 <= sz <= small_block ->
  ∃ p s', fmalloc sz s = Done p s' ∧ stack_rep s0 (p :: ext) out n ws ns s' ∧ blk s' p sz ∧
    live s !! p = None ∧ f_mem s' = f_mem s ∧ frame [p] s s'.
Proof.
  intros Hr Hsz. pose proof Hr as [Ho Hl Hs Hnd Hext Hap Hroom Hlit].
  destruct (fmalloc_spec s n sz (ow_ok _ _ _ Ho) Hroom Hsz) as (p & s' & Hrun & Hok' & Hroom' & Hp & Hb & Hm & Hf).
  destruct (stack_live _ _ _ _ _ _ _ _ Hr Hp) as (H1 & H2 & H3 & H4).
  exists p, s'. split; [done|]. split; [|done].
  apply (stack_step s0 ext _ _ (S n) _ _ _ s s' [p]); [done|done|set_solver| | |set_solver|done].
  - cbn. eapply owns_alloc; [done|done| |done]. eapply frame_mono; [|done]. set_solver.
  - intros q. rewrite elem_of_cons. intros [->|Hq]; [apply Hb|].
    rewrite (fr_store _ _ _ Hf) by set_solver. by apply Hext.
Qed.

(** Writing to the bytes of an owned block. *)
Lemma stack_write s0 ext out n ws ns s p d :
  stack_rep s0 ext out n ws ns s -> p ∈ ext -> frame [p] s (set_fmem d s) ->
  stack_rep s0 ext out n ws ns (set_fmem d s).
Proof.
  intros Hr Hp Hf. pose proof Hr as [Ho Hl Hs Hnd Hext Hap Hroom Hlit].
  pose proof (Hext _ Hp) as Hd. destruct (stack_data_ne _ _ _ _ _ _ _ _ Hr Hd) as [? ?].
  apply (stack_step s0 ext _ _ n _ _ _ s _ [p]); [done|done| | |done|done|done].
  - intros a. rewrite list_elem_of_singleton. intros ->. rewrite elem_of_cons, elem_of_app.
    intros [?|[?|Hv]]; [done..|]. by apply (Hap _ Hv).
  - eapply owns_step; [apply fs_ok_mem, Ho| |done]. eapply frame_mono; [|done]. set_solver.
Qed.

(** Giving an owned block back. *)
Lemma stack_free s0 ext out n ws ns s p :
  fs_ok s0 -> stack_rep s0 (p :: ext) out n ws ns s -> p ∉ ext ->
  ∃ s', ffree p s = Done tt s' ∧ stack_rep s0 ext out n ws ns s' ∧ frame [p] s s' ∧ f_mem s' = f_mem s.
Proof.
  intros Hok0 Hr Hp. pose proof Hr as [Ho Hl Hs Hnd Hext Hap Hroom Hlit].
  pose proof (Hext p ltac:(set_solver)) as Hd.
  destruct (stack_data_ne _ _ _ _ _ _ _ _ Hr Hd) as [? ?].
  assert (p ∉ ns.*2) by (intros Hv; apply (Hap _ Hv); set_solver).
  destruct (ffree_spec s p _ (ow_ok _ _ _ Ho) Hd) as (s' & Hrun & Hok' & Hroom' & Hgone & Hm & Hf).
  exists s'. split; [done|]. split; [|done].
  apply (stack_step s0 (p :: ext) _ _ n _ _ _ s _ [p]); [done|done|set_solver| | |set_solver|auto].
  - eapply (owns_free s0 ((p :: ext) ++ out :: ns.*1 ++ ns.*2)); [done|done| |set_solver| |done].
    + eapply frame_mono; [|done]. set_solver.
    + intros a. cbn. rewrite elem_of_cons. intros [->|?]; [by right|by left].
  - intros q Hq. rewrite (fr_store _ _ _ Hf) by set_solver. apply Hext. set_solver.
Qed.

(** *** The steps of the canonicalizer *)

Lemma strlen_done s a l : cstr (f_mem s) a l -> Z.of_nat (length l) < 2 ^ 31 ->
  mem (strlen a) s = Done (Z.of_nat (length l)) s.
Proof. intros. apply mem_read. by apply strlen_spec. Qed.

Lemma u32_len (l : list Z) : Z.of_nat (length l) + 1 <= small_block -> u32 (Z.of_nat (length l) + 1) = Z.of_nat (length l) + 1.
Proof. intros. apply u32_small. unfold small_block in *. lia. Qed.

(** A copy of a string in a block of its own. *)
Lemma copy_path_spec s0 ext out n ws ns s a l :
  stack_rep s0 ext out (S n) ws ns s -> text [] s a l -> Z.of_nat (length l) + 1 <= small_block ->
  ∃ p s', copy_path a s = Done p s' ∧ stack_rep s0 (p :: ext) out n ws ns s' ∧ str s' p l ∧ p ∉ ext ∧
    live s !! p = None ∧ frame [p] s s'.
Proof.
  intros Hr Ht Hl. pose proof Ht as [Hsec Hc]. unfold small_block in Hl.
  unfold copy_path. mstep (strlen_done _ _ _ Hc ltac:(lia)). rewrite (u32_len l) by done.
  destruct (stack_alloc _ _ _ _ _ _ _ (Z.of_nat (length l) + 1) Hr) as (p & s1 & Hrun & Hr1 & Hb & Hp & Hm & Hf);
    [unfold small_block; lia|]. mstep Hrun.
  assert (Ht1 : text [p] s1 a l).
  { apply (text_frame [p] [p] s s1); [done|done|]. split; [by apply secure_fresh|done]. }
  destruct Ht1 as [Hsec1 Hc1]. mstep (strlen_done _ _ _ Hc1 ltac:(lia)). rewrite (u32_len l) by done.
  destruct (copy_string s1 p _ a l (ow_ok _ _ _ (sr_owns _ _ _ _ _ _ _ Hr1)) Hb) as (d & Hrun2 & Hc2 & Hf2); [lia|done|].
  mstep Hrun2. exists p, (set_fmem d s1). split; [done|].
  destruct (stack_live _ _ _ _ _ _ _ _ Hr Hp) as (? & _).
  split; [apply (stack_write _ _ _ _ _ _ _ p); [done|set_solver|done]|].
  split; [done|]. split; [done|]. split; [done|by eapply frame_trans].
Qed.

Lemma push_copy_spec s0 ext out n ws ns s pch w :
  stack_rep s0 ext out (S (S n)) ws ns s -> text [] s pch w -> Z.of_nat (length w) + 1 <= small_block ->
  ∃ s' a p, push_copy out pch s = Done tt s' ∧ stack_rep s0 ext out n (ws ++ [w]) (ns ++ [(a, p)]) s' ∧
    ext_same ext s s'.
Proof.
  intros Hr Ht Hw. pose proof (copy_path_spec _ _ _ _ _ _ _ _ _ Hr Ht Hw) as (p & s1 & Hrun & Hr1 & Hstr & Hpe & Hp & Hf).
  pose proof Hr1 as [Ho Hl Hs Hnd Hext Hap Hroom Hlit].
  destruct (insert_spec s1 out ns p n (ow_ok _ _ _ Ho) Hroom Hl) as (a & s2 & Hins & Hok2 & Hroom2 & Hl2 & Ha & Hm & Hf2).
  destruct (stack_live _ _ _ _ _ _ _ _ Hr1 Ha) as (Ha1 & Ha2 & Ha3 & Ha4).
  destruct (stack_live _ _ _ _ _ _ _ _ Hr Hp) as (Hp1 & Hp2 & Hp3 & Hp4).
  assert (Hpa : p ≠ a) by (intros ->; set_solver).
  assert (Hdata : ∀ v, store s1 !! v = Some (OData []) -> v ∉ a :: out :: ns.*1).
  { intros v Hv. destruct (stack_data_ne _ _ _ _ _ _ _ _ Hr1 Hv). rewrite !not_elem_of_cons. split; [|done].
    intros ->. by rewrite (store_live _ _ (ow_ok _ _ _ Ho) Ha) in Hv. }
  exists s2, a, p. split; [|split; [split|]].
  - unfold push_copy. unfold copy_path in Hrun.
    apply bind_inv in Hrun as (k & s3 & E1 & Hrun). mstep E1.
    apply bind_inv in Hrun as (q & s4 & E2 & Hrun). mstep E2.
    apply bind_inv in Hrun as (k' & s5 & E3 & Hrun). mstep E3.
    apply bind_inv in Hrun as (q' & s6 & E4 & Hrun). mstep E4.
    injection Hrun as -> ->. by mstep Hins.
  - eapply owns_own; [|eapply (owns_alloc s0 _ s1 s2 a); [done|done| |exact Ho]].
    + intros b. rewrite !fmap_app. cbn. set_solver.
    + eapply frame_mono; [|exact Hf2]. cbn. set_solver.
  - done.
  - rewrite fmap_app. apply Forall2_app; [|constructor; [|done]].
    + eapply strs_frame; [exact (ow_ok _ _ _ Ho)|exact Hf2| |exact Hs]. intros v Hv. apply Hdata. by eapply stack_str.
    + eapply str_frame; [exact (ow_ok _ _ _ Ho)| |exact Hf2|done]. apply Hdata, Hstr.
  - rewrite fmap_app, NoDup_app. split; [done|]. split; [|apply NoDup_singleton]. cbn. set_solver.
  - intros q Hq. rewrite (fr_store _ _ _ Hf2); [apply Hext; set_solver|]. apply Hdata, Hext. set_solver.
  - intros v. rewrite fmap_app, elem_of_app. cbn. rewrite list_elem_of_singleton.
    intros [Hv| ->]; [|done]. pose proof (Hap v Hv). set_solver.
  - done.
  - by eapply literals_frame.
  - eapply ext_same_trans.
    + apply (ext_same_frame _ [p]); [|done]. by intros q Hq ->%list_elem_of_singleton.
    + apply (ext_same_frame _ (a :: out :: ns.*1)); [|done]. intros q Hq. apply Hdata, Hext. by right.
Qed.

Lemma kobj_node (h : gmap Z KHeap.obj) a n : kobj h a = Some n -> h !! a = Some (ONode n).
Proof. unfold kobj. destruct (h !! a) as [[]|]; cbn; unfold of_obj; cbn; congruence. Qed.

Lemma strcmp_done s a b l1 l2 : cstr (f_mem s) a l1 -> cstr (f_mem s) b l2 ->
  ∃ c, mem (strcmp a b) s = Done c s ∧ (c =? 0) = bool_decide (l1 = l2).
Proof.
  intros H1 H2. exists (compare_chars l1 l2). split; [apply mem_read; by apply strcmp_spec|].
  pose proof (compare_chars_zero l1 l2 (cstr_chars _ _ _ H1) (cstr_chars _ _ _ H2)) as Hz.
  destruct (Z.eqb_spec (compare_chars l1 l2) 0); [rewrite bool_decide_true|rewrite bool_decide_false]; naive_solver.
Qed.

Lemma stack_nil s0 ext out n ws ns s : stack_rep s0 ext out n ws ns s -> ws = [] -> ns = [].
Proof. intros Hr ->. pose proof (Forall2_length _ _ _ (sr_strs _ _ _ _ _ _ _ Hr)) as Hl. by destruct ns. Qed.

Lemma stack_snoc s0 ext out n ws w ns s : stack_rep s0 ext out n (ws ++ [w]) ns s -> ∃ ns' a v, ns = ns' ++ [(a, v)].
Proof.
  intros Hr. pose proof (Forall2_length _ _ _ (sr_strs _ _ _ _ _ _ _ Hr)) as Hl.
  rewrite length_fmap, length_app in Hl. cbn in Hl.
  destruct ns as [|[a v] ns _] using rev_ind; [cbn in Hl; lia|]. by exists ns, a, v.
Qed.

Lemma pop_step s0 ext out n ws w ns s :
  fs_ok s0 -> stack_rep s0 ext out n (ws ++ [w]) ns s ->
  ∃ s' ns', (n ← obj (list_pop out);
       if n =? 0 then mret tt else nd ← obj (load n); ffree (ln_value nd);; ffree n) s = Done tt s' ∧
    stack_rep s0 ext out n ws ns' s' ∧ ext_same ext s s'.
Proof.
  intros Hok0 Hr. destruct (stack_snoc _ _ _ _ _ _ _ _ Hr) as (ns' & a & v & ->).
  pose proof Hr as [Ho Hl Hs Hnd Hext Hap Hroom Hlit].
  rewrite fmap_app in Hs. apply Forall2_app_inv in Hs as [Hs _].
  2: { pose proof (Forall2_length _ _ _ Hs) as Hlen. rewrite !length_app in Hlen. cbn in Hlen.
    rewrite length_fmap in *. lia. }
  rewrite fmap_app in Hnd. apply NoDup_app in Hnd as (Hnd & Hvn & _).
  assert (Hva : v ∈ (ns' ++ [(a, v)]).*2) by (rewrite fmap_app, elem_of_app; right; by left).
  pose proof (stack_str _ _ _ _ _ _ _ _ Hr Hva) as Hv.
  destruct (stack_data_ne _ _ _ _ _ _ _ _ Hr Hv) as [Hvo Hvl].
  destruct (pop_spec s out ns' a v (ow_ok _ _ _ Ho) Hl) as (s1 & E1 & Hok1 & Hrm1 & Hl1 & Ha1 & Hm1 & Hlv1 & Hf1).
  assert (Hdata1 : ∀ u, store s !! u = Some (OData []) -> u ∉ out :: (ns' ++ [(a, v)]).*1).
  { intros u Hu. destruct (stack_data_ne _ _ _ _ _ _ _ _ Hr Hu). by rewrite not_elem_of_cons. }
  assert (Hal : a ∈ (ns' ++ [(a, v)]).*1) by (rewrite fmap_app, elem_of_app; right; by left).
  assert (Ha0 : a ≠ 0) by (intros ->; by apply (rep_nodes _ _ _ Hl)).
  destruct (ffree_spec s1 v (OData []) Hok1) as (s2 & E2 & Hok2 & Hrm2 & Hg2 & Hm2 & Hf2).
  { rewrite (fr_store _ _ _ Hf1); [done|by apply Hdata1]. }
  assert (Hav : a ≠ v) by (by intros ->).
  destruct (ffree_spec s2 a (ONode (ListNode 0 0 v)) Hok2) as (s3 & E3 & Hok3 & Hrm3 & Hg3 & Hm3 & Hf3).
  { rewrite (fr_store _ _ _ Hf2) by (by rewrite list_elem_of_singleton). by apply kobj_node. }
  assert (Hf : frame (v :: out :: (ns' ++ [(a, v)]).*1) s s3).
  { eapply frame_trans; [eapply frame_mono; [|exact Hf1]; intros; by right|].
    eapply frame_trans; [eapply frame_mono; [|exact Hf2]; intros b ->%list_elem_of_singleton; by left|].
    eapply frame_mono; [|exact Hf3]. intros b ->%list_elem_of_singleton. do 2 right. done. }
  assert (Hdata : ∀ u, u ∉ [v] -> store s !! u = Some (OData []) -> u ∉ v :: out :: (ns' ++ [(a, v)]).*1).
  { intros u Hu%not_elem_of_cons Hsu. rewrite not_elem_of_cons. split; [apply Hu|auto]. }
  assert (Hne : out ∉ [v; a] ∧ ∀ b, b ∈ ns'.*1 -> b ∉ [v; a]).
  { pose proof (rep_nodup _ _ _ Hl) as Hn1. rewrite fmap_app, NoDup_app in Hn1. destruct Hn1 as (_ & Hn1 & _).
    destruct (list_rep_node _ _ _ a Hl) as (_ & _ & _ & Hoa); [done|].
    rewrite fmap_app, not_elem_of_app in Hvl. clear -Hn1 Hoa Hvl Hvo. split; [set_solver|]. intros b Hb.
    specialize (Hn1 b Hb). set_solver. }
  destruct Hne as [Hne1 Hne2].
  exists s3, ns'. split; [|split; [split|]].
  - mstep E1. rewrite (proj2 (Z.eqb_neq _ _)) by done.
    mstep (obj_read (load (T := list_node) a) s1 _ (load_done _ _ _ Ha0 Ha1)). cbn [ln_value]. by mstep E2.
  - eapply (owns_free s0 (ext ++ out :: (ns' ++ [(a, v)]).*1 ++ (ns' ++ [(a, v)]).*2)); [done|done|..|done].
    + eapply frame_mono; [|exact Hf]. clear. rewrite !fmap_app. set_solver.
    + clear. rewrite !fmap_app. set_solver.
    + intros b Hb. assert (Hgone : b = a ∨ b = v -> live s3 !! b = None).
      { intros [->| ->]; [done|]. rewrite (fr_live _ _ _ Hf3); [done|]. rewrite list_elem_of_singleton. congruence. }
      clear -Hb Hgone. rewrite !fmap_app in Hb. cbn in Hb. set_solver.
  - rewrite !not_elem_of_cons in Hne1. assert (∀ b, b ∈ ns'.*1 -> b ≠ v ∧ b ≠ a) as Hne3.
    { intros b Hb. specialize (Hne2 b Hb). clear -Hne2. set_solver. }
    eapply (list_stable [a] s2); [done|rewrite list_elem_of_singleton; tauto|intros b ? ->%list_elem_of_singleton; naive_solver|].
    eapply (list_stable [v] s1); [done|rewrite list_elem_of_singleton; tauto|intros b ? ->%list_elem_of_singleton; naive_solver|done].
  - eapply strs_frame; [exact (ow_ok _ _ _ Ho)|exact Hf| |exact Hs]. intros u Hu. apply Hdata.
    + intros ->%list_elem_of_singleton. apply (Hvn v Hu). by left.
    + eapply stack_str; [exact Hr|]. rewrite fmap_app, elem_of_app. by left.
  - done.
  - intros q Hq. rewrite (fr_store _ _ _ Hf); [by apply Hext|]. apply Hdata; [|by apply Hext].
    intros ->%list_elem_of_singleton. by apply (Hap v Hva).
  - intros u Hu. apply Hap. rewrite fmap_app, elem_of_app. by left.
  - auto.
  - by eapply literals_frame.
  - apply (ext_same_frame _ (v :: out :: (ns' ++ [(a, v)]).*1)); [|done]. intros q Hq. apply Hdata; [|by apply Hext].
    intros ->%list_elem_of_singleton. by apply (Hap v Hva).
Qed.

Lemma canon_step_spec s0 ext out n ws ns s pch w :
  fs_ok s0 -> stack_rep s0 ext out (S (S n)) ws ns s -> text [] s pch w -> Z.of_nat (length w) + 1 <= small_block ->
  ∃ s' ns', canon_step out pch s = Done tt s' ∧ stack_rep s0 ext out n (canon_elem ws w) ns' s' ∧ ext_same ext s s'.
Proof.
  intros Hok0 Hr Ht Hw. pose proof Ht as [_ Hc]. destruct (sr_lits _ _ _ _ _ _ _ Hr) as [_ (_ & _ & Hup) (_ & _ & Hdot) _].
  assert (Hweak : stack_rep s0 ext out n ws ns s).
  { destruct Hr. split; [done..| |done]. eapply (fs_room_le (S (S n))); [lia|done]. }
  destruct (strcmp_done s pch lit_up w [46; 46] Hc Hup) as (c1 & E1 & Hc1).
  destruct (strcmp_done s pch lit_dot w [46] Hc Hdot) as (c2 & E2 & Hc2).
  unfold canon_step, canon_elem. mstep E1. rewrite Hc1. destruct (bool_decide (w = [46; 46])).
  - destruct ws as [|w' ws' _] using rev_ind.
    + pose proof (stack_nil _ _ _ _ _ _ _ Hweak eq_refl) as ->. exists s, []. split; [|exact (conj Hweak (ext_same_refl _ _))].
      pose proof (proj1 (list_take_empty _ _ (sr_list _ _ _ _ _ _ _ Hr))) as E. by mstep (obj_read _ _ _ E).
    + destruct (pop_step _ _ _ _ _ _ _ _ Hok0 Hweak) as (s' & ns' & E & Hr' & Hsame). exists s', ns'.
      assert (take (length (ws' ++ [w']) - 1) (ws' ++ [w']) = ws') as ->; [|done].
      rewrite length_app. cbn. rewrite Nat.add_sub. by rewrite take_app_length.
  - mstep E2. rewrite Hc2. destruct (bool_decide (w = [46])); [exists s, ns; by split|].
    destruct (push_copy_spec _ _ _ _ _ _ _ _ _ Hr Ht Hw) as (s' & a & p & E & Hr' & Hsame). by exists s', (ns ++ [(a, p)]).
Qed.

(** *** The join *)

(** The name at a node of the list. *)
Lemma stack_name s0 ext out n ws ns s dn x v rest :
  stack_rep s0 ext out n ws ns s -> ns = dn ++ (x, v) :: rest ->
  ∃ w, ws !! length dn = Some w ∧ str s v w ∧ v ∈ ns.*2 ∧ take (length (dn ++ [(x, v)])) ws = take (length dn) ws ++ [w].
Proof.
  intros Hr Hns. assert (Hi : ns.*2 !! length dn = Some v).
  { rewrite Hns, fmap_app, lookup_app_r by (by rewrite length_fmap). by rewrite length_fmap, Nat.sub_diag. }
  destruct (Forall2_lookup_l _ _ _ _ _ (sr_strs _ _ _ _ _ _ _ Hr) Hi) as (w & Hw & Hs).
  exists w. split; [done|]. split; [done|]. split; [by eapply list_elem_of_lookup_2|].
  rewrite length_app. cbn [length]. rewrite Nat.add_1_r. by apply take_S_r.
Qed.

Lemma joined_take ws k w : ws !! k = Some w ->
  (length (joined (take k ws)) + length w + 1 <= length (joined ws))%nat.
Proof.
  intros Hk. rewrite <- (take_drop_middle ws k w Hk) at 2. unfold joined.
  rewrite fmap_app, fmap_cons, concat_app, length_app. cbn. rewrite length_app. lia.
Qed.

Lemma joined_size_spec s0 ext out n ws ns s :
  stack_rep s0 ext out n ws ns s -> Z.of_nat (length (joined ws)) + 1 <= small_block ->
  joined_size out s = Done (Z.of_nat (length (joined ws))) s.
Proof.
  intros Hr Hsize. unfold small_block in Hsize. unfold joined_size.
  set (I := λ (a : Z) (dn : list (Z * Z)) s',
    s' = s ∧ a = Z.of_nat (length (joined (take (length dn) ws)))).
  destruct (each_of_inv (B := Z) (λ size _ item, n ← mem (strlen (ln_value item));
      mret (inl (u32 (size + u32 (n + 1))))) I out ns 0 s) as (a & s' & Hrun & -> & ->); [| |done|].
  - intros a dn s' [-> _]. apply (sr_list _ _ _ _ _ _ _ Hr).
  - intros a dn x v rest s' Hns [-> ->].
    destruct (stack_name _ _ _ _ _ _ _ _ _ _ _ Hr Hns) as (w & Hw & [_ Hc] & _ & Htake).
    pose proof (joined_take _ _ _ Hw). cbn [ln_value]. eexists _, s. split.
    + mstep (strlen_done _ _ _ Hc ltac:(lia)). reflexivity.
    + split; [done|]. rewrite Htake, joined_snoc, length_app. cbn [length].
      rewrite (u32_small (Z.of_nat (length w) + 1)), u32_small by lia. lia.
  - rewrite take_ge in Hrun; [by mstep Hrun|].
    pose proof (Forall2_length _ _ _ (sr_strs _ _ _ _ _ _ _ Hr)). rewrite length_fmap in *. lia.
Qed.

(** One name appended at [off]. *)
Lemma join_name s0 ext out n ws ns s o L off v w pre :
  stack_rep s0 (o :: ext) out n ws ns s -> o ∉ ext -> blk s o L -> v ∈ ns.*2 -> str s v w ->
  off = o + Z.of_nat (length pre) -> off + Z.of_nat (length w) + 2 <= o + L -> chars (f_mem s) o pre ->
  Z.of_nat (length w) + 1 <= small_block ->
  ∃ s', (mem (store8 off PATH_SEPARATOR);;
      let off := u32 (off + 1) in
      n ← mem (strlen v); _ ← mem (memcpy off v (u32 (n + 1))); n ← mem (strlen v);
      mret (inl (B := Z) (u32 (off + n)))) s = Done (inl (off + 1 + Z.of_nat (length w))) s' ∧
    stack_rep s0 (o :: ext) out n ws ns s' ∧ blk s' o L ∧ cstr (f_mem s') o (pre ++ 47 :: w) ∧ ext_same ext s s'.
Proof.
  intros Hr Hoe Hb Hv Hstr -> Hend Hpre Hsmall. set (off := o + Z.of_nat (length pre)) in *.
  pose proof Hr as [Ho _ _ _ _ Hap _ _]. pose proof (ow_ok _ _ _ Ho) as Hok.
  pose proof (blk_range _ _ _ Hok Hb) as (Hbase & Hmax & _). pose proof am_base_pos as Hpos.
  assert (Hvo : v ∉ [o]) by (intros ->%list_elem_of_singleton; apply (Hap _ Hv); by left).
  pose proof (str_text [o] s v w Hok Hvo Hstr) as Ht.
  destruct (store8_ok (f_mem s) off PATH_SEPARATOR) as (d1 & E1 & Hd1); [lia|by eexists|].
  change (u8 PATH_SEPARATOR) with 47 in Hd1.
  assert (Hf1 : frame [o] s (set_fmem d1 s)).
  { apply (frame_fill s o L off 1 (λ _, Some 47)); [done|done|lia|lia|]. intros b. rewrite Hd1.
    destruct (Z.eqb_spec b off); [rewrite decide_True by lia|rewrite decide_False by lia]; done. }
  pose proof (stack_write _ _ _ _ _ _ _ o d1 Hr ltac:(by left) Hf1) as Hr1.
  pose proof (text_frame [o] [o] _ _ _ _ ltac:(done) Hf1 Ht) as Ht1. pose proof Ht1 as [Hsec1 Hc1].
  unfold small_block in Hsmall.
  destruct (secure_apart [o] _ o L L v _ Hok ltac:(by left) Hb ltac:(lia) Hsec1) as [Hdis|Hdis].
  all: destruct (memcpy_frame (set_fmem d1 s) o L (off + 1) v (Z.of_nat (length w) + 1)) as (d2 & E2 & Hfill & Hf2);
    [done|done|lia|lia|lia|by apply cstr_readable|lia|].
  all: exists (set_fmem d2 (set_fmem d1 s)); split; [|split; [|split; [exact Hb|split]]].
  1,5: mstep (mem_done _ _ _ _ E1); rewrite (u32_small (off + 1)) by lia; cbn zeta;
    mstep (strlen_done _ _ _ Hc1 ltac:(lia)); rewrite (u32_small (Z.of_nat (length w) + 1)) by lia; mstep E2;
    pose proof (text_frame [o] [o] _ _ _ _ ltac:(done) Hf2 Ht1) as [_ Hc2];
    mstep (strlen_done _ _ _ Hc2 ltac:(lia)); unfold mret, M_ret; do 2 f_equal; apply u32_small; lia.
  1,4: apply (stack_write _ _ _ _ _ _ _ o); [exact Hr1|by left|exact Hf2].
  1,3: apply chars_cstr; [lia| |].
  1,3: intros i x Hi; destruct (Hpre i x Hi) as [? Hrd]; (split; [done|]); apply lookup_lt_Some in Hi;
    cbn [set_fmem f_mem]; rewrite Hfill, decide_False by lia; cbn [set_fmem f_mem];
    rewrite Hd1, (proj2 (Z.eqb_neq _ _)) by lia; done.
  1,2: fold off; cbn [cstr set_fmem f_mem]; (split; [lia|]); (split; [rewrite Hfill, decide_False by lia; cbn [set_fmem f_mem]; by rewrite Hd1, Z.eqb_refl|]);
    (split; [lia|]); eapply (cstr_copy d1 d2 v); [lia|lia| |exact Hc1]; intros i Hi; rewrite Hfill, decide_True by lia;
    cbn [set_fmem f_mem]; f_equal; lia.
  all: apply (ext_same_frame _ [o]); [intros q Hq ->%list_elem_of_singleton; done|by eapply frame_trans].
Qed.

Lemma join_spec s0 ext out n ws ns s o :
  stack_rep s0 (o :: ext) out n ws ns s -> o ∉ ext -> blk s o (Z.of_nat (length (joined ws)) + 1) ->
  Z.of_nat (length (joined ws)) + 1 <= small_block -> ws ≠ [] ->
  ∃ s', join out o s = Done tt s' ∧ stack_rep s0 (o :: ext) out n ws ns s' ∧
    blk s' o (Z.of_nat (length (joined ws)) + 1) ∧ cstr (f_mem s') o (joined ws) ∧ ext_same ext s s'.
Proof.
  intros Hr Hoe Hb Hsize Hne. set (L := Z.of_nat (length (joined ws)) + 1) in *.
  set (I := λ (a : Z) (dn : list (Z * Z)) s',
    let pre := joined (take (length dn) ws) in
    stack_rep s0 (o :: ext) out n ws ns s' ∧ blk s' o L ∧ a = o + Z.of_nat (length pre) ∧
    chars (f_mem s') o pre ∧ (dn ≠ [] -> cstr (f_mem s') o pre) ∧ ext_same ext s s').
  destruct (each_of_inv (B := Z) (λ off _ item, mem (store8 off PATH_SEPARATOR);;
      let off := u32 (off + 1) in
      n ← mem (strlen (ln_value item)); _ ← mem (memcpy off (ln_value item) (u32 (n + 1)));
      n ← mem (strlen (ln_value item)); mret (inl (u32 (off + n)))) I out ns o s)
    as (a & s' & Hrun & Hr' & Hb' & _ & _ & Hc & Hsame).
  - intros a dn s' (Hr' & _). apply (sr_list _ _ _ _ _ _ _ Hr').
  - intros a dn x v rest s' Hns (Hr' & Hb' & Ha & Hpre & _ & Hsame).
    destruct (stack_name _ _ _ _ _ _ _ _ _ _ _ Hr' Hns) as (w & Hw & Hstr & Hv & Htake).
    pose proof (joined_take _ _ _ Hw). cbn [ln_value].
    destruct (join_name _ _ _ _ _ _ s' o L a v w (joined (take (length dn) ws)) Hr') as (s2 & Hrun2 & Hr2 & Hb2 & Hc2 & Hsame2);
      [done|done|done|done|done|unfold L in *; lia|done|unfold L in *; lia|].
    exists (a + 1 + Z.of_nat (length w)), s2. split; [exact Hrun2|]. unfold I. rewrite Htake, joined_snoc.
    split; [done|]. split; [done|]. split; [rewrite length_app; cbn; lia|]. split; [by apply cstr_app_chars|].
    split; [done|by eapply ext_same_trans].
  - split; [done|]. split; [done|]. split; [cbn [length]; rewrite take_0; unfold joined; cbn; lia|]. split; [by intros i x|]. by split.
  - rewrite take_ge in Hc.
    2: { pose proof (Forall2_length _ _ _ (sr_strs _ _ _ _ _ _ _ Hr)). rewrite length_fmap in *. lia. }
    exists s'. split; [unfold join; by mstep Hrun|]. split; [done|]. split; [done|]. split; [|done]. apply Hc.
    intros ->. apply Hne. pose proof (Forall2_length _ _ _ (sr_strs _ _ _ _ _ _ _ Hr)). by destruct ws.
Qed.

(** *** The whole function *)

Lemma frame_outside s p k a n d :
  fs_ok s -> blk s p k -> p <= a -> a + n <= p + k ->
  (∀ b, ¬ (a <= b < a + n) -> rd d b = rd (f_mem s) b) -> frame [p] s (set_fmem d s).
Proof.
  intros Hok Hb ? ? Hd. apply (frame_fill s p k a n (λ i, rd d (a + i))); [done..|].
  intros b. case_decide; [f_equal; lia|by apply Hd].
Qed.

(** One pass over a path with a step that changes the stack by [elem]. *)
Lemma path_pass s0 out step (elem : list (list Z) -> list Z -> list (list Z)) n ws ns s a l :
  fs_ok s0 ->
  (∀ ext m ws ns s pch w, stack_rep s0 ext out (S (S m)) ws ns s -> text [] s pch w ->
    Z.of_nat (length w) + 1 <= small_block ->
    ∃ s' ns', step pch s = Done tt s' ∧ stack_rep s0 ext out m (elem ws w) ns' s' ∧ ext_same ext s s') ->
  stack_rep s0 [] out (S (n + 2 * length l)) ws ns s -> text [] s a l -> Z.of_nat (length l) + 1 <= small_block ->
  ∃ s' ns', (path ← copy_path a; each_token path step;; ffree path) s = Done tt s' ∧
    stack_rep s0 [] out n (foldl elem ws (elements l)) ns' s'.
Proof.
  intros Hok0 Hstep Hr Ht Hl.
  destruct (copy_path_spec _ _ _ _ _ _ _ _ _ Hr Ht Hl) as (p & s1 & E1 & Hr1 & [(Hd & k & Hk & Hkl) Hc] & _ & Hp & _).
  pose proof (ow_ok _ _ _ (sr_owns _ _ _ _ _ _ _ Hr1)) as Hok1.
  assert (Hb : ∀ s, store s !! p = Some (OData []) -> live s !! p = Some k -> blk s p (Z.of_nat (length l) + 1)).
  { intros s2 ? ?. split; [done|]. by exists k. }
  pose proof (blk_range _ _ _ Hok1 (Hb _ Hd Hk)) as (Hbase & ? & Hp0). pose proof am_base_pos.
  set (I := λ wd s', ∃ ns', stack_rep s0 [p] out (n + 2 * (length l - length wd)) (foldl elem ws wd) ns' s' ∧
    live s' !! p = Some k).
  destruct (each_token_spec step I p l Hp0) with (s := s1) as (s2 & E2 & ns2 & Hr2 & Hk2).
  - intros wd s' (ns' & Hr' & _). apply (lo_sep _ (sr_lits _ _ _ _ _ _ _ Hr')).
  - intros wd s' d (ns' & Hr' & Hk') Hout. exists ns'. split; [|done].
    pose proof (sr_ext _ _ _ _ _ _ _ Hr' p ltac:(by left)) as Hd'.
    apply (stack_write _ _ _ _ _ _ _ p); [done|by left|].
    apply (frame_outside s' p (Z.of_nat (length l) + 1) p (Z.of_nat (length l)));
      [exact (ow_ok _ _ _ (sr_owns _ _ _ _ _ _ _ Hr'))|by apply Hb|lia|lia|done].
  - intros wd w pch s' (ns' & Hr' & Hk') Hlt Hcw Hlo Hhi.
    destruct (Hstep [p] (n + 2 * (length l - length (wd ++ [w])))%nat (foldl elem ws wd) ns' s' pch w)
      as (s3 & ns3 & E3 & Hr3 & Hsame).
    + replace (S (S (n + 2 * (length l - length (wd ++ [w]))))) with (n + 2 * (length l - length wd))%nat; [done|].
      rewrite length_app. cbn. lia.
    + split; [|done]. split; [lia|]. right. exists p, k. split; [by intros ?%elem_of_nil|]. split; [done|]. lia.
    + lia.
    + exists s3. split; [done|]. destruct (Hsame p k ltac:(by left) Hk') as [Hk3 Hb3].
      split; [exists ns3; by rewrite foldl_app|]. intros b Hbb. apply Hb3. lia.
  - exists ns. split; [|done]. cbn [length foldl]. by rewrite Nat.sub_0_r.
  - exact Hc.
  - assert (Hr2' : stack_rep s0 [p] out n (foldl elem ws (elements l)) ns2 s2).
    { destruct Hr2. split; [done..| |done]. eapply fs_room_le; [|done]. lia. }
    destruct (stack_free _ _ _ _ _ _ _ p Hok0 Hr2') as (s3 & E3 & Hr3 & _); [by intros ?%elem_of_nil|].
    exists s3, ns2. split; [|done]. mstep E1. by mstep E2.
Qed.

Lemma freed_frame xs s o : freed xs (f_obj s) o -> frame xs s (set_obj o s).
Proof.
  intros [_ Fh Fl _]. split; [| |done|done]; intros a Ha; unfold store, live; cbn.
  - by rewrite Fh, decide_False.
  - by rewrite Fl, decide_False.
Qed.

Lemma cleanup_spec s0 out n ws ns s o l :
  fs_ok s0 -> stack_rep s0 [o] out n ws ns s -> str s o l ->
  ∃ s', (obj (list_destroy out);; obj (list_free out);; ffree out;; mret o) s = Done o s' ∧
    fs_ok s' ∧ fs_room n s' ∧ str s' o l ∧ live s0 !! o = None ∧ frame [o] s0 s'.
Proof.
  intros Hok0 Hr Hstr. pose proof Hr as [Ho Hl Hs Hnd Hext Hap Hroom Hlit]. pose proof (ow_ok _ _ _ Ho) as Hok.
  assert (Hdata : ∀ v, v ∈ o :: ns.*2 -> store s !! v = Some (OData [])).
  { intros v [->|Hv]%elem_of_cons; [apply Hext; by left|by eapply stack_str]. }
  assert (Hdne : ∀ v, v ∈ o :: ns.*2 -> v ≠ out ∧ v ∉ ns.*1) by (intros v Hv; by eapply stack_data_ne, Hdata).
  destruct (list_destroy_spec (f_obj s) out ns Hok Hl Hnd) as (o1 & E1 & Hf1).
  { intros v Hv. split; [eexists; apply Hdata; by right|]. apply Hdne. by right. }
  pose proof (freed_frame _ _ _ Hf1) as Hfr1.
  assert (Hl1 : list_rep (store (set_obj o1 s)) out ns).
  { eapply list_stable; [done| | |done].
    - intros Hin. by destruct (Hdne out ltac:(by right)).
    - intros a Ha Hin. by destruct (Hdne a ltac:(by right)). }
  pose proof (freed_ok _ _ _ Hf1 Hok) as Hok1.
  destruct (list_free_freed o1 out ns Hok1 Hl1) as (o2 & E2 & Hf2).
  pose proof (freed_frame _ (set_obj o1 s) _ Hf2) as Hfr2. pose proof (freed_ok _ _ _ Hf2 Hok1) as Hok2.
  assert (Hout : out ∉ ns.*1).
  { intros Hin. destruct (list_rep_node _ _ _ _ Hl Hin) as (_ & _ & _ & Hne). by apply Hne. }
  assert (Hso : is_Some (store (set_obj o2 s) !! out)).
  { change (store (set_obj o2 s)) with (store (set_obj o2 (set_obj o1 s))). rewrite (fr_store _ _ _ Hfr2) by done.
    exact (kobj_Some _ _ _ (rep_obj _ _ _ Hl1)). }
  destruct Hso as [oo Hoo].
  destruct (ffree_spec (set_obj o2 s) out oo Hok2 Hoo) as (s3 & E3 & Hok3 & Hroom3 & Hg3 & Hm3 & Hfr3).
  assert (Hfr : frame (out :: ns.*1 ++ ns.*2) s s3).
  { eapply frame_trans; [eapply frame_mono; [|exact Hfr1]; set_solver|].
    eapply frame_trans; [eapply frame_mono; [|exact Hfr2]; set_solver|].
    eapply frame_mono; [|exact Hfr3]. set_solver. }
  assert (Hoo' : o ∉ out :: ns.*1 ++ ns.*2).
  { rewrite not_elem_of_cons, not_elem_of_app. destruct (Hdne o ltac:(by left)). split; [done|]. split; [done|].
    intros Hin. apply (Hap _ Hin). by left. }
  assert (Hgone : ∀ a, a ∈ out :: ns.*1 ++ ns.*2 -> live s3 !! a = None).
  { intros a. rewrite elem_of_cons, elem_of_app. intros Ha. destruct (decide (a = out)) as [->|Hne]; [done|].
    rewrite (fr_live _ _ _ Hfr3) by (by rewrite list_elem_of_singleton). unfold live. cbn.
    rewrite (freed_live _ _ _ Hf2). case_decide; [done|]. rewrite (freed_live _ _ _ Hf1), decide_True; [done|]. tauto. }
  assert (Hown : owns s0 [o] s3).
  { eapply (owns_free s0 ([o] ++ out :: ns.*1 ++ ns.*2)); [done|done| | | |exact Ho].
    - eapply frame_mono; [|exact Hfr]. intros a Ha. by right.
    - intros a ->%list_elem_of_singleton. by left.
    - intros a [->|Ha]%elem_of_cons; [left; by left|right; by apply Hgone]. }
  exists s3. split.
  { mstep (obj_done _ _ _ _ E1). mstep (obj_done _ (set_obj o1 s) _ _ E2). by mstep E3. }
  split; [done|]. split; [apply Hroom3, (freed_room _ _ _ Hf2), (freed_room _ _ _ Hf1), Hroom|].
  split; [exact (str_frame _ _ _ _ _ Hok Hoo' Hfr Hstr)|]. split; [apply (ow_fresh _ _ _ Hown); by left|apply Hown].
Qed.

Lemma stack_perm s0 ext ext' out n ws ns s :
  (∀ a, a ∈ ext <-> a ∈ ext') -> stack_rep s0 ext out n ws ns s -> stack_rep s0 ext' out n ws ns s.
Proof.
  intros Hp [Ho Hl Hs Hnd Hext Hap Hroom Hlit]. split; [|done..| | |done|done].
  - eapply owns_own; [|exact Ho]. intros a. rewrite !elem_of_app. by rewrite Hp.
  - intros p Hin. by apply Hext, Hp.
  - intros v Hv Hin. by apply (Hap v Hv), Hp.
Qed.

Lemma store_step s0 ext out n ws ns s p k a v :
  stack_rep s0 ext out n ws ns s -> p ∈ ext -> blk s p k -> p <= a < p + k ->
  ∃ d, mem (store8 a v) s = Done tt (set_fmem d s) ∧ stack_rep s0 ext out n ws ns (set_fmem d s) ∧
    ∀ b, rd d b = if b =? a then Some (u8 v) else rd (f_mem s) b.
Proof.
  intros Hr Hp Hb Ha. pose proof (ow_ok _ _ _ (sr_owns _ _ _ _ _ _ _ Hr)) as Hok.
  pose proof (blk_range _ _ _ Hok Hb). pose proof am_base_pos.
  destruct (store8_ok (f_mem s) a v) as (d & E & Hd); [lia|by eexists|].
  exists d. split; [by apply mem_done|]. split; [|done]. apply (stack_write _ _ _ _ _ _ _ p); [done|done|].
  apply (frame_outside s p k a 1); [done|done|lia|lia|]. intros b Hbb. by rewrite Hd, (proj2 (Z.eqb_neq _ _)) by lia.
Qed.

(** The path of no element. *)
Lemma root_path s0 out n ns s o :
  fs_ok s0 -> stack_rep s0 [o] out (S n) [] ns s -> blk s o 1 ->
  ∃ p s', (output ← frealloc o 2; mem (store8 output PATH_SEPARATOR);;
      mem (store8 (u32 (output + 1)) 0);; mret output) s = Done p s' ∧
    stack_rep s0 [p] out n [] ns s' ∧ str s' p [47].
Proof.
  intros Hok0 Hr Hb. destruct (blk_range _ _ _ (ow_ok _ _ _ (sr_owns _ _ _ _ _ _ _ Hr)) Hb) as (_ & _ & Ho0).
  destruct (stack_alloc _ _ _ _ _ _ _ 2 Hr) as (p & s1 & E1 & Hr1 & Hb1 & Hp & Hm1 & Hf1); [by vm_compute|].
  pose proof (ow_ok _ _ _ (sr_owns _ _ _ _ _ _ _ Hr1)) as Hok1.
  pose proof (blk_range _ _ _ Hok1 Hb1) as (Hbase & Hmax & Hp0). pose proof am_base_pos.
  destruct (stack_live _ _ _ _ _ _ _ _ Hr Hp) as (Hpo & _).
  assert (Hop : o ∉ [p]) by (intros ->%list_elem_of_singleton; apply Hpo; by left).
  pose proof (blk_frame _ _ _ _ _ Hop Hf1 Hb) as [_ (k & Hk & Hk1)].
  set (n2 := if 2 <? k then 2 else k).
  assert (Hn2 : 0 <= n2 <= 2) by (unfold n2; destruct (Z.ltb_spec 2 k); lia).
  destruct (memcpy_ram (f_mem s1) p o n2) as (d & E2 & Hd); [lia|lia|lia|].
  assert (Hr2 : stack_rep s0 [o; p] out n [] ns (set_fmem d s1)).
  { apply (stack_perm _ [p; o]); [intros a; rewrite !elem_of_cons; tauto|].
    apply (stack_write _ _ _ _ _ _ _ p); [done|by left|]. by apply (frame_outside s1 p 2 p n2); [..|lia|lia|]. }
  destruct (stack_free _ _ _ _ _ _ _ o Hok0 Hr2 Hop) as (s3 & E3 & Hr3 & Hf3 & Hm3).
  assert (Hb3 : blk s3 p 2).
  { apply (blk_frame [o] (set_fmem d s1)); [|done|done]. intros ->%list_elem_of_singleton. by apply Hop; left. }
  destruct (store_step _ _ _ _ _ _ _ p 2 p PATH_SEPARATOR Hr3 ltac:(by left) Hb3 ltac:(lia)) as (d4 & E4 & Hr4 & Hd4).
  destruct (store_step _ _ _ _ _ _ _ p 2 (p + 1) 0 Hr4 ltac:(by left) Hb3 ltac:(lia)) as (d5 & E5 & Hr5 & Hd5).
  eexists p, _. split; [|split; [exact Hr5|split; [exact Hb3|]]].
  - assert (Hre : frealloc o 2 s = Done p s3).
    { unfold frealloc. mstep E1. rewrite (proj2 (Z.eqb_neq o 0)), (proj2 (Z.eqb_neq p 0)) by done. cbn [negb andb Z.eqb].
      rewrite bind_ret, bind_assoc. mrun. unfold live in Hk. rewrite Hk. cbn [default].
      unfold id. fold n2. rewrite bind_assoc. mstep (mem_done _ _ _ _ E2). by mstep E3. }
    mstep Hre. mstep E4. rewrite u32_small by lia. by mstep E5.
  - cbn [cstr set_fmem f_mem]. change (u8 PATH_SEPARATOR) with 47 in Hd4. change (u8 0) with 0 in Hd5.
    rewrite !Hd5, Hd4, !Z.eqb_refl, (proj2 (Z.eqb_neq p (p + 1))) by lia. split_and!; (done || lia).
Qed.

Lemma render_size ws : (length (render ws) <= length (joined ws) + 1)%nat.
Proof. unfold render. destruct ws; cbn; lia. Qed.

Lemma joined_nil ws : length (joined ws) = 0%nat -> ws = [].
Proof. destruct ws; [done|]. unfold joined. cbn. rewrite length_app. lia. Qed.

(** [canonicalize_path] returns a block that holds the canonical path;
    apart from that block nothing has changed, so that all the memory it
    took on the way has been given back. *)
Lemma canonicalize_spec s cwd input lc li n :
  fs_ok s -> literals_ok s -> text [] s cwd lc -> text [] s input li ->
  Z.of_nat (length lc) + Z.of_nat (length li) + 4 <= small_block ->
  fs_room (n + 2 * length lc + 2 * length li + 5) s ->
  ∃ p s', canonicalize_path cwd input s = Done p s' ∧ fs_ok s' ∧ fs_room n s' ∧
    str s' p (render (canon lc li)) ∧ live s !! p = None ∧ frame [p] s s'.
Proof.
  intros Hok Hlit Htc Hti Hsmall Hroom. unfold small_block in Hsmall.
  destruct (create_spec s (n + 2 * length lc + 2 * length li + 4) Hok) as (out & s1 & E1 & Hok1 & Hroom1 & Hl1 & Hout & Hm1 & Hf1);
    [eapply fs_room_le; [|exact Hroom]; lia|].
  assert (Hr1 : stack_rep s [] out (n + 2 * length lc + 2 * length li + 4) [] [] s1).
  { split; [|done|constructor|constructor|by intros p ?%elem_of_nil|by intros p ?%elem_of_nil|done|by eapply literals_frame].
    split; [done|done|]. by intros a ->%list_elem_of_singleton. }
  assert (Htext : ∀ a l, text [] s a l -> ∀ ext m ws ns s', stack_rep s ext out m ws ns s' -> text [] s' a l).
  { intros a l [Hsec Hc] ext m ws ns s' Hr. pose proof (sr_owns _ _ _ _ _ _ _ Hr) as [_ Hf Hfr].
    assert (Hsec' : secure (ext ++ out :: ns.*1 ++ ns.*2) s a (Z.of_nat (length l) + 1)).
    { destruct Hsec as (? & [?|(q & k & _ & Hq & ?)]); (split; [done|]); [by left|]. right. exists q, k.
      split; [|done]. intros Hin. rewrite (Hfr _ Hin) in Hq. done. }
    split; [|by eapply cstr_stable]. eapply secure_mono; [|by eapply secure_frame]. by intros b ?%elem_of_nil. }
  pose proof (Htext _ _ Hti _ _ _ _ _ Hr1) as Hti1. pose proof Hti1 as [_ Hci].
  unfold canonicalize_path. mstep E1. mstep (strlen_done _ _ _ Hci ltac:(lia)).
  mstep (mem_read _ _ _ (cstr_head _ _ _ Hci)).
  set (base := if relative li then elements lc else []).
  assert (H2 : ∃ s2 ns2, (if truth (Z.of_nat (length li)) && negb (char_at li 0 =? PATH_SEPARATOR)
      then path ← copy_path cwd; each_token path (push_copy out);; ffree path else mret tt) s1 = Done tt s2 ∧
      stack_rep s [] out (n + 2 * length li + 3) base ns2 s2).
  { assert (truth (Z.of_nat (length li)) && negb (char_at li 0 =? PATH_SEPARATOR) = relative li) as ->.
    { by destruct li as [|c li]. }
    unfold base. destruct (relative li).
    - replace (elements lc) with (foldl (λ ws w, ws ++ [w]) [] (elements lc)).
      + apply (path_pass s out (push_copy out) (λ ws w, ws ++ [w]) (n + 2 * length li + 3) [] [] s1 cwd lc Hok); [| |by eapply Htext|unfold small_block; lia].
        * intros ext m ws ns s' pch w Hr Ht Hw.
          destruct (push_copy_spec _ _ _ _ _ _ _ _ _ Hr Ht Hw) as (s3 & a & q & E & Hr' & Hsame).
          by exists s3, (ns ++ [(a, q)]).
        * replace (S (n + 2 * length li + 3 + 2 * length lc)) with (n + 2 * length lc + 2 * length li + 4)%nat by lia. done.
      + assert (∀ acc l, foldl (λ ws (w : list Z), ws ++ [w]) acc l = acc ++ l) as Hfold.
        { intros acc l. revert acc. induction l as [|x l IH]; intros acc; cbn; [by rewrite app_nil_r|].
          rewrite IH. by rewrite <- app_assoc. }
        apply Hfold.
    - exists s1, []. split; [done|]. destruct Hr1. split; [done..| |done]. eapply fs_room_le; [|done]. lia. }
  destruct H2 as (s2 & ns2 & E2 & Hr2). mstep E2. clear E2.
  destruct (path_pass s out (canon_step out) canon_elem (n + 2) base ns2 s2 input li Hok) as (s3 & ns3 & E3 & Hr3).
  { intros ext m ws ns s' pch w Hr Ht Hw. by eapply canon_step_spec. }
  { replace (S (n + 2 + 2 * length li)) with (n + 2 * length li + 3)%nat by lia. done. }
  { by eapply Htext. }
  { unfold small_block. lia. }
  change (foldl canon_elem base (elements li)) with (canon lc li) in Hr3.
  pose proof (canon_size lc li) as Hsz. set (ws := canon lc li) in *.
  apply bind_inv in E3 as (p & s3a & E3a & E3). mstep E3a.
  apply bind_inv in E3 as ([] & s3b & E3b & E3). mstep E3b. mstep E3.
  mstep (joined_size_spec _ _ _ _ _ _ _ Hr3 ltac:(unfold small_block; lia)). rewrite u32_small by lia.
  replace (n + 2)%nat with (S (S n)) in Hr3 by lia.
  destruct (stack_alloc _ _ _ _ _ _ _ (Z.of_nat (length (joined ws)) + 1) Hr3) as (o & s4 & E4 & Hr4 & Hb4 & _);
    [unfold small_block; lia|]. mstep E4.
  assert (H5 : ∃ q s5 ns5, (if Z.of_nat (length (joined ws)) =? 0 then
        output ← frealloc o 2; mem (store8 output PATH_SEPARATOR);; mem (store8 (u32 (output + 1)) 0);; mret output
      else join out o;; mret o) s4 = Done q s5 ∧ stack_rep s [q] out n ws ns5 s5 ∧ str s5 q (render ws)).
  { destruct (Z.eqb_spec (Z.of_nat (length (joined ws))) 0) as [Hz|Hz].
    - assert (Hws : ws = []) by (apply joined_nil; lia). rewrite Hws in *.
      destruct (root_path _ _ _ _ _ _ Hok Hr4) as (q & s5 & E5 & Hr5 & Hs5); [by eapply blk_mono; [|done]|].
      by exists q, s5, ns3.
    - assert (Hne : ws ≠ []) by (intros Hws; rewrite Hws in Hz; done).
      destruct (join_spec _ _ _ _ _ _ _ _ Hr4) as (s5 & E5 & Hr5 & Hb5 & Hc5 & _);
        [by intros ?%elem_of_nil|done|unfold small_block; lia|done|].
      exists o, s5, ns3. mstep E5. split; [done|]. split.
      + destruct Hr5. split; [done..| |done]. by apply (fs_room_le (S n)); [lia|].
      + assert (render ws = joined ws) as -> by (by destruct ws). by split. }
  destruct H5 as (q & s5 & ns5 & E5 & Hr5 & Hstr). mstep E5.
  destruct (cleanup_spec _ _ _ _ _ _ _ _ Hok Hr5 Hstr) as (s6 & E6 & ?). by exists q, s6.
Qed.
End steps.

(** ** Properties *)

Section path_properties.
Context {AS : Type} `{!Allocator AS} `{!Literals}.
Implicit Types s : fs AS.

(** C7: for every working directory and every path, [canonicalize_path]
    returns a fresh block that holds the canonical absolute path ([..] goes up
    but not above the root, [.] and empty names disappear, the elements of
    the working directory come first if the path is relative and not empty).
    Everything else is as it was before the call: the copies, the list and
    its nodes have all been given back. *)
Theorem canonicalize_path_correct s cwd input lc li n
    (Hok : fs_ok s) (Hlit : literals_ok s) (Hcwd : text [] s cwd lc) (Hinput : text [] s input li)
    (Hsize : Z.of_nat (length lc) + Z.of_nat (length li) + 4 <= small_block)
    (Hroom : fs_room (n + 2 * length lc + 2 * length li + 5) s) :
  ∃ p s', canonicalize_path cwd input s = Done p s' ∧ fs_ok s' ∧ fs_room n s' ∧
    str s' p (render (canon lc li)) ∧ live s !! p = None ∧ frame [p] s s'.
Proof. by apply canonicalize_spec. Qed.
End path_properties.

Section path_examples.
#[local] Existing Instance Bump.allocator.

#[local] Instance example_literals : Literals := {|
  lit_root := 0x40; lit_sep := 0x50; lit_up := 0x54; lit_dot := 0x58; lit_cwd := 0x5C; lit_fmt := 0x60
|}.

Definition place (a : Z) (l : list Z) (m : gmap Z Z) : gmap Z Z :=
  foldr (λ x m, <[a + Z.of_nat x.1 := x.2]> m) m (imap pair (l ++ [0])).

(** ["/usr"] at 0x100, ["b/../c/.//d"] at 0x110 *)
Definition example_fs : fs Bump.bump := Fs Bump.start
  (Ram (place 0x50 [47] (place 0x54 [46; 46] (place 0x58 [46] (place 0x5C [47]
    (place 0x100 [47; 117; 115; 114] (place 0x110 [98; 47; 46; 46; 47; 99; 47; 46; 47; 47; 100] ∅))))))) 0 0 0.

Lemma example_text a l : 0 <= a -> a + Z.of_nat (length l) + 1 <= 0xFFF -> cstr (f_mem example_fs) a l ->
  static_text example_fs a l ∧ text [] example_fs a l.
Proof. intros ? ? Hc. split; [done|]. split; [|done]. split; [done|]. left. cbn. unfold Bump.base. lia. Qed.

Lemma example_literals_ok : literals_ok example_fs.
Proof. split; apply example_text; cbn; try lia; repeat split; try lia; reflexivity. Qed.

Lemma canonicalize_path_correct_witness :
  ∃ p s', canonicalize_path 0x100 0x110 example_fs = Done p s' ∧ str s' p [47; 117; 115; 114; 47; 99; 47; 100].
Proof.
  destruct (canonicalize_path_correct example_fs 0x100 0x110 [47; 117; 115; 114]
    [98; 47; 46; 46; 47; 99; 47; 46; 47; 47; 100] 0) as (p & s' & Hrun & _ & _ & Hs & _).
  - apply Bump.start_ok.
  - apply example_literals_ok.
  - apply example_text; cbn; try lia; repeat split; try lia; reflexivity.
  - apply example_text; cbn; try lia; repeat split; try lia; reflexivity.
  - by vm_compute.
  - by vm_compute.
  - exists p, s'. split; [done|]. exact Hs.
Defined.
End path_examples.
