(* ===== verification/VfsMount.v ===== *)
(** * The mount tree (kernel/vfs.c: vfs_mount, get_mount_point, kopen)

    What the mount tree means: a table from paths (sequences of names) to
    the nodes mounted there. [vfs_mount] extends the table, [get_mount_point]
    finds the longest mounted prefix of a path, and [kopen] of a mount point
    returns a copy of the node mounted there. *)

From S2P Require Import Prelude Dll KHeap KList CString Ram Fs Tree Vfs VfsPath.

(** ** Trees of mount entries *)

(** A tree node: its address, the address of its entry, of the entry's name
    and the name, the file mounted there (null if none), the list of the
    children and the children with their list nodes. *)
Inductive mtree := MNode (addr ent np : Z) (nm : list Z) (file cl : Z) (kids : list (Z * mtree)).

Definition maddr (t : mtree) := let 'MNode a _ _ _ _ _ _ := t in a.
Definition ment (t : mtree) := let 'MNode _ e _ _ _ _ _ := t in e.
Definition mnp (t : mtree) := let 'MNode _ _ p _ _ _ _ := t in p.
Definition mname (t : mtree) := let 'MNode _ _ _ n _ _ _ := t in n.
Definition mfile (t : mtree) := let 'MNode _ _ _ _ f _ _ := t in f.
Definition mlist (t : mtree) := let 'MNode _ _ _ _ _ l _ := t in l.
Definition mkids (t : mtree) := let 'MNode _ _ _ _ _ _ ks := t in ks.
Definition with_file (f : Z) (t : mtree) := let 'MNode a e p n _ l ks := t in MNode a e p n f l ks.
Definition with_kid (x : Z) (k : mtree) (t : mtree) := let 'MNode a e p n f l ks := t in MNode a e p n f l (ks ++ [(x, k)]).

Section mtree_induction.
Context (P : mtree -> Prop)
  (Hnode : ∀ a e p n f l ks, Forall (λ k, P k.2) ks -> P (MNode a e p n f l ks)).
Fixpoint mtree_rose (t : mtree) : P t :=
  let 'MNode a e p n f l ks := t in
  Hnode a e p n f l ks
    ((fix go ks := match ks return Forall (λ k, P k.2) ks with
      | [] => Forall_nil_2 _
      | k :: ks => Forall_cons_2 _ k ks (mtree_rose k.2) (go ks)
      end) ks).
End mtree_induction.

(** Every address the tree is made of. *)
Fixpoint foot (t : mtree) : list Z :=
  let 'MNode a e p _ _ l ks := t in
  a :: e :: p :: l :: ks.*1 ++ (fix go (ks : list (Z * mtree)) := match ks with [] => [] | k :: ks => foot k.2 ++ go ks end) ks.
Definition feet (ks : list (Z * mtree)) : list Z := concat (foot <$> ks.*2).

Lemma foot_unfold a e p n f l ks : foot (MNode a e p n f l ks) = a :: e :: p :: l :: ks.*1 ++ feet ks.
Proof.
  cbn [foot]. do 5 f_equal. unfold feet. induction ks as [|[x k] ks IH]; [done|]. cbn. by rewrite IH.
Qed.

Lemma feet_app ks1 ks2 : feet (ks1 ++ ks2) = feet ks1 ++ feet ks2.
Proof. unfold feet. by rewrite !fmap_app, concat_app. Qed.
Lemma feet_cons x k ks : feet ((x, k) :: ks) = foot k ++ feet ks.
Proof. done. Qed.
Lemma feet_in x k ks b : (x, k) ∈ ks -> b ∈ foot k -> b ∈ feet ks.
Proof.
  intros (ks1 & ks2 & ->)%list_elem_of_split Hb. rewrite feet_app, feet_cons, !elem_of_app. tauto.
Qed.
Lemma feet_out ks b : b ∈ feet ks -> ∃ x k, (x, k) ∈ ks ∧ b ∈ foot k.
Proof.
  induction ks as [|[x k] ks IH]; [by intros ?%elem_of_nil|]. rewrite feet_cons, elem_of_app.
  intros [Hb|(y & k' & Hk & Hb)%IH]; [exists x, k; split; [by left|done]|exists y, k'; split; [by right|done]].
Qed.
Lemma maddr_foot t : maddr t ∈ foot t.
Proof. destruct t. by left. Qed.

(** ** Paths in the tree *)

Fixpoint find_kid (c : list Z) (ks : list (Z * mtree)) : option mtree :=
  match ks with
  | [] => None
  | (x, k) :: ks => if bool_decide (mname k = c) then Some k else find_kid c ks
  end.
Fixpoint alter_kid (c : list Z) (g : mtree -> mtree) (ks : list (Z * mtree)) : list (Z * mtree) :=
  match ks with
  | [] => []
  | (x, k) :: ks => if bool_decide (mname k = c) then (x, g k) :: ks else (x, k) :: alter_kid c g ks
  end.

Fixpoint sub_at (cs : list (list Z)) (t : mtree) : option mtree :=
  match cs with [] => Some t | c :: cs => find_kid c (mkids t) ≫= sub_at cs end.
Fixpoint alter_at (cs : list (list Z)) (g : mtree -> mtree) (t : mtree) : mtree :=
  match cs with
  | [] => g t
  | c :: cs => let 'MNode a e p n f l ks := t in MNode a e p n f l (alter_kid c (alter_at cs g) ks)
  end.

(** The table the tree stands for; null where nothing is mounted. *)
Definition mounted (t : mtree) (cs : list (list Z)) : Z := from_option mfile 0 (sub_at cs t).

Lemma find_kid_split c ks k : find_kid c ks = Some k ->
  ∃ ks1 x ks2, ks = ks1 ++ (x, k) :: ks2 ∧ mname k = c ∧ find_kid c ks1 = None ∧
    ∀ g, alter_kid c g ks = ks1 ++ (x, g k) :: ks2.
Proof.
  induction ks as [|[x k'] ks IH]; [done|]. cbn. case_bool_decide as Hn.
  - intros [= ->]. by exists [], x, ks.
  - intros (ks1 & y & ks2 & -> & ? & Hno & Halt)%IH. exists ((x, k') :: ks1), y, ks2.
    split; [done|]. split; [done|]. split; [cbn; by rewrite bool_decide_false|]. intros g. by rewrite Halt.
Qed.

Lemma find_kid_mid c ks1 x k ks2 : mname k = c -> find_kid c ks1 = None -> find_kid c (ks1 ++ (x, k) :: ks2) = Some k.
Proof.
  intros Hk. induction ks1 as [|[y k1] ks1 IH]; cbn; [by rewrite bool_decide_true|].
  case_bool_decide; [done|apply IH].
Qed.

Lemma find_kid_other d ks1 x k k' ks2 : mname k = mname k' -> mname k ≠ d ->
  find_kid d (ks1 ++ (x, k') :: ks2) = find_kid d (ks1 ++ (x, k) :: ks2).
Proof.
  intros Hk Hd. induction ks1 as [|[y k1] ks1 IH]; cbn.
  - by rewrite !bool_decide_false by congruence.
  - case_bool_decide; [done|apply IH].
Qed.

Lemma sub_at_app cs ds t : sub_at (cs ++ ds) t = sub_at cs t ≫= sub_at ds.
Proof.
  revert t. induction cs as [|c cs IH]; intros t; [done|]. cbn. destruct (find_kid c (mkids t)); [apply IH|done].
Qed.

Lemma alter_at_name cs g t u : sub_at cs t = Some u -> mname (g u) = mname u -> mname (alter_at cs g t) = mname t.
Proof. destruct cs; [by intros [= ->]|by destruct t]. Qed.
Lemma alter_at_addr cs g t u : sub_at cs t = Some u -> maddr (g u) = maddr u -> maddr (alter_at cs g t) = maddr t.
Proof. destruct cs; [by intros [= ->]|by destruct t]. Qed.

(** Looking up a path in the altered tree. *)
Lemma sub_at_alter cs g t u ds :
  sub_at cs t = Some u -> mname (g u) = mname u -> sub_at (cs ++ ds) (alter_at cs g t) = sub_at ds (g u).
Proof.
  revert t. induction cs as [|c cs IH]; intros t Hu Hg; [by injection Hu as ->|].
  destruct t as [a e p n f l ks]. cbn in Hu |- *.
  destruct (find_kid c ks) as [k|] eqn:Hk; [|done]. cbn in Hu.
  destruct (find_kid_split _ _ _ Hk) as (ks1 & x & ks2 & -> & Hn & Hno & Halt). rewrite Halt.
  rewrite find_kid_mid; [cbn; by apply IH| |done]. rewrite <- Hn. by eapply alter_at_name.
Qed.

(** A path that does not go through the altered node. *)
Lemma mounted_alter cs g t u ds :
  sub_at cs t = Some u -> mname (g u) = mname u -> ¬ (∃ es, ds = cs ++ es) ->
  mounted (alter_at cs g t) ds = mounted t ds.
Proof.
  revert t ds. induction cs as [|c cs IH]; intros t ds Hu Hg Hds.
  - destruct Hds. by exists ds.
  - destruct t as [a e p n f l ks]. cbn in Hu. destruct (find_kid c ks) as [k|] eqn:Hk; [|done]. cbn in Hu.
    destruct (find_kid_split _ _ _ Hk) as (ks1 & x & ks2 & -> & Hn & Hno & Halt). cbn [alter_at]. rewrite Halt.
    pose proof (alter_at_name _ _ _ _ Hu Hg) as Hname.
    destruct ds as [|d ds]; [done|]. unfold mounted. cbn [sub_at mkids].
    destruct (decide (d = c)) as [->|Hd].
    + rewrite !find_kid_mid by congruence. cbn. apply IH; [done|done|]. intros [es ->]. apply Hds. by exists es.
    + rewrite (find_kid_other d _ x k) by congruence. done.
Qed.

(** ** The tree in memory *)

Section rep.
Context {AS : Type} `{!Allocator AS}.
Implicit Types (s : fs AS) (own : list Z) (t u : mtree) (ks : list (Z * mtree)).

Definition kid_nodes ks : list (Z * Z) := (λ '(x, k), (x, maddr k)) <$> ks.

Record node_rep s (a e p : Z) (n : list Z) (f l : Z) ks : Prop := {
  nr_node : ∃ par, kobj (store s) a = Some (TreeNode e l par);
  nr_addr : a ≠ 0;
  nr_ent : blk s e sizeof_entry;
  nr_np : word (f_mem s) (e + E_name) = p;
  nr_file : word (f_mem s) (e + E_file) = f;
  nr_name : str s p n;
  nr_kids : list_rep (store s) l (kid_nodes ks)
}.

Fixpoint mt_rep s (t : mtree) : Prop :=
  let 'MNode a e p n f l ks := t in
  node_rep s a e p n f l ks ∧
  (fix go (ks : list (Z * mtree)) := match ks with [] => True | k :: ks => mt_rep s k.2 ∧ go ks end) ks.

Lemma mt_rep_unfold s a e p n f l ks :
  mt_rep s (MNode a e p n f l ks) <-> node_rep s a e p n f l ks ∧ Forall (λ k, mt_rep s k.2) ks.
Proof.
  cbn [mt_rep]. apply and_iff_compat_l. induction ks as [|k ks IH]; [by rewrite Forall_nil|].
  by rewrite Forall_cons, IH.
Qed.

Lemma kid_nodes_fst ks : (kid_nodes ks).*1 = ks.*1.
Proof. induction ks as [|[x k] ks IH]; [done|]. exact (f_equal (cons x) IH). Qed.

Lemma node_change own s s' a e p n f l ks ks' :
  fs_ok s -> frame own s s' -> a ∉ own -> e ∉ own -> p ∉ own -> list_rep (store s') l (kid_nodes ks') ->
  node_rep s a e p n f l ks -> node_rep s' a e p n f l ks'.
Proof.
  intros Hok Hf Ha He Hp Hl [[par Hn] H0 Hb Hnp Hfl Hs Hr]. split; [|done|..|done].
  - exists par. unfold kobj in *. by rewrite (fr_store _ _ _ Hf).
  - by eapply blk_frame.
  - rewrite (word_frame own s s' e sizeof_entry); done.
  - rewrite (word_frame own s s' e sizeof_entry); done.
  - by eapply str_frame.
Qed.

Lemma node_frame own s s' a e p n f l ks :
  fs_ok s -> frame own s s' -> a ∉ own -> e ∉ own -> p ∉ own -> l ∉ own -> (∀ x, x ∈ ks.*1 -> x ∉ own) ->
  node_rep s a e p n f l ks -> node_rep s' a e p n f l ks.
Proof.
  intros Hok Hf Ha He Hp Hl Hks Hn. apply (node_change own s s' _ _ _ _ _ _ ks); [done..| |done].
  eapply list_stable; [done|done| |exact (nr_kids _ _ _ _ _ _ _ _ Hn)]. by rewrite kid_nodes_fst.
Qed.

Lemma mt_frame own s s' t :
  fs_ok s -> frame own s s' -> (∀ b, b ∈ foot t -> b ∉ own) -> mt_rep s t -> mt_rep s' t.
Proof.
  intros Hok Hf. induction t as [a e p n f l ks IH] using mtree_rose. rewrite foot_unfold, !mt_rep_unfold.
  intros Hd [Hn Hks]. split.
  - eapply node_frame; [done|done|..|done]; try (apply Hd; rewrite !elem_of_cons; tauto).
    intros x Hx. apply Hd. rewrite !elem_of_cons, elem_of_app. tauto.
  - rewrite !Forall_forall in *. intros [x k] Hk. apply (IH _ Hk); [|by apply (Hks _ Hk)].
    intros b Hb. apply Hd. rewrite !elem_of_cons, elem_of_app. do 5 right. by eapply feet_in.
Qed.

Lemma sub_at_foot cs t u b : sub_at cs t = Some u -> b ∈ foot u -> b ∈ foot t.
Proof.
  revert t. induction cs as [|c cs IH]; intros t; cbn [sub_at]; [by intros [= ->]|].
  destruct t as [a e p n f l ks]. cbn [mkids]. destruct (find_kid c ks) as [k|] eqn:Hk; [|done]. intros Hu Hb. cbn in Hu.
  destruct (find_kid_split _ _ _ Hk) as (ks1 & x & ks2 & -> & _). rewrite foot_unfold, !elem_of_cons, elem_of_app.
  do 5 right. eapply feet_in; [|by eapply IH]. rewrite elem_of_app, elem_of_cons. right. by left.
Qed.

Lemma sub_at_rep s cs t u : mt_rep s t -> sub_at cs t = Some u -> mt_rep s u.
Proof.
  revert t. induction cs as [|c cs IH]; intros t Ht; cbn [sub_at]; [by intros [= <-]|].
  destruct t as [a e p n f l ks]. apply mt_rep_unfold in Ht as [_ Hks]. cbn [mkids].
  destruct (find_kid c ks) as [k|] eqn:Hk; [|done]. cbn.
  destruct (find_kid_split _ _ _ Hk) as (ks1 & x & ks2 & -> & _). apply IH.
  apply Forall_app in Hks as [_ Hks]. by apply Forall_cons in Hks as [Hks _].
Qed.

Lemma foot_mid a e p n f l ks1 x k ks2 :
  foot (MNode a e p n f l (ks1 ++ (x, k) :: ks2))
    ≡ₚ (a :: e :: p :: l :: (ks1 ++ (x, k) :: ks2).*1 ++ feet ks1 ++ feet ks2) ++ foot k.
Proof.
  rewrite foot_unfold, feet_app, feet_cons. cbn [app]. do 4 apply Permutation_skip.
  rewrite <- app_assoc. apply Permutation_app_head. rewrite <- app_assoc. apply Permutation_app_head.
  apply Permutation_app_comm.
Qed.

(** A change inside the subtree at a path is a change of the tree. *)
Lemma alter_ok own s s' cs g t u :
  fs_ok s -> frame own s s' -> mt_rep s t -> NoDup (foot t) -> sub_at cs t = Some u ->
  mt_rep s' (g u) -> NoDup (foot (g u)) -> maddr (g u) = maddr u -> mname (g u) = mname u ->
  (∀ b, b ∈ own -> b ∈ foot u ∨ b ∉ foot t) -> (∀ b, b ∈ foot (g u) -> b ∈ foot u ∨ b ∉ foot t) ->
  mt_rep s' (alter_at cs g t) ∧ NoDup (foot (alter_at cs g t)) ∧
  ∀ b, b ∈ foot (alter_at cs g t) -> b ∈ foot t ∨ b ∈ foot (g u).
Proof.
  intros Hok Hf. revert t. induction cs as [|c cs IH]; intros t Ht Hnd Hu Hg Hgnd Hga Hgn Hown Hnew.
  { injection Hu as ->. cbn. split; [done|]. split; [done|]. tauto. }
  destruct t as [a e p n f l ks]. cbn [sub_at mkids] in Hu. destruct (find_kid c ks) as [k|] eqn:Hk; [|done]. cbn in Hu.
  destruct (find_kid_split _ _ _ Hk) as (ks1 & x & ks2 & -> & Hn & Hno & Halt). cbn [alter_at]. rewrite Halt.
  rewrite foot_mid in Hnd. apply mt_rep_unfold in Ht as [Hnode Hkids].
  apply NoDup_app in Hnd as (Hnd1 & Hdis & Hndk).
  assert (Hin : ∀ b, b ∈ foot (MNode a e p n f l (ks1 ++ (x, k) :: ks2)) <->
    b ∈ a :: e :: p :: l :: (ks1 ++ (x, k) :: ks2).*1 ++ feet ks1 ++ feet ks2 ∨ b ∈ foot k).
  { intros b. by rewrite foot_mid, elem_of_app. }
  assert (Huk : ∀ b, b ∈ foot u -> b ∈ foot k) by (intros b; by eapply sub_at_foot).
  set (others := a :: e :: p :: l :: (ks1 ++ (x, k) :: ks2).*1 ++ feet ks1 ++ feet ks2) in *.
  assert (Hko : ∀ b, b ∈ others -> b ∉ own).
  { intros b Hb Hbo. destruct (Hown b Hbo) as [Hbu|Hbt]; [by apply (Hdis b Hb), Huk|]. apply Hbt, Hin. by left. }
  pose proof Hkids as Hkids'. apply Forall_app in Hkids' as [Hk1 Hk2]. apply Forall_cons in Hk2 as [Hkk Hk2].
  destruct (IH k Hkk Hndk Hu Hg Hgnd Hga Hgn) as (Hrep' & Hnd' & Hsub').
  { intros b Hb. destruct (Hown b Hb) as [?|Hbt]; [by left|]. right. intros Hbk. apply Hbt, Hin. by right. }
  { intros b Hb. destruct (Hnew b Hb) as [?|Hbt]; [by left|]. right. intros Hbk. apply Hbt, Hin. by right. }
  assert (Hfst : (ks1 ++ (x, alter_at cs g k) :: ks2).*1 = (ks1 ++ (x, k) :: ks2).*1) by (by rewrite !fmap_app, !fmap_cons).
  split; [|split].
  - apply mt_rep_unfold. split.
    + assert (kid_nodes (ks1 ++ (x, alter_at cs g k) :: ks2) = kid_nodes (ks1 ++ (x, k) :: ks2)) as Heq.
      { unfold kid_nodes. rewrite !fmap_app, !fmap_cons. by rewrite (alter_at_addr _ _ _ _ Hu Hga). }
      apply (node_frame own s s') in Hnode; [|done|done|apply Hko; unfold others; rewrite !elem_of_cons; tauto..|].
      * destruct Hnode. split; try done. by rewrite Heq.
      * intros y Hy. apply Hko. unfold others. rewrite !elem_of_cons, !elem_of_app. tauto.
    + apply Forall_app. split; [|apply Forall_cons; split; [done|]]; rewrite Forall_forall in *;
        intros [y k'] Hy; (eapply mt_frame; [done|done| |by eauto]); intros b Hb; apply Hko; unfold others;
        rewrite !elem_of_cons, !elem_of_app; do 5 right; [left|right]; by eapply feet_in.
  - rewrite foot_mid, Hfst. apply NoDup_app. split; [done|]. split; [|done]. intros b Hb Hb'. fold others in Hb.
    destruct (Hsub' b Hb') as [?|Hbg]; [by apply (Hdis b)|].
    destruct (Hnew b Hbg) as [?|Hbt]; [by apply (Hdis b Hb), Huk|]. apply Hbt, Hin. by left.
  - intros b. rewrite foot_mid, Hfst, elem_of_app. fold others. rewrite Hin. intros [?|[?|?]%Hsub']; tauto.
Qed.
End rep.

(** ** Looking for a child *)

Section walk.
Context {AS : Type} `{!Allocator AS}.
Implicit Types (s : fs AS) (own : list Z) (t u : mtree) (ks : list (Z * mtree)).

Definition hit (w : list Z) (k : Z * mtree) : option Z := if bool_decide (mname k.2 = w) then Some (maddr k.2) else None.

Lemma find_kid_hits w ks : maddr <$> find_kid w ks = head (omap id (hit w <$> ks)).
Proof.
  induction ks as [|[x k] ks IH]; [done|]. cbn. unfold hit at 1. cbn. case_bool_decide; [done|exact IH].
Qed.

Lemma node_load s a e p n f l ks : fs_ok s -> node_rep s a e p n f l ks ->
  ∃ par, obj (load a) s = Done (TreeNode e l par) s.
Proof. intros Hok Hn. destruct (nr_node _ _ _ _ _ _ _ _ Hn) as [par Hp]. exists par. by apply obj_load. Qed.

Lemma ent_nonnull s a e p n f l ks : fs_ok s -> node_rep s a e p n f l ks -> e ≠ 0.
Proof. intros Hok Hn. exact (proj2 (proj2 (blk_range _ _ _ Hok (nr_ent _ _ _ _ _ _ _ _ Hn)))). Qed.

Lemma find_child_spec s u at_ w :
  fs_ok s -> mt_rep s u -> cstr (f_mem s) at_ w ->
  find_child (maddr u) at_ s = Done (from_option maddr 0 (find_kid w (mkids u))) s.
Proof.
  intros Hok Hu Hw. destruct u as [a e p n f l ks]. apply mt_rep_unfold in Hu as [Hn Hks].
  unfold find_child. cbn [maddr mkids]. destruct (node_load _ _ _ _ _ _ _ _ Hok Hn) as [par Hload]. mstep Hload.
  cbn [tn_children].
  erewrite bind_Done; [|apply (each_of_find _ (hit w <$> ks) l (kid_nodes ks)); [exact (nr_kids _ _ _ _ _ _ _ _ Hn)| |]].
  - cbn beta. replace (from_option maddr 0 (find_kid w ks)) with (default 0 (maddr <$> find_kid w ks)) by (by destruct (find_kid w ks)).
    rewrite find_kid_hits. by destruct (omap id (hit w <$> ks)).
  - unfold kid_nodes. by rewrite !length_fmap.
  - intros dn x v rest o Hsplit Ho.
    assert (Hi : kid_nodes ks !! length dn = Some (x, v)) by (by rewrite Hsplit, list_lookup_middle).
    unfold kid_nodes in Hi. apply list_lookup_fmap_Some in Hi as ([x' k] & [= -> ->] & Hi).
    rewrite list_lookup_fmap, Hi in Ho. injection Ho as <-.
    rewrite Forall_lookup in Hks. specialize (Hks _ _ Hi). cbn in Hks.
    destruct k as [ka ke kp kn kf kl kks]. apply mt_rep_unfold in Hks as [Hkn _].
    cbn [ln_value maddr]. destruct (node_load _ _ _ _ _ _ _ _ Hok Hkn) as [kpar Hkl]. mstep Hkl. cbn [tn_value].
    pose proof (ent_nonnull _ _ _ _ _ _ _ _ Hok Hkn). mstep (ldf_done s ke E_name ltac:(done)).
    rewrite (nr_np _ _ _ _ _ _ _ _ Hkn). destruct (strcmp_done s kp at_ kn w (proj2 (nr_name _ _ _ _ _ _ _ _ Hkn)) Hw) as (c & Hc & Hc0).
    mstep Hc. rewrite Hc0. unfold hit. cbn. by case_bool_decide.
Qed.

(** ** Making a child *)

Lemma mt_live s t b : fs_ok s -> mt_rep s t -> b ∈ foot t -> live s !! b ≠ None.
Proof.
  intros Hok. induction t as [a e p n f l ks IH] using mtree_rose. rewrite mt_rep_unfold, foot_unfold. intros [Hn Hks].
  pose proof Hn as [[par Ha] _ He _ _ [Hp _] Hl]. destruct (list_live _ _ _ Hok Hl) as [Hl1 Hl2].
  rewrite !elem_of_cons, elem_of_app. intros [->|[->|[->|[->|[Hb|Hb]]]]].
  - exact (kobj_live _ _ _ Hok Ha).
  - by eapply blk_live.
  - by eapply blk_live.
  - done.
  - apply Hl2. by rewrite kid_nodes_fst.
  - apply feet_out in Hb as (x & k & Hk & Hb). rewrite Forall_forall in IH, Hks. exact (IH _ Hk (Hks _ Hk) Hb).
Qed.

(** Several steps, each of which owns part of [own]. *)
Lemma step_chain own o1 n1 n2 s1 s2 s3 : step own n1 s1 s2 -> step o1 n2 s2 s3 -> (∀ b, b ∈ o1 -> b ∈ own) -> step own n2 s1 s3.
Proof. intros H1 H2 Hsub. eapply step_trans; [done|]. by eapply step_mono. Qed.

Lemma live_frame own s s' b : frame own s s' -> b ∉ own -> live s' !! b = live s !! b.
Proof. intros Hf. apply (fr_live _ _ _ Hf). Qed.

Lemma node_create_spec s n v :
  fs_ok s -> fs_room (2 + n) s ->
  ∃ out cl s', obj (tree_node_create v) s = Done out s' ∧ step [out; cl] n s s' ∧
    live s !! out = None ∧ live s !! cl = None ∧ out ≠ cl ∧
    kobj (store s') out = Some (TreeNode v cl 0) ∧ list_rep (store s') cl [] ∧ f_mem s' = f_mem s.
Proof.
  intros Hok Hroom.
  destruct (obj_alloc s (1 + n) 12 (TreeNode am_junk am_junk am_junk) Hok Hroom) as (out & s1 & E1 & S1 & F1 & K1 & M1);
    [unfold small_block; lia|]. pose proof S1 as [Ok1 Fr1 R1].
  destruct (obj_upd s1 _ out _ (set_tvalue v) Ok1 R1 K1) as (s2 & E2 & S2 & K2 & M2 & L2). pose proof S2 as [Ok2 Fr2 R2].
  destruct (create_spec s2 n Ok2 R2) as (cl & s3 & E3 & Ok3 & R3 & Hl3 & F3 & M3 & Fr3).
  pose proof (kobj_live _ _ _ Ok2 K2) as Lout.
  assert (Hne : out ≠ cl) by congruence.
  assert (F3' : live s !! cl = None).
  { rewrite <- F3, L2. symmetry. apply (fr_live _ _ _ Fr1). intros ->%list_elem_of_singleton. done. }
  assert (K3 : kobj (store s3) out = Some (set_tvalue v (TreeNode am_junk am_junk am_junk))).
  { rewrite (kobj_frame _ _ _ _ Fr3); [done|]. by intros ->%list_elem_of_singleton. }
  destruct (obj_upd s3 _ out _ (set_children cl) Ok3 R3 K3) as (s4 & E4 & S4 & K4 & M4 & L4). pose proof S4 as [Ok4 Fr4 R4].
  destruct (obj_upd s4 _ out _ (set_parent 0) Ok4 R4 K4) as (s5 & E5 & S5 & K5 & M5 & L5). pose proof S5 as [Ok5 Fr5 R5].
  exists out, cl, s5. split.
  { unfold tree_node_create. rewrite obj_bind. mstep E1. rewrite obj_bind. mstep E2. rewrite obj_bind. mstep E3.
    rewrite obj_bind. mstep E4. rewrite obj_bind. mstep E5. by apply obj_read. }
  split.
  { apply (step_chain _ [out] n _ _ s4); [|done|set_solver]. apply (step_chain _ [out] n _ _ s3); [|done|set_solver].
    apply (step_chain _ [cl] (1 + n) _ _ s2); [|by split|set_solver]. apply (step_chain _ [out] (1 + n) _ _ s1); [|done|set_solver].
    eapply step_mono; [|done]. set_solver. }
  do 3 (split; [done|]). split; [done|]. split; [|congruence].
  eapply list_stable; [exact Fr5|by intros ->%list_elem_of_singleton|by intros ? ?%elem_of_nil|].
  eapply list_stable; [exact Fr4|by intros ->%list_elem_of_singleton|by intros ? ?%elem_of_nil|done].
Qed.

(** What is not list structure. *)
Lemma list_other {T} `{!IsObj T} (h : gmap Z KHeap.obj) l ns b (x : T) :
  list_rep h l ns -> kobj h b = Some x ->
  (∀ o, of_obj (T := T) o = Some x -> of_obj (T := list_t) o = None ∧ of_obj (T := list_node) o = None) ->
  b ∉ l :: ns.*1.
Proof.
  intros Hl Hx Hno. rewrite not_elem_of_cons. split.
  - eapply (kobj_ne (T := T) (U := list_t) h); [exact Hx|exact (rep_obj _ _ _ Hl)|]. intros o [? ?]%Hno. congruence.
  - intros Hin. destruct (list_rep_node _ _ _ _ Hl Hin) as (nd & Hnd & _).
    eapply (kobj_ne (T := T) (U := list_node) h b b); [exact Hx|exact Hnd| |done]. intros o [? ?]%Hno. congruence.
Qed.
Lemma other_tree_node (o : KHeap.obj) (x : tree_node) : of_obj o = Some x -> of_obj (T := list_t) o = None ∧ of_obj (T := list_node) o = None.
Proof. by destruct o. Qed.
Lemma other_tree (o : KHeap.obj) (x : tree_t) : of_obj o = Some x -> of_obj (T := list_t) o = None ∧ of_obj (T := list_node) o = None.
Proof. by destruct o. Qed.

(** [tree_node_insert_child]: a new node for [v] at the end of [parent]'s
    children. *)
Lemma insert_child_spec s n T nn rt a e l par ns v :
  fs_ok s -> fs_room (3 + n) s -> kobj (store s) T = Some (TreeT nn rt) ->
  kobj (store s) a = Some (TreeNode e l par) -> list_rep (store s) l ns ->
  ∃ x out cl s', obj (tree_node_insert_child T a v) s = Done out s' ∧
    step (T :: l :: ns.*1 ++ [x; out; cl]) n s s' ∧
    live s !! x = None ∧ live s !! out = None ∧ live s !! cl = None ∧ NoDup [x; out; cl] ∧
    kobj (store s') out = Some (TreeNode v cl a) ∧ list_rep (store s') cl [] ∧
    list_rep (store s') l (ns ++ [(x, out)]) ∧ kobj (store s') T = Some (TreeT (u32 (nn + 1)) rt) ∧
    f_mem s' = f_mem s.
Proof.
  intros Hok Hroom HT Ha Hl. destruct (list_live _ _ _ Hok Hl) as [Ll Lns].
  pose proof (kobj_live _ _ _ Hok HT) as LT. pose proof (kobj_live _ _ _ Hok Ha) as La.
  destruct (node_create_spec s (1 + n) v Hok Hroom) as (out & cl & s1 & E1 & S1 & F1 & F1' & Hoc & K1 & Hcl1 & M1).
  pose proof S1 as [Ok1 Fr1 R1].
  assert (Hfresh : ∀ b, live s !! b ≠ None -> b ∉ [out; cl]) by (intros b Hb; set_solver).
  assert (Ha1 : kobj (store s1) a = Some (TreeNode e l par)) by (rewrite (kobj_frame _ _ _ _ Fr1); auto).
  assert (HT1 : kobj (store s1) T = Some (TreeT nn rt)) by (rewrite (kobj_frame _ _ _ _ Fr1); auto).
  assert (Hl1 : list_rep (store s1) l ns) by (eapply list_stable; [exact Fr1|auto..|done]).
  destruct (insert_spec s1 l ns out n Ok1 R1 Hl1) as (x & s2 & E2 & Ok2 & R2 & Hl2 & F2 & M2 & Fr2).
  assert (Hx : live s !! x = None ∧ x ≠ out ∧ x ≠ cl).
  { pose proof (kobj_live _ _ _ Ok1 K1) as Lo. destruct (list_live _ _ _ Ok1 Hcl1) as [Lc _].
    assert (x ≠ out ∧ x ≠ cl) as [? ?] by (split; congruence). split; [|done].
    rewrite <- F2. symmetry. apply (fr_live _ _ _ Fr1). set_solver. }
  destruct Hx as (Fx & Hxo & Hxc).
  assert (Hown : ∀ b, b ∉ l :: ns.*1 -> b ≠ x -> b ∉ x :: l :: ns.*1) by (intros; set_solver).
  assert (Hout : out ∉ l :: ns.*1) by (apply (list_other _ _ _ _ _ Hl1 K1); intros o; apply other_tree_node).
  assert (HTl : T ∉ l :: ns.*1) by (apply (list_other _ _ _ _ _ Hl1 HT1); intros o; apply other_tree).
  assert (HTx : T ≠ x) by congruence. assert (HTo : T ≠ out) by congruence. assert (HTc : T ≠ cl) by congruence.
  assert (Hcl : cl ∉ l :: ns.*1) by (rewrite not_elem_of_cons; split; [congruence|intros Hin; by apply (Lns cl Hin)]).
  assert (K2 : kobj (store s2) out = Some (TreeNode v cl 0)) by (rewrite (kobj_frame _ _ _ _ Fr2); auto).
  assert (HT2 : kobj (store s2) T = Some (TreeT nn rt)) by (rewrite (kobj_frame _ _ _ _ Fr2); auto).
  destruct (obj_upd s2 _ out _ (set_parent a) Ok2 R2 K2) as (s3 & E3 & S3 & K3 & M3 & L3). pose proof S3 as [Ok3 Fr3 R3].
  assert (HT3 : kobj (store s3) T = Some (TreeT nn rt)).
  { rewrite (kobj_frame _ _ _ _ Fr3); [done|]. by intros ->%list_elem_of_singleton. }
  destruct (obj_upd s3 _ T _ (λ r, set_nodes (u32 (t_nodes r + 1)) r) Ok3 R3 HT3) as (s4 & E4 & S4 & K4 & M4 & L4). pose proof S4 as [Ok4 Fr4 R4].
  exists x, out, cl, s4. split.
  { unfold tree_node_insert_child. rewrite obj_bind. mstep E1.
    assert (obj (tree_node_insert_child_node T a out) s1 = Done tt s4) as E.
    { unfold tree_node_insert_child_node. rewrite obj_bind. mstep (obj_load _ _ _ Ok1 Ha1). cbn [tn_children].
      rewrite obj_bind. mstep E2. rewrite obj_bind. by mstep E3. }
    rewrite obj_bind. mstep E. by apply obj_read. }
  split.
  { apply (step_chain _ [T] n _ _ s3); [|done|intros b; mem_solve]. apply (step_chain _ [out] n _ _ s2); [|done|intros b; mem_solve].
    apply (step_chain _ (x :: l :: ns.*1) (1 + n) _ _ s1); [|by split|intros b; mem_solve].
    eapply step_mono; [|done]. intros b. mem_solve. }
  split; [done|]. split; [done|]. split; [done|].
  split; [rewrite !NoDup_cons, !not_elem_of_cons; split_and!; (done || by intros ?%elem_of_nil || by apply NoDup_nil)|].
  split; [rewrite (kobj_frame _ _ _ _ Fr4); [done|by intros ->%list_elem_of_singleton]|].
  assert (Hkeep : ∀ m ms, out ∉ m :: ms.*1 -> T ∉ m :: ms.*1 -> list_rep (store s2) m ms -> list_rep (store s4) m ms).
  { intros m ms Ho HTm Hm. rewrite not_elem_of_cons in Ho, HTm. destruct Ho, HTm.
    eapply list_stable; [exact Fr4|by intros ->%list_elem_of_singleton|by intros ? ? ->%list_elem_of_singleton|].
    eapply list_stable; [exact Fr3|by intros ->%list_elem_of_singleton|by intros ? ? ->%list_elem_of_singleton|done]. }
  split; [apply Hkeep; [cbn; rewrite not_elem_of_cons; split; [done|by intros ?%elem_of_nil]..|]|].
  { eapply list_stable; [exact Fr2|auto|by intros ? ?%elem_of_nil|done]. }
  split; [apply Hkeep; [intros Hin; apply Hout|intros Hin; apply HTl|done]|].
  1-2: revert Hin; rewrite fmap_app, !elem_of_cons, elem_of_app; cbn; rewrite list_elem_of_singleton; naive_solver.
  split; [done|congruence].
Qed.

Lemma text_step own n s s' p l : step own n s s' -> text own s p l -> text [] s' p l.
Proof.
  intros [Hok Hf _] Ht. apply (text_mono own); [by intros ? ?%elem_of_nil|]. by apply (text_frame own own s).
Qed.

Lemma text_fresh own s p l : (∀ a, a ∈ own -> live s !! a = None) -> text [] s p l -> text own s p l.
Proof.
  intros Hfr [(H0 & Hs) Hc]. split; [|done]. split; [done|]. destruct Hs as [?|(q & k & _ & Hq & ?)]; [by left|].
  right. exists q, k. split; [|done]. intros Hin%Hfr. congruence.
Qed.

(** An entry for a name with no file. *)
Lemma new_entry_spec s n at_ w :
  fs_ok s -> fs_room (2 + n) s -> text [] s at_ w -> Z.of_nat (length w) + 1 <= small_block ->
  ∃ ent nm s1 s2 s3 s4, fmalloc sizeof_entry s = Done ent s1 ∧ fstrdup at_ s1 = Done nm s2 ∧
    stf ent E_name nm s2 = Done tt s3 ∧ stf ent E_file 0 s3 = Done tt s4 ∧
    step [ent; nm] n s s4 ∧ live s !! ent = None ∧ live s !! nm = None ∧ ent ≠ nm ∧ blk s4 ent sizeof_entry ∧
    str s4 nm w ∧ word (f_mem s4) (ent + E_name) = nm ∧ word (f_mem s4) (ent + E_file) = 0.
Proof.
  intros Hok Hroom Ht Hw. unfold E_name, E_file, sizeof_entry.
  destruct (fmalloc_spec s (1 + n) 8 Hok Hroom) as (ent & s1 & E1 & Ok1 & R1 & F1 & B1 & M1 & Fr1); [unfold small_block; lia|].
  assert (S1 : step [ent] (1 + n) s s1) by done.
  assert (Ht1 : text [] s1 at_ w).
  { eapply text_step; [exact S1|]. apply text_fresh; [|done]. by intros a ->%list_elem_of_singleton. }
  destruct (fstrdup_spec s1 n at_ w Ok1 R1 Ht1 Hw) as (nm & s2 & E2 & S2 & F2 & Hs2). pose proof S2 as [Ok2 Fr2 R2].
  assert (Hne : ent ≠ nm) by (intros ->; by apply (blk_live _ _ _ B1)).
  assert (B2 : blk s2 ent 8) by (eapply blk_frame; [|exact Fr2|done]; by intros ->%list_elem_of_singleton).
  destruct (stf_done s2 n ent 8 0 nm Ok2 R2 B2) as (s3 & E3 & S3 & W3 & O3 & Ob3); [lia..|]. pose proof S3 as [Ok3 Fr3 R3].
  assert (B3 : blk s3 ent 8) by (unfold blk, store, live; by rewrite Ob3).
  destruct (stf_done s3 n ent 8 4 0 Ok3 R3 B3) as (s4 & E4 & S4 & W4 & O4 & Ob4); [lia..|]. pose proof S4 as [Ok4 Fr4 R4].
  pose proof (blk_range _ _ _ Ok1 B1) as (? & ? & _). pose proof am_base_pos.
  exists ent, nm, s1, s2, s3, s4. do 4 (split; [done|]).
  split; [|split; [done|split; [|split; [done|split; [|split; [|split]]]]]].
  - apply (step_chain _ [ent] n _ _ s3); [|done|set_solver]. apply (step_chain _ [ent] n _ _ s2); [|done|set_solver].
    apply (step_chain _ [nm] (1 + n) _ _ s1); [|done|set_solver]. eapply step_mono; [|done]. set_solver.
  - rewrite <- F2. symmetry. apply (fr_live _ _ _ Fr1). intros ->%list_elem_of_singleton. done.
  - unfold blk, store, live. by rewrite Ob4.
  - eapply str_frame; [exact Ok3| |exact Fr4|]; [by intros ->%list_elem_of_singleton|].
    eapply str_frame; [exact Ok2| |exact Fr3|done]. by intros ->%list_elem_of_singleton.
  - rewrite (word_eq (ent + 0) (f_mem s3)); [|lia|lia|intros b Hb; apply O4; lia]. rewrite W3. apply u32_small.
    pose proof (blk_range _ _ _ Ok2 (proj1 Hs2)) as (? & ? & _). lia.
  - rewrite W4. reflexivity.
Qed.

Lemma kid_nodes_app ks ks' : kid_nodes (ks ++ ks') = kid_nodes ks ++ kid_nodes ks'.
Proof. apply fmap_app. Qed.

Lemma make_child_spec s n u at_ w nn rt :
  fs_ok s -> fs_room (5 + n) s -> mt_rep s u -> NoDup (foot u) -> vfs_tree s ∉ foot u ->
  kobj (store s) (vfs_tree s) = Some (TreeT nn rt) -> text [] s at_ w -> Z.of_nat (length w) + 1 <= small_block ->
  ∃ k x s', make_child (maddr u) at_ s = Done (maddr k) s' ∧
    step (vfs_tree s :: mlist u :: (mkids u).*1 ++ x :: foot k) n s s' ∧
    mname k = w ∧ mfile k = 0 ∧ mkids k = [] ∧ mt_rep s' (with_kid x k u) ∧ NoDup (x :: foot k) ∧
    (∀ b, b ∈ x :: foot k -> live s !! b = None) ∧ kobj (store s') (vfs_tree s) = Some (TreeT (u32 (nn + 1)) rt).
Proof.
  intros Hok Hroom Hu Hnd HTu HT Ht Hw. pose proof (λ b, mt_live s u b Hok Hu) as Hlv. destruct u as [a e p m f l ks].
  apply mt_rep_unfold in Hu as [Hn Hks]. rewrite foot_unfold in Hnd, HTu, Hlv. cbn [maddr mlist mkids].
  pose proof (kobj_live _ _ _ Hok HT) as LT. set (T := vfs_tree s) in *.
  destruct (new_entry_spec s (3 + n) at_ w Hok Hroom Ht Hw) as
    (ent & nm & s1 & s2 & s3 & s4 & E1 & E2 & E3 & E4 & S4 & Fe & Fn & Hen & B4 & Str4 & W0 & W4).
  pose proof S4 as [Ok4 Fr4 R4]. destruct (nr_node _ _ _ _ _ _ _ _ Hn) as [par Ha].
  assert (Hfresh : ∀ b, live s !! b ≠ None -> b ∉ [ent; nm]) by (intros b Hb; set_solver).
  assert (Ha4 : kobj (store s4) a = Some (TreeNode e l par)).
  { rewrite (kobj_frame _ _ _ _ Fr4); [done|]. apply Hfresh, Hlv. by left. }
  assert (HT4 : kobj (store s4) T = Some (TreeT nn rt)) by (rewrite (kobj_frame _ _ _ _ Fr4); auto).
  assert (Hll : live s !! l ≠ None) by (apply Hlv; rewrite !elem_of_cons; tauto).
  assert (Hlk : ∀ b, b ∈ ks.*1 -> live s !! b ≠ None) by (intros b Hb; apply Hlv; rewrite !elem_of_cons, elem_of_app; tauto).
  assert (Hl4 : list_rep (store s4) l (kid_nodes ks)).
  { eapply list_stable; [exact Fr4|auto| |exact (nr_kids _ _ _ _ _ _ _ _ Hn)]. rewrite kid_nodes_fst. auto. }
  destruct (insert_child_spec s4 n T nn rt a e l par (kid_nodes ks) ent Ok4 R4 HT4 Ha4 Hl4) as
    (x & out & cl & s5 & E5 & S5 & Fx & Fo & Fc & Hnd5 & K5 & Hcl5 & Hl5 & HT5 & M5).
  rewrite kid_nodes_fst in S5. pose proof S5 as [Ok5 Fr5 R5].
  assert (HvT : vfs_tree s4 = T) by (by destruct (fr_globals _ _ _ Fr4)).
  assert (Hold : ∀ b, live s4 !! b = None -> b ≠ ent ∧ b ≠ nm ∧ live s !! b = None).
  { intros b Hb. assert (b ≠ ent) by (intros ->; by apply (blk_live _ _ _ B4)).
    assert (b ≠ nm) by (intros ->; by apply (blk_live _ _ _ (proj1 Str4))). split; [done|]. split; [done|].
    rewrite <- Hb. symmetry. apply (fr_live _ _ _ Fr4). set_solver. }
  destruct (Hold _ Fx) as (Hxe & Hxn & Fx0). destruct (Hold _ Fo) as (Hoe & Hon & Fo0). destruct (Hold _ Fc) as (Hce & Hcn & Fc0).
  set (k := MNode out ent nm w 0 cl []). set (own := T :: l :: ks.*1 ++ x :: foot k).
  assert (Hfk : foot k = [out; ent; nm; cl]) by done.
  assert (S5' : step own n s s5).
  { apply (step_chain _ (T :: l :: ks.*1 ++ [x; out; cl]) (3 + n) _ _ s4); [|done|].
    - eapply step_mono; [|exact S4]. intros b. unfold own. rewrite Hfk, !elem_of_cons, elem_of_app, !elem_of_cons. tauto.
    - intros b. unfold own. rewrite Hfk, !elem_of_cons, !elem_of_app, !elem_of_cons. tauto. }
  assert (Hnew : ∀ b, b ∈ x :: foot k -> live s !! b = None).
  { intros b. rewrite Hfk, !elem_of_cons, elem_of_nil. intros [->|[->|[->|[->|[->|[]]]]]]; done. }
  assert (Hnew5 : ∀ b, b = ent ∨ b = nm -> b ∉ T :: l :: ks.*1 ++ [x; out; cl]).
  { intros b Hb. rewrite !not_elem_of_cons, not_elem_of_app, !not_elem_of_cons.
    assert (live s !! b = None) by (by destruct Hb as [->| ->]).
    split; [congruence|]. split; [congruence|]. split; [intros Hin%Hlk; done|].
    destruct Hb as [->| ->]; split_and!; try congruence; by intros ?%elem_of_nil. }
  assert (Hkept : ∀ b, b ∈ foot (MNode a e p m f l ks) -> b ≠ l -> b ∉ ks.*1 -> b ∉ own).
  { intros b Hb Hbl Hbk. rewrite foot_unfold in Hb. unfold own. rewrite !not_elem_of_cons, not_elem_of_app.
    split; [by intros ->|]. split; [done|]. split; [done|]. intros Hin%Hnew. by apply (Hlv b). }
  exists k, x, s5. split; [|split; [done|]].
  { unfold make_child. mstep E1. mstep E2. mstep E3. mstep E4. mrun. by rewrite HvT. }
  do 3 (split; [done|]). rewrite !NoDup_cons in Hnd. destruct Hnd as (Hna & Hne & Hnp & Hnl & Hnk).
  apply NoDup_app in Hnk as (_ & Hnk & _).
  assert (Hlist : ∀ b, (l = b ∨ b ∈ ks.*1 -> False) -> b ∈ foot (MNode a e p m f l ks) -> b ∉ own).
  { intros b Hno Hb. apply Hkept; [done|intros ->; tauto|tauto]. }
  split; [|split; [|split; [done|done]]].
  - cbn [with_kid]. apply mt_rep_unfold. split.
    + eapply node_change; [exact Hok|exact (st_frame _ _ _ _ S5')|..|exact Hn];
        try (apply Hlist; [intros Hin|rewrite foot_unfold, !elem_of_cons; tauto]).
      * apply Hna. rewrite !elem_of_cons, elem_of_app. naive_solver.
      * apply Hne. rewrite !elem_of_cons, elem_of_app. naive_solver.
      * apply Hnp. rewrite !elem_of_cons, elem_of_app. naive_solver.
      * by rewrite kid_nodes_app.
    + apply Forall_app. split; [|constructor; [|done]].
      * rewrite Forall_forall in *. intros [y q] Hq. eapply mt_frame; [exact Hok|exact (st_frame _ _ _ _ S5')| |exact (Hks _ Hq)].
        intros b Hb. pose proof (feet_in _ _ _ _ Hq Hb) as Hbf. apply Hkept.
        -- rewrite foot_unfold, !elem_of_cons, elem_of_app. tauto.
        -- intros ->. apply Hnl. rewrite elem_of_app. tauto.
        -- intros Hin. by apply (Hnk b).
      * apply mt_rep_unfold. split; [|done]. split.
        -- by exists a.
        -- exact (kobj_nonnull _ _ _ Ok5 K5).
        -- eapply blk_frame; [|exact Fr5|done]. auto.
        -- rewrite (word_frame (T :: l :: ks.*1 ++ [x; out; cl]) s4 s5 ent sizeof_entry); [done|done|exact Fr5|auto|done|done|done].
        -- rewrite (word_frame (T :: l :: ks.*1 ++ [x; out; cl]) s4 s5 ent sizeof_entry); [done|done|exact Fr5|auto|done|done|done].
        -- eapply str_frame; [exact Ok4| |exact Fr5|done]. auto.
        -- exact Hcl5.
  - rewrite Hfk. apply NoDup_cons in Hnd5 as [N1 N2]. apply NoDup_cons in N2 as [N2 _].
    apply not_elem_of_cons in N1 as [N1 N3]. rewrite list_elem_of_singleton in N2, N3.
    repeat (apply NoDup_cons; split; [repeat (apply not_elem_of_cons; split); (congruence || by intros ?%elem_of_nil)|]).
    by apply NoDup_nil.
Qed.
End walk.
