(* ===== verification/VfsTable.v ===== *)
(** * Mounting and opening (kernel/vfs.c: vfs_mount, get_mount_point, kopen)

    The mount tree as a table from paths to nodes: [vfs_mount] extends it,
    [get_mount_point] finds the longest mounted prefix of a path and [kopen]
    of a mount point returns a copy of the node mounted there. *)

From S2P Require Import Prelude Dll KHeap KList CString Ram Fs Tree Vfs VfsPath VfsMount.

(** ** Paths cut at their separators *)

Definition not_sep (x : Z) : bool := negb (x =? 47).

(** The names of a path, after its first separator: the pieces between
    separators, without an empty one at the end. *)
Fixpoint names_from (cur l : list Z) : list (list Z) :=
  match l with
  | [] => [cur]
  | x :: l' =>
      if x =? 47 then cur :: match l' with [] => [] | _ => names_from [] l' end
      else names_from (cur ++ [x]) l'
  end.
Definition names (l : list Z) : list (list Z) := match l with [] => [] | _ => names_from [] l end.

Lemma names_from_span cur l :
  names_from cur l = (cur ++ take (span not_sep l) l) :: names (drop (S (span not_sep l)) l).
Proof.
  revert cur. induction l as [|x l IH]; intros cur; cbn [names_from span]; [by rewrite take_nil, app_nil_r|].
  unfold not_sep at 1 3. destruct (x =? 47); cbn [negb take drop].
  - by rewrite app_nil_r, drop_0.
  - rewrite IH, <- app_assoc. done.
Qed.
Lemma names_cons x l : names (x :: l) = take (span not_sep (x :: l)) (x :: l) :: names (drop (S (span not_sep (x :: l))) (x :: l)).
Proof. apply (names_from_span []). Qed.

Definition cut (x : Z) : Z := if x =? 47 then 0 else x.
Fixpoint cutstr (m : ram) (a : Z) (l : list Z) : Prop :=
  match l with
  | [] => 0 <= a < 2 ^ 32 ∧ rd m a = Some 0
  | x :: l' => 0 <= a ∧ rd m a = Some (cut x) ∧ 0 < x < 256 ∧ cutstr m (a + 1) l'
  end.

Lemma cutstr_range m a l : cutstr m a l -> 0 <= a ∧ a + Z.of_nat (length l) < 2 ^ 32.
Proof.
  revert a. induction l as [|x l IH]; intros a; cbn [cutstr length]; [lia|]. intros (? & _ & _ & Hl). apply IH in Hl. lia.
Qed.

Lemma cutstr_frame m m' a l :
  (∀ i, 0 <= i <= Z.of_nat (length l) -> rd m' (a + i) = rd m (a + i)) -> cutstr m a l -> cutstr m' a l.
Proof.
  revert a. induction l as [|x l IH]; intros a Heq; cbn [cutstr length] in *.
  - pose proof (Heq 0 ltac:(lia)) as H0. rewrite Z.add_0_r in H0. by rewrite H0.
  - pose proof (Heq 0 ltac:(lia)) as H0. rewrite Z.add_0_r in H0. rewrite H0. intros (? & ? & ? & Hl).
    split; [done|]. split; [done|]. split; [done|]. apply IH; [|done]. intros i Hi.
    replace (a + 1 + i) with (a + (1 + i)) by lia. apply Heq. lia.
Qed.

(** The first piece is a string, and the others follow it. *)
Lemma cutstr_head m a l : cutstr m a l -> cstr m a (take (span not_sep l) l).
Proof.
  revert a. induction l as [|x l IH]; intros a; cbn [cutstr span]; [done|]. intros (? & Hx & ? & Hl).
  pose proof (cutstr_range _ _ _ Hl). unfold cut in Hx. unfold not_sep. destruct (x =? 47); cbn.
  - split; [lia|done].
  - split; [done|]. split; [done|]. split; [done|]. by apply IH.
Qed.
Lemma cutstr_drop m a l k : (k <= length l)%nat -> cutstr m a l -> cutstr m (a + Z.of_nat k) (drop k l).
Proof.
  revert a l. induction k as [|k IH]; intros a [|x l] Hk Hl; cbn [length] in Hk; try lia; cbn [drop].
  - by rewrite Z.add_0_r.
  - by rewrite Z.add_0_r.
  - destruct Hl as (_ & _ & _ & Hl). replace (a + Z.of_nat (S k)) with (a + 1 + Z.of_nat k) by lia. apply IH; [lia|done].
Qed.

Section cutting.
Context {AS : Type} `{!Allocator AS}.
Implicit Types s : fs AS.

(** How many separators there are. *)
Definition seps (l : list Z) : Z := Z.of_nat (length (filter (λ x, x = 47) l)).

Lemma seps_cons x l : seps (x :: l) = (if x =? 47 then 1 else 0) + seps l.
Proof. unfold seps. rewrite filter_cons. destruct (Z.eqb_spec x 47); [rewrite decide_True|rewrite decide_False]; cbn [length]; lia. Qed.
Lemma seps_range l : 0 <= seps l <= Z.of_nat (length l).
Proof. unfold seps. pose proof (length_filter (λ x, x = 47) l). lia. Qed.

Definition cut_step (lim : Z) : Z * Z -> M (fs AS) (Z * Z + Z) := λ '(i, n),
  if i <? lim then
    c ← mem (load8 i);
    if c =? PATH_SEPARATOR then mem (store8 i 0);; mret (inl (i + 1, u32 (n + 1))) else mret (inl (i + 1, n))
  else mret (inr n).

Lemma store_byte s p k a v :
  fs_ok s -> blk s p k -> p <= a < p + k ->
  ∃ d, mem (store8 a v) s = Done tt (set_fmem d s) ∧ frame [p] s (set_fmem d s) ∧
    ∀ b, rd d b = if b =? a then Some (u8 v) else rd (f_mem s) b.
Proof.
  intros Hok Hb Ha. pose proof (blk_range _ _ _ Hok Hb). pose proof am_base_pos.
  destruct (store8_ok (f_mem s) a v) as (d & E & Hd); [lia|by eexists|].
  exists d. split; [by apply mem_done|]. split; [|done].
  apply (frame_outside s p k a 1); [done|done|lia|lia|]. intros b Hbb. by rewrite Hd, (proj2 (Z.eqb_neq _ _)) by lia.
Qed.

Lemma cut_runs p k lim l : ∀ i n s,
  fs_ok s -> blk s p k -> p <= i -> i + Z.of_nat (length l) = lim -> lim + 1 <= p + k -> cstr (f_mem s) i l ->
  0 <= n -> n + Z.of_nat (length l) < 2 ^ 32 ->
  ∃ d, runs (cut_step lim) (S (length l)) (i, n) s (n + seps l) (set_fmem d s) ∧ cutstr d i l ∧
    frame [p] s (set_fmem d s) ∧ ∀ b, b < i ∨ lim <= b -> rd d b = rd (f_mem s) b.
Proof.
  induction l as [|x l IH]; intros i n s Hok Hb Hi Hlim Hk Hc Hn Hlen; cbn [length] in *.
  - exists (f_mem s). replace (set_fmem (f_mem s) s) with s by (by destruct s).
    split; [|split; [exact Hc|split; [apply frame_refl|done]]].
    constructor. unfold cut_step. rewrite (proj2 (Z.ltb_ge _ _)) by lia. unfold seps. cbn. by rewrite Z.add_0_r.
  - pose proof Hc as (Hi0 & Hx & Hxr & Hc'). pose proof (cstr_range _ _ _ Hc').
    assert (∃ d1, cut_step lim (i, n) s = Done (inl (i + 1, n + (if x =? 47 then 1 else 0))) (set_fmem d1 s) ∧
      frame [p] s (set_fmem d1 s) ∧ rd d1 i = Some (cut x) ∧ ∀ b, b ≠ i -> rd d1 b = rd (f_mem s) b) as (d1 & E1 & Fr1 & Hd1 & Ho1).
    { unfold cut_step, cut. rewrite (proj2 (Z.ltb_lt _ _)) by lia.
      mstep (mem_read (load8 i) s _ (load8_ok (f_mem s) i x ltac:(lia) Hx)). change PATH_SEPARATOR with 47. destruct (Z.eqb_spec x 47).
      - destruct (store_byte s p k i 0 Hok Hb ltac:(lia)) as (d & E & Fr & Hd). exists d. mstep E.
        rewrite u32_small by lia. split; [done|]. split; [done|]. split; [by rewrite Hd, Z.eqb_refl|].
        intros b Hbi. by rewrite Hd, (proj2 (Z.eqb_neq _ _)).
      - exists (f_mem s). replace (set_fmem (f_mem s) s) with s by (by destruct s). rewrite Z.add_0_r. by split. }
    destruct (IH (i + 1) (n + (if x =? 47 then 1 else 0)) (set_fmem d1 s)) as (d & Hruns & Hcut & Fr & Ho);
      [done|done|lia|lia|lia| |destruct (x =? 47); lia|destruct (x =? 47); lia|].
    { eapply cstr_frame; [|exact Hc']. intros j Hj. apply Ho1. lia. }
    exists d. replace (set_fmem d (set_fmem d1 s)) with (set_fmem d s) in * by done.
    split; [|split; [|split]].
    + rewrite seps_cons, Z.add_assoc. by eapply runs_step.
    + cbn [cutstr]. split; [done|]. split; [|done]. rewrite Ho by lia. done.
    + by eapply frame_trans.
    + intros b Hbb. rewrite Ho by lia. cbn [set_fmem f_mem]. apply Ho1. lia.
Qed.

(** [path] is cut up in place. *)
Lemma cut_path_spec s p k l :
  fs_ok s -> blk s p k -> Z.of_nat (length l) + 1 <= k -> cstr (f_mem s) p l ->
  ∃ d, cut_path p (Z.of_nat (length l)) s = Done (seps l) (set_fmem d s) ∧ cutstr d p l ∧ frame [p] s (set_fmem d s).
Proof.
  intros Hok Hb Hk Hc. pose proof (blk_range _ _ _ Hok Hb). pose proof am_base_pos. pose proof (cstr_range _ _ _ Hc).
  destruct (cut_runs p k (p + Z.of_nat (length l)) l p 0 s) as (d & Hruns & Hcut & Fr & Ho); [done|done|lia..|done|lia|lia|].
  destruct (store_byte (set_fmem d s) p k (p + Z.of_nat (length l)) 0) as (d2 & E2 & Fr2 & Hd2); [done|done|lia|].
  exists d2. split; [|split; [|by eapply frame_trans]].
  - unfold cut_path. erewrite bind_Done; [|eapply (runs_while (cut_step (p + Z.of_nat (length l)))); [exact Hruns|]].
    + cbn beta. rewrite u32_small by lia. by mstep E2.
    + pose proof word_fuel_Z. lia.
  - apply (cutstr_frame d); [|done]. intros j Hj. rewrite Hd2. cbn [set_fmem f_mem].
    destruct (Z.eqb_spec (p + j) (p + Z.of_nat (length l))) as [Heq|]; [|done].
    assert (Hend : cutstr d (p + Z.of_nat (length l)) []).
    { rewrite <- (drop_ge l (length l)) by lia. by apply cutstr_drop. }
    rewrite Heq. destruct Hend as [_ Hend]. by rewrite Hend.
Qed.
End cutting.

(** ** The mount table *)

Section table.
Context {AS : Type} `{!Allocator AS}.
Implicit Types (s : fs AS) (own : list Z) (t u : mtree) (ks : list (Z * mtree)).

(** The state holds the mount tree [t]. *)
Record mounts s t : Prop := {
  mo_ok : fs_ok s;
  mo_tree : ∃ nn, kobj (store s) (vfs_tree s) = Some (TreeT nn (maddr t));
  mo_rep : mt_rep s t;
  mo_nodup : NoDup (foot t);
  mo_apart : vfs_tree s ∉ foot t;
  mo_root : vfs_root_node s = mfile t
}.

(** Only the mount tree and blocks allocated since may differ. *)
Definition touches s t s' : Prop :=
  ∃ own, frame own s s' ∧ ∀ b, b ∈ own -> b = vfs_tree s ∨ b ∈ foot t ∨ live s !! b = None.

Lemma touches_refl s t : touches s t s.
Proof. exists []. split; [apply frame_refl|]. by intros b ?%elem_of_nil. Qed.

Lemma touches_live s t s' b : touches s t s' -> live s !! b ≠ None -> b ≠ vfs_tree s -> b ∉ foot t ->
  ∃ own, frame own s s' ∧ b ∉ own.
Proof. intros (own & Hf & Hown) Hl Hb Hbt. exists own. split; [done|]. intros Hin. destruct (Hown b Hin) as [?|[?|?]]; done. Qed.

Lemma touches_trans s1 t1 s2 t2 s3 :
  touches s1 t1 s2 -> touches s2 t2 s3 -> (∀ b, b ∈ foot t2 -> b ∈ foot t1 ∨ live s1 !! b = None) -> touches s1 t1 s3.
Proof.
  intros (o1 & F1 & H1) (o2 & F2 & H2) Hf. exists (o1 ++ o2). split.
  - eapply frame_trans; (eapply frame_mono; [|done]); intros b; rewrite elem_of_app; tauto.
  - intros b. rewrite elem_of_app. intros [Hb|Hb]; [by apply H1|]. destruct (fr_globals _ _ _ F1) as (Hv & _).
    destruct (H2 b Hb) as [->|[Hbt|Hl]]; [by left|right; by apply Hf|].
    destruct (decide (b ∈ o1)) as [Hin|Hin]; [by apply H1|]. right. right. by rewrite <- (fr_live _ _ _ F1).
Qed.

Lemma foot_alter_mono cs g t u : sub_at cs t = Some u -> (∀ b, b ∈ foot u -> b ∈ foot (g u)) ->
  ∀ b, b ∈ foot t -> b ∈ foot (alter_at cs g t).
Proof.
  revert t. induction cs as [|c cs IH]; intros t; cbn [sub_at]; [by intros [= ->]|].
  destruct t as [a e p n f l ks]. cbn [mkids]. destruct (find_kid c ks) as [k|] eqn:Hk; [|done]. intros Hu Hg b. cbn in Hu.
  destruct (find_kid_split _ _ _ Hk) as (ks1 & x & ks2 & -> & _ & _ & Halt). cbn [alter_at]. rewrite Halt, !foot_unfold.
  rewrite !fmap_app, !fmap_cons, !feet_app, !feet_cons. cbn [fst]. rewrite !elem_of_cons, !elem_of_app.
  pose proof (IH k Hu Hg b). tauto.
Qed.

Lemma find_kid_snoc w x k ks : find_kid w (ks ++ [(x, k)]) =
  match find_kid w ks with Some k' => Some k' | None => if bool_decide (mname k = w) then Some k else None end.
Proof. induction ks as [|[y k'] ks IH]; [done|]. cbn. destruct (bool_decide (mname k' = w)); [done|exact IH]. Qed.

Lemma with_kid_parts x k u : mname (with_kid x k u) = mname u ∧ maddr (with_kid x k u) = maddr u ∧
  mfile (with_kid x k u) = mfile u ∧ mlist (with_kid x k u) = mlist u ∧ mkids (with_kid x k u) = mkids u ++ [(x, k)].
Proof. by destruct u. Qed.
Lemma foot_with_kid x k u : foot (with_kid x k u) ≡ₚ foot u ++ x :: foot k.
Proof.
  destruct u as [a e p n f l ks]. cbn [with_kid]. rewrite !foot_unfold, fmap_app, feet_app. unfold feet at 2. cbn.
  rewrite app_nil_r, <- !app_assoc. do 4 apply Permutation_skip. apply Permutation_app_head. cbn.
  apply Permutation_middle.
Qed.

Lemma sub_at_nodup cs t u : NoDup (foot t) -> sub_at cs t = Some u -> NoDup (foot u).
Proof.
  revert t. induction cs as [|c cs IH]; intros t Hnd; cbn [sub_at]; [by intros [= <-]|].
  destruct t as [a e p n f l ks]. cbn [mkids]. destruct (find_kid c ks) as [k|] eqn:Hk; [|done]. apply IH.
  destruct (find_kid_split _ _ _ Hk) as (ks1 & x & ks2 & -> & _). rewrite foot_mid in Hnd. by apply NoDup_app in Hnd as (_ & _ & Hnd).
Qed.

(** A child with nothing mounted on it does not change the table. *)
Lemma mounted_with_kid cs x k t u ds :
  sub_at cs t = Some u -> find_kid (mname k) (mkids u) = None -> mfile k = 0 -> mkids k = [] ->
  mounted (alter_at cs (with_kid x k) t) ds = mounted t ds.
Proof.
  intros Hu Hno Hf Hk. destruct (with_kid_parts x k u) as (Hn & _ & Hfu & _ & Hks).
  destruct (decide (prefix cs ds)) as [(es & ->)|Hds].
  - unfold mounted. rewrite (sub_at_alter _ _ _ _ _ Hu Hn), sub_at_app, Hu. cbn.
    destruct es as [|c es]; cbn; [done|]. rewrite Hks, find_kid_snoc by done.
    destruct (find_kid c (mkids u)) as [k'|] eqn:Hc; [done|]. case_bool_decide as Hck; [|done].
    cbn. destruct es as [|d es]; [done|]. cbn. by rewrite Hk.
  - by eapply mounted_alter.
Qed.

(** [t'] in [s'] is [t] in [s], perhaps with more nodes. *)
Record grown s t s' t' : Prop := {
  gr_mounts : mounts s' t';
  gr_table ds : mounted t' ds = mounted t ds;
  gr_touches : touches s t s';
  gr_new b : b ∈ foot t' -> b ∈ foot t ∨ live s !! b = None;
  gr_mono b : b ∈ foot t -> b ∈ foot t';
  gr_live b : live s' !! b ≠ None -> live s !! b ≠ None ∨ b ∈ foot t'
}.

Lemma grown_refl s t : mounts s t -> grown s t s t.
Proof. intros Hm. split; [done|done|apply touches_refl|by left|done|by left]. Qed.

Lemma grown_trans s1 t1 s2 t2 s3 t3 : grown s1 t1 s2 t2 -> grown s2 t2 s3 t3 -> grown s1 t1 s3 t3.
Proof.
  intros [M1 T1 C1 N1 F1 L1] [M2 T2 C2 N2 F2 L2]. split; [done|congruence|by eapply touches_trans|..].
  - intros b Hb. destruct (N2 b Hb) as [?|Hl]; [by apply N1|]. destruct C1 as (own & Fr & Hown).
    destruct (decide (b ∈ own)) as [Hin|Hin]; [|right; by rewrite <- (fr_live _ _ _ Fr)].
    destruct (Hown b Hin) as [->|?]; [|done]. destruct (mo_tree _ _ M1) as [nn HT].
    destruct (fr_globals _ _ _ Fr) as (Hv & _). rewrite Hv in HT. by destruct (kobj_live _ _ _ (mo_ok _ _ M1) HT).
  - auto.
  - intros b Hb. destruct (L2 b Hb) as [Hl|?]; [|by right]. destruct (L1 b Hl) as [?|?]; [by left|right; auto].
Qed.

(** Adding a child at a path. *)
Lemma grow_table_spec s n t cs u at_ w :
  mounts s t -> fs_room (5 + n) s -> sub_at cs t = Some u -> find_kid w (mkids u) = None ->
  text [] s at_ w -> Z.of_nat (length w) + 1 <= small_block ->
  ∃ k t' s', make_child (maddr u) at_ s = Done (maddr k) s' ∧ grown s t s' t' ∧ fs_room n s' ∧ sub_at (cs ++ [w]) t' = Some k.
Proof.
  intros [Hok [nn HT] Hrep Hnd Hap Hroot] Hroom Hu Hno Ht Hw.
  destruct (make_child_spec s n u at_ w nn (maddr t)) as
    (k & x & s' & E & [Hok' Hf Hroom'] & Hkn & Hkf & Hkk & Hrepg & Hndk & Hfresh & HT');
    [done|done|by eapply sub_at_rep|by eapply sub_at_nodup|intros Hin; apply Hap; by eapply sub_at_foot|done..|].
  destruct (with_kid_parts x k u) as (Wn & Wa & Wf & Wl & Wk).
  set (own := vfs_tree s :: mlist u :: (mkids u).*1 ++ x :: foot k) in *.
  assert (Hlive : ∀ b, b ∈ foot t -> live s !! b ≠ None) by (intros b; by apply mt_live).
  assert (Hown : ∀ b, b ∈ own -> b = vfs_tree s ∨ b ∈ foot u ∨ live s !! b = None).
  { intros b. unfold own. rewrite elem_of_cons, elem_of_cons, elem_of_app.
    intros [->|[->|[Hb|Hb]]]; [by left|right; left..|right; right; by apply Hfresh].
    - destruct u. rewrite foot_unfold, !elem_of_cons. cbn. tauto.
    - destruct u. rewrite foot_unfold, !elem_of_cons, elem_of_app. cbn in Hb. tauto. }
  destruct (alter_ok own s s' cs (with_kid x k) t u) as (Hrep' & Hnd' & Hsub'); try done.
  { rewrite foot_with_kid. apply NoDup_app. split; [by eapply sub_at_nodup|]. split; [|done].
    intros b Hb Hbk. by apply (Hlive b); [eapply sub_at_foot|apply Hfresh]. }
  { intros b [->|[?|Hb]]%Hown; [by right|by left|]. right. intros Hin. by apply (Hlive b). }
  { intros b. rewrite foot_with_kid, elem_of_app. intros [?|Hb]; [by left|]. right. intros Hin. by apply (Hlive b), Hfresh. }
  set (t' := alter_at cs (with_kid x k) t) in *.
  assert (Hnew : ∀ b, b ∈ foot t' -> b ∈ foot t ∨ live s !! b = None).
  { intros b [?|Hb]%Hsub'; [by left|]. rewrite foot_with_kid, elem_of_app in Hb.
    destruct Hb as [Hb|Hb]; [left; by eapply sub_at_foot|right; by apply Hfresh]. }
  destruct (fr_globals _ _ _ Hf) as (Hvt & _ & Hvr).
  assert (Hsub : sub_at cs t' = Some (with_kid x k u)).
  { pose proof (sub_at_alter cs (with_kid x k) t u [] Hu Wn) as Hg. by rewrite app_nil_r in Hg. }
  exists k, t', s'. split; [done|]. split; [|split; [done|rewrite sub_at_app, Hsub; cbn; rewrite Wk, find_kid_snoc, Hno; by rewrite bool_decide_true]].
  split; [| | |done| |].
  - split; [done| |done|done| |].
    + rewrite Hvt. exists (u32 (nn + 1)). unfold t'. by rewrite (alter_at_addr _ _ _ _ Hu Wa).
    + rewrite Hvt. intros [?|Hl]%Hnew; [done|]. exact (kobj_live _ _ _ Hok HT Hl).
    + rewrite Hvr, Hroot. unfold t'. destruct cs; cbn; [|by destruct t]. cbn in Hu. injection Hu as ->. by rewrite Wf.
  - intros ds. apply (mounted_with_kid cs x k t u); [done|by rewrite Hkn|done|done].
  - exists own. split; [done|]. intros b [?|[?|?]]%Hown; [by left|right; left; by eapply sub_at_foot|by right; right].
  - apply (foot_alter_mono _ _ _ u Hu). intros b. rewrite foot_with_kid, elem_of_app. by left.
  - intros b Hb. destruct (decide (b ∈ own)) as [Hin|Hin]; [|left; by rewrite <- (fr_live _ _ _ Hf)].
    destruct (Hown b Hin) as [->|[?|Hl]]; [left; exact (kobj_live _ _ _ Hok HT)|left; apply Hlive; by eapply sub_at_foot|].
    right. apply (sub_at_foot cs t' _ b Hsub). rewrite foot_with_kid, elem_of_app. unfold own in Hin.
    rewrite elem_of_cons, elem_of_cons, elem_of_app in Hin. destruct u as [ua ue up un uf ul uks]. cbn in Hin.
    rewrite foot_unfold, !elem_of_cons, !elem_of_app. rewrite !elem_of_cons in Hin.
    destruct Hin as [->|Hin]; [by destruct (kobj_live _ _ _ Hok HT)|]. tauto.
Qed.

(** ** Down the tree *)

Definition walk_step (lim : Z) : Z * Z -> M (fs AS) (Z * Z + Z) := λ '(node, at_),
  if lim <=? at_ then mret (inr node)
  else
    found ← find_child node at_;
    node ← (if found =? 0 then make_child node at_ else mret found);
    n ← mem (strlen at_);
    mret (inl (node, u32 (u32 (at_ + n) + 1))).

(** The rest of a path that is being walked: at its end the position is at
    or just behind the limit. *)
Definition at_rest s (lim at_ : Z) (rest : list Z) : Prop :=
  match rest with
  | [] => lim <= at_
  | _ => cutstr (f_mem s) at_ rest ∧ at_ + Z.of_nat (length rest) = lim
  end.

Lemma mt_nonnull s t cs u : mounts s t -> sub_at cs t = Some u -> maddr u ≠ 0.
Proof.
  intros [_ _ Hrep _ _ _] Hu. pose proof (sub_at_rep _ _ _ _ Hrep Hu) as Hur. destruct u.
  apply mt_rep_unfold in Hur as [Hn _]. exact (nr_addr _ _ _ _ _ _ _ _ Hn).
Qed.

(** One name: the node for it exists or is made. *)
Lemma child_spec s n t cs u at_ w :
  mounts s t -> fs_room (5 + n) s -> sub_at cs t = Some u -> text [] s at_ w -> Z.of_nat (length w) + 1 <= small_block ->
  ∃ k t' s', (found ← find_child (maddr u) at_; if found =? 0 then make_child (maddr u) at_ else mret found) s = Done (maddr k) s' ∧
    grown s t s' t' ∧ fs_room n s' ∧ sub_at (cs ++ [w]) t' = Some k.
Proof.
  intros Hm Hroom Hu Ht Hw. pose proof Hm as [Hok _ Hrep _ _ _].
  mstep (find_child_spec s u at_ w Hok (sub_at_rep _ _ _ _ Hrep Hu) (proj2 Ht)).
  destruct (find_kid w (mkids u)) as [k|] eqn:Hk; cbn [from_option].
  - assert (Hsub : sub_at (cs ++ [w]) t = Some k) by (rewrite sub_at_app, Hu; cbn; by rewrite Hk).
    rewrite (proj2 (Z.eqb_neq _ _)) by (by eapply mt_nonnull). exists k, t, s. split; [done|]. split; [by apply grown_refl|].
    split; [|done]. eapply fs_room_le; [|exact Hroom]. lia.
  - rewrite Z.eqb_refl. by apply (grow_table_spec s n t cs u).
Qed.

Lemma walk_runs p k lim n : ∀ m rest at_ t cs u s, (length rest < m)%nat ->
  mounts s t -> fs_room (5 * length rest + S n) s -> sub_at cs t = Some u ->
  blk s p k -> k <= small_block -> lim + 1 <= p + k -> p ∉ foot t -> p ≠ vfs_tree s -> p <= at_ -> at_rest s lim at_ rest ->
  ∃ j t' u' s', runs (walk_step lim) j (maddr u, at_) s (maddr u') s' ∧ (j <= S (length rest))%nat ∧
    grown s t s' t' ∧ fs_room (S n) s' ∧ sub_at (cs ++ names rest) t' = Some u' ∧
    blk s' p k ∧ (p ∉ foot t') ∧ p ≠ vfs_tree s'.
Proof.
  induction m as [|m IH]; intros rest at_ t cs u s Hlen Hm Hroom Hu Hb Hk Hlim Hpt Hpv Hpa Hrest; [lia|].
  destruct rest as [|x rest].
  { exists 1%nat, t, u, s. cbn in Hrest. split; [|split; [done|split; [by apply grown_refl|split; [done|split; [|done]]]]].
    - constructor. unfold walk_step. by rewrite (proj2 (Z.leb_le _ _)) by lia.
    - by rewrite app_nil_r. }
  destruct Hrest as [Hc Hend]. pose proof (mo_ok _ _ Hm) as Hok.
  rewrite names_cons. set (l := x :: rest) in *. set (c := span not_sep l).
  assert (Hcl : (c <= length l)%nat) by apply span_le.
  pose proof (cutstr_head _ _ _ Hc) as Hw. fold c in Hw. set (w := take c l) in *.
  assert (Hwl : length w = c) by (unfold w; rewrite length_take; lia).
  assert (Hl0 : (0 < length l)%nat) by (cbn; lia).
  assert (Ht : text [] s at_ w).
  { split; [|done]. pose proof (blk_range _ _ _ Hok Hb). pose proof am_base_pos. destruct Hb as (_ & kp & Hl & ?). split; [lia|].
    right. exists p, kp. split; [by intros ?%elem_of_nil|]. split; [done|]. lia. }
  destruct (child_spec s (5 * (length l - 1) + S n) t cs u at_ w Hm) as (q & t1 & s1 & E1 & G1 & R1 & Hq);
    [eapply fs_room_le; [|exact Hroom]; lia|done|done|lia|].
  pose proof G1 as [M1 _ C1 N1 _ _]. pose proof (mo_ok _ _ M1) as Ok1.
  destruct (touches_live _ _ _ p C1 (blk_live _ _ _ Hb) Hpv Hpt) as (own & Fr & Hpo).
  assert (Hb1 : blk s1 p k) by (by eapply blk_frame).
  assert (Hpt1 : p ∉ foot t1) by (intros [?|Hl]%N1; [done|by apply (blk_live _ _ _ Hb)]).
  destruct (fr_globals _ _ _ Fr) as (Hv & _).
  assert (Hc1 : cutstr (f_mem s1) at_ l).
  { eapply cutstr_frame; [|exact Hc]. intros i Hi. apply (fr_bytes _ _ _ Fr). replace (at_ + i) with (p + (at_ - p + i)) by lia.
    eapply secure_guarded; [by apply blk_secure|lia]. }
  pose proof (cutstr_head _ _ _ Hc1) as Hw1. fold c w in Hw1.
  assert (Htop : p + k < 2 ^ 32) by (apply (blk_top s1); [done| |done]; eapply fs_room_le; [|exact R1]; lia).
  assert (Hrest1 : at_rest s1 lim (at_ + Z.of_nat c + 1) (drop (S c) l)).
  { destruct (drop (S c) l) as [|y r] eqn:Hd; cbn [at_rest].
    - assert (length (drop (S c) l) = 0%nat) as Hd0 by (by rewrite Hd). rewrite length_drop in Hd0. lia.
    - assert (length (drop (S c) l) = S (length r)) as Hd0 by (by rewrite Hd). rewrite length_drop in Hd0.
      split; [|cbn [length]; lia]. rewrite <- Hd. replace (at_ + Z.of_nat c + 1) with (at_ + Z.of_nat (S c)) by lia.
      apply cutstr_drop; [lia|done]. }
  pose proof (cutstr_range _ _ _ Hc). unfold small_block in Hk.
  destruct (IH (drop (S c) l) (at_ + Z.of_nat c + 1) t1 (cs ++ [w]) q s1) as (j & t2 & u2 & s2 & Hruns & Hj & G2 & R2 & Hu2 & Hb2 & Hpt2 & Hpv2);
    [rewrite length_drop; lia|done|eapply fs_room_le; [|exact R1]; rewrite length_drop; lia|done|done|done|done|done|by rewrite Hv|lia|done|].
  exists (S j), t2, u2, s2. split; [|split; [rewrite length_drop in Hj; lia|]].
  - eapply runs_step; [|exact Hruns]. unfold walk_step. rewrite (proj2 (Z.leb_gt _ _)) by lia.
    rewrite <- bind_assoc. mstep E1. mstep (strlen_done s1 at_ w Hw1 ltac:(lia)). rewrite Hwl, (u32_small (at_ + Z.of_nat c)), u32_small by lia. done.
  - split; [by eapply grown_trans|]. split; [done|]. split; [|done]. by rewrite <- app_assoc in Hu2.
Qed.

(** *** Mounting on a node *)

Lemma with_file_parts f u : mname (with_file f u) = mname u ∧ maddr (with_file f u) = maddr u ∧
  mfile (with_file f u) = f ∧ mkids (with_file f u) = mkids u ∧ foot (with_file f u) = foot u.
Proof. by destruct u. Qed.

Lemma mounted_with_file cs f t u ds :
  sub_at cs t = Some u -> mounted (alter_at cs (with_file f) t) ds = if bool_decide (ds = cs) then f else mounted t ds.
Proof.
  intros Hu. destruct (with_file_parts f u) as (Hn & _ & Hf & Hk & _).
  destruct (decide (prefix cs ds)) as [(es & ->)|Hds].
  - unfold mounted. rewrite (sub_at_alter _ _ _ _ _ Hu Hn), sub_at_app, Hu. cbn.
    destruct es as [|c es]; cbn; [rewrite app_nil_r; by rewrite bool_decide_true|]. rewrite Hk.
    rewrite bool_decide_false; [done|]. intros Heq%(f_equal length). rewrite length_app in Heq. cbn in Heq. lia.
  - rewrite bool_decide_false; [by eapply mounted_alter|]. intros ->. apply Hds. exists []. by rewrite app_nil_r.
Qed.

Lemma with_file_rep s s' f u :
  fs_ok s -> mt_rep s u -> NoDup (foot u) -> frame [ment u] s s' -> blk s' (ment u) sizeof_entry ->
  word (f_mem s') (ment u + E_file) = f -> word (f_mem s') (ment u + E_name) = mnp u ->
  mt_rep s' (with_file f u).
Proof.
  destruct u as [a e p m f0 l ks]. cbn [ment mnp with_file]. intros Hok Hu Hnd Hf Hb Hwf Hwn.
  apply mt_rep_unfold in Hu as [Hn Hks]. rewrite foot_unfold, !NoDup_cons in Hnd. destruct Hnd as (Ha & He & _).
  assert (Hout : ∀ b, b ∈ foot (MNode a e p m f0 l ks) -> b ≠ e -> b ∉ [e]) by (intros b _ Hbe; by intros ->%list_elem_of_singleton).
  assert (Hne : ∀ b, b ∈ p :: l :: ks.*1 ++ feet ks -> b ∉ [e]) by (intros b Hbi ->%list_elem_of_singleton; done).
  assert (Hae : a ∉ [e]) by (intros ->%list_elem_of_singleton; apply Ha; by left).
  pose proof Hn as [[par Hk] H0 _ _ _ Hs Hl]. apply mt_rep_unfold. split; [split|].
  - exists par. by rewrite (kobj_frame _ _ _ _ Hf).
  - done.
  - done.
  - done.
  - done.
  - eapply str_frame; [exact Hok| |exact Hf|done]. apply Hne. by left.
  - eapply list_stable; [exact Hf| | |done]; [apply Hne; rewrite !elem_of_cons; tauto|].
    intros b Hbi. rewrite kid_nodes_fst in Hbi. apply Hne. rewrite !elem_of_cons, elem_of_app. tauto.
  - rewrite Forall_forall in *. intros [y q] Hq. eapply mt_frame; [exact Hok|exact Hf| |exact (Hks _ Hq)].
    intros b Hbi. apply Hne. rewrite !elem_of_cons, elem_of_app. right. right. right. by eapply feet_in.
Qed.

Lemma mt_rep_root z s t : mt_rep s t -> mt_rep (set_vfs_root_node z s) t.
Proof.
  induction t as [a e p m f l ks IH] using mtree_rose. rewrite !mt_rep_unfold. intros [[] Hks]. split; [by split|].
  rewrite Forall_forall in *. auto.
Qed.

(** [if (ent->file) return 3; ent->file = local_root] *)
Lemma set_file_spec s n t cs u f :
  mounts s t -> fs_room n s -> sub_at cs t = Some u -> 0 <= f < 2 ^ 32 ->
  let t' := alter_at cs (with_file f) t in
  ∃ s', set_file (ment u) f s = Done (if mfile u =? 0 then 0 else 3) s' ∧
    if mfile u =? 0 then
      fs_room n s' ∧ mounts (set_vfs_root_node (mfile t') s') t' ∧ touches s t s' ∧ f_obj s' = f_obj s ∧ (∀ b, b ∈ foot t' <-> b ∈ foot t)
    else s' = s.
Proof.
  intros Hm Hroom Hu Hf t'. pose proof Hm as [Hok [nn HT] Hrep Hnd Hap Hroot].
  pose proof (sub_at_rep _ _ _ _ Hrep Hu) as Hur. pose proof (sub_at_nodup _ _ _ Hnd Hu) as Hund.
  assert (He : ment u ∈ foot u) by (destruct u; right; left).
  assert (Hent : blk s (ment u) sizeof_entry ∧ word (f_mem s) (ment u + E_file) = mfile u ∧ word (f_mem s) (ment u + E_name) = mnp u).
  { destruct u. apply mt_rep_unfold in Hur as [Hn _]. by destruct Hn. }
  destruct Hent as (Hb & Hwf & Hwn). pose proof (blk_range _ _ _ Hok Hb) as (_ & _ & He0).
  unfold set_file. mstep (ldf_done s (ment u) E_file He0). rewrite Hwf. destruct (mfile u =? 0); [|by exists s].
  destruct (stf_done s n (ment u) sizeof_entry E_file f Hok Hroom Hb) as (s1 & E1 & [Ok1 Fr1 R1] & W1 & O1 & Ob1);
    [unfold E_file; lia|unfold E_file, sizeof_entry; lia|]. mstep E1.
  pose proof (blk_range _ _ _ Hok Hb) as (? & ? & _). pose proof am_base_pos. unfold sizeof_entry, E_file, E_name in *.
  assert (Hrepu : mt_rep s1 (with_file f u)).
  { apply (with_file_rep s); [done..|unfold blk, store, live; by rewrite Ob1|unfold E_file; rewrite W1; by apply u32_small|].
    unfold E_name. rewrite (word_eq _ (f_mem s)); [done|lia|lia|]. intros b Hbb. apply O1. lia. }
  destruct (with_file_parts f u) as (Wn & Wa & Wf & Wk & Wfoot).
  destruct (alter_ok [ment u] s s1 cs (with_file f) t u) as (Hrep' & Hnd' & Hsub'); try done.
  { by rewrite Wfoot. }
  { intros b ->%list_elem_of_singleton. by left. }
  { intros b. rewrite Wfoot. by left. }
  fold t' in Hrep', Hnd', Hsub'. destruct (fr_globals _ _ _ Fr1) as (Hv & _).
  assert (Hfoot : ∀ b, b ∈ foot t' <-> b ∈ foot t).
  { intros b. split; [intros [?|Hin]%Hsub'; [done|]; rewrite Wfoot in Hin; by eapply sub_at_foot|].
    apply (foot_alter_mono _ _ _ u Hu). by rewrite Wfoot. }
  exists s1. split; [done|]. split; [done|]. split; [|split; [|done]].
  - assert (HvT : vfs_tree s1 ∉ [ment u]).
    { rewrite Hv. intros Hin%list_elem_of_singleton. apply Hap. rewrite Hin. by eapply sub_at_foot. }
    split; [done| | |done| |done].
    + exists nn. unfold t'. rewrite (alter_at_addr _ _ _ _ Hu Wa). change (kobj (store s1) (vfs_tree s1) = Some (TreeT nn (maddr t))).
      rewrite (kobj_frame _ _ _ _ Fr1) by done. by rewrite Hv.
    + by apply mt_rep_root.
    + cbn. rewrite Hv. by rewrite Hfoot.
  - exists [ment u]. split; [done|]. intros b ->%list_elem_of_singleton. right. left. by eapply sub_at_foot.
Qed.

(** *** Mounting *)

Lemma mounts_frame own s s' t :
  mounts s t -> fs_ok s' -> frame own s s' -> (∀ b, b ∈ own -> (b ∉ foot t) ∧ b ≠ vfs_tree s) -> mounts s' t.
Proof.
  intros [Hok [nn HT] Hrep Hnd Hap Hroot] Hok' Hf Hown. destruct (fr_globals _ _ _ Hf) as (Hv & _ & Hr). split.
  - done.
  - exists nn. rewrite Hv, (kobj_frame _ _ _ _ Hf); [done|]. intros Hin. by destruct (Hown _ Hin).
  - eapply mt_frame; [exact Hok|exact Hf| |done]. intros b Hb Hin. by destruct (Hown _ Hin).
  - done.
  - by rewrite Hv.
  - congruence.
Qed.

Lemma touches_frame s t s1 s2 own : touches s t s1 -> frame own s1 s2 ->
  (∀ b, b ∈ own -> b = vfs_tree s ∨ b ∈ foot t ∨ live s !! b = None) -> touches s t s2.
Proof.
  intros (o & Hf & Ho) Hf2 Hown. exists (o ++ own). split.
  - eapply frame_trans; (eapply frame_mono; [|done]); intros b; rewrite elem_of_app; tauto.
  - intros b. rewrite elem_of_app. intros [?|?]; auto.
Qed.

Lemma sub_load s t cs u : mounts s t -> sub_at cs t = Some u ->
  ∃ cl par, obj (load (maddr u)) s = Done (TreeNode (ment u) cl par) s.
Proof.
  intros [Hok _ Hrep _ _ _] Hu. pose proof (sub_at_rep _ _ _ _ Hrep Hu) as Hur. destruct u as [a e p m f l ks].
  apply mt_rep_unfold in Hur as [Hn _]. destruct (node_load _ _ _ _ _ _ _ _ Hok Hn) as [par Hp]. by exists l, par.
Qed.

Lemma fresh_apart s t p : mounts s t -> live s !! p = None -> (p ∉ foot t) ∧ p ≠ vfs_tree s.
Proof.
  intros [Hok [nn HT] Hrep _ _ _] Hp. split; [intros Hin; by apply (mt_live s t p Hok Hrep Hin)|].
  intros ->. by apply (kobj_live _ _ _ Hok HT).
Qed.

(** The path is cut up and the root of the tree is at hand. *)
Lemma mount_start s n t path l :
  mounts s t -> text [] s path (47 :: l) -> Z.of_nat (length l) + 2 <= small_block -> fs_room (S (S n)) s ->
  let k := Z.of_nat (length l) + 2 in
  ∃ p s1 d, fstrdup path s = Done p s1 ∧ mem (strlen p) s1 = Done (k - 1) s1 ∧
    cut_path p (k - 1) s1 = Done (seps (47 :: l)) (set_fmem d s1) ∧
    let s2 := set_fmem d s1 in
    cutstr d (p + 1) l ∧ blk s2 p k ∧ p + k < 2 ^ 32 ∧ 0 <= p ∧ live s !! p = None ∧ mounts s2 t ∧ fs_room (S n) s2 ∧
    frame [p] s s2.
Proof.
  intros Hm Ht Hlen Hroom k. pose proof (mo_ok _ _ Hm) as Hok.
  destruct (fstrdup_spec s (S n) path (47 :: l) Hok Hroom Ht) as (p & s1 & E1 & [Ok1 Fr1 R1] & Hp & [Hb Hc]); [cbn [length]; lia|].
  cbn [length] in Hb. replace (Z.of_nat (S (length l)) + 1) with k in Hb by lia.
  destruct (cut_path_spec s1 p k (47 :: l) Ok1 Hb) as (d & E2 & Hcut & Fr2); [cbn [length]; lia|done|].
  cbn [length] in E2. replace (Z.of_nat (S (length l))) with (k - 1) in E2 by lia.
  exists p, s1, d. split; [done|]. split.
  { replace (k - 1) with (Z.of_nat (length (47 :: l))) by (cbn [length]; lia). apply strlen_done; [done|].
    unfold small_block in Hlen. cbn [length]. lia. }
  split; [done|]. cbv zeta. pose proof (frame_trans _ _ _ _ Fr1 Fr2) as Fr. pose proof (fresh_apart _ _ _ Hm Hp) as Hpa.
  pose proof (blk_range _ _ _ Ok1 Hb). pose proof am_base_pos.
  split; [by destruct Hcut as (_ & _ & _ & Hcut)|]. split; [done|].
  split; [apply (blk_top s1); [done| |done]; eapply fs_room_le; [|exact R1]; lia|]. split; [lia|].
  split; [done|]. split; [|done]. eapply mounts_frame; [exact Hm|done|exact Fr|]. by intros b ->%list_elem_of_singleton.
Qed.

Definition mount_key (l : list Z) : list (list Z) :=
  match l with [] => [] | x :: _ => if x =? 47 then [] else names l end.

(** The node for the path, made if there is none. *)
Lemma mount_node s n t p l :
  let k := Z.of_nat (length l) + 2 in
  mounts s t -> cutstr (f_mem s) (p + 1) l -> blk s p k -> k <= small_block -> p + k < 2 ^ 32 -> 0 <= p ->
  p ∉ foot t -> p ≠ vfs_tree s -> fs_room (5 * length l + S n) s -> mount_key l ≠ [] ->
  ∃ t' u' s', mount_walk (maddr t) (p + 1) (p + (k - 1)) s = Done (maddr u') s' ∧ grown s t s' t' ∧ fs_room (S n) s' ∧
    sub_at (mount_key l) t' = Some u' ∧ blk s' p k ∧ (p ∉ foot t') ∧ p ≠ vfs_tree s'.
Proof.
  intros k Hm Hc Hb Hk Htop Hp Hpt Hpv Hroom Hkey.
  assert (Hl : l ≠ []) by (by intros ->).
  assert (Hke : mount_key l = names l) by (destruct l as [|x l']; [done|]; cbn in Hkey |- *; by destruct (x =? 47)).
  destruct (walk_runs p k (p + (k - 1)) n (S (length l)) l (p + 1) t [] t s) as
    (j & t' & u' & s' & Hruns & Hj & Hg & Hr & Hu & Hb' & Hpt' & Hpv'); [lia|done|done|done|done|done|lia|done|done|lia| |].
  { destruct l as [|x l']; [done|]. split; [done|]. cbn [length] in *. lia. }
  exists t', u', s'. split; [|rewrite Hke; done].
  apply (runs_while (walk_step (p + (k - 1))) j); [exact Hruns|]. pose proof word_fuel_Z. unfold small_block in *. lia.
Qed.

(** Setting the file of the node for [key], which is the shortcut to the
    root as well if [key] is the root. *)
Definition mount_file (key : list (list Z)) (root_node ent f : Z) : M (fs AS) Z :=
  match key with
  | [] => rn ← obj (load root_node); r ← set_file (tn_value rn) f;
          (if r =? 0 then modify (set_vfs_root_node f) else mret tt);; mret r
  | _ => set_file ent f
  end.

Lemma frame_root own z s s' : frame own s s' -> frame own (set_vfs_root_node z s) (set_vfs_root_node z s').
Proof. intros [F1 F2 F3 (? & ? & _)]. by split. Qed.

Lemma root_node_self s : set_vfs_root_node (vfs_root_node s) s = s.
Proof. by destruct s. Qed.

Lemma mount_file_spec s n t key u f :
  mounts s t -> fs_room n s -> sub_at key t = Some u -> 0 <= f < 2 ^ 32 ->
  ∃ s' t', mount_file key (maddr t) (ment u) f s = Done (if mounted t key =? 0 then 0 else 3) s' ∧
    mounts s' t' ∧ fs_room n s' ∧ f_obj s' = f_obj s ∧ (∀ b, b ∈ foot t' <-> b ∈ foot t) ∧
    (∀ ds, mounted t' ds = if bool_decide (ds = key) && (mounted t key =? 0) then f else mounted t ds) ∧
    touches s t (set_vfs_root_node (vfs_root_node s) s').
Proof.
  intros Hm Hroom Hu Hf. destruct (set_file_spec s n t key u f Hm Hroom Hu Hf) as (s1 & E1 & H1).
  assert (Hfu : mounted t key = mfile u) by (unfold mounted; by rewrite Hu). rewrite Hfu.
  destruct (with_file_parts f u) as (Wn & Wa & Wf & Wk & Wfoot).
  destruct (mfile u =? 0) eqn:Hz.
  - destruct H1 as (R1 & M1 & C1 & L1 & F1). pose proof C1 as (own & Fr & Hown).
    destruct (fr_globals _ _ _ Fr) as (_ & _ & Hr1).
    set (t' := alter_at key (with_file f) t) in *. exists (set_vfs_root_node (mfile t') s1), t'. split; [|split; [done|]].
    + destruct key as [|c key]; cbn [mount_file].
      * injection Hu as ->. destruct (sub_load s u [] u Hm eq_refl) as (cl & par & El). mstep El. cbn [tn_value].
        mstep E1. unfold t'. cbn. by rewrite Wf.
      * rewrite E1. f_equal. replace (mfile t') with (vfs_root_node s1); [by rewrite root_node_self|].
        rewrite Hr1, (mo_root _ _ Hm). unfold t'. by destruct t.
    + split; [done|]. split; [done|]. split; [done|]. split.
      * intros ds. unfold t'. rewrite (mounted_with_file _ _ _ _ _ Hu). by rewrite andb_true_r.
      * destruct s1 as [o1 m1 v1 r1 n1]. cbn in Hr1 |- *. by rewrite <- Hr1.
  - subst s1. exists s, t. split; [|split; [done|]].
    + destruct key as [|c key]; cbn [mount_file]; [|done].
      injection Hu as ->. destruct (sub_load s u [] u Hm eq_refl) as (cl & par & El). mstep El. cbn [tn_value]. by mstep E1.
    + split; [done|]. split; [done|]. split; [done|]. split.
      * intros ds. by rewrite andb_false_r.
      * rewrite root_node_self. apply touches_refl.
Qed.

(** What [vfs_mount] does once the path is cut up. *)
Definition mount_body (root_node i lim f : Z) : M (fs AS) Z :=
  c ← mem (load8 i);
  if c =? 0 then
    rn ← obj (load root_node);
    r ← set_file (tn_value rn) f;
    (if r =? 0 then modify (set_vfs_root_node f) else mret tt);;
    mret r
  else
    node ← mount_walk root_node i lim;
    nd ← obj (load node);
    set_file (tn_value nd) f.

Lemma mount_body_spec s n t p l f :
  let k := Z.of_nat (length l) + 2 in
  mounts s t -> cutstr (f_mem s) (p + 1) l -> blk s p k -> k <= small_block -> p + k < 2 ^ 32 -> 0 <= p ->
  p ∉ foot t -> p ≠ vfs_tree s -> fs_room (5 * length l + S n) s ->
  ∃ t' u s', grown s t s' t' ∧ fs_room (S n) s' ∧ sub_at (mount_key l) t' = Some u ∧ blk s' p k ∧
    (p ∉ foot t') ∧ p ≠ vfs_tree s' ∧
    mount_body (maddr t) (p + 1) (p + (k - 1)) f s = mount_file (mount_key l) (maddr t') (ment u) f s'.
Proof.
  intros k Hm Hc Hb Hk Htop Hp Hpt Hpv Hroom.
  assert (∃ c, mem (load8 (p + 1)) s = Done c s ∧ (c =? 0) = bool_decide (mount_key l = [])) as (c & Ec & Hc0).
  { destruct l as [|x l'].
    - destruct Hc as [? Hr]. exists 0. split; [by apply mem_read, load8_ok|done].
    - destruct Hc as (? & Hr & Hx & Hc'). pose proof (cutstr_range _ _ _ Hc'). exists (cut x).
      split; [apply mem_read, load8_ok; [lia|done]|]. unfold cut, mount_key. destruct (x =? 47); [done|].
      rewrite names_cons, bool_decide_false by done. by apply Z.eqb_neq; lia. }
  destruct (decide (mount_key l = [])) as [Hkey|Hkey].
  - exists t, t, s. split; [by apply grown_refl|]. split; [eapply fs_room_le; [|exact Hroom]; lia|]. rewrite Hkey.
    do 4 (split; [done|]). unfold mount_body. mstep Ec. by rewrite Hc0, bool_decide_true.
  - destruct (mount_node s n t p l Hm Hc Hb Hk Htop Hp Hpt Hpv Hroom Hkey) as (t' & u & s' & E & G & R & Hu & Hrest).
    exists t', u, s'. do 3 (split; [done|]). destruct Hrest as (Hb' & Hpt' & Hpv'). do 3 (split; [done|]).
    unfold mount_body. mstep Ec. rewrite Hc0, bool_decide_false by done. mstep E.
    destruct (sub_load _ _ _ _ (gr_mounts _ _ _ _ G) Hu) as (cl & par & El). mstep El. by destruct (mount_key l).
Qed.

Lemma vfs_mount_spec s n t path l local_root
    (Hm : mounts s t) (Hpath : path ≠ 0) (Htext : text [] s path (47 :: l))
    (Hlen : Z.of_nat (length l) + 2 <= small_block) (Hroot : 0 <= local_root < 2 ^ 32)
    (Hroom : fs_room (5 * length l + 2 + n) s) :
  ∃ s' t', vfs_mount path local_root s = Done (if mounted t (mount_key l) =? 0 then 0 else 3) s' ∧
    mounts s' t' ∧ fs_room (S n) s' ∧
    (∀ ds, mounted t' ds = if bool_decide (ds = mount_key l) && (mounted t (mount_key l) =? 0) then local_root else mounted t ds) ∧
    touches s t (set_vfs_root_node (vfs_root_node s) s') ∧
    ∀ b, live s' !! b ≠ None -> live s !! b ≠ None ∨ b ∈ foot t'.
Proof.
  destruct (mount_start s (5 * length l + n) t path l Hm Htext Hlen) as
    (p & s1 & d & E1 & E2 & E3 & Hcut & Hb2 & Htop & Hp0 & Hfp & M2 & R2 & Fr2); [eapply fs_room_le; [|exact Hroom]; lia|].
  set (k := Z.of_nat (length l) + 2) in *. set (s2 := set_fmem d s1) in *. destruct (fr_globals _ _ _ Fr2) as (Hv2 & _ & Hr2).
  destruct (fresh_apart _ _ _ Hm Hfp) as [Hpt Hpv].
  destruct (mount_body_spec s2 n t p l local_root M2 Hcut Hb2) as (t4 & u & s4 & G4 & R4 & Hu & Hb4 & Hpt4 & Hpv4 & Ebody);
    [lia|done|done|done|by rewrite Hv2|eapply fs_room_le; [|exact R2]; lia|].
  destruct (mount_file_spec s4 (S n) t4 (mount_key l) u local_root (gr_mounts _ _ _ _ G4) R4 Hu Hroot) as
    (s5 & t5 & E5 & M5 & R5 & Ob5 & F5 & T5 & C5).
  rewrite (gr_table _ _ _ _ G4) in E5, T5.
  assert (Hb5 : store s5 !! p = Some (OData [])) by (unfold store; rewrite Ob5; apply Hb4).
  destruct (ffree_spec s5 p _ (mo_ok _ _ M5) Hb5) as (s6 & E6 & Ok6 & R6 & L6 & _ & Fr6).
  destruct (fr_globals _ _ _ Fr6) as (Hv6 & _ & Hr6).
  assert (Hv5 : vfs_tree s5 = vfs_tree s4) by (destruct C5 as (o & Fo & _); by destruct (fr_globals _ _ _ Fo)).
  exists s6, t5. split; [|split; [|split; [by apply R6|split; [|split]]]].
  - destruct (mo_tree _ _ Hm) as [nn0 HT0]. destruct (mo_tree _ _ M2) as [nn HT].
    unfold vfs_mount. mrun. rewrite (proj2 (Z.eqb_neq _ _)) by exact (kobj_nonnull _ _ _ (mo_ok _ _ Hm) HT0).
    rewrite (proj2 (Z.eqb_neq path 0)) by done. destruct Htext as [_ (? & Hx & _ & Hl)]. pose proof (cstr_range _ _ _ Hl).
    mstep (mem_read (load8 path) s 47 (load8_ok (f_mem s) path 47 ltac:(lia) Hx)). change (false || negb (47 =? PATH_SEPARATOR)) with false. cbn iota.
    mstep E1. mstep E2. mstep E3. fold s2. rewrite (u32_small (p + 1)), (u32_small (p + (k - 1))) by lia.
    rewrite Hv2 in HT. mstep (obj_load _ _ _ (mo_ok _ _ M2) HT). cbn [t_root].
    change (((mount_body (maddr t) (p + 1) (p + (k - 1)) local_root) ≫= λ r, ffree p;; mret r) s2
      = Done (if mounted t (mount_key l) =? 0 then 0 else 3) s6).
    rewrite <- Ebody in E5. mstep E5. by mstep E6.
  - eapply mounts_frame; [exact M5|done|exact Fr6|]. intros b ->%list_elem_of_singleton. by rewrite F5, Hv5.
  - intros ds. rewrite T5. by rewrite (gr_table _ _ _ _ G4).
  - assert (Hlp : ∀ b, live s2 !! b = None -> live s !! b = None).
    { intros b Hb. rewrite <- Hb. symmetry. apply (fr_live _ _ _ Fr2). intros ->%list_elem_of_singleton.
      by apply (blk_live _ _ _ Hb2). }
    assert (C2 : touches s t s2) by (exists [p]; split; [done|]; intros b ->%list_elem_of_singleton; by right; right).
    assert (C4 : touches s t s4) by (apply (touches_trans s t s2 t); [done|apply G4|by left]).
    assert (Hr4 : vfs_root_node s4 = vfs_root_node s) by (destruct C4 as (o & Fo & _); by destruct (fr_globals _ _ _ Fo) as (_ & _ & ?)).
    rewrite <- Hr4. apply (touches_frame _ _ (set_vfs_root_node (vfs_root_node s4) s5) _ [p]).
    + apply (touches_trans s t s4 t4); [done|done|]. intros b [?|Hb]%(gr_new _ _ _ _ G4); [by left|right; auto].
    + by apply frame_root.
    + intros b ->%list_elem_of_singleton. by right; right.
  - intros b Hb. destruct (decide (b = p)) as [->|Hbp]; [done|].
    rewrite (fr_live _ _ _ Fr6) in Hb by (by intros ?%list_elem_of_singleton).
    unfold live in Hb. rewrite Ob5 in Hb. rewrite F5. destruct (gr_live _ _ _ _ G4 b Hb) as [Hb2'|?]; [|by right].
    left. rewrite (fr_live _ _ _ Fr2) in Hb2'; [done|by intros ?%list_elem_of_singleton].
Qed.

(** C5: mounting at an absolute path. The path's key is the sequence of its
    names (or the root, if the path is [/] or goes on with another
    separator). If nothing is mounted there, the table then has the node at
    the key, and 0 is returned; otherwise the table stays as it was and the
    result is 3. In both cases everything outside the mount tree and the
    root shortcut is as before, and all memory taken is given back or part
    of the tree. *)
Theorem vfs_mount_correct s n t path l local_root
    (Hm : mounts s t) (Hpath : path ≠ 0) (Htext : text [] s path (47 :: l))
    (Hlen : Z.of_nat (length l) + 2 <= small_block) (Hroot : 0 <= local_root < 2 ^ 32)
    (Hroom : fs_room (5 * length l + 2 + n) s) :
  ∃ s' t', vfs_mount path local_root s = Done (if mounted t (mount_key l) =? 0 then 0 else 3) s' ∧
    mounts s' t' ∧ fs_room (S n) s' ∧
    (∀ ds, mounted t' ds = if bool_decide (ds = mount_key l) && (mounted t (mount_key l) =? 0) then local_root else mounted t ds) ∧
    touches s t (set_vfs_root_node (vfs_root_node s) s') ∧
    ∀ b, live s' !! b ≠ None -> live s !! b ≠ None ∨ b ∈ foot t'.
Proof. by apply vfs_mount_spec. Qed.
End table.

(** ** The empty table *)

Section init.
Context {AS : Type} `{!Allocator AS} `{!Literals}.
Implicit Types (s : fs AS) (t : mtree).

Definition root_name : list Z := [91; 114; 111; 111; 116; 93].

(** A new tree header. *)
Lemma tree_create_spec s n :
  fs_ok s -> fs_room (S n) s ->
  ∃ T s', obj tree_create s = Done T s' ∧ step [T] n s s' ∧ live s !! T = None ∧ kobj (store s') T = Some (TreeT 0 0) ∧ f_mem s' = f_mem s.
Proof.
  intros Hok Hroom.
  destruct (obj_alloc s n 8 (TreeT am_junk am_junk) Hok Hroom) as (T & s1 & E1 & S1 & F1 & K1 & M1); [unfold small_block; lia|].
  destruct (obj_upd s1 n T _ (set_nodes 0) (st_ok _ _ _ _ S1) (st_room _ _ _ _ S1) K1) as (s2 & E2 & S2 & K2 & M2 & _).
  destruct (obj_upd s2 n T _ (set_root 0) (st_ok _ _ _ _ S2) (st_room _ _ _ _ S2) K2) as (s3 & E3 & S3 & K3 & M3 & _).
  exists T, s3. split; [|split; [by eapply step_trans; [eapply step_trans|]|split; [done|split; [done|congruence]]]].
  unfold tree_create. rewrite obj_bind. mstep E1. rewrite obj_bind. mstep E2. rewrite obj_bind. mstep E3. by apply obj_read.
Qed.

(** The same change with other global pointers. *)
Lemma frame_globals own s s' x y z :
  frame own s s' -> frame own (Fs (f_obj s) (f_mem s) x y z) (Fs (f_obj s') (f_mem s') x y z).
Proof. intros [F1 F2 F3 _]. by split. Qed.

(** The root node gets its entry. *)
Lemma tree_set_root_spec s n T v :
  fs_ok s -> fs_room (2 + n) s -> kobj (store s) T = Some (TreeT 0 0) ->
  ∃ a cl s', obj (tree_set_root T v) s = Done tt s' ∧ step [T; a; cl] n s s' ∧ live s !! a = None ∧ live s !! cl = None ∧ a ≠ cl ∧
    kobj (store s') T = Some (TreeT 1 a) ∧ kobj (store s') a = Some (TreeNode v cl 0) ∧ list_rep (store s') cl [] ∧ f_mem s' = f_mem s.
Proof.
  intros Hok Hroom HT. destruct (node_create_spec s n v Hok Hroom) as (a & cl & s1 & E1 & [Ok1 Fr1 R1] & F1 & F2 & Hac & K1 & L1 & M1).
  pose proof (kobj_live _ _ _ Hok HT) as LT. assert (HTa : T ≠ a) by congruence. assert (HTc : T ≠ cl) by congruence.
  assert (HT1 : kobj (store s1) T = Some (TreeT 0 0)).
  { rewrite (kobj_frame _ _ _ _ Fr1); [done|]. rewrite elem_of_cons, list_elem_of_singleton. naive_solver. }
  destruct (obj_upd s1 n T _ (set_root a) Ok1 R1 HT1) as (s2 & E2 & [Ok2 Fr2 R2] & K2 & M2 & _).
  destruct (obj_upd s2 n T _ (set_nodes 1) Ok2 R2 K2) as (s3 & E3 & [Ok3 Fr3 R3] & K3 & M3 & _).
  pose proof (frame_trans _ _ _ _ Fr2 Fr3) as Fr23.
  exists a, cl, s3. split; [unfold tree_set_root; rewrite obj_bind; mstep E1; rewrite obj_bind; by mstep E2|].
  split; [split; [done| |done]|].
  { apply (frame_trans _ _ s1); (eapply frame_mono; [|done]); intros b; mem_solve. }
  split; [done|]. split; [done|]. split; [done|]. split; [done|]. split; [|split; [|congruence]].
  - rewrite (kobj_frame _ _ _ _ Fr23); [done|]. by intros ->%list_elem_of_singleton.
  - eapply list_stable; [exact Fr23|by intros ->%list_elem_of_singleton|by intros ? ?%elem_of_nil|done].
Qed.

(** [vfs_init] makes a tree on which nothing is mounted. *)
Lemma vfs_init_spec s n :
  fs_ok s -> fs_room (5 + n) s -> text [] s lit_root root_name -> vfs_root_node s = 0 ->
  ∃ t s' own x y, vfs_init s = Done tt s' ∧ mounts s' t ∧ fs_room n s' ∧ (∀ ds, mounted t ds = 0) ∧
    frame own (Fs (f_obj s) (f_mem s) x y 0) s' ∧ ∀ b, b ∈ own -> live s !! b = None.
Proof.
  intros Hok Hroom Hname Hr0.
  destruct (tree_create_spec s (4 + n) Hok Hroom) as (T & s1 & E1 & [Ok1 Fr1 R1] & F1 & K1 & M1).
  destruct (fmalloc_spec (set_vfs_tree T s1) (3 + n) 8 Ok1 R1) as (r & s2 & E2 & Ok2 & R2 & F2 & B2 & M2 & Fr2); [unfold small_block; lia|].
  pose proof (kobj_live _ _ _ Ok1 K1) as LT1.
  assert (HTr : T ≠ r) by (intros ->; done).
  assert (K2 : kobj (store s2) T = Some (TreeT 0 0)) by (rewrite (kobj_frame _ _ _ _ Fr2); [done|by intros ->%list_elem_of_singleton]).
  set (G := λ s, Fs (f_obj s) (f_mem s) T r 0).
  pose proof (frame_globals _ _ _ T r 0 Fr1) as G1. pose proof (frame_globals _ _ _ T r 0 Fr2) as G2.
  assert (Hg2 : G s2 = set_vfs_root r s2).
  { destruct (fr_globals _ _ _ Fr2) as (Ht2 & _ & Hn2). destruct (fr_globals _ _ _ Fr1) as (_ & _ & Hn1).
    destruct s2. unfold G, set_vfs_root. cbn in *. congruence. }
  assert (Fg2 : frame [T; r] (G s) (G s2)).
  { apply (frame_trans _ _ (G s1)); (eapply frame_mono; [|done]); intros b; mem_solve. }
  assert (Hrl : live s !! r = None).
  { rewrite <- F2. symmetry. apply (fr_live _ _ _ Fr1). by intros ->%list_elem_of_singleton. }
  assert (Ht2 : text [] (G s2) lit_root root_name).
  { eapply (text_step [T; r] (3 + n) (G s)); [by split|]. apply (text_fresh [T; r] (G s)); [|exact Hname].
    intros b. rewrite elem_of_cons, list_elem_of_singleton. by intros [->| ->]. }
  destruct (fstrdup_spec (G s2) (2 + n) lit_root root_name Ok2 R2 Ht2) as (nm & s3 & E3 & [Ok3 Fr3 R3] & F3 & Hs3); [cbn; unfold small_block; lia|].
  assert (Hrn : r ≠ nm) by (intros ->; exact (blk_live _ _ _ B2 F3)).
  assert (HTn : T ≠ nm) by (intros ->; exact (kobj_live _ _ _ Ok2 K2 F3)).
  assert (Hnl : live s !! nm = None).
  { rewrite <- F3. symmetry. apply (fr_live _ _ _ Fg2). rewrite elem_of_cons, list_elem_of_singleton. naive_solver. }
  assert (B3 : blk s3 r 8) by (eapply blk_frame; [|exact Fr3|exact B2]; by intros ->%list_elem_of_singleton).
  assert (K3 : kobj (store s3) T = Some (TreeT 0 0)) by (rewrite (kobj_frame _ _ _ _ Fr3); [exact K2|by intros ->%list_elem_of_singleton]).
  destruct (stf_done s3 (2 + n) r 8 0 nm Ok3 R3 B3) as (s4 & E4 & [Ok4 Fr4 R4] & W4 & O4 & Ob4); [lia..|].
  assert (B4 : blk s4 r 8) by (unfold blk, store, live; by rewrite Ob4).
  destruct (stf_done s4 (2 + n) r 8 4 0 Ok4 R4 B4) as (s5 & E5 & [Ok5 Fr5 R5] & W5 & O5 & Ob5); [lia..|].
  pose proof (frame_trans _ _ _ _ Fr4 Fr5) as Fr45.
  assert (K5 : kobj (store s5) T = Some (TreeT 0 0)) by (unfold store; by rewrite Ob5, Ob4).
  destruct (tree_set_root_spec s5 n T r Ok5 R5 K5) as (a & cl & s6 & E6 & [Ok6 Fr6 R6] & F6 & F6' & Hac & K6 & Ka6 & L6 & M6).
  assert (B5 : blk s5 r 8) by (unfold blk, store, live; by rewrite Ob5).
  assert (Hs5 : str s5 nm root_name) by (eapply str_frame; [exact Ok3| |exact Fr45|done]; by intros ->%list_elem_of_singleton).
  assert (Hl6 : ∀ b, live s5 !! b = None -> b ≠ T ∧ b ≠ r ∧ b ≠ nm ∧ live s !! b = None).
  { intros b Hb. assert (b ≠ r) by (intros ->; exact (blk_live _ _ _ B5 Hb)).
    assert (b ≠ nm) by (intros ->; exact (blk_live _ _ _ (proj1 Hs5) Hb)).
    assert (b ≠ T) by (intros ->; exact (kobj_live _ _ _ Ok5 K5 Hb)). do 3 (split; [done|]).
    rewrite <- Hb. unfold live. rewrite Ob5, Ob4. fold (live s3) (live s).
    rewrite (fr_live _ _ _ Fr3) by (by intros ->%list_elem_of_singleton). symmetry. apply (fr_live _ _ _ Fg2).
    rewrite elem_of_cons, list_elem_of_singleton. naive_solver. }
  destruct (Hl6 _ F6) as (HaT & Har & Han & Ha0). destruct (Hl6 _ F6') as (HcT & Hcr & Hcn & Hc0).
  assert (Hkeep : ∀ b, b = r ∨ b = nm -> b ∉ [T; a; cl]).
  { intros b Hb. rewrite !elem_of_cons, elem_of_nil. naive_solver. }
  pose proof (blk_range _ _ _ Ok5 B5) as (? & ? & _). pose proof am_base_pos.
  destruct (fr_globals _ _ _ Fr3) as (Gt3 & Gr3 & Gn3). destruct (fr_globals _ _ _ Fr45) as (Gt5 & Gr5 & Gn5).
  destruct (fr_globals _ _ _ Fr6) as (Gt6 & Gr6 & Gn6).
  exists (MNode a r nm root_name 0 cl []), s6, [T; r; nm; a; cl], T, r. split; [|split; [|split; [done|split; [|split]]]].
  - unfold vfs_init. mstep E1. mrun. mstep E2. mrun. rewrite <- Hg2. mstep E3. mstep E4. mstep E5. mrun.
    by rewrite Gt5, Gt3, Gr5, Gr3.
  - split; [done| | | | |].
    + exists 1. by rewrite Gt6, Gt5, Gt3.
    + apply mt_rep_unfold. split; [|done]. split.
      * by exists 0.
      * exact (kobj_nonnull _ _ _ Ok6 Ka6).
      * eapply blk_frame; [|exact Fr6|exact B5]. auto.
      * rewrite (word_frame [T; a; cl] s5 s6 r 8); [|done|exact Fr6|auto|done|unfold E_name; lia|unfold E_name; lia].
        unfold E_name. rewrite (word_eq _ (f_mem s4)); [|lia|lia|intros b Hb; apply O5; lia]. rewrite W4.
        pose proof (blk_range _ _ _ Ok5 (proj1 Hs5)) as (? & ? & _). apply u32_small. cbn [length root_name] in *. lia.
      * rewrite (word_frame [T; a; cl] s5 s6 r 8); [exact W5|done|exact Fr6|auto|done|unfold E_file; lia|unfold E_file; lia].
      * eapply str_frame; [exact Ok5| |exact Fr6|done]. auto.
      * done.
    + cbn. repeat (apply NoDup_cons; split; [rewrite ?elem_of_cons, elem_of_nil; naive_solver|]). by apply NoDup_nil.
    + rewrite Gt6, Gt5, Gt3. cbn. rewrite !elem_of_cons, elem_of_nil. naive_solver.
    + by rewrite Gn6, Gn5, Gn3.
  - by intros [|c ds].
  - change (frame [T; r; nm; a; cl] (G s) s6).
    apply (frame_trans _ _ s5); [|eapply frame_mono; [|exact Fr6]; intros b; mem_solve].
    apply (frame_trans _ _ s3); [|eapply frame_mono; [|exact Fr45]; intros b; mem_solve].
    apply (frame_trans _ _ (G s2)); (eapply frame_mono; [|done]); intros b; mem_solve.
  - intros b. rewrite !elem_of_cons, elem_of_nil. naive_solver.
Qed.
End init.

(** ** An example *)

Section table_examples.
#[local] Existing Instance Bump.allocator.

Definition table_literals : Literals := {|
  lit_root := 0x40; lit_sep := 0x50; lit_up := 0x54; lit_dot := 0x58; lit_cwd := 0x5C; lit_fmt := 0x60
|}.
#[local] Existing Instance table_literals.

(** The literals, ["/dev/null"] at 0x100, and ["/dev/null/x"] cut at its
    separators at 0x120 *)
Definition table_fs : fs Bump.bump := Fs Bump.start
  (Ram (place 0x40 root_name (place 0x50 [47] (place 0x54 [46; 46] (place 0x58 [46] (place 0x5C [47]
    (place 0x100 [47; 100; 101; 118; 47; 110; 117; 108; 108]
      (place 0x120 [0; 100; 101; 118; 0; 110; 117; 108; 108; 0; 120] ∅)))))))) 0 0 0.

Lemma table_text a l : 0 <= a -> a + Z.of_nat (length l) + 1 <= 0xFFF -> cstr (f_mem table_fs) a l -> text [] table_fs a l.
Proof. intros ? ? Hc. split; [|done]. split; [done|]. left. cbn. unfold Bump.base. lia. Qed.

Lemma text_low own s x y a l : 0 <= a -> a + Z.of_nat (length l) + 1 <= 0xFFF ->
  frame own (Fs (f_obj table_fs) (f_mem table_fs) x y 0) s -> cstr (f_mem table_fs) a l -> text [] s a l.
Proof.
  intros ? ? Hf Hc. split; [split; [done|left; cbn; unfold Bump.base; lia]|].
  apply (cstr_frame (f_mem table_fs)); [|done]. intros i Hi. apply (fr_bytes _ _ _ Hf). left. cbn. unfold Bump.base. lia.
Qed.

Lemma vfs_mount_correct_witness :
  ∃ s s' t', vfs_init table_fs = Done tt s ∧ vfs_mount 0x100 0x2000 s = Done 0 s' ∧ mounts s' t' ∧
    mounted t' [[100; 101; 118]; [110; 117; 108; 108]] = 0x2000 ∧ mounted t' [[100; 101; 118]] = 0.
Proof.
  destruct (vfs_init_spec table_fs 100) as (t & s & own & x & y & Hi & Hm & Hr & Hz & Hf & _).
  - apply Bump.start_ok.
  - by vm_compute.
  - apply table_text; cbn; try lia; repeat split; try lia; reflexivity.
  - done.
  - destruct (vfs_mount_correct s 50 t 0x100 [100; 101; 118; 47; 110; 117; 108; 108] 0x2000) as (s' & t' & Hrun & Hm' & _ & Ht & _).
    + done.
    + done.
    + eapply text_low; [| |exact Hf|]; cbn; try lia; repeat split; try lia; reflexivity.
    + by vm_compute.
    + lia.
    + eapply fs_room_le; [|exact Hr]. cbn. lia.
    + rewrite Hz in Hrun. exists s, s', t'. split; [done|]. split; [done|]. split; [done|].
      split; rewrite Ht, !Hz; done.
Defined.
End table_examples.
