(* ===== verification/VfsOpen.v ===== *)
(** * Opening paths (kernel/vfs.c: get_mount_point, kopen)

    [get_mount_point] finds the longest prefix of a path on which something
    is mounted, and [kopen] of a path that is a mount point returns a copy of
    the node mounted there. *)

From S2P Require Import Prelude Dll KHeap KList CString Ram Fs Tree Vfs VfsPath VfsMount VfsTable.

(** ** Names one behind the other *)

(** Names of a canonical path have characters, none of which is a separator. *)
Definition name_ok (w : list Z) : Prop := w ≠ [] ∧ 47 ∉ w.

Fixpoint cutnames (m : ram) (a : Z) (ws : list (list Z)) : Prop :=
  match ws with
  | [] => True
  | w :: ws' => cstr m a w ∧ cutnames m (a + Z.of_nat (length w) + 1) ws'
  end.

Definition extent (ws : list (list Z)) : Z := Z.of_nat (length (joined ws)).
Lemma extent_cons w ws : extent (w :: ws) = Z.of_nat (length w) + 1 + extent ws.
Proof. unfold extent, joined. cbn. rewrite length_app. lia. Qed.
Lemma extent_nil : extent [] = 0.
Proof. done. Qed.
Lemma extent_nonneg ws : 0 <= extent ws.
Proof. unfold extent. lia. Qed.
Lemma extent_length ws : Z.of_nat (length ws) <= extent ws.
Proof. induction ws as [|w ws IH]; [done|]. rewrite extent_cons. cbn [length]. lia. Qed.
Lemma extent_app ws1 ws2 : extent (ws1 ++ ws2) = extent ws1 + extent ws2.
Proof. induction ws1 as [|w ws1 IH]; cbn [app]; [rewrite extent_nil; lia|]. rewrite !extent_cons, IH. lia. Qed.

(** A canonical path cut at its separators. *)
Lemma cutstr_names m a ws : Forall name_ok ws -> cutstr m a (joined ws) ->
  rd m a = Some 0 ∧ cutnames m (a + 1) ws.
Proof.
  intros Hws. revert a. induction Hws as [|w ws [_ Hw] _ IH]; intros a.
  - intros [_ H0]. by split.
  - change (joined (w :: ws)) with (47 :: w ++ joined ws). intros (_ & Hx & _ & Hc). split; [exact Hx|]. clear Hx.
    assert (∀ b, cutstr m b (w ++ joined ws) -> cstr m b w ∧ cutstr m (b + Z.of_nat (length w)) (joined ws)) as Hsplit.
    { clear Hc IH. induction w as [|x w IHw]; intros b.
      - cbn [app length]. rewrite Z.add_0_r. intros Hc. split; [|done]. pose proof (cutstr_head _ _ _ Hc) as Hh.
        destruct ws; exact Hh.
      - apply not_elem_of_cons in Hw as [Hx Hw]. cbn [app cutstr]. intros (? & Hr & ? & Hc). destruct (IHw Hw _ Hc) as [H1 H2].
        unfold cut in Hr. rewrite (proj2 (Z.eqb_neq x 47)) in Hr by congruence. split; [done|].
        cbn [length]. replace (b + Z.of_nat (S (length w))) with (b + 1 + Z.of_nat (length w)) by lia. done. }
    destruct (Hsplit _ Hc) as [H1 H2]. destruct (IH _ H2) as [_ H3]. cbn [cutnames].
    split; [done|]. done.
Qed.

Lemma seps_joined ws : Forall name_ok ws -> seps (joined ws) = Z.of_nat (length ws).
Proof.
  intros Hws. induction Hws as [|w ws [_ Hw] _ IH]; [done|]. change (joined (w :: ws)) with ((47 :: w) ++ joined ws).
  unfold seps in *. rewrite filter_app, length_app, Nat2Z.inj_add, IH. rewrite filter_cons_True by done.
  replace (filter (λ x, x = 47) w) with ([] : list Z); [cbn; lia|].
  clear IH. induction w as [|x w IHw]; [done|]. apply not_elem_of_cons in Hw as [Hx Hw].
  rewrite filter_cons_False by congruence. auto.
Qed.

(** The elements of a path are such names. *)
Lemma elements_ok l : Forall name_ok (elements l).
Proof.
  unfold elements. assert (∀ cur, 47 ∉ cur -> Forall name_ok (words [47] cur l)) as Hgo; [|apply Hgo, not_elem_of_nil].
  induction l as [|x l IH]; intros cur Hcur; cbn.
  - destruct cur; [done|]. constructor; [by split|done].
  - destruct (in_set [47] x) eqn:Hx; unfold in_set in Hx.
    + destruct cur; [apply IH, not_elem_of_nil|]. constructor; [by split|]. apply IH, not_elem_of_nil.
    + apply bool_decide_eq_false in Hx. apply IH. rewrite elem_of_app, list_elem_of_singleton. set_solver.
Qed.

Lemma canon_ok cwd input : Forall name_ok (canon cwd input).
Proof.
  unfold canon. assert (∀ ws st, Forall name_ok ws -> Forall name_ok st -> Forall name_ok (foldl canon_elem st ws)) as Hgo.
  { intros ws. induction ws as [|w ws IH]; intros st Hws Hst; [done|]. apply Forall_cons in Hws as [Hw Hws]. cbn.
    apply IH; [done|]. unfold canon_elem. repeat case_bool_decide; [by apply Forall_take|done|]. apply Forall_app. split; [done|by apply Forall_singleton]. }
  apply Hgo; [apply elements_ok|]. destruct (relative input); [apply elements_ok|done].
Qed.

Section opening.
Context {AS : Type} `{!Allocator AS} `{!Literals}.
Implicit Types (s : fs AS) (own : list Z) (t u : mtree) (ns : list (list Z)).

Lemma cutnames_frame m m' a ns :
  (∀ b, a <= b < a + extent ns -> rd m' b = rd m b) -> cutnames m a ns -> cutnames m' a ns.
Proof.
  revert a. induction ns as [|w ns IH]; intros a Heq; [done|]. rewrite extent_cons in Heq. pose proof (extent_nonneg ns).
  intros [Hw Hns]. split.
  - eapply cstr_frame; [|exact Hw]. intros i Hi. apply Heq. lia.
  - apply IH; [|done]. intros b Hb. apply Heq. lia.
Qed.

(** The end of a path, counted in strings. *)
Lemma path_end_spec s p ns :
  rd (f_mem s) p = Some 0 -> 0 <= p -> cutnames (f_mem s) (p + 1) ns -> p + 1 + extent ns < 2 ^ 31 + p ->
  p + 1 + extent ns < 2 ^ 32 ->
  path_end p (Z.of_nat (length ns)) s = Done (p + 1 + extent ns) s.
Proof.
  intros H0 Hp Hc Hx Hend. unfold path_end.
  set (body := λ '(depth, path), if Z.of_nat (length ns) <? depth then mret (inr path)
    else n ← mem (strlen path); mret (inl (u32 (depth + 1), u32 (path + u32 (n + 1)))) : M (fs AS) (Z * Z + Z)).
  assert (∀ ms a k, Z.of_nat k + Z.of_nat (length ms) = Z.of_nat (length ns) + 1 -> cutnames (f_mem s) a ms -> p <= a ->
    a + extent ms = p + 1 + extent ns ->
    runs body (S (length ms)) (Z.of_nat k, a) s (p + 1 + extent ns) s) as Hgo.
  { intros ms. induction ms as [|w ms IH]; intros a k Hk Hms Ha Hae.
    - rewrite extent_nil in Hae. replace (p + 1 + extent ns) with a by lia. constructor. unfold body.
      cbn [length] in Hk. by rewrite (proj2 (Z.ltb_lt _ _)) by lia.
    - rewrite extent_cons in Hae. destruct Hms as [Hw Hms]. pose proof (extent_nonneg ms). pose proof (extent_length ns). cbn [length] in Hk.
      eapply runs_step; [|apply (IH (a + Z.of_nat (length w) + 1) (S k)); [lia|done|lia|lia]].
      unfold body. rewrite (proj2 (Z.ltb_ge _ _)) by lia. mstep (strlen_done s a w Hw ltac:(lia)).
      rewrite (u32_small (Z.of_nat (length w) + 1)), !u32_small by lia. do 3 f_equal; lia. }
  pose proof (extent_length ns). pose proof (extent_nonneg ns).
  apply (runs_while body (S (length ([] :: ns)))); [|pose proof word_fuel_Z; cbn [length]; lia].
  apply (Hgo ([] :: ns) p 0%nat); [cbn [length]; lia|split; [split; [lia|done]|]|lia|rewrite extent_cons; cbn [length]; lia].
  cbn [length]. by rewrite Z.add_0_r.
Qed.

(** *** The walk *)

Definition entered (u : mtree) (w : walk) (c : list Z) : walk :=
  let at' := w_at w + Z.of_nat (length c) + 1 in
  let hit := negb (mfile u =? 0) in
  Walk (maddr u) (if hit then mfile u else w_last w) at' (if hit then at' else w_outpath w)
    (w_depth w + 1) (if hit then w_depth w else w_tree_depth w).

Fixpoint descend (u : mtree) ns (w : walk) : walk :=
  match ns with
  | [] => w
  | c :: ns' => match find_kid c (mkids u) with Some k => descend k ns' (entered k w c) | None => w end
  end.

Lemma descend_runs s t lim : mounts s t -> ∀ ns cs u w,
  sub_at cs t = Some u -> w_node w = maddr u -> cutnames (f_mem s) (w_at w) ns -> 0 <= w_at w ->
  w_at w + extent ns = lim -> lim < 2 ^ 32 -> extent ns < 2 ^ 31 -> 0 <= w_depth w -> w_depth w + extent ns < 2 ^ 31 ->
  ∃ j, (j <= S (length ns))%nat ∧ runs (mount_step lim) j w s (descend u ns w) s.
Proof.
  intros Hm ns. induction ns as [|c ns IH]; intros cs u w Hu Hnode Hc Ha Hlim Hlt Hlt' Hd Hd'.
  - exists 1%nat. split; [done|]. constructor. unfold mount_step. rewrite extent_nil in Hlim. by rewrite (proj2 (Z.leb_le _ _)) by lia.
  - rewrite extent_cons in *. pose proof (extent_nonneg ns). destruct Hc as [Hc Hcs].
    pose proof Hm as [Hok _ Hrep _ _ _]. pose proof (sub_at_rep _ _ _ _ Hrep Hu) as Hur.
    pose proof (find_child_spec s u (w_at w) c Hok Hur Hc) as Hfind. cbn [descend length].
    destruct (find_kid c (mkids u)) as [k|] eqn:Hk; cbn [from_option] in Hfind.
    + assert (Hsub : sub_at (cs ++ [c]) t = Some k) by (rewrite sub_at_app, Hu; cbn; by rewrite Hk).
      assert (Hstep : mount_step lim w s = Done (inl (entered k w c)) s).
      { unfold mount_step. rewrite (proj2 (Z.leb_gt _ _)) by lia. rewrite Hnode. mstep Hfind.
        rewrite (proj2 (Z.eqb_neq _ _)) by (by eapply mt_nonnull). mstep (strlen_done s (w_at w) c Hc ltac:(lia)).
        destruct (sub_load s t _ k Hm Hsub) as (cl & par & El). mstep El. cbn [tn_value].
        assert (Hent : blk s (ment k) sizeof_entry ∧ word (f_mem s) (ment k + E_file) = mfile k).
        { pose proof (sub_at_rep _ _ _ _ Hrep Hsub) as Hkr. destruct k. apply mt_rep_unfold in Hkr as [Hn _]. by destruct Hn. }
        destruct Hent as [Hb Hwf]. mstep (ldf_done s (ment k) E_file (proj2 (proj2 (blk_range _ _ _ Hok Hb)))). rewrite Hwf.
        unfold entered. rewrite (u32_small (w_at w + _)), u32_small, s32_small by lia. done. }
      destruct (IH (cs ++ [c]) k (entered k w c) Hsub eq_refl) as (j & Hj & Hr); cbn; try lia; [exact Hcs|].
      exists (S j). split; [lia|]. by eapply runs_step.
    + exists 1%nat. split; [lia|]. constructor. unfold mount_step. rewrite (proj2 (Z.leb_gt _ _)) by lia.
      rewrite Hnode. by mstep Hfind.
Qed.

(** The longest prefix of a path on which something is mounted: its length,
    0 if there is none. *)
Record longest t ns (i : nat) : Prop := {
  lg_le : (i <= length ns)%nat;
  lg_mounted : i = 0%nat ∨ mounted t (take i ns) ≠ 0;
  lg_rest j : (i < j <= length ns)%nat -> mounted t (take j ns) = 0
}.

Lemma longest_unique t ns i j : longest t ns i -> longest t ns j -> i = j.
Proof.
  intros [L1 M1 R1] [L2 M2 R2]. destruct (Nat.lt_trichotomy i j) as [Hij|[Hij|Hij]]; [|done|].
  - destruct M2 as [->|M2]; [lia|]. destruct M2. apply R1. lia.
  - destruct M1 as [->|M1]; [lia|]. destruct M1. apply R2. lia.
Qed.

Lemma mounted_below cs t u ns : sub_at cs t = Some u -> mounted t (cs ++ ns) = mounted u ns.
Proof. intros Hu. unfold mounted. by rewrite sub_at_app, Hu. Qed.

Lemma descend_spec ns : ∀ u w, ∃ i, (i <= length ns)%nat ∧
  (∀ j, (i < j <= length ns)%nat -> mounted u (take j ns) = 0) ∧
  let w' := descend u ns w in
  if (i =? 0)%nat then w_last w' = w_last w ∧ w_outpath w' = w_outpath w ∧ w_tree_depth w' = w_tree_depth w
  else mounted u (take i ns) ≠ 0 ∧ w_last w' = mounted u (take i ns) ∧ w_outpath w' = w_at w + extent (take i ns) ∧
    w_tree_depth w' = w_depth w + Z.of_nat i - 1.
Proof.
  induction ns as [|c ns IH]; intros u w; [exists 0%nat; split; [done|]; split; [cbn; lia|done]|].
  cbn [descend]. destruct (find_kid c (mkids u)) as [k|] eqn:Hk.
  - assert (Hd : ∀ ds, mounted u (c :: ds) = mounted k ds).
    { intros ds. unfold mounted. cbn. by rewrite Hk. }
    destruct (IH k (entered k w c)) as (i & Hi & Hrest & Hw). destruct i as [|i]; cbn [Nat.eqb] in Hw.
    + destruct Hw as (H1 & H2 & H3). cbn in H1, H2, H3. destruct (Z.eqb_spec (mfile k) 0) as [Hz|Hz]; cbn [negb] in *.
      * exists 0%nat. split; [lia|]. split; [|done]. intros [|j] Hj; [lia|]. cbn [take]. rewrite Hd.
        destruct j as [|j]; [exact Hz|]. apply Hrest. cbn [length] in Hj. lia.
      * exists 1%nat. split; [cbn; lia|]. split.
        { intros [|j] Hj; [lia|]. cbn [take]. rewrite Hd. apply Hrest. cbn [length] in Hj. lia. }
        cbn [Nat.eqb take]. rewrite Hd, take_0. split; [done|]. split; [done|]. rewrite extent_cons, extent_nil.
        split; [cbn; lia|]. cbn. lia.
    + exists (S (S i)). split; [cbn; lia|]. split.
      { intros [|j] Hj; [lia|]. cbn [take]. rewrite Hd. apply Hrest. cbn [length] in Hj. lia. }
      cbn [Nat.eqb]. destruct Hw as (H1 & H2 & H3 & H4). change (take (S (S i)) (c :: ns)) with (c :: take (S i) ns). rewrite Hd.
      split; [done|]. split; [done|]. rewrite extent_cons. cbn in H3, H4 |- *. split; [cbn; lia|lia].
  - exists 0%nat. split; [lia|]. split; [|done]. intros [|j] Hj; [lia|]. unfold mounted. cbn. by rewrite Hk.
Qed.

(** A file system node: a block of bytes. *)
Definition node_at s (f : Z) : Prop := blk s f sizeof_node ∧ readable (f_mem s) f sizeof_node.

Lemma node_bytes own s s' f : fs_ok s -> frame own s s' -> f ∉ own -> node_at s f ->
  ∀ i, 0 <= i < sizeof_node -> rd (f_mem s') (f + i) = rd (f_mem s) (f + i).
Proof.
  intros Hok Hf Hfo [Hb _] i Hi. apply (fr_bytes _ _ _ Hf). eapply secure_guarded; [by apply blk_secure|done].
Qed.

Lemma node_at_frame own s s' f : fs_ok s -> frame own s s' -> f ∉ own -> node_at s f -> node_at s' f.
Proof.
  intros Hok Hf Hfo Hn. pose proof (node_bytes _ _ _ _ Hok Hf Hfo Hn) as Hb. destruct Hn as [Hblk (H1 & H2 & Hr)].
  split; [by eapply blk_frame|]. split; [done|]. split; [done|]. intros i Hi. destruct (Hr i Hi) as (x & Hx & Hxr).
  exists x. by rewrite Hb.
Qed.

(** [malloc(sizeof(vfs_node_t)); memcpy(...)] *)
Definition copied s s' (q f : Z) : Prop :=
  blk s' q sizeof_node ∧ ∀ i, 0 <= i < sizeof_node -> rd (f_mem s') (q + i) = rd (f_mem s) (f + i).

Lemma copy_node_spec s n q f :
  fs_ok s -> fs_room n s -> blk s q sizeof_node -> node_at s f -> q ≠ f ->
  ∃ d, mem (memcpy q f sizeof_node) s = Done q (set_fmem d s) ∧ frame [q] s (set_fmem d s) ∧ copied s (set_fmem d s) q f.
Proof.
  intros Hok Hroom Hq [Hf Hread] Hne. pose proof (blk_range _ _ _ Hok Hq). pose proof (blk_range _ _ _ Hok Hf). pose proof am_base_pos.
  assert (Hd : q + sizeof_node <= f ∨ f + sizeof_node <= q).
  { apply (secure_apart [q] s q sizeof_node); [done|by left|done|done|]. apply blk_secure; [done| |done]. by intros ->%list_elem_of_singleton. }
  unfold sizeof_node in *.
  destruct (memcpy_frame s q 328 q f 328) as (d & E & Hfill & Fr); [done|done|lia|lia|lia|exact Hread|exact Hd|].
  exists d. split; [done|]. split; [done|]. split; [done|]. intros i Hi. cbn [set_fmem f_mem]. unfold sizeof_node in Hi.
  rewrite Hfill, decide_True by lia. f_equal. lia.
Qed.

Lemma clone_node_spec s n f :
  fs_ok s -> fs_room (S n) s -> node_at s f ->
  ∃ q s', clone_node f s = Done q s' ∧ step [q] n s s' ∧ live s !! q = None ∧ copied s s' q f.
Proof.
  intros Hok Hroom Hf.
  destruct (fmalloc_spec s n sizeof_node Hok Hroom) as (q & s1 & E1 & Ok1 & R1 & F1 & B1 & M1 & Fr1); [unfold sizeof_node, small_block; lia|].
  assert (Hqf : q ≠ f) by (intros ->; by apply (blk_live _ _ _ (proj1 Hf))).
  assert (Hf1 : node_at s1 f) by (eapply node_at_frame; [exact Hok|exact Fr1| |done]; by intros ->%list_elem_of_singleton).
  destruct (copy_node_spec s1 n q f Ok1 R1 B1 Hf1 Hqf) as (d & E2 & Fr2 & [Hb2 Hc2]).
  exists q, (set_fmem d s1). split; [unfold clone_node; mstep E1; by mstep E2|]. split; [split; [done|by eapply frame_trans|done]|].
  split; [done|]. split; [done|]. intros i Hi. rewrite Hc2 by done. by rewrite M1.
Qed.

Lemma copied_frame own s s1 s2 q f : fs_ok s1 -> frame own s1 s2 -> q ∉ own -> copied s s1 q f -> copied s s2 q f.
Proof.
  intros Hok Hf Hq [Hb Hc]. split; [by eapply blk_frame|]. intros i Hi. rewrite <- Hc by done.
  apply (fr_bytes _ _ _ Hf). eapply secure_guarded; [by apply blk_secure|done].
Qed.

Lemma get_mount_point_spec s n t p ns i :
  mounts s t -> fs_room (S n) s -> rd (f_mem s) p = Some 0 -> 0 <= p -> cutnames (f_mem s) (p + 1) ns ->
  p + 1 + extent ns < 2 ^ 32 -> extent ns + 2 < 2 ^ 31 -> longest t ns i ->
  let f := mounted t (take i ns) in
  (f ≠ 0 -> node_at s f) ->
  ∃ q s', get_mount_point p (Z.of_nat (length ns)) (p + 1) s = Done (q, p + 1 + extent (take i ns), Z.of_nat i) s' ∧
    if f =? 0 then q = 0 ∧ s' = s else step [q] n s s' ∧ live s !! q = None ∧ copied s s' q f.
Proof.
  intros Hm Hroom H0 Hp Hc Hend Hlen Hlg f Hnode. pose proof Hm as [Hok [nn HT] _ _ _ Hroot].
  set (w0 := Walk (maddr t) (vfs_root_node s) (p + 1) (p + 1) 1 0).
  destruct (descend_runs s t (p + 1 + extent ns) Hm ns [] t w0 eq_refl eq_refl Hc) as (j & Hj & Hruns); [cbn; lia..|].
  set (w := descend t ns w0) in *.
  assert (Hw : w_last w = f ∧ w_outpath w = p + 1 + extent (take i ns) ∧ w_tree_depth w = Z.of_nat i).
  { destruct (descend_spec ns t w0) as (i' & Hi' & Hrest & Hd). fold w in Hd. cbv zeta in Hd.
    assert (i = i') as <-.
    { apply (longest_unique t ns); [done|]. split; [done| |done]. destruct i'; [by left|right]. by destruct Hd. }
    destruct i as [|i]; cbn [Nat.eqb] in Hd.
    - destruct Hd as (-> & -> & ->). unfold f. rewrite take_0, extent_nil. cbn. split; [|split; [lia|done]].
      rewrite Hroot. by destruct t.
    - destruct Hd as (_ & -> & -> & ->). cbn [w0 w_at w_depth]. split; [done|]. split; [done|lia]. }
  destruct Hw as (Hw1 & Hw2 & Hw3).
  assert (Hi : 0 <= Z.of_nat i < 2 ^ 32).
  { pose proof (lg_le _ _ _ Hlg). assert (∀ ms, Z.of_nat (length ms) <= extent ms) as Hx.
    { intros ms. induction ms as [|m ms IH]; [done|]. rewrite extent_cons. cbn [length]. lia. }
    pose proof (Hx ns). lia. }
  assert (Hwhile : while word_fuel (mount_step (p + 1 + extent ns)) w0 s = Done w s).
  { apply (runs_while _ _ _ _ _ _ _ Hruns). pose proof word_fuel_Z.
    pose proof (extent_length ns). lia. }
  assert (Hrun : get_mount_point p (Z.of_nat (length ns)) (p + 1) s =
    (if f =? 0 then mret (0, p + 1 + extent (take i ns), Z.of_nat i)
     else last_clone ← clone_node f; mret (last_clone, p + 1 + extent (take i ns), Z.of_nat i)) s).
  { unfold get_mount_point. mstep (path_end_spec s p ns H0 Hp Hc ltac:(lia) Hend). mrun.
    mstep (obj_load _ _ _ Hok HT). cbn [t_root]. mstep Hwhile. rewrite Hw1, Hw2, Hw3, (u32_small (Z.of_nat i)) by lia. done. }
  rewrite Hrun. destruct (Z.eqb_spec f 0) as [Hf|Hf]; [by exists 0, s|].
  destruct (clone_node_spec s n f Hok Hroom (Hnode Hf)) as (q & s' & E & S & Hq & Hcp). exists q, s'. by mstep E.
Qed.

Lemma not_in_one (x y : Z) : x ≠ y -> x ∉ [y].
Proof. by intros Hne ?%list_elem_of_singleton. Qed.

Lemma longest_all t ns : mounted t ns ≠ 0 -> longest t ns (length ns).
Proof. intros Hm. split; [done|right; by rewrite firstn_all|lia]. Qed.

Lemma extent_render ws : ws ≠ [] -> Z.of_nat (length (render ws)) = extent ws.
Proof. by destruct ws. Qed.

Lemma name_extent w ws : Forall name_ok (w :: ws) -> 2 <= extent (w :: ws).
Proof.
  intros [[Hw _] _]%Forall_cons. rewrite extent_cons. pose proof (extent_nonneg ws). destruct w; [done|]. cbn [length]. lia.
Qed.

(** What [open_step] would do is not reached: the functions in nodes do not
    matter here. *)
Context `{!Drivers AS}.

(** The root: a copy of the node the shortcut points to. *)
Lemma kopen_root s1 n p :
  fs_ok s1 -> fs_room (S n) s1 -> str s1 p [47] -> node_at s1 (vfs_root_node s1) ->
  ∃ q s2 s3, fmalloc sizeof_node s1 = Done q s2 ∧ (∃ d, mem (memcpy q (vfs_root_node s2) sizeof_node) s2 = Done q (set_fmem d s2) ∧
    ffree p (set_fmem d s2) = Done tt s3) ∧ fs_ok s3 ∧ fs_room n s3 ∧ frame [q; p] s1 s3 ∧ live s1 !! q = None ∧ live s3 !! p = None ∧
    copied s1 s3 q (vfs_root_node s1).
Proof.
  intros Hok Hroom Hp Hr.
  destruct (fmalloc_spec s1 n sizeof_node Hok Hroom) as (q & s2 & E1 & Ok2 & R2 & F2 & B2 & M2 & Fr2); [unfold sizeof_node, small_block; lia|].
  destruct (fr_globals _ _ _ Fr2) as (_ & _ & Hg).
  assert (Hqf : q ≠ vfs_root_node s1) by (intros ->; by apply (blk_live _ _ _ (proj1 Hr))).
  assert (Hr2 : node_at s2 (vfs_root_node s1)) by (eapply node_at_frame; [exact Hok|exact Fr2| |done]; by intros ?%list_elem_of_singleton).
  destruct (copy_node_spec s2 n q _ Ok2 R2 B2 Hr2 Hqf) as (d & E2 & Fr3 & Hc).
  pose proof (frame_trans _ _ _ _ Fr2 Fr3) as Fr23.
  assert (Hpq : p ≠ q) by (intros ->; by apply (blk_live _ _ _ (proj1 Hp))).
  assert (Hp3 : blk (set_fmem d s2) p (Z.of_nat (length [47]) + 1)).
  { eapply blk_frame; [|exact Fr23|exact (proj1 Hp)]. exact (not_in_one _ _ Hpq). }
  destruct (ffree_spec (set_fmem d s2) p _ Ok2 (proj1 Hp3)) as (s3 & E3 & Ok3 & R3 & L3 & M3 & Fr4).
  exists q, s2, s3. split; [exact E1|]. split; [exists d; rewrite Hg; by split|]. split; [exact Ok3|]. split; [by apply R3|].
  split; [|split; [exact F2|split; [exact L3|]]].
  - apply (frame_trans _ _ (set_fmem d s2)); [eapply frame_mono; [|exact Fr23]|eapply frame_mono; [|exact Fr4]]; intros b; mem_solve.
  - apply (copied_frame [p] s1 (set_fmem d s2)); [exact Ok2|exact Fr4|by apply not_in_one, not_eq_sym|].
    destruct Hc as [Hb Hc]. split; [exact Hb|]. intros i Hi. rewrite Hc by exact Hi. by rewrite M2.
Qed.

(** Behind the root: the path is cut up, its mount point is copied, and the
    block for the search that is not needed stays allocated. *)
Lemma kopen_below s1 n t p ws :
  mounts s1 t -> fs_room (S (S n)) s1 -> str s1 p (render ws) -> ws ≠ [] -> Forall name_ok ws -> extent ws + 3 <= small_block ->
  p ∉ foot t -> p ≠ vfs_tree s1 -> mounted t ws ≠ 0 -> node_at s1 (mounted t ws) -> mounted t ws ≠ p ->
  ∃ d x q s2 s3 s4, cut_path p (extent ws) s1 = Done (Z.of_nat (length ws)) (set_fmem d s1) ∧
    fmalloc sizeof_node (set_fmem d s1) = Done x s2 ∧
    get_mount_point p (Z.of_nat (length ws)) (p + 1) s2 = Done (q, p + 1 + extent ws, Z.of_nat (length ws)) s3 ∧
    ffree p s3 = Done tt s4 ∧ 0 <= p ∧ p + 1 + extent ws < 2 ^ 32 ∧ fs_ok s4 ∧ fs_room n s4 ∧ frame [q; x; p] s1 s4 ∧
    live s1 !! x = None ∧ live s1 !! q = None ∧ live s4 !! x ≠ None ∧ live s4 !! p = None ∧ x ≠ q ∧
    copied s1 s4 q (mounted t ws).
Proof.
  intros Hm Hroom [Hb Hc] Hws Hok_ws Hlen Hpt Hpv Hf Hnode Hfp. pose proof (mo_ok _ _ Hm) as Hok.
  pose proof (extent_render ws Hws) as Hex. rewrite Hex in Hb.
  destruct (cut_path_spec s1 p _ (render ws) Hok Hb) as (d & E1 & Hcut & Fr1); [lia|done|].
  rewrite Hex in E1. assert (Hjr : render ws = joined ws) by (by destruct ws). rewrite Hjr, seps_joined in E1 by done. rewrite Hjr in Hcut.
  destruct (cutstr_names _ _ _ Hok_ws Hcut) as [Hz Hcn]. set (s1' := set_fmem d s1) in *.
  assert (M1 : mounts s1' t) by (eapply mounts_frame; [exact Hm|done|exact Fr1|]; by intros b ->%list_elem_of_singleton).
  destruct (fmalloc_spec s1' (S n) sizeof_node Hok Hroom) as (x & s2 & E2 & Ok2 & R2 & F2 & B2 & Mm2 & Fr2); [unfold sizeof_node, small_block; lia|].
  assert (Hxl : live s1 !! x = None) by exact F2.
  destruct (fresh_apart _ _ _ M1 F2) as [Hxt Hxv].
  assert (M2 : mounts s2 t) by (eapply mounts_frame; [exact M1|done|exact Fr2|]; by intros b ->%list_elem_of_singleton).
  assert (Hxp : x ≠ p) by (intros ->; by apply (blk_live _ _ _ Hb)).
  assert (Hxf : x ≠ mounted t ws) by (intros ->; by apply (blk_live _ _ _ (proj1 Hnode))).
  pose proof (blk_range _ _ _ Hok Hb) as (? & ? & _). pose proof am_base_pos.
  assert (Fr12 : frame [x; p] s1 s2).
  { apply (frame_trans _ _ s1'); (eapply frame_mono; [|done]); intros b; mem_solve. }
  assert (Hfo : mounted t ws ∉ [x; p]) by (rewrite elem_of_cons, list_elem_of_singleton; naive_solver).
  assert (Hb2 : blk s2 p (extent ws + 1)) by (eapply blk_frame; [|exact Fr2|exact Hb]; by intros ->%list_elem_of_singleton).
  assert (Htop : p + (extent ws + 1) < 2 ^ 32) by (apply (blk_top s2); [done| |done]; eapply fs_room_le; [|exact R2]; lia).
  assert (Hcn2 : cutnames (f_mem s2) (p + 1) ws) by (by rewrite Mm2).
  unfold small_block in Hlen.
  destruct (get_mount_point_spec s2 n t p ws (length ws) M2 R2) as (q & s3 & E3 & H3);
    [by rewrite Mm2|lia|done|lia|lia|by apply longest_all|rewrite firstn_all; intros _; exact (node_at_frame _ _ _ _ Hok Fr12 Hfo Hnode)|].
  rewrite firstn_all in E3, H3. rewrite (proj2 (Z.eqb_neq _ _)) in H3 by done. destruct H3 as ([Ok3 Fr3 R3] & F3 & C3).
  assert (Hqx : x ≠ q) by (intros ->; by apply (blk_live _ _ _ B2)).
  assert (Hqp : p ≠ q) by (intros ->; by apply (blk_live _ _ _ Hb2)).
  assert (Hb3 : blk s3 p (extent ws + 1)) by (eapply blk_frame; [|exact Fr3|exact Hb2]; by intros ->%list_elem_of_singleton).
  destruct (ffree_spec s3 p _ Ok3 (proj1 Hb3)) as (s4 & E4 & Ok4 & R4 & L4 & Mm4 & Fr4).
  assert (Hql : live s1 !! q = None).
  { rewrite <- F3. symmetry. apply (fr_live _ _ _ Fr12). rewrite elem_of_cons, list_elem_of_singleton. naive_solver. }
  exists d, x, q, s2, s3, s4. do 4 (split; [done|]). split; [lia|]. split; [lia|]. split; [done|]. split; [by apply R4|].
  split; [|do 2 (split; [done|]); split; [|split; [done|split; [done|]]]].
  - apply (frame_trans _ _ s2); [eapply frame_mono; [|done]; intros b; mem_solve|].
    apply (frame_trans _ _ s3); (eapply frame_mono; [|done]); intros b; mem_solve.
  - rewrite (fr_live _ _ _ Fr4), (fr_live _ _ _ Fr3) by (by intros ?%list_elem_of_singleton). by apply (blk_live _ _ _ B2).
  - apply (copied_frame [p] s1 s3); [done|done|by intros ?%list_elem_of_singleton|].
    destruct C3 as [Hb' Hc']. split; [done|]. intros i Hi. rewrite Hc' by done. by apply (node_bytes [x; p] s1 s2).
Qed.

(** The canonical path [p] is gone at the end: only [q] and [leak] are new. *)
Lemma kopen_settle s s1 s' t p q leak :
  mounts s t -> mounts s1 t -> fs_ok s' -> frame [p] s s1 -> live s !! p = None -> frame (q :: leak ++ [p]) s1 s' ->
  live s' !! p = None -> live s1 !! q = None -> (∀ b, b ∈ leak -> live s1 !! b = None ∧ b ≠ p) ->
  frame (q :: leak) s s' ∧ mounts s' t ∧ live s !! q = None ∧ ∀ b, b ∈ leak -> live s !! b = None.
Proof.
  intros Hm M1 Ok' Fr1 Hp Fr' Lp Lq Hleak. pose proof (mo_ok _ _ Hm) as Hok. destruct (fr_globals _ _ _ Fr1) as (Hv1 & _).
  destruct (fresh_apart _ _ _ Hm Hp) as [Hpt Hpv].
  assert (Hup : ∀ b, live s1 !! b = None -> live s !! b = None).
  { intros b Hb. destruct (decide (b = p)) as [->|Hbp]; [done|]. by rewrite <- (fr_live _ _ _ Fr1) by by apply not_in_one. }
  assert (Frs : frame (q :: leak ++ [p]) s s').
  { apply (frame_trans _ _ s1); [|exact Fr']. eapply frame_mono; [|exact Fr1]. intros b. mem_solve. }
  split; [|split; [|split; [by apply Hup|intros b Hb; by apply Hup, Hleak]]].
  - eapply (frame_shrink _ _ _ _ Hok Ok'); [|exact Frs]. intros b. rewrite elem_of_cons, elem_of_app, list_elem_of_singleton.
    intros [->|[Hb| ->]]; [left; by left|left; by right|by right].
  - eapply mounts_frame; [exact M1|done|exact Fr'|]. intros b. rewrite elem_of_cons, elem_of_app, list_elem_of_singleton.
    intros [->|[Hb| ->]]; [by apply (fresh_apart s1)|apply (fresh_apart s1); [done|by apply Hleak]|by rewrite Hv1].
Qed.

(** C14: [get_mount_point] on a path cut at its separators. It finds the
    longest prefix on which something is mounted: [*outpath] becomes the
    rest of the path behind it and [*outdepth] its number of names. It
    returns a fresh copy of the node mounted there, or null if nothing is
    mounted on the way, not even on the root. *)
Theorem get_mount_point_longest s n t p ns i
    (Hm : mounts s t) (Hroom : fs_room (S n) s) (Hstart : rd (f_mem s) p = Some 0) (Hp : 0 <= p)
    (Hnames : cutnames (f_mem s) (p + 1) ns) (Hend : p + 1 + extent ns < 2 ^ 32) (Hlen : extent ns + 2 < 2 ^ 31)
    (Hlongest : longest t ns i) (Hnode : mounted t (take i ns) ≠ 0 -> node_at s (mounted t (take i ns))) :
  let f := mounted t (take i ns) in
  ∃ q s', get_mount_point p (Z.of_nat (length ns)) (p + 1) s = Done (q, p + 1 + extent (take i ns), Z.of_nat i) s' ∧
    if f =? 0 then q = 0 ∧ s' = s
    else step [q] n s s' ∧ mounts s' t ∧ live s !! q = None ∧ copied s s' q f.
Proof.
  destruct (get_mount_point_spec s n t p ns i Hm Hroom Hstart Hp Hnames Hend Hlen Hlongest Hnode) as (q & s' & E & Hres).
  exists q, s'. split; [exact E|]. destruct (_ =? 0); [done|]. destruct Hres as (Hst & Hq & Hc). split; [done|]. split; [|done].
  pose proof (fresh_apart _ _ _ Hm Hq). eapply mounts_frame; [exact Hm|apply Hst|apply Hst|]. by intros b ->%list_elem_of_singleton.
Qed.

(** A copy of a node that was there before. *)
Lemma copied_before s s1 s' p q f :
  fs_ok s -> frame [p] s s1 -> f ≠ p -> node_at s f -> copied s1 s' q f -> copied s s' q f.
Proof.
  intros Hok Fr Hpf Hnode [Hb Hc]. pose proof (node_bytes _ _ _ _ Hok Fr (not_in_one _ _ Hpf) Hnode) as Hbytes.
  split; [exact Hb|]. intros i Hi. rewrite Hc, Hbytes by exact Hi. done.
Qed.

(** C6: opening a mount point. For every path whose canonical form names a
    mounted node, [kopen] returns a fresh copy of that node (all 328 bytes),
    whatever the flags and the functions in the node. The mount tree and
    everything allocated before are as they were; below the root, one more
    block, taken for a search that does not happen, stays allocated. *)
Theorem kopen_mount_point s n t filename flags li
    (Hm : mounts s t) (Hlit : literals_ok s) (Hname : filename ≠ 0) (Htext : text [] s filename li)
    (Hlen : Z.of_nat (length li) + 6 <= small_block) (Hroom : fs_room (n + 2 * length li + 9) s)
    (Hmounted : mounted t (canon [47] li) ≠ 0) (Hnode : node_at s (mounted t (canon [47] li))) :
  ∃ q s' leak, kopen filename flags s = Done q s' ∧ mounts s' t ∧ fs_room n s' ∧
    copied s s' q (mounted t (canon [47] li)) ∧ live s !! q = None ∧ frame (q :: leak) s s' ∧
    (∀ b, b ∈ leak -> live s !! b = None ∧ live s' !! b ≠ None ∧ b ≠ q) ∧
    length leak = if bool_decide (canon [47] li = []) then 0%nat else 1%nat.
Proof.
  set (ws := canon [47] li) in *. pose proof (canon_ok [47] li) as Hws. fold ws in Hws.
  pose proof Hm as [Hok [nn HT] _ _ _ Hroot]. destruct (lo_cwd _ Hlit) as (Hc0 & Hcb & Hcc).
  assert (Hcwd : text [] s lit_cwd [47]) by (split; [split; [done|left; lia]|done]).
  destruct (canonicalize_spec s lit_cwd filename [47] li (S (S n)) Hok Hlit Hcwd Htext) as (p & s1 & E1 & Ok1 & R1 & Hs1 & Hp & Fr1);
    [cbn [length]; lia|eapply fs_room_le; [|exact Hroom]; cbn [length]; lia|].
  fold ws in Hs1. destruct (fresh_apart _ _ _ Hm Hp) as [Hpt Hpv]. destruct (fr_globals _ _ _ Fr1) as (Hv1 & _ & Hr1).
  assert (M1 : mounts s1 t) by (eapply mounts_frame; [exact Hm|done|exact Fr1|]; by intros b ->%list_elem_of_singleton).
  set (f := mounted t ws) in *. assert (Hpf : f ≠ p) by (intros Heq; apply (blk_live _ _ _ (proj1 Hnode)); by rewrite Heq).
  pose proof (node_at_frame _ _ _ _ Hok Fr1 (not_in_one _ _ Hpf) Hnode) as Hn1.
  pose proof (λ q s', copied_before s s1 s' p q f Hok Fr1 Hpf Hnode) as Hcopy.
  pose proof (canon_size [47] li) as Hsize. fold ws in Hsize. cbn [length] in Hsize.
  unfold kopen. mrun. rewrite (bind_Done _ _ _ _ _ (obj_load _ _ _ Hok HT)). cbn [t_root].
  rewrite (proj2 (Z.eqb_neq (maddr t) 0)) by exact (mt_nonnull _ _ [] _ Hm eq_refl). rewrite (proj2 (Z.eqb_neq _ _)) by done.
  cbn [orb]. rewrite (bind_Done _ _ _ _ _ E1).
  unfold small_block in Hlen.
  destruct (decide (ws = [])) as [Hnil|Hnil].
  - rewrite Hnil in Hs1. change (render []) with [47] in Hs1.
    assert (Hf : f = vfs_root_node s1) by (unfold f; rewrite Hnil, Hr1, Hroot; by destruct t).
    rewrite Hf in Hn1. destruct (kopen_root s1 (S n) p Ok1 R1 Hs1 Hn1) as (q & s2 & s3 & E2 & (d & E3 & E4) & Ok3 & R3 & Fr3 & Lq & Lp & C3).
    rewrite (bind_Done _ _ _ _ _ (strlen_done s1 p [47] (proj2 Hs1) ltac:(cbn; lia))). cbn [length].
    change (Z.of_nat 1 =? 1) with true. cbn iota. rewrite (bind_Done _ _ _ _ _ E2). mrun. rewrite (bind_Done _ _ _ _ _ E3), (bind_Done _ _ _ _ _ E4).
    clear E1 E2 E3 E4. rewrite <- Hf in C3. destruct (kopen_settle s s1 s3 t p q [] Hm M1 Ok3 Fr1 Hp Fr3 Lp Lq) as (F & M & L & _); [by intros b ?%elem_of_nil|].
    exists q, s3, []. split; [done|]. split; [done|]. split; [eapply fs_room_le; [|exact R3]; lia|]. split; [by apply Hcopy|].
    split; [done|]. split; [done|]. split; [by intros b ?%elem_of_nil|]. by rewrite bool_decide_true.
  - destruct (kopen_below s1 n t p ws M1 R1 Hs1 Hnil Hws) as
      (d & x & q & s2 & s3 & s4 & E2 & E3 & E4 & E5 & Hp0 & Htop & Ok4 & R4 & Fr4 & Lx & Lq & Lx4 & Lp & Hxq & C4);
      [unfold extent, small_block; lia|done|by rewrite Hv1|done|done|done|].
    assert (H2 : 2 <= extent ws) by (destruct ws; [done|by apply name_extent]).
    pose proof (extent_render ws Hnil) as Hex. assert (Hex2 : extent ws < 2 ^ 31) by (unfold extent; lia).
    rewrite (bind_Done _ _ _ _ _ (strlen_done s1 p _ (proj2 Hs1) ltac:(lia))), Hex, (proj2 (Z.eqb_neq _ _)) by lia.
    rewrite (bind_Done _ _ _ _ _ E2), (bind_Done _ _ _ _ _ E3), (u32_small (p + 1)) by lia.
    rewrite (bind_Done _ _ _ _ _ E4), (u32_small (p + extent ws)), (proj2 (Z.leb_le _ _)) by lia. rewrite (bind_Done _ _ _ _ _ E5).
    clear E1 E2 E3 E4 E5.
    assert (Hxp : x ≠ p) by (intros ->; by apply (blk_live _ _ _ (proj1 Hs1))).
    destruct (kopen_settle s s1 s4 t p q [x] Hm M1 Ok4 Fr1 Hp Fr4 Lp Lq) as (F & M & L & Hl); [by intros b ->%list_elem_of_singleton|].
    exists q, s4, [x]. split; [done|]. split; [done|]. split; [done|]. split; [by apply Hcopy|]. split; [done|]. split; [done|].
    split; [|by rewrite bool_decide_false]. intros b ->%list_elem_of_singleton. split; [|done]. apply Hl. by left.
Qed.
End opening.

(** ** An example *)

Section open_examples.
#[local] Existing Instance Bump.allocator.
#[local] Existing Instance table_literals.
#[local] Instance no_drivers : Drivers Bump.bump := {|
  call_read _ _ _ _ _ := mret 0; call_write _ _ _ _ _ := mret 0; call_open _ _ _ := mret tt; call_close _ _ := mret tt;
  call_ioctl _ _ := mret tt; call_readdir _ _ _ := mret 0; call_finddir _ _ _ := mret 0; call_create _ _ _ _ := mret tt
|}.

(** The strings below the heap are never written. *)
Lemma low_text (s s' : fs Bump.bump) a l : (∀ b, b <= 0xFFF -> rd (f_mem s') b = rd (f_mem s) b) ->
  a + Z.of_nat (length l) <= 0xFFF -> cstr (f_mem s) a l -> cstr (f_mem s') a l.
Proof. intros Hb Ha. apply cstr_frame. intros i Hi. apply Hb. lia. Qed.

(** ["/dev/null"] mounted on a block of zeros *)
Lemma example_mounted : ∃ s t q, mounts s t ∧ literals_ok s ∧ text [] s 0x100 [47; 100; 101; 118; 47; 110; 117; 108; 108] ∧
  fs_room 40 s ∧ mounted t [[100; 101; 118]; [110; 117; 108; 108]] = q ∧ q ≠ 0 ∧ node_at s q ∧
  (∀ ds, ds ≠ [[100; 101; 118]; [110; 117; 108; 108]] -> mounted t ds = 0) ∧ ∀ b, b <= 0xFFF -> rd (f_mem s) b = rd (f_mem table_fs) b.
Proof.
  destruct (vfs_init_spec table_fs 100) as (t & s1 & own & x & y & Hi & M1 & R1 & Hz & Fr1 & _).
  { apply Bump.start_ok. }
  { by vm_compute. }
  { apply table_text; cbn; try lia; repeat split; try lia; reflexivity. }
  { done. }
  destruct (fmalloc_spec s1 99 sizeof_node (mo_ok _ _ M1) R1) as (q & s2 & E2 & Ok2 & R2 & F2 & B2 & Mm2 & Fr2); [unfold sizeof_node, small_block; lia|].
  pose proof (blk_range _ _ _ Ok2 B2) as (Hq1 & Hq2 & Hq0). pose proof am_base_pos as Hbase.
  destruct (memset_spec (f_mem s2) q 0 sizeof_node) as (d & Ed & Hd); [unfold sizeof_node; lia|lia|apply ram_total; lia|].
  set (s3 := set_fmem d s2). clear E2 Ed Hi.
  assert (Fr3 : frame [q] s2 s3) by (eapply frame_fill; [done|exact B2| | |exact Hd]; lia).
  pose proof (frame_trans _ _ _ _ Fr2 Fr3) as Fr23. destruct (fresh_apart _ _ _ M1 F2) as [Hqt Hqv].
  assert (M3 : mounts s3 t) by (eapply mounts_frame; [exact M1|done|exact Fr23|]; by intros b ->%list_elem_of_singleton).
  assert (Hlow3 : ∀ b, b <= 0xFFF -> rd (f_mem s3) b = rd (f_mem table_fs) b).
  { intros b Hb. rewrite (fr_bytes _ _ _ Fr23) by (left; exact Hb). apply (fr_bytes _ _ _ Fr1). left. exact Hb. }
  assert (Hn3 : node_at s3 q).
  { split; [exact B2|]. split; [lia|]. split; [exact Hq2|]. intros i Hi'. exists 0. split; [|lia]. cbn [s3 set_fmem f_mem].
    rewrite Hd, decide_True by lia. reflexivity. }
  destruct (vfs_mount_spec s3 50 t 0x100 [100; 101; 118; 47; 110; 117; 108; 108] q) as (s4 & t4 & _ & M4 & R4 & T4 & C4 & _).
  { done. }
  { done. }
  { split; [split; [lia|left; cbn; unfold Bump.base; lia]|]. apply (low_text table_fs); [done|cbn; lia|].
    cbn; repeat split; try lia; reflexivity. }
  { by vm_compute. }
  { unfold sizeof_node in *. lia. }
  { eapply fs_room_le; [|exact R2]. cbn. lia. }
  destruct (fr_globals _ _ _ Fr23) as (Hv3 & _).
  destruct (touches_live _ _ _ q C4) as (o & Fo & Hqo); [by apply (blk_live _ _ _ (proj1 Hn3))|by rewrite Hv3|done|].
  assert (Hlow4 : ∀ b, b <= 0xFFF -> rd (f_mem s4) b = rd (f_mem table_fs) b).
  { intros b Hb. rewrite <- Hlow3 by done. apply (fr_bytes _ _ _ Fo). left. exact Hb. }
  exists s4, t4, q. split; [done|]. split; [|split; [|split; [eapply fs_room_le; [|exact R4]; lia|split; [|split; [done|split; [|split; [|done]]]]]]].
  - split; (split; [cbn; lia|split; [cbn; unfold Bump.base; lia|]]; apply (low_text table_fs); [done|cbn; lia|];
      cbn; repeat split; try lia; reflexivity).
  - split; [split; [lia|left; cbn; unfold Bump.base; lia]|]. apply (low_text table_fs); [done|cbn; lia|].
    cbn; repeat split; try lia; reflexivity.
  - rewrite T4, !Hz. done.
  - exact (node_at_frame _ _ _ _ (mo_ok _ _ M3) Fo Hqo Hn3).
  - intros ds Hds. rewrite T4, bool_decide_false by exact Hds. cbn [andb]. apply Hz.
Qed.

Lemma kopen_mount_point_witness :
  ∃ s q f s', kopen 0x100 0 s = Done q s' ∧ q ≠ f ∧ copied s s' q f.
Proof.
  destruct example_mounted as (s & t & f & Hm & Hlit & Ht & Hr & Hf & Hf0 & Hn & _). subst f.
  destruct (kopen_mount_point s 10 t 0x100 0 [47; 100; 101; 118; 47; 110; 117; 108; 108]) as (q & s' & leak & E & _ & _ & C & L & _).
  - exact Hm.
  - exact Hlit.
  - done.
  - exact Ht.
  - by vm_compute.
  - eapply fs_room_le; [|exact Hr]. cbn. lia.
  - exact Hf0.
  - exact Hn.
  - exists s, q, (mounted t (canon [47] [47; 100; 101; 118; 47; 110; 117; 108; 108])), s'. split; [exact E|]. split; [|exact C].
    intros Heq. apply (blk_live _ _ _ (proj1 Hn)). etrans; [|exact L]. f_equal. exact (eq_sym Heq).
Defined.

Lemma get_mount_point_longest_witness :
  ∃ s q f s', get_mount_point 0x120 3 0x121 s = Done (q, 0x12A, 2) s' ∧ q ≠ f ∧ copied s s' q f.
Proof.
  destruct example_mounted as (s & t & f & Hm & _ & _ & Hr & Hf & Hf0 & Hn & Hz & Hlow).
  destruct (get_mount_point_longest s 10 t 0x120 [[100; 101; 118]; [110; 117; 108; 108]; [120]] 2) as (q & s' & E & H2).
  - exact Hm.
  - eapply fs_room_le; [|exact Hr]. lia.
  - rewrite Hlow by lia. reflexivity.
  - lia.
  - assert (cutnames (f_mem table_fs) 0x121 [[100; 101; 118]; [110; 117; 108; 108]; [120]]) as Hc.
    { cbn; repeat split; try lia; reflexivity. }
    eapply cutnames_frame; [|exact Hc]. intros b Hb. apply Hlow. change (0x121 <= b < 0x12C) in Hb. lia.
  - reflexivity.
  - reflexivity.
  - split; [cbn; lia|right; cbn [take]; by rewrite Hf|]. intros j Hj. apply Hz. intros Heq%(f_equal length).
    rewrite length_take in Heq. cbn in Heq, Hj. lia.
  - intros _. cbn [take]. by rewrite Hf.
  - cbn [take] in H2. cbv zeta in H2. rewrite Hf, (proj2 (Z.eqb_neq _ _)) in H2 by done. destruct H2 as (_ & _ & Hq & Hc).
    exists s, q, f, s'. split; [exact E|]. split; [|exact Hc]. intros ->. by apply (blk_live _ _ _ (proj1 Hn)).
Defined.
End open_examples.
