(* ===== verification/FsNodes.v ===== *)
(** * File systems (kernel/fs/devfs.c, null.c, zero.c, serial.c, sysfs.c,
    device_man.c)

    The functions of each file system, the nodes that carry them, and the
    table of drivers that calls a function by its address. *)

From S2P Require Import Prelude KHeap CString Fs Tree Vfs.

(** Where the linker puts the functions and the string constants of the
    file systems. *)
Class Image := {
  fn_read_dev : Z; fn_write_dev : Z; fn_open_dev : Z; fn_close_dev : Z;
  fn_read_null : Z; fn_write_null : Z; fn_open_null : Z; fn_close_null : Z;
  fn_read_zero : Z; fn_write_zero : Z; fn_open_zero : Z; fn_close_zero : Z;
  fn_read_serial : Z; fn_write_serial : Z; fn_open_serial : Z; fn_close_serial : Z;
  fn_null_func : Z; fn_readdir_sysfs : Z; fn_finddir_sysfs : Z;
  fn_initrd_readdir : Z; fn_initrd_finddir : Z;
  str_devfs : Z; str_null : Z; str_zero : Z; str_serial : Z; str_sysfs : Z; str_ramdisk0 : Z;
  str_cpu : Z; str_mem : Z; str_uptime : Z; str_vfsinit : Z; str_version : Z; str_release : Z;
  str_dev_null : Z; str_dev_zero : Z; str_dev_serial0 : Z; str_dev : Z
}.

Section nodes.
Context {AS : Type} `{!Allocator AS} `{!Image}.
Local Abbreviation K := (M (fs AS)).

(** devfs.c *)
Definition read_dev (node offset size buffer : Z) : K Z := mret 0.
Definition write_dev (node offset size buffer : Z) : K Z := mret 0.
Definition open_dev (node flags : Z) : K unit := mret tt.
Definition close_dev (node : Z) : K unit := mret tt.
Definition dev_device_create : K Z :=
  fnode ← fmalloc sizeof_node;
  _ ← mem (memset fnode 0 sizeof_node);
  stf fnode N_inode 0;;
  _ ← mem (strcpy fnode str_devfs);
  stf fnode N_uid 0;;
  stf fnode N_gid 0;;
  stf fnode N_permissions VFS_PERMISSION_READ;;
  stf fnode N_flags VFS_DIRECTORY;;
  stf fnode N_read fn_read_dev;;
  stf fnode N_write fn_write_dev;;
  stf fnode N_open fn_open_dev;;
  stf fnode N_close fn_close_dev;;
  stf fnode N_readdir 0;;
  stf fnode N_finddir 0;;
  mret fnode.

(** null.c *)
Definition read_null (node offset size buffer : Z) : K Z := mret 0.
Definition write_null (node offset size buffer : Z) : K Z := mret 0.
Definition open_null (node flags : Z) : K unit := mret tt.
Definition close_null (node : Z) : K unit := mret tt.
Definition null_device_create : K Z :=
  fnode ← fmalloc sizeof_node;
  _ ← mem (memset fnode 0 sizeof_node);
  stf fnode N_inode 0;;
  _ ← mem (strcpy fnode str_null);
  stf fnode N_uid 0;;
  stf fnode N_gid 0;;
  stf fnode N_permissions VFS_PERMISSION_READ;;
  stf fnode N_flags (Z.lor VFS_FILE VFS_CHARDEVICE);;
  stf fnode N_read fn_read_null;;
  stf fnode N_write fn_write_null;;
  stf fnode N_open fn_open_null;;
  stf fnode N_close fn_close_null;;
  stf fnode N_readdir 0;;
  stf fnode N_finddir 0;;
  mret fnode.

(** zero.c *)
Definition read_zero (node offset size buffer : Z) : K Z := mret 0.
Definition write_zero (node offset size buffer : Z) : K Z := mret 0.
Definition open_zero (node flags : Z) : K unit := mret tt.
Definition close_zero (node : Z) : K unit := mret tt.
Definition zero_device_create : K Z :=
  fnode ← fmalloc sizeof_node;
  _ ← mem (memset fnode 0 sizeof_node);
  stf fnode N_inode 0;;
  _ ← mem (strcpy fnode str_zero);
  stf fnode N_uid 0;;
  stf fnode N_gid 0;;
  stf fnode N_permissions VFS_PERMISSION_READ;;
  stf fnode N_flags (Z.lor VFS_FILE VFS_CHARDEVICE);;
  stf fnode N_read fn_read_zero;;
  stf fnode N_write fn_write_zero;;
  stf fnode N_open fn_open_zero;;
  stf fnode N_close fn_close_zero;;
  stf fnode N_readdir 0;;
  stf fnode N_finddir 0;;
  mret fnode.

(** serial.c; [serial_write] is the serial driver's. *)
Definition read_serial (node offset size buffer : Z) : K Z := mret 0.
(** The function has no return statement; [result] stands for whatever the
    caller finds in its place. *)
Definition write_serial (serial_write : Z -> K unit) (result : Z) (node offset size buffer : Z) : K Z :=
  for_up (Z.to_nat size) 0 (λ i, c ← mem (load8 (buffer + i)); serial_write c);;
  mret result.
Definition open_serial (node flags : Z) : K unit := mret tt.
Definition close_serial (node : Z) : K unit := mret tt.
Definition serial_device_create : K Z :=
  fnode ← fmalloc sizeof_node;
  _ ← mem (memset fnode 0 sizeof_node);
  stf fnode N_inode 0;;
  _ ← mem (strcpy fnode str_serial);
  stf fnode N_uid 0;;
  stf fnode N_gid 0;;
  stf fnode N_permissions (Z.lor VFS_PERMISSION_READ VFS_PERMISSION_WRITE);;
  stf fnode N_flags (Z.lor VFS_FILE VFS_CHARDEVICE);;
  stf fnode N_read fn_read_serial;;
  stf fnode N_write fn_write_serial;;
  stf fnode N_open fn_open_serial;;
  stf fnode N_close fn_close_serial;;
  stf fnode N_readdir 0;;
  stf fnode N_finddir 0;;
  mret fnode.

(** sysfs.c *)
Definition sysfs_generic_create (name read_func : Z) : K Z :=
  fnode ← fmalloc sizeof_node;
  _ ← mem (memset fnode 0 sizeof_node);
  stf fnode N_inode 0;;
  _ ← mem (strcpy fnode name);
  stf fnode N_uid 0;;
  stf fnode N_gid 0;;
  stf fnode N_type VFS_FILE;;
  stf fnode N_read read_func;;
  stf fnode N_write 0;;
  stf fnode N_open 0;;
  stf fnode N_close 0;;
  stf fnode N_readdir 0;;
  stf fnode N_finddir 0;;
  mret fnode.

Definition null_func (node offset size buffer : Z) : K Z := mret size.

(** [sys_entries], as (id, name, func) *)
Definition sys_entries : list (Z * Z * Z) :=
  [(1, str_cpu, fn_null_func);
   (2, str_mem, fn_null_func);
   (3, str_uptime, fn_null_func);
   (4, str_vfsinit, fn_null_func);
   (5, str_version, fn_null_func);
   (6, str_release, fn_null_func)].
(** Entry 6, which the loops reach, is past the end of the table. *)
Definition sys_entry (i : Z) : K (Z * Z * Z) := of_option (OutOfRange i) (aget sys_entries i).

Definition readdir_sysfs (node index : Z) : K Z :=
  if index <? 7 then
    out ← fmalloc sizeof_dirent;
    _ ← mem (memset out 0 sizeof_dirent);
    e ← sys_entry index;
    stf out D_ino (e.1.1);;
    _ ← mem (strcpy out (e.1.2));
    mret out
  else mret 0.

Definition finddir_sysfs (node name : Z) : K Z :=
  if name =? 0 then mret 0
  else
    loop 8 (λ i,
      if negb (i <? 7) then mret (inr 0)
      else
        e ← sys_entry i;
        c ← mem (strcmp name (e.1.2));
        if c =? 0 then
          out ← sysfs_generic_create (e.1.2) (e.2);
          inode ← ldf node N_inode;
          stf out N_inode inode;;
          mret (inr out)
        else mret (inl (i + 1))) 0.

Definition sysfs_device_create : K Z :=
  fnode ← fmalloc sizeof_node;
  _ ← mem (memset fnode 0 sizeof_node);
  stf fnode N_inode 0;;
  _ ← mem (strcpy fnode str_sysfs);
  stf fnode N_uid 0;;
  stf fnode N_gid 0;;
  stf fnode N_permissions VFS_PERMISSION_READ;;
  stf fnode N_flags VFS_DIRECTORY;;
  stf fnode N_read fn_null_func;;
  stf fnode N_write 0;;
  stf fnode N_open 0;;
  stf fnode N_close 0;;
  stf fnode N_readdir fn_readdir_sysfs;;
  stf fnode N_finddir fn_finddir_sysfs;;
  mret fnode.

(** device_man.c *)
Definition init_vfs_devices : K unit :=
  n ← null_device_create;
  _ ← vfs_mount str_dev_null n;
  n ← zero_device_create;
  _ ← vfs_mount str_dev_zero n;
  n ← serial_device_create;
  _ ← vfs_mount str_dev_serial0 n;
  n ← dev_device_create;
  _ ← vfs_mount str_dev n;
  mret tt.
End nodes.
