(* ===== verification/Initrd.v ===== *)
(** * The initial ramdisk (kernel/fs/initrd.c, util/build-initrd.c)

    The image the build tool writes and the code that turns it into nodes. *)

From S2P Require Import Prelude KHeap CString Fs Vfs FsNodes.

(** ** The image (kernel/includes/beryllium/fs/initfs.h) *)

(** [superheader_t]: four magic bytes, then words *)
Definition S_headers : Z := 4.
Definition sizeof_superheader : Z := 64.
(** [fileheader_t] *)
Definition H_name : Z := 4.
Definition H_offset : Z := 56.
Definition H_length : Z := 60.
Definition sizeof_fileheader : Z := 64.

(** ** The build tool *)

Section build.
(** what the uninitialised tail of a header's [name] holds *)
Context (junk : Z).

Definition le32 (v : Z) : list Z := (λ k, byte_of k v) <$> [0; 1; 2; 3].

(** The arguments: pairs of destination name and contents. *)
Definition header (off : Z) (f : list Z * list Z) : list Z :=
  le32 0xABABCBDC
  ++ f.1 ++ 0 :: replicate (51 - length f.1) junk
  ++ le32 off ++ le32 (Z.of_nat (length f.2)).
Fixpoint headers (off : Z) (files : list (list Z * list Z)) : list Z :=
  match files with
  | [] => []
  | f :: files' => header off f ++ headers (u32 (off + Z.of_nat (length f.2))) files'
  end.
Definition superheader (nheaders : Z) : list Z :=
  [73; 78; 73; 84] ++ le32 nheaders ++ le32 (73 + 78 + 73 + 84 + nheaders) ++ replicate 52 0.
Definition build_initrd (files : list (list Z * list Z)) : list Z :=
  let nheaders := Z.of_nat (length files) in
  let off := sizeof_fileheader * nheaders + sizeof_superheader in
  superheader nheaders ++ headers off files ++ concat files.*2.
End build.

(** ** The kernel's reader *)

Record initrd := InitrdState {
  initrd_exists : Z; initrd_startaddr : Z; initrd_endaddr : Z;
  initfs_header : Z; initfs_fileheaders : Z;
  initrd_mountpoint : Z; initrd_nodes : Z
}.
Definition initrd_boot : initrd := InitrdState 0 0 0 0 0 0 0.

Section initrd.
Context {AS : Type} `{!Allocator AS} `{!Image}.
Local Abbreviation K := (M (fs AS * initrd)).

Definition infs {A} (m : M (fs AS) A) : K A := within m.
Definition rd_state : K initrd := gets snd.
Definition upd_state (f : initrd -> initrd) : K unit := modify (λ s, (fst s, f (snd s))).

Definition initrd_set_location (start end_ : Z) : K unit :=
  upd_state (λ i, InitrdState 1 start end_ (initfs_header i) (initfs_fileheaders i) (initrd_mountpoint i) (initrd_nodes i)).

Definition node_at (nodes i : Z) : Z := u32 (nodes + sizeof_node * i).
Definition header_at (headers i : Z) : Z := u32 (headers + sizeof_fileheader * i).

(** The entry is allocated before the index is tested. *)
Definition initrd_readdir (node index : Z) : K Z :=
  dirent ← infs (fmalloc sizeof_dirent);
  st ← rd_state;
  n ← infs (ldf (initfs_header st) S_headers);
  if n <=? index then mret 0
  else
    _ ← infs (mem (strcpy dirent (node_at (initrd_nodes st) index)));
    len ← infs (mem (strlen (node_at (initrd_nodes st) index)));
    infs (mem (store8 (dirent + len) 0));;
    ino ← infs (ldf (node_at (initrd_nodes st) index) N_inode);
    infs (stf dirent D_ino ino);;
    mret dirent.

Definition initrd_finddir (node name : Z) : K Z :=
  while word_fuel (λ i,
    st ← rd_state;
    n ← infs (ldf (initfs_header st) S_headers);
    if negb (i <? n) then mret (inr 0)
    else
      c ← infs (mem (strcmp name (node_at (initrd_nodes st) i)));
      mret (if c =? 0 then inr (node_at (initrd_nodes st) i) else inl (u32 (i + 1)))) 0.

Definition initrd_verify (addr : Z) : K Z :=
  w ← infs (mem (load32 addr));
  mret (if w =? 73 then 1 else 0).

(** The loop body: header [i] is relocated, node [i] filled in. *)
Definition initrd_node (i : Z) : K unit :=
  st ← rd_state;
  let h := header_at (initfs_fileheaders st) i in
  let n := node_at (initrd_nodes st) i in
  off ← infs (ldf h H_offset);
  infs (stf h H_offset (u32 (off + initrd_startaddr st)));;
  _ ← infs (mem (strcpy n (u32 (h + H_name))));
  len ← infs (ldf h H_length);
  infs (stf n N_length len);;
  infs (stf n N_inode i);;
  infs (stf n N_flags VFS_FILE);;
  infs (stf n N_read 0);;
  infs (stf n N_write 0);;
  infs (stf n N_readdir 0);;
  infs (stf n N_finddir 0);;
  infs (stf n N_open 0);;
  infs (stf n N_close 0).

Definition initrd_init : K unit :=
  st ← rd_state;
  if initrd_exists st =? 0 then mret tt
  else
    _ ← initrd_verify (initrd_startaddr st);
    upd_state (λ i, InitrdState (initrd_exists i) (initrd_startaddr i) (initrd_endaddr i)
      (initrd_startaddr i) (u32 (initrd_startaddr i + sizeof_superheader)) (initrd_mountpoint i) (initrd_nodes i));;
    m ← infs (fmalloc sizeof_node);
    upd_state (λ i, InitrdState (initrd_exists i) (initrd_startaddr i) (initrd_endaddr i)
      (initfs_header i) (initfs_fileheaders i) m (initrd_nodes i));;
    _ ← infs (mem (memset m 0 sizeof_node));
    _ ← infs (mem (strcpy m str_ramdisk0));
    infs (stf m N_uid 0);;
    infs (stf m N_gid 0);;
    infs (stf m N_permissions VFS_PERMISSION_READ);;
    infs (stf m N_flags (Z.lor VFS_DIRECTORY VFS_MOUNTPOINT));;
    infs (stf m N_readdir fn_initrd_readdir);;
    infs (stf m N_finddir fn_initrd_finddir);;
    st ← rd_state;
    n ← infs (ldf (initfs_header st) S_headers);
    nodes ← infs (fmalloc (u32 (sizeof_node * n)));
    upd_state (λ i, InitrdState (initrd_exists i) (initrd_startaddr i) (initrd_endaddr i)
      (initfs_header i) (initfs_fileheaders i) (initrd_mountpoint i) nodes);;
    while word_fuel (λ i,
      st ← rd_state;
      n ← infs (ldf (initfs_header st) S_headers);
      if negb (i <? n) then mret (inr tt)
      else initrd_node i;; mret (inl (u32 (i + 1)))) 0.
End initrd.
