(* ===== verification/InitrdLoad.v ===== *)
(** * The initial ramdisk, from the build tool to the kernel's nodes

    What [initrd_init] makes of the image [build_initrd] writes: a node per
    file with its name and length, and a header that points at its contents
    in memory. *)

From S2P Require Import Prelude KHeap CString Ram Fs Vfs VfsPath FsNodes Initrd.

(** ** Bytes of the image *)

(** The bytes [l] are in memory at [a]. *)
Definition bytes_at (m : ram) (a : Z) (l : list Z) : Prop :=
  ∀ k x, l !! k = Some x -> rd m (a + Z.of_nat k) = Some x.

Lemma bytes_at_app m a l1 l2 :
  bytes_at m a (l1 ++ l2) <-> bytes_at m a l1 ∧ bytes_at m (a + Z.of_nat (length l1)) l2.
Proof.
  split.
  - intros H. split; intros k x Hk.
    + apply H. by apply lookup_app_l_Some.
    + replace (a + Z.of_nat (length l1) + Z.of_nat k) with (a + Z.of_nat (length l1 + k)) by lia.
      apply H. rewrite lookup_app_r by lia. by rewrite Nat.add_comm, Nat.add_sub.
  - intros [H1 H2] k x [Hk|[Hge Hk]]%lookup_app_Some; [by apply H1|].
    specialize (H2 _ _ Hk). by replace (a + Z.of_nat (length l1) + Z.of_nat (k - length l1)) with (a + Z.of_nat k) in H2 by lia.
Qed.

Lemma bytes_at_same m m' a l :
  (∀ b, a <= b < a + Z.of_nat (length l) -> rd m' b = rd m b) -> bytes_at m a l -> bytes_at m' a l.
Proof. intros Heq H k x Hk. rewrite Heq; [by apply H|]. apply lookup_lt_Some in Hk. lia. Qed.

Lemma le32_word m a v : 0 <= a -> a + 4 <= 2 ^ 32 -> bytes_at m a (le32 v) -> word m a = u32 v.
Proof.
  intros Ha Hend H. rewrite <- bytes_word. unfold word, byte.
  assert (∀ k, (k < 4)%nat -> default 0 (ram_bytes m !! u32 (a + Z.of_nat k)) = byte_of (Z.of_nat k) v) as Hb.
  { intros k Hk. specialize (H k (byte_of (Z.of_nat k) v)). rewrite u32_small by lia.
    assert (le32 v !! k = Some (byte_of (Z.of_nat k) v)) as Hl by (by destruct k as [|[|[|[|k]]]]; try lia).
    specialize (H Hl). by injection H. }
  pose proof (Hb 0%nat ltac:(lia)) as H0. pose proof (Hb 1%nat ltac:(lia)) as H1.
  pose proof (Hb 2%nat ltac:(lia)) as H2. pose proof (Hb 3%nat ltac:(lia)) as H3.
  change (Z.of_nat 0) with 0 in H0. change (Z.of_nat 1) with 1 in H1. change (Z.of_nat 2) with 2 in H2.
  change (Z.of_nat 3) with 3 in H3. rewrite Z.add_0_r in H0. by rewrite H0, H1, H2, H3.
Qed.

Lemma length_le32 v : length (le32 v) = 4%nat.
Proof. done. Qed.

Definition name_ok (l : list Z) : Prop := Forall (λ x, 0 < x < 256) l ∧ (length l <= 51)%nat.

Lemma bytes_cstr m a l :
  0 <= a -> a + Z.of_nat (length l) < 2 ^ 32 -> Forall (λ x, 0 < x < 256) l -> bytes_at m a (l ++ [0]) -> cstr m a l.
Proof.
  intros Ha Hend Hl. revert a Ha Hend. induction Hl as [|x l Hx Hl IH]; intros a Ha Hend H; cbn [cstr app length] in *.
  - split; [lia|]. specialize (H 0%nat 0 eq_refl). change (Z.of_nat 0) with 0 in H. by rewrite Z.add_0_r in H.
  - split; [done|]. split; [specialize (H 0%nat x eq_refl); change (Z.of_nat 0) with 0 in H; by rewrite Z.add_0_r in H|]. split; [done|].
    apply IH; [lia|lia|]. intros k y Hk. specialize (H (S k) y Hk).
    by replace (a + Z.of_nat (S k)) with (a + 1 + Z.of_nat k) in H by lia.
Qed.

Section image.
Context (junk : Z).
Implicit Types (files : list (list Z * list Z)) (m : ram).

Lemma length_header off f : name_ok f.1 -> length (header junk off f) = 64%nat.
Proof.
  intros [_ Hl]. unfold header. rewrite !length_app. cbn [length]. rewrite length_app, length_replicate, length_app, !length_le32. lia.
Qed.

Lemma length_headers off files :
  Forall (λ f, name_ok f.1) files -> length (headers junk off files) = (64 * length files)%nat.
Proof.
  intros Hf. revert off. induction Hf as [|f files Hn _ IH]; intros off; cbn [headers length]; [done|].
  rewrite length_app, length_header, IH by done. lia.
Qed.

(** Where the contents of file [i] start, from the start of the image. *)
Definition content_size (files : list (list Z * list Z)) : Z := Z.of_nat (length (concat files.*2)).
Definition first_content (files : list (list Z * list Z)) : Z :=
  sizeof_fileheader * Z.of_nat (length files) + sizeof_superheader.
Definition content_off files (i : nat) : Z := first_content files + content_size (take i files).

(** A header in memory, at [h]. *)
Record header_in m (h off : Z) (f : list Z * list Z) : Prop := {
  hd_name : cstr m (h + H_name) f.1;
  hd_offset : word m (h + H_offset) = u32 off;
  hd_length : word m (h + H_length) = u32 (Z.of_nat (length f.2))
}.

Lemma header_read m h off f :
  name_ok f.1 -> 0 <= h -> h + 64 <= 2 ^ 32 -> bytes_at m h (header junk off f) -> header_in m h off f.
Proof.
  intros [Hch Hlen] Hh Hend. unfold header. rewrite !bytes_at_app, length_le32. intros (_ & Hn & Hrest).
  rewrite app_comm_cons, bytes_at_app in Hrest.
  destruct Hrest as [H0 Hrest]. rewrite bytes_at_app, length_le32 in Hrest. destruct Hrest as [Ho Hl].
  cbn [length] in *. rewrite length_replicate in *.
  split; unfold H_name, H_offset, H_length.
  - apply bytes_cstr; [lia|lia|done|]. apply bytes_at_app. split; [exact Hn|].
    intros k x Hk. apply H0. destruct k as [|k]; [exact Hk|done].
  - apply le32_word; [lia|lia|]. replace (h + 56) with (h + Z.of_nat 4 + Z.of_nat (length f.1) + Z.of_nat (S (51 - length f.1))) by lia.
    exact Ho.
  - apply le32_word; [lia|lia|].
    replace (h + 60) with (h + Z.of_nat 4 + Z.of_nat (length f.1) + Z.of_nat (S (51 - length f.1)) + Z.of_nat 4) by lia.
    exact Hl.
Qed.
End image.

Section layout.
Context (junk : Z).
Implicit Types (files : list (list Z * list Z)) (m : ram).

Lemma content_size_cons f files : content_size (f :: files) = Z.of_nat (length f.2) + content_size files.
Proof. unfold content_size. cbn. rewrite length_app. lia. Qed.

Lemma content_size_app files1 files2 : content_size (files1 ++ files2) = content_size files1 + content_size files2.
Proof. unfold content_size. rewrite fmap_app, concat_app, length_app. lia. Qed.

Lemma content_size_nonneg files : 0 <= content_size files.
Proof. unfold content_size. lia. Qed.

Lemma headers_read m h off files i f :
  Forall (λ f, name_ok f.1) files -> 0 <= h -> h + 64 * Z.of_nat (length files) <= 2 ^ 32 ->
  0 <= off -> off + content_size files < 2 ^ 32 ->
  bytes_at m h (headers junk off files) -> files !! i = Some f ->
  header_in m (h + 64 * Z.of_nat i) (off + content_size (take i files)) f.
Proof.
  intros Hf. revert h off i. induction Hf as [|g files Hg Hf IH]; intros h off i Hh Hend Hoff Htot Hb Hi; [done|].
  cbn [headers] in Hb. apply bytes_at_app in Hb as [Hb1 Hb2]. rewrite length_header in Hb2 by done.
  rewrite content_size_cons in Htot. pose proof (content_size_nonneg files). cbn [length] in Hend.
  destruct i as [|i].
  - injection Hi as ->. cbn [take]. change (content_size []) with 0. rewrite (Z.add_0_r off).
    replace (h + 64 * Z.of_nat 0) with h by lia.
    apply (header_read junk); [done|lia|lia|exact Hb1].
  - rewrite u32_small in Hb2 by lia.
    specialize (IH (h + 64) (off + Z.of_nat (length g.2)) i ltac:(lia) ltac:(lia) ltac:(lia) ltac:(lia) Hb2 Hi).
    cbn [take]. rewrite content_size_cons.
    replace (h + 64 * Z.of_nat (S i)) with (h + 64 + 64 * Z.of_nat i) by lia.
    replace (off + (Z.of_nat (length g.2) + content_size (take i files)))
      with (off + Z.of_nat (length g.2) + content_size (take i files)) by lia. exact IH.
Qed.

Lemma contents_read m a files i f :
  bytes_at m a (concat files.*2) -> files !! i = Some f -> bytes_at m (a + content_size (take i files)) f.2.
Proof.
  intros Hb Hi. rewrite <- (take_drop_middle _ _ _ Hi) in Hb. rewrite fmap_app, concat_app in Hb.
  apply bytes_at_app in Hb as [_ Hb]. cbn in Hb. apply bytes_at_app in Hb as [Hb _]. exact Hb.
Qed.

(** What the image holds, read from memory. *)
Record image_in m (start : Z) files : Prop := {
  im_count : word m (start + S_headers) = Z.of_nat (length files);
  im_header i f : files !! i = Some f ->
    header_in m (start + 64 + 64 * Z.of_nat i) (content_off files i) f;
  im_content i f : files !! i = Some f -> bytes_at m (start + content_off files i) f.2
}.

Lemma length_image files :
  Forall (λ f, name_ok f.1) files ->
  Z.of_nat (length (build_initrd junk files)) = first_content files + content_size files.
Proof.
  intros Hf. unfold build_initrd. rewrite !length_app, length_headers by done.
  unfold first_content, content_size, sizeof_superheader, sizeof_fileheader, superheader.
  rewrite !length_app, length_replicate, !length_le32. cbn [length]. lia.
Qed.

Lemma image_read m start files :
  Forall (λ f, name_ok f.1) files -> 0 <= start ->
  start + Z.of_nat (length (build_initrd junk files)) <= 2 ^ 32 ->
  first_content files + content_size files < 2 ^ 32 ->
  bytes_at m start (build_initrd junk files) -> image_in m start files.
Proof.
  intros Hf Hs Hend Htot Hb. rewrite length_image in Hend by done.
  unfold build_initrd in Hb. pose proof (content_size_nonneg files).
  apply bytes_at_app in Hb as [Hsup Hb]. apply bytes_at_app in Hb as [Hhd Hct].
  assert (length (superheader (Z.of_nat (length files))) = 64%nat) as Hsl.
  { unfold superheader. by rewrite !length_app, length_replicate, !length_le32. }
  rewrite Hsl, length_headers in * by done. change (Z.of_nat 64) with 64 in *.
  assert (Hfc : first_content files = 64 * Z.of_nat (length files) + 64) by done.
  split.
  - unfold superheader in Hsup. apply bytes_at_app in Hsup as [_ Hsup]. apply bytes_at_app in Hsup as [Hc _].
    unfold S_headers. rewrite (le32_word m _ (Z.of_nat (length files))); [apply u32_small; lia|lia|lia|exact Hc].
  - intros i f Hi. unfold content_off. eapply (headers_read m (start + 64)); [done|lia|lia|unfold first_content, sizeof_fileheader, sizeof_superheader; lia|done|exact Hhd|done].
  - intros i f Hi. unfold content_off. rewrite Z.add_assoc. apply contents_read; [|done].
    replace (start + first_content files) with (start + 64 + Z.of_nat (64 * length files)) by lia. exact Hct.
Qed.
End layout.

(** ** The kernel's loop *)

Section reader.
Context {AS : Type} `{!Allocator AS} `{!Image}.
Implicit Types (s : fs AS) (st : initrd) (m : ram) (files : list (list Z * list Z)).

Lemma infs_done {A} (k : M (fs AS) A) s st a s' : k s = Done a s' -> infs k (s, st) = Done a (s', st).
Proof. exact (within_done (T := fs AS) k (s, st) a s'). Qed.

Lemma infs_mem {A} (k : M ram A) m s st a m' :
  k m = Done a m' -> infs (mem k) (set_fmem m s, st) = Done a (set_fmem m' s, st).
Proof. intros E. apply infs_done. exact (mem_done k (set_fmem m s) a m' E). Qed.

Lemma infs_ldf p off m s st : p ≠ 0 -> infs (ldf p off) (set_fmem m s, st) = Done (word m (p + off)) (set_fmem m s, st).
Proof. intros Hp. apply infs_done. by apply ldf_done. Qed.

Lemma infs_stf p off v m s st :
  p ≠ 0 -> infs (stf p off v) (set_fmem m s, st) = Done tt (set_fmem (set_word (p + off) v m) s, st).
Proof.
  intros Hp. apply infs_done. unfold stf. rewrite (proj2 (Z.eqb_neq _ _)) by done.
  exact (mem_done _ (set_fmem m s) _ _ (store32_word _ _ _)).
Qed.

(** What the kernel makes of file [i]: the node at [n], the relocated
    header at [h]. *)
Record node_in m (start n h i off : Z) (f : list Z * list Z) : Prop := {
  nd_name : cstr m n f.1;
  nd_length : word m (n + N_length) = u32 (Z.of_nat (length f.2));
  nd_inode : word m (n + N_inode) = u32 i;
  nd_flags : word m (n + N_flags) = VFS_FILE;
  nd_offset : word m (h + H_offset) = u32 (u32 off + start)
}.

Definition outside_both m m' (n h : Z) : Prop :=
  ∀ b, ¬ (n <= b < n + sizeof_node) -> ¬ (h + H_offset <= b < h + H_offset + 4) -> rd m' b = rd m b.

(** The words stored in a node after its name. *)
Definition node_words (n len i : Z) m : ram :=
  set_word (n + N_close) 0 (set_word (n + N_open) 0 (set_word (n + N_finddir) 0 (set_word (n + N_readdir) 0
    (set_word (n + N_write) 0 (set_word (n + N_read) 0 (set_word (n + N_flags) VFS_FILE
      (set_word (n + N_inode) i (set_word (n + N_length) len m)))))))).

Lemma node_words_rd n len i m b :
  0 <= n -> n + sizeof_node <= 2 ^ 32 -> ¬ (n + 256 <= b < n + sizeof_node) -> rd (node_words n len i m) b = rd m b.
Proof.
  unfold sizeof_node, node_words, N_close, N_open, N_finddir, N_readdir, N_write, N_read, N_flags, N_inode, N_length.
  intros. by rewrite !rd_set_word by lia.
Qed.

Lemma node_step s st m i off f (start := initrd_startaddr st) :
  let h := header_at (initfs_fileheaders st) i in
  let n := node_at (initrd_nodes st) i in
  name_ok f.1 -> 0 < h -> h + 64 <= 2 ^ 32 -> 0 < n -> n + sizeof_node <= 2 ^ 32 ->
  h + 64 <= n ∨ n + sizeof_node <= h -> header_in m h off f ->
  ∃ m', initrd_node i (set_fmem m s, st) = Done tt (set_fmem m' s, st) ∧
    node_in m' start n h i off f ∧ outside_both m m' n h.
Proof.
  intros h n [Hch Hlen] Hh Hhe Hn Hne Hdis [Hname Hoff Hl]. unfold sizeof_node in *.
  set (m1 := set_word (h + H_offset) (u32 (word m (h + H_offset) + start)) m).
  assert (cstr m1 (h + H_name) f.1) as Hname1.
  { eapply cstr_frame; [|exact Hname]. intros k Hk. unfold m1, H_name, H_offset. apply rd_set_word; lia. }
  destruct (strcpy_spec m1 n (h + H_name) f.1 Hname1) as (m2 & E2 & Hc2 & Hf2);
    [lia|apply ram_total; lia|unfold H_name; lia|].
  assert (Hout2 : ∀ b, ¬ (n <= b < n + 256) -> rd m2 b = rd m1 b).
  { intros b Hb. rewrite Hf2. by rewrite decide_False by lia. }
  set (len := word m2 (h + H_length)).
  assert (Hlen2 : len = u32 (Z.of_nat (length f.2))).
  { rewrite <- Hl. unfold len. transitivity (word m1 (h + H_length)).
    - apply word_eq; [unfold H_length; lia|unfold H_length; lia|]. intros b Hb. apply Hout2. unfold H_length in Hb. lia.
    - unfold m1. apply word_set_ne; unfold H_offset, H_length; lia. }
  exists (node_words n len i m2). split; [|split].
  - unfold initrd_node. rewrite (bind_Done _ _ _ _ _ (eq_refl : rd_state (set_fmem m s, st) = Done st _)).
    fold h n. cbn zeta. rewrite (bind_Done _ _ _ _ _ (infs_ldf h H_offset m s st ltac:(lia))).
    rewrite (bind_Done _ _ _ _ _ (infs_stf h H_offset _ m s st ltac:(lia))). fold start. fold m1.
    rewrite (u32_small (h + H_name)) by (unfold H_name; lia).
    rewrite (bind_Done _ _ _ _ _ (infs_mem (strcpy n (h + H_name)) m1 s st _ _ E2)).
    rewrite (bind_Done _ _ _ _ _ (infs_ldf h H_length m2 s st ltac:(lia))). fold len.
    rewrite !(bind_Done _ _ _ _ _ (infs_stf n _ _ _ s st ltac:(lia))).
    apply infs_stf. lia.
  - split.
    + eapply cstr_frame; [|exact Hc2]. intros k Hk. apply node_words_rd; unfold sizeof_node; lia.
    + rewrite <- Hlen2. unfold node_words, N_close, N_open, N_finddir, N_readdir, N_write, N_read, N_flags, N_inode, N_length.
      rewrite !word_set_ne by lia. rewrite word_set_eq. unfold len in *. rewrite Hlen2. apply u32_idemp.
    + unfold node_words, N_close, N_open, N_finddir, N_readdir, N_write, N_read, N_flags, N_inode, N_length.
      do 7 (rewrite word_set_ne by lia). apply word_set_eq.
    + unfold node_words, N_close, N_open, N_finddir, N_readdir, N_write, N_read, N_flags, N_inode, N_length.
      do 6 (rewrite word_set_ne by lia). rewrite word_set_eq. reflexivity.
    + transitivity (word m1 (h + H_offset)); [|unfold m1; by rewrite word_set_eq, u32_idemp, Hoff].
      apply word_eq; [unfold H_offset; lia|unfold H_offset; lia|]. intros b Hb. unfold H_offset in Hb.
      rewrite node_words_rd by (unfold sizeof_node; lia). apply Hout2. lia.
  - intros b Hb Hb'. unfold sizeof_node in Hb. rewrite node_words_rd by (unfold sizeof_node; lia).
    rewrite Hout2 by lia. unfold m1. unfold H_offset in *. apply rd_set_word; lia.
Qed.
End reader.

Section loading.
Context {AS : Type} `{!Allocator AS} `{!Image}.
Implicit Types (s : fs AS) (st : initrd) (m : ram) (files : list (list Z * list Z)).

(** The image starts at [start], the nodes at [nodes]; the two do not
    overlap. *)
Record placed (start nodes : Z) files : Prop := {
  pl_names : Forall (λ f, name_ok f.1) files;
  pl_start : 0 < start;
  pl_image : start + (first_content files + content_size files) < 2 ^ 32;
  pl_nodes : 0 < nodes ∧ nodes + sizeof_node * Z.of_nat (length files) <= 2 ^ 32;
  pl_apart : start + (first_content files + content_size files) <= nodes ∨
    nodes + sizeof_node * Z.of_nat (length files) <= start
}.

Definition hdr (start : Z) (i : nat) : Z := start + 64 + 64 * Z.of_nat i.
Definition nod (nodes : Z) (i : nat) : Z := nodes + sizeof_node * Z.of_nat i.

(** The first [k] files are done, the others as in the image. *)
Record loaded m (start nodes : Z) files (k : nat) : Prop := {
  ld_count : word m (start + S_headers) = Z.of_nat (length files);
  ld_done i f : (i < k)%nat -> files !! i = Some f ->
    node_in m start (nod nodes i) (hdr start i) (Z.of_nat i) (content_off files i) f;
  ld_todo i f : (k <= i)%nat -> files !! i = Some f -> header_in m (hdr start i) (content_off files i) f;
  ld_content i f : files !! i = Some f -> bytes_at m (start + content_off files i) f.2
}.

Lemma node_in_same m m' start n h i off f :
  node_in m start n h i off f -> name_ok f.1 -> 0 <= n -> n + sizeof_node <= 2 ^ 32 -> 0 <= h -> h + 64 <= 2 ^ 32 ->
  (∀ b, n <= b < n + sizeof_node -> rd m' b = rd m b) ->
  (∀ b, h + H_offset <= b < h + H_offset + 4 -> rd m' b = rd m b) -> node_in m' start n h i off f.
Proof.
  intros [N1 N2 N3 N4 N5] [_ Hlen] Hn Hne Hh Hhe Hsn Hsh. unfold sizeof_node in *.
  split; [|rewrite <- N2|rewrite <- N3|rewrite <- N4|rewrite <- N5].
  - eapply cstr_frame; [|exact N1]. intros k Hk. apply Hsn. lia.
  - unfold N_length. apply word_eq; [lia|lia|]. intros b Hb. apply Hsn. lia.
  - unfold N_inode. apply word_eq; [lia|lia|]. intros b Hb. apply Hsn. lia.
  - unfold N_flags. apply word_eq; [lia|lia|]. intros b Hb. apply Hsn. lia.
  - unfold H_offset in *. apply word_eq; [lia|lia|exact Hsh].
Qed.

Lemma header_in_same m m' h off f :
  header_in m h off f -> name_ok f.1 -> 0 <= h -> h + 64 <= 2 ^ 32 ->
  (∀ b, h <= b < h + 64 -> rd m' b = rd m b) -> header_in m' h off f.
Proof.
  intros [N1 N2 N3] [_ Hlen] Hh Hhe Hs. split; [|rewrite <- N2|rewrite <- N3].
  - eapply cstr_frame; [|exact N1]. intros k Hk. apply Hs. unfold H_name. lia.
  - unfold H_offset. apply word_eq; [lia|lia|]. intros b Hb. apply Hs. lia.
  - unfold H_length. apply word_eq; [lia|lia|]. intros b Hb. apply Hs. lia.
Qed.

Lemma content_bounds files i f :
  files !! i = Some f ->
  first_content files <= content_off files i ∧
  content_off files i + Z.of_nat (length f.2) <= first_content files + content_size files.
Proof.
  intros Hi. unfold content_off. pose proof (content_size_nonneg (take i files)).
  pose proof (content_size_nonneg (drop (S i) files)).
  assert (content_size files = content_size (take i files) + content_size (f :: drop (S i) files)) as Heq.
  { rewrite <- content_size_app. by rewrite (take_drop_middle _ _ _ Hi). }
  rewrite content_size_cons in Heq. lia.
Qed.

(** Nothing but the image and the nodes has changed. *)
Definition kept (start nodes : Z) files m m' : Prop :=
  ∀ b, ¬ (start <= b < start + (first_content files + content_size files)) ->
    ¬ (nodes <= b < nodes + sizeof_node * Z.of_nat (length files)) -> rd m' b = rd m b.

(** One turn of the loop. *)
Lemma load_step s st m start nodes files k f :
  placed start nodes files -> initrd_startaddr st = start -> initfs_fileheaders st = start + 64 ->
  initrd_nodes st = nodes -> loaded m start nodes files k -> files !! k = Some f ->
  ∃ m', initrd_node (Z.of_nat k) (set_fmem m s, st) = Done tt (set_fmem m' s, st) ∧
    loaded m' start nodes files (S k) ∧ kept start nodes files m m'.
Proof.
  intros Hpl Hst Hhd Hnd [L1 L2 L3 L4] Hk. pose proof Hpl as [Hn Hs Hi [Hno Hne] Hap].
  pose proof (lookup_lt_Some _ _ _ Hk) as Hkl. pose proof (content_size_nonneg files).
  assert (Hfc : first_content files = 64 * Z.of_nat (length files) + 64) by done.
  assert (Hh : header_at (initfs_fileheaders st) (Z.of_nat k) = hdr start k).
  { unfold header_at, hdr, sizeof_fileheader. rewrite Hhd. apply u32_small. lia. }
  assert (Hnode : node_at (initrd_nodes st) (Z.of_nat k) = nod nodes k).
  { unfold node_at, nod. rewrite Hnd. apply u32_small. unfold sizeof_node in *. lia. }
  assert (Hnk : name_ok f.1) by (rewrite Forall_lookup in Hn; by apply (Hn k)).
  destruct (node_step s st m (Z.of_nat k) (content_off files k) f) as (m' & E & Hin & Hout);
    rewrite ?Hh, ?Hnode, ?Hst in *; unfold hdr, nod, sizeof_node in *; try lia; try done.
  { apply (L3 k); [lia|done]. }
  exists m'. split; [exact E|]. clear E. unfold outside_both, sizeof_node, H_offset in Hout.
  assert (Hfr : ∀ b, ¬ (nodes + 328 * Z.of_nat k <= b < nodes + 328 * Z.of_nat k + 328) ->
    ¬ (start + 64 + 64 * Z.of_nat k <= b < start + 64 + 64 * Z.of_nat k + 64) -> rd m' b = rd m b).
  { intros b H1 H2. apply Hout; [done|lia]. }
  split; [split|].
  - rewrite <- L1. unfold S_headers. apply word_eq; [lia|lia|]. intros b Hb. apply Hfr; lia.
  - intros i g Hi' Hg. destruct (decide (i = k)) as [->|Hne'].
    + rewrite Hk in Hg. injection Hg as <-. exact Hin.
    + pose proof (lookup_lt_Some _ _ _ Hg). eapply node_in_same.
      * apply L2; [lia|done].
      * rewrite Forall_lookup in Hn. by apply (Hn i).
      * unfold nod, sizeof_node. lia.
      * unfold nod, sizeof_node. lia.
      * unfold hdr. lia.
      * unfold hdr. lia.
      * intros b Hb. unfold nod, sizeof_node in Hb. apply Hfr; lia.
      * intros b Hb. unfold hdr, H_offset in Hb. apply Hfr; lia.
  - intros i g Hi' Hg. pose proof (lookup_lt_Some _ _ _ Hg). eapply header_in_same.
    + apply L3; [lia|done].
    + rewrite Forall_lookup in Hn. by apply (Hn i).
    + unfold hdr. lia.
    + unfold hdr. lia.
    + intros b Hb. unfold hdr in Hb. apply Hfr; lia.
  - intros i g Hg. pose proof (content_bounds _ _ _ Hg). eapply bytes_at_same; [|by apply L4].
    intros b Hb. apply Hfr; lia.
  - unfold kept, sizeof_node. intros b H1 H2. apply Hfr; lia.
Qed.

(** The loop of [initrd_init]. *)
Lemma load_runs s st start nodes files k m :
  placed start nodes files -> initrd_startaddr st = start -> initfs_fileheaders st = start + 64 ->
  initrd_nodes st = nodes -> initfs_header st = start -> loaded m start nodes files k -> (k <= length files)%nat ->
  ∃ m', runs (λ i,
      st ← rd_state;
      n ← infs (ldf (initfs_header st) S_headers);
      if negb (i <? n) then mret (inr tt)
      else initrd_node i;; mret (inl (u32 (i + 1)))) (S (length files - k)) (Z.of_nat k) (set_fmem m s, st) tt
      (set_fmem m' s, st) ∧ loaded m' start nodes files (length files) ∧ kept start nodes files m m'.
Proof.
  intros Hpl Hst Hhd Hnd Hh. remember (length files - k)%nat as d eqn:Hd. revert k m Hd.
  pose proof Hpl as [_ Hs Hi _ _]. pose proof (content_size_nonneg files).
  assert (Hfc : first_content files = 64 * Z.of_nat (length files) + 64) by done.
  induction d as [|d IH]; intros k m Hd Hl Hk; pose proof (ld_count _ _ _ _ _ Hl) as Hc.
  - assert (k = length files) as -> by lia. exists m. split; [|by split]. apply runs_end.
    rewrite (bind_Done _ _ _ _ _ (eq_refl : rd_state (set_fmem m s, st) = Done st _)), Hh.
    rewrite (bind_Done _ _ _ _ _ (infs_ldf start S_headers m s st ltac:(lia))), Hc.
    by rewrite (proj2 (Z.ltb_ge _ _)) by lia.
  - destruct (lookup_lt_is_Some_2 files k ltac:(lia)) as (f & Hf).
    destruct (load_step s st m start nodes files k f Hpl Hst Hhd Hnd Hl Hf) as (m1 & E1 & Hl1 & K1).
    destruct (IH (S k) m1 ltac:(lia) Hl1 ltac:(lia)) as (m' & E & Hl' & K'). exists m'.
    split; [|split; [exact Hl'|intros b ? ?; by rewrite K', K1]].
    eapply (runs_step _ _ _ _ (Z.of_nat (S k))); [|exact E].
    rewrite (bind_Done _ _ _ _ _ (eq_refl : rd_state (set_fmem m s, st) = Done st _)), Hh.
    rewrite (bind_Done _ _ _ _ _ (infs_ldf start S_headers m s st ltac:(lia))), Hc.
    rewrite (proj2 (Z.ltb_lt _ _)) by lia. cbn [negb]. mstep E1.
    rewrite u32_small by lia. unfold mret, M_ret. do 2 f_equal. lia.
Qed.
End loading.

(** ** The whole of [initrd_init] *)

Section init.
Context {AS : Type} `{!Allocator AS} `{!Image}.
Implicit Types (s : fs AS) (st : initrd) (m : ram) (files : list (list Z * list Z)).

(** With [n] ordinary requests in hand, a request of [sz] bytes is granted. *)
Definition granted (sz : Z) (n : nat) : Prop :=
  0 <= sz <= max_request ∧ ∀ a, am_ok a -> am_room n a -> ∃ p a', am_malloc sz a = Done p a' ∧ p ≠ 0.

Lemma fmalloc_granted s n sz :
  fs_ok s -> fs_room n s -> granted sz n ->
  ∃ p s', fmalloc sz s = Done p s' ∧ fs_ok s' ∧ live s !! p = None ∧ blk s' p sz ∧ f_mem s' = f_mem s ∧ frame [p] s s'.
Proof.
  intros Hok Hroom [Hsz Hg]. pose proof Hok as (Ha & _).
  destruct (Hg _ Ha Hroom) as (p & a & Hm & Hp).
  destruct (am_malloc_fresh _ _ _ _ Ha Hsz Hm Hp) as (_ & k & ? & Hfresh & Hl & Hdis).
  destruct (kmalloc_ok sz (OData []) _ _ _ Hok Hsz Hm Hp) as [Hn Hok'].
  eexists p, _. split; [unfold fmalloc; apply obj_done; by apply kmalloc_done|].
  split; [done|]. split; [done|].
  split; [|split; [done|split]]; unfold blk, store, live; cbn.
  - rewrite lookup_insert_eq. split; [done|]. exists k. by rewrite Hl, lookup_insert_eq.
  - intros b Hb. rewrite lookup_insert_ne; [done|set_solver].
  - intros b Hb. rewrite Hl, lookup_insert_ne; [done|set_solver].
  - done.
  - done.
Qed.

(** What [initrd_init] puts in the node of the ramdisk itself. *)
Definition mountpoint (p : Z) : M (fs AS) unit :=
  _ ← mem (memset p 0 sizeof_node);
  _ ← mem (strcpy p str_ramdisk0);
  stf p N_uid 0;;
  stf p N_gid 0;;
  stf p N_permissions VFS_PERMISSION_READ;;
  stf p N_flags (Z.lor VFS_DIRECTORY VFS_MOUNTPOINT);;
  stf p N_readdir fn_initrd_readdir;;
  stf p N_finddir fn_initrd_finddir.

Record mount_node m (p : Z) (lbl : list Z) : Prop := {
  mn_name : cstr m p lbl;
  mn_flags : word m (p + N_flags) = Z.lor VFS_DIRECTORY VFS_MOUNTPOINT;
  mn_readdir : word m (p + N_readdir) = u32 fn_initrd_readdir;
  mn_finddir : word m (p + N_finddir) = u32 fn_initrd_finddir
}.

Lemma stf_blk s n p k off v :
  fs_ok s -> fs_room n s -> blk s p k -> 0 <= off -> off + 4 <= k ->
  ∃ s', stf p off v s = Done tt s' ∧ step [p] n s s' ∧ word (f_mem s') (p + off) = u32 v ∧
    (∀ b, ¬ (p + off <= b < p + off + 4) -> rd (f_mem s') b = rd (f_mem s) b) ∧ blk s' p k.
Proof.
  intros Hok Hroom Hb Hoff Hk. destruct (stf_done s n p k off v Hok Hroom Hb Hoff Hk) as (s' & E & S & W & O & Ob).
  exists s'. do 4 (split; [done|]). unfold blk, store, live. by rewrite Ob.
Qed.

Lemma mountpoint_spec s n p lbl :
  fs_ok s -> fs_room n s -> blk s p sizeof_node -> text [p] s str_ramdisk0 lbl -> (length lbl < 256)%nat ->
  ∃ s', mountpoint p s = Done tt s' ∧ step [p] n s s' ∧ mount_node (f_mem s') p lbl ∧ blk s' p sizeof_node.
Proof.
  intros Hok Hroom Hb Ht Hl. pose proof (blk_range _ _ _ Hok Hb) as (Hp1 & Hp2 & _). pose proof am_base_pos.
  unfold sizeof_node in *.
  destruct (memset_spec (f_mem s) p 0 328) as (d0 & E0 & Hf0); [lia|lia|apply ram_total; lia|].
  set (s0 := set_fmem d0 s). assert (Fr0 : frame [p] s s0) by (eapply frame_fill; [done|exact Hb|..|exact Hf0]; lia).
  assert (Hok0 : fs_ok s0) by done. assert (Hb0 : blk s0 p 328) by done.
  destruct (text_frame [p] [p] s s0 _ _ ltac:(auto) Fr0 Ht) as [Hs0 Hc0].
  assert (Hap : p <= str_ramdisk0 ∨ str_ramdisk0 + (Z.of_nat (length lbl) + 1) <= p) by
    (destruct (secure_apart [p] s0 p 328 328 _ _ Hok0 ltac:(set_solver) Hb0 ltac:(lia) Hs0); lia).
  destruct (strcpy_spec (f_mem s0) p str_ramdisk0 lbl Hc0) as (d1 & E1 & Hc1 & Hf1);
    [lia|apply ram_total; lia|exact Hap|].
  set (s1 := set_fmem d1 s0). assert (Fr1 : frame [p] s0 s1) by (eapply frame_fill; [done|exact Hb0|..|exact Hf1]; lia).
  assert (Hb1 : blk s1 p 328) by done.
  destruct (stf_blk s1 n p 328 N_uid 0) as (s2 & E2 & S2 & _ & O2 & Hb2); [done|done|done|done|done|].
  pose proof S2 as [Ok2 _ R2].
  destruct (stf_blk s2 n p 328 N_gid 0) as (s3 & E3 & S3 & _ & O3 & Hb3); [done|done|done|done|done|].
  pose proof S3 as [Ok3 _ R3].
  destruct (stf_blk s3 n p 328 N_permissions VFS_PERMISSION_READ) as (s4 & E4 & S4 & _ & O4 & Hb4); [done|done|done|done|done|].
  pose proof S4 as [Ok4 _ R4].
  destruct (stf_blk s4 n p 328 N_flags (Z.lor VFS_DIRECTORY VFS_MOUNTPOINT)) as (s5 & E5 & S5 & W5 & O5 & Hb5); [done|done|done|done|done|].
  pose proof S5 as [Ok5 _ R5].
  destruct (stf_blk s5 n p 328 N_readdir fn_initrd_readdir) as (s6 & E6 & S6 & W6 & O6 & Hb6); [done|done|done|done|done|].
  pose proof S6 as [Ok6 _ R6].
  destruct (stf_blk s6 n p 328 N_finddir fn_initrd_finddir) as (s7 & E7 & S7 & W7 & O7 & Hb7); [done|done|done|done|done|].
  exists s7. split; [|split; [|split]].
  - unfold mountpoint. rewrite (bind_Done _ _ _ _ _ (mem_done _ s _ _ E0)). fold s0.
    rewrite (bind_Done _ _ _ _ _ (mem_done _ s0 _ _ E1)). fold s1. mstep E2. mstep E3. mstep E4. mstep E5. mstep E6. exact E7.
  - assert (S1 : step [p] n s s1) by (split; [done|by eapply frame_trans|done]).
    eauto 10 using step_trans.
  - unfold N_uid, N_gid, N_permissions, N_flags, N_readdir, N_finddir in *.
    split; unfold N_flags, N_readdir, N_finddir.
    + eapply (cstr_frame (f_mem s1)); [|exact Hc1]. intros i Hi. rewrite O7, O6, O5, O4, O3, O2 by lia. done.
    + transitivity (word (f_mem s5) (p + 260)); [|by rewrite W5].
      apply word_eq; [lia|lia|]. intros b Hb'. by rewrite O7, O6 by lia.
    + rewrite <- W6. apply word_eq; [lia|lia|]. intros b Hb'. by rewrite O7 by lia.
    + exact W7.
  - exact Hb7.
Qed.
End init.

Section round.
Context {AS : Type} `{!Allocator AS} `{!Image}.
Implicit Types (s : fs AS) (st : initrd) (m : ram) (files : list (list Z * list Z)).

Lemma infs_seq {A B C} (a : M (fs AS) A) (f : A -> M (fs AS) B) (k : B -> M (fs AS * initrd) C) x :
  (infs (a ≫= f) ≫= k) x = (infs a ≫= λ y, infs (f y) ≫= k) x.
Proof.
  destruct x as [s st]. unfold infs, within, zoom, mbind, M_bind. cbn. destruct (a s) as [y s1| | |]; [|done..].
  cbn. by destruct (f y s1).
Qed.

(** The lines of [initrd_init] that fill the ramdisk's node, and what
    follows them. *)
Lemma mountpoint_then {B} s s' st p (k : M (fs AS * initrd) B) :
  mountpoint p s = Done tt s' ->
  (_ ← infs (mem (memset p 0 sizeof_node));
   _ ← infs (mem (strcpy p str_ramdisk0));
   infs (stf p N_uid 0);;
   infs (stf p N_gid 0);;
   infs (stf p N_permissions VFS_PERMISSION_READ);;
   infs (stf p N_flags (Z.lor VFS_DIRECTORY VFS_MOUNTPOINT));;
   infs (stf p N_readdir fn_initrd_readdir);;
   infs (stf p N_finddir fn_initrd_finddir);; k) (s, st) = k (s', st).
Proof.
  intros E. transitivity ((infs (mountpoint p) ≫= λ _, k) (s, st)); [|by rewrite (bind_Done _ _ _ _ _ (infs_done _ _ st _ _ E))].
  symmetry. unfold mountpoint. do 7 (rewrite infs_seq; apply bind_ext; [done|intros ? ? _]). done.
Qed.

(** The image as bytes of memory that no step of the kernel allocates over. *)
Record image_placed s (start : Z) (junk : Z) files : Prop := {
  ip_names : Forall (λ f, name_ok f.1) files;
  ip_start : 0 < start;
  ip_end : start + Z.of_nat (length (build_initrd junk files)) < 2 ^ 32;
  ip_apart : secure [] s start (Z.of_nat (length (build_initrd junk files)));
  ip_bytes : bytes_at (f_mem s) start (build_initrd junk files)
}.

Lemma bytes_secure own s s' a l :
  frame own s s' -> secure own s a (Z.of_nat (length l)) -> bytes_at (f_mem s) a l -> bytes_at (f_mem s') a l.
Proof.
  intros Hf Hs. apply bytes_at_same. intros b Hb. apply (fr_bytes _ _ _ Hf).
  replace b with (a + (b - a)) by lia. eapply secure_guarded; [done|lia].
Qed.

Lemma image_frame s s' p start junk files :
  live s !! p = None -> frame [p] s s' -> image_placed s start junk files -> image_placed s' start junk files ∧
    secure [p] s' start (Z.of_nat (length (build_initrd junk files))).
Proof.
  intros Hp Hf [I1 I2 I3 I4 I5]. pose proof (secure_fresh _ _ _ _ _ Hp I4) as Hs.
  assert (Hs' : secure [p] s' start (Z.of_nat (length (build_initrd junk files)))) by (by eapply secure_frame).
  split; [|done]. split; [done..| |by eapply bytes_secure].
  eapply secure_mono; [|exact Hs']. by intros b ?%elem_of_nil.
Qed.

(** The state after the loop. *)
Lemma loop_runs s st start nodes junk files (n := sizeof_node * Z.of_nat (length files)) :
  fs_ok s -> image_placed s start junk files -> secure [nodes] s start (Z.of_nat (length (build_initrd junk files))) ->
  blk s nodes n -> initrd_startaddr st = start -> initfs_fileheaders st = start + 64 ->
  initrd_nodes st = nodes -> initfs_header st = start ->
  ∃ m', while word_fuel (λ i,
      st ← rd_state;
      n ← infs (ldf (initfs_header st) S_headers);
      if negb (i <? n) then mret (inr tt)
      else initrd_node i;; mret (inl (u32 (i + 1)))) 0 (s, st) = Done tt (set_fmem m' s, st) ∧
    loaded m' start nodes files (length files) ∧ kept start nodes files (f_mem s) m' ∧ placed start nodes files.
Proof.
  intros Hok [I1 I2 I3 I4 I5] Hsec Hb Hst Hhd Hnd Hh. pose proof (blk_range _ _ _ Hok Hb) as (? & ? & _).
  pose proof (secure_apart [nodes] s nodes n n _ _ Hok ltac:(set_solver) Hb ltac:(lia) Hsec) as Hap.
  rewrite (length_image junk files I1) in *. pose proof am_base_pos. pose proof (content_size_nonneg files).
  assert (Hpl : placed start nodes files) by (split; [done|done|done|unfold n in *; lia|unfold n in *; lia]).
  destruct (image_read junk (f_mem s) start files) as [J1 J2 J3];
    [done|lia|rewrite length_image by done; lia|lia|done|].
  assert (Hl : loaded (f_mem s) start nodes files 0) by (split; [done|lia|by intros i f _; apply J2|done]).
  destruct (load_runs s st start nodes files 0 (f_mem s) Hpl Hst Hhd Hnd Hh Hl ltac:(lia)) as (m' & R & L & K).
  exists m'. split; [|split; [exact L|by split]].
  replace (set_fmem (f_mem s) s) with s in R by (by destruct s).
  apply (runs_while _ _ _ _ _ _ _ R). pose proof word_fuel_Z. unfold n, sizeof_node in *. lia.
Qed.

Lemma verify_done s st start :
  initrd_verify start (s, st) = Done (if word (f_mem s) start =? 73 then 1 else 0) (s, st).
Proof.
  unfold initrd_verify. rewrite (bind_Done _ _ _ _ _ (infs_done _ _ st _ _ (mem_read (load32 start) s _ (load32_word _ _)))).
  done.
Qed.

Lemma rd_done s st : rd_state (s, st) = Done st (s, st).
Proof. done. Qed.

Lemma upd_state_done s st f : upd_state f (s, st) = Done tt (s, f st).
Proof. done. Qed.

Lemma mount_node_same m m' p lbl :
  mount_node m p lbl -> (length lbl < 256)%nat -> 0 <= p -> p + sizeof_node <= 2 ^ 32 ->
  (∀ b, p <= b < p + sizeof_node -> rd m' b = rd m b) -> mount_node m' p lbl.
Proof.
  intros [A1 A2 A3 A4] Hl Hp Hpe Hs. unfold sizeof_node in *.
  split; [|rewrite <- A2|rewrite <- A3|rewrite <- A4]; unfold N_flags, N_readdir, N_finddir in *;
    [|apply word_eq; [lia|lia|]; intros b Hb; apply Hs; lia..].
  eapply cstr_frame; [|exact A1]. intros k Hk. apply Hs. lia.
Qed.

Lemma initrd_load_spec s n junk files start end_ lbl :
  fs_ok s -> fs_room (S n) s -> granted (sizeof_node * Z.of_nat (length files)) n ->
  image_placed s start junk files -> static_text s str_ramdisk0 lbl -> (length lbl < 256)%nat ->
  ∃ s' p nodes, (initrd_set_location start end_;; initrd_init) (s, initrd_boot) =
      Done tt (s', InitrdState 1 start end_ start (start + 64) p nodes) ∧
    mount_node (f_mem s') p lbl ∧ loaded (f_mem s') start nodes files (length files) ∧ placed start nodes files.
Proof.
  intros Hok Hroom Hgr Him (Hl0 & Hl1 & Hl2) Hlbl.
  pose proof (proj1 Hgr) as Hsz. pose proof Him as [_ Hs0 Hs1 _ _]. rewrite (length_image junk files (ip_names _ _ _ _ Him)) in Hs1.
  pose proof (content_size_nonneg files). assert (Hfc : first_content files = 64 * Z.of_nat (length files) + 64) by done.
  destruct (fmalloc_spec s n sizeof_node Hok Hroom) as (p & s1 & E1 & Ok1 & R1 & F1 & B1 & M1 & Fr1);
    [unfold sizeof_node, small_block; lia|].
  destruct (image_frame _ _ _ _ _ _ F1 Fr1 Him) as [Him1 Hsec1].
  assert (Ht1 : text [p] s1 str_ramdisk0 lbl) by (split; [split; [done|left; lia]|by rewrite M1]).
  destruct (mountpoint_spec s1 n p lbl Ok1 R1 B1 Ht1 Hlbl) as (s2 & E2 & [Ok2 Fr2 R2] & Mn2 & B2).
  assert (Him2 : image_placed s2 start junk files).
  { destruct Him1 as [A1 A2 A3 A4 A5]. split; [done..| |by eapply bytes_secure].
    eapply secure_mono; [|by eapply secure_frame]. by intros b ?%elem_of_nil. }
  assert (Hc2 : word (f_mem s2) (start + S_headers) = Z.of_nat (length files)).
  { apply (image_read junk (f_mem s2) start files); [apply Him2|lia|rewrite length_image by apply Him2; lia|lia|apply Him2]. }
  destruct (fmalloc_granted s2 n _ Ok2 R2 Hgr) as (nodes & s3 & E3 & Ok3 & F3 & B3 & M3 & Fr3).
  destruct (image_frame _ _ _ _ _ _ F3 Fr3 Him2) as [Him3 Hsec3].
  destruct (loop_runs s3 (InitrdState 1 start end_ start (start + 64) p nodes) start nodes junk files Ok3 Him3 Hsec3 B3
    eq_refl eq_refl eq_refl eq_refl) as (m' & E4 & L & K & Hpl).
  exists (set_fmem m' s3), p, nodes. split; [|split; [|by split]].
  - rewrite (bind_Done _ _ _ _ _ (eq_refl : initrd_set_location start end_ (s, initrd_boot) = Done tt (s, InitrdState 1 start end_ 0 0 0 0))).
    unfold initrd_init.
    rewrite (bind_Done _ _ _ _ _ (rd_done s _)). cbn [initrd_exists].
    change (1 =? 0) with false. cbn iota. cbn [initrd_startaddr].
    rewrite (bind_Done _ _ _ _ _ (verify_done s _ start)).
    rewrite (bind_Done _ _ _ _ _ (upd_state_done s _ _)). cbn [initrd_exists initrd_startaddr initrd_endaddr initrd_mountpoint initrd_nodes].
    rewrite (u32_small (start + sizeof_superheader)) by (unfold sizeof_superheader; lia).
    rewrite (bind_Done _ _ _ _ _ (infs_done _ _ _ _ _ E1)).
    rewrite (bind_Done _ _ _ _ _ (upd_state_done s1 _ _)). cbn [initrd_exists initrd_startaddr initrd_endaddr initfs_header initfs_fileheaders initrd_nodes].
    rewrite (mountpoint_then _ _ _ _ _ E2).
    rewrite (bind_Done _ _ _ _ _ (rd_done s2 _)). cbn [initfs_header].
    rewrite (bind_Done _ _ _ _ _ (infs_done _ _ _ _ _ (ldf_done s2 start S_headers ltac:(lia)))), Hc2.
    rewrite (u32_small (sizeof_node * _)) by (unfold sizeof_node, max_request in *; lia).
    rewrite (bind_Done _ _ _ _ _ (infs_done _ _ _ _ _ E3)).
    rewrite (bind_Done _ _ _ _ _ (upd_state_done s3 _ _)). exact E4.
  - assert (blk s3 p sizeof_node ∧ p ≠ nodes) as [B3' Hne].
    { assert (p ≠ nodes) by (intros ->; by apply (blk_live _ _ _ B2)). split; [|done].
      eapply blk_frame; [|exact Fr3|done]. by intros ->%list_elem_of_singleton. }
    assert (Hp : secure [nodes] s3 p sizeof_node) by (apply blk_secure; [done|by intros ->%list_elem_of_singleton|done]).
    pose proof (secure_apart [nodes] s3 nodes _ _ _ _ Ok3 ltac:(set_solver) B3 (Z.le_refl _) Hp) as Hap.
    assert (Hi : start + (first_content files + content_size files) <= p ∨ p + sizeof_node <= start).
    { assert (Hsec : secure [p] s2 start (Z.of_nat (length (build_initrd junk files)))) by (by eapply secure_frame).
      pose proof (secure_apart [p] s2 p _ _ _ _ Ok2 ltac:(set_solver) B2 (Z.le_refl _) Hsec) as Hd.
      rewrite (length_image junk files (ip_names _ _ _ _ Him)) in Hd. unfold sizeof_node in *. lia. }
    pose proof (blk_range _ _ _ Ok3 B3') as (? & ? & _). pose proof am_base_pos.
    eapply (mount_node_same (f_mem s2)); [exact Mn2|done|lia|done|].
    intros b Hb. cbn [set_fmem f_mem]. rewrite K by lia. by rewrite M3.
Qed.
End round.

(** ** Looking a file up *)

Section lookup.
Context {AS : Type} `{!Allocator AS} `{!Image}.
Implicit Types (s : fs AS) (st : initrd) (files : list (list Z * list Z)).

(** The node of the first file named [w]; null if there is none. *)
Definition named (nodes : Z) files (w : list Z) : Z :=
  match list_find (λ f, f.1 = w) files with Some (i, _) => nod nodes i | None => 0 end.

(** One turn of [initrd_finddir]'s loop. *)
Definition find_turn (name i : Z) : M (fs AS * initrd) (Z + Z) :=
  st ← rd_state;
  n ← infs (ldf (initfs_header st) S_headers);
  if negb (i <? n) then mret (inr 0)
  else
    c ← infs (mem (strcmp name (node_at (initrd_nodes st) i)));
    mret (if c =? 0 then inr (node_at (initrd_nodes st) i) else inl (u32 (i + 1))).

Lemma find_turn_spec s st name w start nodes files k :
  placed start nodes files -> initrd_nodes st = nodes -> initfs_header st = start ->
  loaded (f_mem s) start nodes files (length files) -> cstr (f_mem s) name w -> (k <= length files)%nat ->
  find_turn name (Z.of_nat k) (s, st) = Done (match files !! k with
    | Some f => if decide (f.1 = w) then inr (nod nodes k) else inl (Z.of_nat (S k))
    | None => inr 0 end) (s, st).
Proof.
  intros Hpl Hnd Hh Hld Hw Hk. pose proof Hpl as [Hn Hs Hi [Hno Hne] _]. pose proof (content_size_nonneg files).
  assert (Hfc : first_content files = 64 * Z.of_nat (length files) + 64) by done.
  unfold find_turn. rewrite (bind_Done _ _ _ _ _ (rd_done s st)), Hh, Hnd.
  rewrite (bind_Done _ _ _ _ _ (infs_done _ _ _ _ _ (ldf_done s start S_headers ltac:(lia)))), (ld_count _ _ _ _ _ Hld).
  destruct (files !! k) as [f|] eqn:Hf.
  - pose proof (lookup_lt_Some _ _ _ Hf). rewrite (proj2 (Z.ltb_lt _ _)) by lia. cbn [negb].
    replace (node_at nodes (Z.of_nat k)) with (nod nodes k) by (symmetry; apply u32_small; unfold nod, sizeof_node in *; lia).
    pose proof (nd_name _ _ _ _ _ _ _ (ld_done _ _ _ _ _ Hld k f ltac:(lia) Hf)) as Hname.
    destruct (strcmp_done s name (nod nodes k) w f.1 Hw Hname) as (c & E & Hc).
    rewrite (bind_Done _ _ _ _ _ (infs_done _ _ st _ _ E)), Hc.
    unfold mret, M_ret. destruct (decide (f.1 = w)) as [Hw'|Hw'].
    + by rewrite bool_decide_true.
    + rewrite bool_decide_false by done. rewrite u32_small by lia. do 2 f_equal. lia.
  - apply lookup_ge_None in Hf. by rewrite (proj2 (Z.ltb_ge _ _)) by lia.
Qed.

Lemma initrd_finddir_spec s st node name w start nodes files :
  placed start nodes files -> initrd_nodes st = nodes -> initfs_header st = start ->
  loaded (f_mem s) start nodes files (length files) -> cstr (f_mem s) name w ->
  initrd_finddir node name (s, st) = Done (named nodes files w) (s, st).
Proof.
  intros Hpl Hnd Hh Hld Hw. pose proof Hpl as [_ _ _ [Hno Hne] _]. unfold sizeof_node in *.
  assert (Hr : ∀ rest k, drop k files = rest -> (k <= length files)%nat -> ∃ n, (n <= S (length rest))%nat ∧ runs (find_turn name) n (Z.of_nat k) (s, st)
    (match list_find (λ f, f.1 = w) rest with Some (i, _) => nod nodes (k + i) | None => 0 end) (s, st)).
  { induction rest as [|f rest IH]; intros k Hk Hle; pose proof (find_turn_spec s st name w start nodes files k Hpl Hnd Hh Hld Hw Hle) as Ht;
      pose proof (f_equal (.!! 0%nat) Hk) as Hf; cbn beta in Hf; rewrite lookup_drop, Nat.add_0_r in Hf; rewrite Hf in Ht;
      cbn [lookup list_lookup] in Ht; cbn [list_find length].
    - exists 1%nat. split; [lia|]. by apply runs_end.
    - pose proof (lookup_lt_Some _ _ _ Hf). destruct (decide (f.1 = w)) as [Hw'|Hw'].
      + exists 1%nat. split; [lia|]. rewrite Nat.add_0_r. by apply (runs_end (find_turn name)).
      + assert (drop (S k) files = rest) as Hk' by (rewrite <- Nat.add_1_r, <- drop_drop; by rewrite Hk).
        destruct (IH (S k) Hk' ltac:(lia)) as (n & Hn & R). exists (S n). split; [lia|]. eapply runs_step; [exact Ht|].
        destruct (list_find _ rest) as [[i g]|]; cbn; [|done].
        by rewrite Nat.add_succ_r. }
  destruct (Hr files 0%nat eq_refl ltac:(lia)) as (n & Hn & R). apply (runs_while (find_turn name) n); [exact R|].
  pose proof word_fuel_Z. lia.
Qed.
End lookup.

(** ** Properties *)

Section initrd_properties.
Context {AS : Type} `{!Allocator AS} `{!Image}.
Implicit Types (s : fs AS) (files : list (list Z * list Z)).

(** C8: What [build_initrd] packs, [initrd_init] unpacks. After it, node
    [i] carries the name, the length and the number of file [i] and is a
    plain file; the offset in header [i], now an address, leads to the
    file's contents; the ramdisk's node lists and finds its files through
    [initrd_readdir] and [initrd_finddir]; and [initrd_finddir] returns the
    node of the first file of the wanted name, null if there is none. *)
Theorem initrd_roundtrip s n junk files start end_ lbl
    (Hok : fs_ok s) (Hroom : fs_room (S n) s) (Hnodes : granted (sizeof_node * Z.of_nat (length files)) n)
    (Himage : image_placed s start junk files) (Hlbl : static_text s str_ramdisk0 lbl) (Hlen : (length lbl < 256)%nat) :
  ∃ s' st', (initrd_set_location start end_;; initrd_init) (s, initrd_boot) = Done tt (s', st') ∧
    mount_node (f_mem s') (initrd_mountpoint st') lbl ∧
    (∀ i f, files !! i = Some f ->
      let node := initrd_nodes st' + sizeof_node * Z.of_nat i in
      let header := initfs_fileheaders st' + sizeof_fileheader * Z.of_nat i in
      cstr (f_mem s') node f.1 ∧ word (f_mem s') (node + N_length) = Z.of_nat (length f.2) ∧
      word (f_mem s') (node + N_inode) = Z.of_nat i ∧ word (f_mem s') (node + N_flags) = VFS_FILE ∧
      bytes_at (f_mem s') (word (f_mem s') (header + H_offset)) f.2) ∧
    ∀ node name w, cstr (f_mem s') name w ->
      initrd_finddir node name (s', st') = Done (named (initrd_nodes st') files w) (s', st').
Proof.
  destruct (initrd_load_spec s n junk files start end_ lbl) as (s' & p & nodes & E & Hm & Hld & Hpl); [done..|].
  exists s', (InitrdState 1 start end_ start (start + 64) p nodes). split; [exact E|]. clear E.
  split; [exact Hm|]. split; [|intros; by eapply initrd_finddir_spec].
  intros i f Hi. cbn [initrd_nodes initfs_fileheaders]. change (nodes + sizeof_node * Z.of_nat i) with (nod nodes i). cbv zeta. pose proof (lookup_lt_Some _ _ _ Hi).
  destruct (ld_done _ _ _ _ _ Hld i f ltac:(lia) Hi) as [N1 N2 N3 N4 N5].
  destruct (content_bounds _ _ _ Hi). pose proof (content_size_nonneg files). destruct Hpl as [_ ? ? ? _].
  assert (Hfc : first_content files = 64 * Z.of_nat (length files) + 64) by done.
  split; [exact N1|]. rewrite N2, N3, N4. unfold sizeof_node in *. split; [apply u32_small; lia|].
  split; [apply u32_small; lia|]. split; [done|].
  unfold hdr in N5. unfold sizeof_fileheader. rewrite N5, (u32_small (content_off files i)), u32_small, Z.add_comm by lia.
  apply (ld_content _ _ _ _ _ Hld). exact Hi.
Qed.
End initrd_properties.

Section initrd_examples.
#[local] Existing Instance Bump.allocator.
#[local] Instance image_names : Image := {|
  fn_read_dev := 1; fn_write_dev := 1; fn_open_dev := 1; fn_close_dev := 1; fn_read_null := 1; fn_write_null := 1;
  fn_open_null := 1; fn_close_null := 1; fn_read_zero := 1; fn_write_zero := 1; fn_open_zero := 1; fn_close_zero := 1;
  fn_read_serial := 1; fn_write_serial := 1; fn_open_serial := 1; fn_close_serial := 1; fn_null_func := 1;
  fn_readdir_sysfs := 1; fn_finddir_sysfs := 1; fn_initrd_readdir := 2; fn_initrd_finddir := 3;
  str_devfs := 0x40; str_null := 0x40; str_zero := 0x40; str_serial := 0x40; str_sysfs := 0x40; str_ramdisk0 := 0x50;
  str_cpu := 0x40; str_mem := 0x40; str_uptime := 0x40; str_vfsinit := 0x40; str_version := 0x40; str_release := 0x40;
  str_dev_null := 0x40; str_dev_zero := 0x40; str_dev_serial0 := 0x40; str_dev := 0x40
|}.

(** Two files, ["a"] and ["bc"], with two bytes and one. *)
Definition two_files : list (list Z * list Z) := [([97], [7; 8]); ([98; 99], [9])].
Definition initrd_memory : ram :=
  Ram (place 0x50 [114; 97; 109] (foldr (λ x m, <[0x100 + Z.of_nat x.1 := x.2]> m) ∅
    (imap pair (build_initrd 0xAA two_files)))).
Definition initrd_fs : fs Bump.bump := Fs Bump.start initrd_memory 0 0 0.

Lemma two_files_placed : image_placed initrd_fs 0x100 0xAA two_files.
Proof.
  split.
  - repeat constructor; cbn; lia.
  - lia.
  - by vm_compute.
  - split; [lia|]. left. by vm_compute.
  - intros k x Hk.
    assert (forallb (λ kx, bool_decide (rd initrd_memory (0x100 + Z.of_nat kx.1) = Some kx.2))
      (imap pair (build_initrd 0xAA two_files)) = true) as Hall by (by vm_compute).
    rewrite forallb_forall in Hall. specialize (Hall (k, x)). rewrite bool_decide_eq_true in Hall. apply Hall.
    apply list_elem_of_In, list_elem_of_lookup. exists k. by rewrite list_lookup_imap, Hk.
Qed.

Lemma nodes_granted : granted (sizeof_node * Z.of_nat (length two_files)) 2.
Proof.
  split; [by vm_compute|]. intros [b l] (Hb & _) Hroom. unfold Bump.base in Hb. cbn in *.
  change (sizeof_node * Z.of_nat 2) with 656. unfold Bump.malloc, small_block in *. cbn.
  rewrite (proj2 (Z.leb_le _ _)) by lia. eexists _, _. split; [done|]. lia.
Qed.

Lemma initrd_roundtrip_witness :
  ∃ s' st' n1 n2, (initrd_set_location 0x100 0x200;; initrd_init) (initrd_fs, initrd_boot) = Done tt (s', st') ∧
    cstr (f_mem s') n1 [97] ∧ cstr (f_mem s') n2 [98; 99] ∧ word (f_mem s') (n1 + N_length) = 2 ∧
    word (f_mem s') (n2 + N_length) = 1 ∧ initrd_finddir 0 n2 (s', st') = Done n2 (s', st').
Proof.
  destruct (initrd_roundtrip initrd_fs 2 0xAA two_files 0x100 0x200 [114; 97; 109]) as (s' & st' & E & _ & Hf & Hfind).
  - apply Bump.start_ok.
  - by vm_compute.
  - apply nodes_granted.
  - apply two_files_placed.
  - split; [cbn; lia|]. split; [by vm_compute|]. cbn; repeat split; try lia; reflexivity.
  - cbn. lia.
  - destruct (Hf 0%nat _ eq_refl) as (H1 & L1 & _). destruct (Hf 1%nat _ eq_refl) as (H2 & L2 & _).
    eexists s', st', _, _. split; [exact E|]. split; [exact H1|]. split; [exact H2|]. split; [exact L1|]. split; [exact L2|].
    rewrite (Hfind 0 _ _ H2). reflexivity.
Defined.
End initrd_examples.
