(* ===== verification/Device.v ===== *)
(** * Devices and drivers (kernel/device.c, driver.c)

    The device tree, searched by device and by name, and the status of a
    device as its driver starts and stops it. *)

From S2P Require Import Prelude KHeap KList CString Lock Messages Fs Tree.

(** ** Layout (kernel/includes/beryllium/device.h, driver.h) *)

Definition DV_name : Z := 0.
Definition DV_type : Z := 8.
Definition DV_flags : Z := 12.
Definition DV_permissions : Z := 16.
Definition DV_interface : Z := 20.
Definition DV_status : Z := 24.
Definition DV_mutex : Z := 28.
Definition DV_driver : Z := 32.
Definition sizeof_device : Z := 36.
Definition DR_start : Z := 0.
Definition DR_stop : Z := 4.

Definition DEVICE_INTERFACE_KERNEL : Z := 0.
Definition DEVICE_TYPE_NAMESPACE : Z := 0.
Definition DEVICE_STATUS_UNSET : Z := 0.
Definition DEVICE_STATUS_HALTED : Z := 1.
Definition DEVICE_STATUS_ONLINE : Z := 3.
Definition DEVICE_STATUS_ABORTED : Z := 5.

(** ** Drivers and device status *)

(** Where the strings of the messages are. *)
Class DeviceStrings := {
  str_device_start : Z; str_device_stop : Z; fm_bringing_up : Z; fm_could_not : Z; fm_shutting_down : Z
}.

Section status.
Context {AS : Type} `{!Allocator AS} {S : Type} `{!Has (fs AS) S} `{!DeviceStrings}.
(** a driver's function, called by its address, and Messages' [klog] on [S] *)
Context (call : Z -> M S Z) (klog : Z -> Z -> Z -> list Z -> M S unit).
Local Abbreviation K := (M S).

Definition dvf (dev off : Z) : K Z := within (ldf dev off).
Definition set_dvf (dev off v : Z) : K unit := within (stf dev off v).

(** driver.c *)
Definition driver_start (driver : Z) : K Z :=
  f ← dvf driver DR_start;
  if f =? 0 then mret 0xFFFFFFFF else call f.

Definition device_stop (dev : Z) : K Z :=
  if dev =? 0 then mret 0xFFFFFFFF
  else
    name ← dvf dev DV_name;
    klog LOG_DEBUG str_device_stop fm_shutting_down [name];;
    st ← dvf dev DV_status;
    if negb (st =? DEVICE_STATUS_ONLINE) then mret st
    else
      drv ← dvf dev DV_driver;
      if drv =? 0 then mret 0xFFFFFFFE
      else
        m ← dvf dev DV_mutex;
        mutex_lock m;;
        f ← dvf drv DR_stop;
        ret ← call f;
        set_dvf dev DV_status (if ret =? 0 then DEVICE_STATUS_HALTED else DEVICE_STATUS_ONLINE);;
        m ← dvf dev DV_mutex;
        mutex_unlock m;;
        dvf dev DV_status.

Definition device_start (dev : Z) : K Z :=
  if dev =? 0 then mret 0xFFFFFFFF
  else
    st ← dvf dev DV_status;
    if st =? DEVICE_STATUS_ONLINE then mret DEVICE_STATUS_ONLINE
    else
      name ← dvf dev DV_name;
      klog LOG_DEBUG str_device_start fm_bringing_up [name];;
      drv ← dvf dev DV_driver;
      if drv =? 0 then mret 0xFFFFFFFE
      else
        f ← dvf drv DR_start;
        ret ← call f;
        (if ret =? 0 then set_dvf dev DV_status DEVICE_STATUS_ONLINE
         else
           name ← dvf dev DV_name;
           klog LOG_ERROR str_device_start fm_could_not [name; ret];;
           set_dvf dev DV_status DEVICE_STATUS_ABORTED);;
        dvf dev DV_status.
End status.

(** ** The device tree *)

Record devs (AS : Type) := Devs {
  d_fs : fs AS;
  device_tree : Z;
  dev_root : Z;
  kernel_ns : Z;
  has_inserted_staticially : Z
}.
Arguments Devs {AS} _ _ _ _ _.
Arguments d_fs {AS} _.
Arguments device_tree {AS} _.
Arguments dev_root {AS} _.
Arguments kernel_ns {AS} _.
Arguments has_inserted_staticially {AS} _.

Definition set_dfs {AS} (x : fs AS) (d : devs AS) := Devs x (device_tree d) (dev_root d) (kernel_ns d) (has_inserted_staticially d).
Definition set_device_tree {AS} z (d : devs AS) := Devs (d_fs d) z (dev_root d) (kernel_ns d) (has_inserted_staticially d).
Definition set_dev_root {AS} z (d : devs AS) := Devs (d_fs d) (device_tree d) z (kernel_ns d) (has_inserted_staticially d).
Definition set_kernel_ns {AS} z (d : devs AS) := Devs (d_fs d) (device_tree d) (dev_root d) z (has_inserted_staticially d).
Definition set_has_inserted {AS} z (d : devs AS) := Devs (d_fs d) (device_tree d) (dev_root d) (kernel_ns d) z.

#[export] Program Instance devs_has_fs {AS} : Has (fs AS) (devs AS) := { part := d_fs; set_part := set_dfs }.
Solve All Obligations with (by intros; repeat match goal with s : devs _ |- _ => destruct s end).
#[export] Program Instance devs_has_obj {AS} : Has (kstate AS) (devs AS) := {
  part d := f_obj (d_fs d); set_part o d := set_dfs (set_obj o (d_fs d)) d
}.
Solve All Obligations with (by intros; repeat match goal with s : devs _ |- _ => destruct s as [[]] end).

(** The static devices, and where the linker puts the string constants. *)
Class DeviceImage := {
  pit_device : Z; serial_device : Z; keyboard_device : Z;
  str_device_root : Z; str_kernel_ns : Z
}.

Section tree.
Context {AS : Type} `{!Allocator AS} `{!DeviceImage}.
Local Abbreviation K := (M (devs AS)).
Local Abbreviation infs m := (within (T := fs AS) m).

Definition device_search_tree_comparator (a b : Z) : K Z := mret (if a =? b then 1 else 0).

Definition device_search_name_comparator (a b : Z) : K Z :=
  name ← infs (ldf a DV_name);
  c ← infs (mem (strcmp name b));
  mret (if c =? 0 then 1 else 0).

Definition device_search_tree_node (device : Z) : K Z :=
  t ← gets device_tree; tree_find t device device_search_tree_comparator.
Definition device_search_node (name : Z) : K Z :=
  t ← gets device_tree; tree_find t name device_search_name_comparator.

(** [result->value], null or not *)
Definition device_search (name : Z) : K Z :=
  t ← gets device_tree;
  result ← tree_find t name device_search_name_comparator;
  nd ← infs (obj (load result));
  mret (tn_value nd).

Definition device_manager_insert (device parent : Z) : K unit :=
  name ← infs (ldf parent DV_name);
  res ← device_search_node name;
  if res =? 0 then mret tt
  else t ← gets device_tree; _ ← infs (obj (tree_node_insert_child t res device)); mret tt.

Definition device_manager_remove (device : Z) : K unit :=
  n ← device_search_tree_node device;
  t ← gets device_tree;
  infs (obj (tree_node_remove t n)).

(** The devices of [X86] builds are inserted too. *)
Definition device_manager_insert_kernel (X86 : bool) : K unit :=
  h ← gets has_inserted_staticially;
  if truth h then mret tt
  else
    k ← infs (fmalloc sizeof_device);
    modify (set_kernel_ns k);;
    infs (stf k DV_name str_kernel_ns);;
    infs (stf k DV_type DEVICE_TYPE_NAMESPACE);;
    infs (stf k DV_flags 0);;
    infs (stf k DV_interface DEVICE_INTERFACE_KERNEL);;
    r ← device_search str_device_root;
    device_manager_insert k r;;
    (if X86 then
       p ← device_search str_kernel_ns; device_manager_insert pit_device p;;
       p ← device_search str_kernel_ns; device_manager_insert serial_device p;;
       p ← device_search str_kernel_ns; device_manager_insert keyboard_device p
     else mret tt);;
    modify (set_has_inserted 1).

Definition device_manager_start (X86 : bool) : K Z :=
  t ← infs (obj tree_create);
  modify (set_device_tree t);;
  r ← infs (fmalloc sizeof_device);
  modify (set_dev_root r);;
  infs (stf r DV_name str_device_root);;
  infs (stf r DV_type 0);;
  infs (stf r DV_flags 0);;
  infs (stf r DV_permissions 0);;
  infs (stf r DV_interface DEVICE_INTERFACE_KERNEL);;
  infs (obj (tree_set_root t r));;
  device_manager_insert_kernel X86;;
  mret 0.
End tree.
