(* ===== verification/DeviceLife.v ===== *)
(** * The life of devices (kernel/device.c)

    What Device's definitions amount to: the status of a device is an
    automaton driven by its driver's answers, and a lookup is a search of
    the device tree in preorder. *)

From S2P Require Import Prelude KHeap KList CString Ram Lock Messages Fs Tree TreeSearch VfsPath Device.

(** ** The life of a device *)

Inductive dev_cmd := DevStart | DevStop.

Section lifecycle.
Context {AS : Type} `{!Allocator AS} {S : Type} `{!Has (fs AS) S} `{!DeviceStrings}.
Context (call : Z -> M S Z) (klog : Z -> Z -> Z -> list Z -> M S unit).
(** What the driver does, seen from outside: its functions at [fstart] and
    [fstop] act on a state of type [X], which [R] finds in the kernel's; they
    leave the devices' memory alone. *)
Context {X : Type} (R : S -> X -> Prop) (drv_start drv_stop : X -> Z * X) (fstart fstop name : Z).
Implicit Types s : S.

Definition dmem s : ram := f_mem (part (T := fs AS) s).
Definition set_dmem (m : ram) s : S := set_part (set_fmem m (part s)) s.

Definition driven (f : Z) (act : X -> Z * X) : Prop :=
  ∀ s x, R s x -> ∃ s', call f s = Done (act x).1 s' ∧ R s' (act x).2 ∧ dmem s' = dmem s.

(** A message returns; it too leaves the devices' memory and the driver
    alone. *)
Definition quiet (mode title fmt : Z) (args : list Z) : Prop :=
  ∀ s x, R s x -> ∃ s', klog mode title fmt args s = Done tt s' ∧ R s' x ∧ dmem s' = dmem s.

Definition dev_exec (dev : Z) (c : dev_cmd) : M S Z :=
  match c with DevStart => device_start call klog dev | DevStop => device_stop call klog dev end.
Fixpoint dev_run (dev : Z) (cs : list dev_cmd) : M S (list Z) :=
  match cs with
  | [] => mret []
  | c :: cs' => r ← dev_exec dev c; rs ← dev_run dev cs'; mret (r :: rs)
  end.

(** The status automaton: a device that is not online is started, one that
    is online is stopped, and the driver's answer decides the new status;
    every other command changes nothing. *)
Definition dev_next (c : dev_cmd) (st : Z) (x : X) : Z * X :=
  match c with
  | DevStart =>
      if st =? DEVICE_STATUS_ONLINE then (st, x)
      else let '(r, x') := drv_start x in (if r =? 0 then DEVICE_STATUS_ONLINE else DEVICE_STATUS_ABORTED, x')
  | DevStop =>
      if st =? DEVICE_STATUS_ONLINE
      then let '(r, x') := drv_stop x in (if r =? 0 then DEVICE_STATUS_HALTED else DEVICE_STATUS_ONLINE, x')
      else (st, x)
  end.
Fixpoint dev_meaning (cs : list dev_cmd) (st : Z) (x : X) : list Z * (Z * X) :=
  match cs with
  | [] => ([], (st, x))
  | c :: cs' =>
      let '(st1, x1) := dev_next c st x in
      let '(rs, z) := dev_meaning cs' st1 x1 in (st1 :: rs, z)
  end.

(** A device of the given name with the driver at [drv] and no mutex. *)
Record dev_rep s (dev drv st : Z) : Prop := {
  dr_range : 0 < dev ∧ dev + sizeof_device <= 2 ^ 32;
  dr_drv : 0 < drv ∧ drv + 8 <= 2 ^ 32;
  dr_apart : dev + sizeof_device <= drv ∨ drv + 8 <= dev;
  dr_name : word (dmem s) (dev + DV_name) = name;
  dr_status : word (dmem s) (dev + DV_status) = st;
  dr_driver : word (dmem s) (dev + DV_driver) = drv;
  dr_mutex : word (dmem s) (dev + DV_mutex) = 0;
  dr_start : word (dmem s) (drv + DR_start) = fstart;
  dr_stop : word (dmem s) (drv + DR_stop) = fstop
}.

Lemma dvf_done s p off : p ≠ 0 -> dvf p off s = Done (word (dmem s) (p + off)) s.
Proof. intros Hp. unfold dvf. by apply (within_read (T := fs AS)), ldf_done. Qed.

Lemma set_dvf_done s p off v :
  p ≠ 0 -> set_dvf p off v s = Done tt (set_dmem (set_word (p + off) v (dmem s)) s).
Proof.
  intros Hp. unfold set_dvf, set_dmem. apply (within_done (T := fs AS)). unfold stf.
  rewrite (proj2 (Z.eqb_neq _ _)) by done. apply mem_done. apply store32_word.
Qed.

Lemma dmem_set m s : dmem (set_dmem m s) = m.
Proof. unfold dmem, set_dmem. by rewrite part_set. Qed.

Lemma dev_rep_same s s' dev drv st : dmem s' = dmem s -> dev_rep s dev drv st -> dev_rep s' dev drv st.
Proof. intros Hm []. split; try rewrite Hm; done. Qed.

Lemma dev_rep_status s dev drv st v :
  dev_rep s dev drv st -> 0 <= v < 2 ^ 32 ->
  dev_rep (set_dmem (set_word (dev + DV_status) v (dmem s)) s) dev drv v.
Proof.
  unfold sizeof_device, DV_name, DV_status, DV_driver, DV_mutex, DR_start, DR_stop.
  intros [Hd Hdr Ha D0 D1 D2 D3 D4 D5] Hv.
  unfold sizeof_device, DV_name, DV_status, DV_driver, DV_mutex, DR_start, DR_stop in *.
  split; try done; rewrite dmem_set; unfold DV_name, DV_status, DV_driver, DV_mutex, DR_start, DR_stop;
    first [rewrite word_set_eq; by apply u32_small | by rewrite word_set_ne by lia].
Qed.

Context (Hstart : driven fstart drv_start) (Hstop : driven fstop drv_stop).
Context (Hquiet1 : quiet LOG_DEBUG str_device_start fm_bringing_up [name]).
Context (Hquiet2 : ∀ ret, quiet LOG_ERROR str_device_start fm_could_not [name; ret]).
Context (Hquiet3 : quiet LOG_DEBUG str_device_stop fm_shutting_down [name]).
Context (Hapart : ∀ s x m, R s x -> R (set_dmem m s) x).

(** A field of the device, read at the head of a computation. *)
Lemma dvf_step {B} s p off v (f : Z -> M S B) : 0 < p -> word (dmem s) (p + off) = v -> (dvf p off ≫= f) s = f v s.
Proof. intros Hp <-. by rewrite (bind_Done _ _ _ _ _ (dvf_done s p off ltac:(lia))). Qed.

(** The new status is stored and returned. *)
Lemma finish_status s dev drv st x v :
  dev_rep s dev drv st -> R s x -> 0 <= v < 2 ^ 32 ->
  ∃ s', (set_dvf dev DV_status v;; dvf dev DV_status) s = Done v s' ∧ dev_rep s' dev drv v ∧ R s' x.
Proof.
  intros Hd Hx Hv. pose proof Hd as [[Hd0 _] _ _ _ _ _ _ _ _].
  pose proof (dev_rep_status s dev drv st v Hd Hv) as Hd2.
  rewrite (bind_Done _ _ _ _ _ (set_dvf_done s dev DV_status v ltac:(lia))).
  eexists. rewrite dvf_done by lia. rewrite (dr_status _ _ _ _ Hd2). split; [done|]. split; [done|]. by apply Hapart.
Qed.

Lemma device_start_spec s dev drv st x :
  dev_rep s dev drv st -> R s x ->
  ∃ s', device_start call klog dev s = Done (dev_next DevStart st x).1 s' ∧
    dev_rep s' dev drv (dev_next DevStart st x).1 ∧ R s' (dev_next DevStart st x).2.
Proof.
  intros Hd Hx. pose proof Hd as [[Hd0 _] [Hv0 _] _ D0 D1 _ _ _ _].
  unfold device_start. cbn [dev_next]. rewrite (proj2 (Z.eqb_neq dev 0)), (dvf_step s dev DV_status st) by (done || lia).
  destruct (Z.eqb_spec st DEVICE_STATUS_ONLINE) as [->|Hst]; [by exists s|].
  rewrite (dvf_step s dev DV_name name) by done.
  destruct (Hquiet1 s x Hx) as (s1 & E1 & R1 & M1). mstep E1. apply (dev_rep_same _ s1) in Hd; [|done].
  rewrite (dvf_step s1 dev DV_driver drv), (proj2 (Z.eqb_neq drv 0)) by (apply Hd || lia).
  rewrite (dvf_step s1 drv DR_start fstart) by (apply Hd || lia).
  destruct (Hstart s1 x R1) as (s2 & E2 & R2 & M2). mstep E2. apply (dev_rep_same _ s2) in Hd; [|done].
  destruct (drv_start x) as [r x']. cbn [fst snd] in *. destruct (r =? 0).
  - by eapply finish_status.
  - rewrite !bind_assoc, (dvf_step s2 dev DV_name name) by (apply Hd || lia). rewrite !bind_assoc.
    destruct (Hquiet2 r s2 x' R2) as (s3 & E3 & R3 & M3). mstep E3. apply (dev_rep_same _ s3) in Hd; [|done].
    by eapply finish_status.
Qed.

Lemma device_stop_spec s dev drv st x :
  dev_rep s dev drv st -> R s x ->
  ∃ s', device_stop call klog dev s = Done (dev_next DevStop st x).1 s' ∧
    dev_rep s' dev drv (dev_next DevStop st x).1 ∧ R s' (dev_next DevStop st x).2.
Proof.
  intros Hd Hx. pose proof Hd as [[Hd0 _] [Hv0 _] _ D0 _ _ _ _ _].
  unfold device_stop. cbn [dev_next]. rewrite (proj2 (Z.eqb_neq dev 0)), (dvf_step s dev DV_name name) by (done || lia).
  destruct (Hquiet3 s x Hx) as (s1 & E1 & R1 & M1). mstep E1. apply (dev_rep_same _ s1) in Hd; [|done].
  rewrite (dvf_step s1 dev DV_status st) by (apply Hd || lia).
  destruct (Z.eqb_spec st DEVICE_STATUS_ONLINE) as [->|Hst]; cbn [negb]; [|by exists s1].
  rewrite (dvf_step s1 dev DV_driver drv), (proj2 (Z.eqb_neq drv 0)) by (apply Hd || lia).
  rewrite (dvf_step s1 dev DV_mutex 0), (bind_Done _ _ _ _ _ (mutex_lock_null s1)) by (apply Hd || lia).
  rewrite (dvf_step s1 drv DR_stop fstop) by (apply Hd || lia).
  destruct (Hstop s1 x R1) as (s2 & E2 & R2 & M2). mstep E2. apply (dev_rep_same _ s2) in Hd; [|done].
  destruct (drv_stop x) as [r x']. cbn [fst snd] in *.
  set (v := if r =? 0 then _ else _). assert (Hv : 0 <= v < 2 ^ 32) by (unfold v; by destruct (r =? 0)).
  destruct (finish_status s2 dev drv _ x' v Hd R2 Hv) as (s3 & E3 & Hd3 & R3). exists s3. split; [|done].
  apply bind_inv in E3 as ([] & s4 & E4 & E5). mstep E4.
  rewrite (bind_Done _ _ _ _ _ (dvf_done s4 dev DV_mutex ltac:(lia))), (bind_Done _ _ _ _ _ (mutex_unlock_done _ _)). exact E5.
Qed.

Lemma dev_exec_spec c s dev drv st x :
  dev_rep s dev drv st -> R s x ->
  ∃ s', dev_exec dev c s = Done (dev_next c st x).1 s' ∧ dev_rep s' dev drv (dev_next c st x).1 ∧ R s' (dev_next c st x).2.
Proof. destruct c; [apply device_start_spec|apply device_stop_spec]. Qed.

(** C16: Starting and stopping a device refines the status automaton: any sequence
    of [device_start] and [device_stop] returns the statuses of the automaton,
    the driver is called exactly when the automaton calls it, and the
    device's record holds the automaton's status; given messages that return
    and leave the devices' memory and the driver alone. *)
Theorem device_status_automaton cs s dev drv st x
    (Hd : dev_rep s dev drv st) (Hx : R s x) :
  ∃ s', dev_run dev cs s = Done (dev_meaning cs st x).1 s' ∧
    dev_rep s' dev drv (dev_meaning cs st x).2.1 ∧ R s' (dev_meaning cs st x).2.2.
Proof.
  revert s st x Hd Hx. induction cs as [|c cs IH]; intros s st x Hd Hx; [by exists s|].
  destruct (dev_exec_spec c s dev drv st x Hd Hx) as (s1 & E1 & D1 & R1).
  cbn [dev_run dev_meaning]. destruct (dev_next c st x) as [st1 x1]. cbn [fst snd] in *.
  destruct (IH s1 st1 x1 D1 R1) as (s' & E' & D' & R').
  destruct (dev_meaning cs st1 x1) as [rs [st' x']]. exists s'. mstep E1. by mstep E'.
Qed.

(** A device that has a mutex cannot be stopped: after its message
    [device_stop] waits for a lock that nothing releases. *)
Theorem device_stop_hangs s s1 dev
    (Hd : 0 < dev) (Hst : word (dmem s) (dev + DV_status) = DEVICE_STATUS_ONLINE)
    (Hdrv : word (dmem s) (dev + DV_driver) ≠ 0) (Hm : word (dmem s) (dev + DV_mutex) ≠ 0)
    (Hlog : klog LOG_DEBUG str_device_stop fm_shutting_down [word (dmem s) (dev + DV_name)] s = Done tt s1)
    (Hsame : dmem s1 = dmem s) :
  device_stop call klog dev s = Spin.
Proof.
  unfold device_stop. rewrite (proj2 (Z.eqb_neq dev 0)), (dvf_step s dev DV_name _ _ Hd eq_refl) by lia. mstep Hlog.
  rewrite <- Hsame in *. rewrite (dvf_step s1 dev DV_status _ _ Hd Hst), Z.eqb_refl. cbn [negb].
  rewrite (dvf_step s1 dev DV_driver _ _ Hd eq_refl), (proj2 (Z.eqb_neq _ 0)) by done.
  rewrite (dvf_step s1 dev DV_mutex _ _ Hd eq_refl). unfold mutex_lock.
  assert (truth (word (dmem s1) (dev + DV_mutex)) = true) as -> by (unfold truth; by rewrite (proj2 (Z.eqb_neq _ _))).
  pose proof (proj2 (mutex_lock_no_exclusion s1) _ word_fuel Hm) as Hw. unfold mbind, M_bind. by rewrite Hw.
Qed.
End lifecycle.

(** ** Looking devices up *)

Section lookup.
Context {AS : Type} `{!Allocator AS} `{!DeviceImage}.
Implicit Types d : devs AS.

Definition dv_mem d : ram := f_mem (d_fs d).

(** The device tree [t]; [nm] names its devices. *)
Record dev_tree d (t : ktree) (nm : Z -> list Z) : Prop := {
  dt_tree : device_tree d ≠ 0 ∧ ∃ n, kobj (store (d_fs d)) (device_tree d) = Some (TreeT n (kaddr t));
  dt_rep : tree_rep (store (d_fs d)) t;
  dt_nodup : NoDup (preorder t).*1;
  dt_devices : ∀ v, v ∈ (preorder t).*2 -> v ≠ 0;
  dt_names : ∀ v, v ∈ (preorder t).*2 -> cstr (dv_mem d) (word (dv_mem d) (v + DV_name)) (nm v)
}.

Lemma infs_read {A} (m : M (fs AS) A) d x : m (d_fs d) = Done x (d_fs d) -> within (T := fs AS) m d = Done x d.
Proof. exact (within_read (S := devs AS) (T := fs AS) m d x). Qed.

Lemma name_compares d t nm name w :
  dev_tree d t nm -> cstr (dv_mem d) name w ->
  compares device_search_name_comparator name (λ v, bool_decide (nm v = w)) d (preorder t).*2.
Proof.
  intros [_ _ _ Hd Hn] Hw v Hv.
  destruct (strcmp_done (d_fs d) _ name (nm v) w (Hn v Hv) Hw) as (c & E & Hc).
  exists (if c =? 0 then 1 else 0). split; [|rewrite Hc; by destruct (bool_decide _)].
  unfold device_search_name_comparator.
  rewrite (bind_Done _ _ _ _ _ (infs_read (ldf v DV_name) d _ (ldf_done _ _ _ (Hd v Hv)))).
  by rewrite (bind_Done _ _ _ _ _ (infs_read (mem (strcmp (word (dv_mem d) (v + DV_name)) name)) d c E)).
Qed.

Lemma device_compares d device vs :
  compares device_search_tree_comparator device (λ v, v =? device) d vs.
Proof. intros v _. eexists. split; [reflexivity|]. by destruct (v =? device). Qed.

(** The first device of the name, in preorder. *)
Definition first_named (t : ktree) (nm : Z -> list Z) (w : list Z) : option (Z * Z) :=
  head (List.filter (λ x, bool_decide (nm x.2 = w)) (preorder t)).

(** C17: Looking a device up by its name returns the first device of the tree, in
    preorder, that has it. A name no device has makes [device_search_node]
    return null, and [device_search] dereference it. Looking up by the device
    returns its node. Nothing changes. *)
Theorem device_search_finds d t nm name w device
    (Ht : dev_tree d t nm) (Hw : cstr (dv_mem d) name w) :
  device_search_node name d = Done (from_option fst 0 (first_named t nm w)) d ∧
  device_search name d = match first_named t nm w with Some (_, v) => Done v d | None => Fault NullPointer end ∧
  device_search_tree_node device d = Done (default 0 (hit (λ v, v =? device) (preorder t))) d.
Proof.
  pose proof Ht as [(Htr & n & Htree) Hrep Hnd _ _].
  assert (Hto : kobj (kheap d) (device_tree d) = Some (TreeT n (kaddr t))) by exact Htree.
  assert (Hro : tree_rep (kheap d) t) by exact Hrep.
  assert (Hfind : tree_find (device_tree d) name device_search_name_comparator d
    = Done (from_option fst 0 (first_named t nm w)) d).
  { rewrite (tree_find_spec _ _ (λ v, bool_decide (nm v = w)) d (device_tree d) n t Htr Hto Hro Hnd (name_compares d t nm name w Ht Hw)).
    unfold hit, first_named. by destruct (head _). }
  split; [|split].
  - unfold device_search_node. mrun. exact Hfind.
  - unfold device_search. mrun. mstep Hfind. unfold first_named in *.
    destruct (head (List.filter _ (preorder t))) as [[a v]|] eqn:Eh; cbn [from_option fst].
    + assert (Hin : (a, v) ∈ preorder t).
      { assert (Hf : In (a, v) (List.filter (λ x, bool_decide (nm x.2 = w)) (preorder t))) by
          (destruct (List.filter _ _); [done|injection Eh as ->; by left]).
        apply List.filter_In in Hf as [Hf _]. by apply list_elem_of_In. }
      destruct (tree_rep_value _ _ _ _ Hrep Hin) as (l & p & Hk).
      assert (a ≠ 0) as Ha by (pose proof (tree_rep_nodes _ _ Hrep) as Hall; rewrite Forall_forall in Hall; by apply (Hall (a, v))).
      assert (E : obj (load a) (d_fs d) = Done (TreeNode v l p) (d_fs d)) by (apply obj_read; by apply load_done).
      by rewrite (bind_Done _ _ _ _ _ (infs_read (obj (load a)) d _ E)).
    + done.
  - unfold device_search_tree_node. mrun.
    by rewrite (tree_find_spec _ _ (λ v, v =? device) d (device_tree d) n t Htr Hto Hro Hnd (device_compares d device _)).
Qed.
End lookup.

(** ** Examples *)

Section device_examples.
#[local] Existing Instance Bump.allocator.

#[local] Instance example_device_strings : DeviceStrings := {|
  str_device_start := 0x400; str_device_stop := 0x410; fm_bringing_up := 0x420; fm_could_not := 0x440; fm_shutting_down := 0x460 |}.
(** A device at 0x100, named at 0x300, its driver at 0x200 with functions 5
    and 6 *)
Definition example_device : fs Bump.bump := Fs Bump.start
  (set_word (0x100 + DV_name) 0x300 (set_word (0x100 + DV_driver) 0x200
    (set_word (0x200 + DR_start) 5 (set_word (0x200 + DR_stop) 6 (Ram ∅))))) 0 0 0.
(** A driver that starts, and stops only the second time *)
Definition stubborn (f : Z) : M (fs Bump.bump) Z :=
  if f =? 5 then mret 0 else t ← gets vfs_tree; modify (set_vfs_tree (t + 1));; mret (if t =? 0 then 1 else 0).
(** The messages are counted. *)
Definition counting (mode title fmt : Z) (args : list Z) : M (fs Bump.bump) unit :=
  t ← gets vfs_root; modify (set_vfs_root (t + 1)).

Lemma device_status_automaton_witness :
  ∃ s', dev_run stubborn counting 0x100 [DevStop; DevStart; DevStart; DevStop; DevStop; DevStop] example_device
      = Done [0; 3; 3; 3; 1; 1] s' ∧ vfs_tree s' = 2.
Proof.
  destruct (device_status_automaton stubborn counting (λ (s : fs Bump.bump) x, vfs_tree s = x) (λ x, (0, x))
    (λ x, (if x =? 0 then 1 else 0, x + 1)) 5 6 0x300) with
    (cs := [DevStop; DevStart; DevStart; DevStop; DevStop; DevStop]) (s := example_device)
    (dev := 0x100) (drv := 0x200) (st := 0) (x := 0) as (s' & E & _ & Hx).
  - intros s x Hx. by exists s.
  - intros s x <-. by exists (set_vfs_tree (vfs_tree s + 1) s).
  - intros s x Hx. by exists (set_vfs_root (vfs_root s + 1) s).
  - intros ret s x Hx. by exists (set_vfs_root (vfs_root s + 1) s).
  - intros s x Hx. by exists (set_vfs_root (vfs_root s + 1) s).
  - done.
  - split; [split; by vm_compute|split; by vm_compute|left; by vm_compute|by vm_compute..].
  - done.
  - exists s'. by split.
Defined.

(** A tree of two devices, at 0x100 ("a") and at 0x140 ("b") *)
Definition device_store : kstate Bump.bump := KState
  (list_to_map [(0x1000, OTree (TreeT 2 0x2000)); (0x2000, OTreeNode (TreeNode 0x100 0x3000 0));
    (0x3000, OList (ListT 0x4000 0x4000 1)); (0x4000, ONode (ListNode 0 0 0x5000));
    (0x5000, OTreeNode (TreeNode 0x140 0x6000 0x2000)); (0x6000, OList (ListT 0 0 0))])
  (Bump.BumpState 0x7000 ∅) [].
Definition device_memory : ram :=
  set_word (0x100 + DV_name) 0x300 (set_word (0x140 + DV_name) 0x310
    (Ram (place 0x300 [97] (place 0x310 [98] (place 0x320 [98] (place 0x330 [99] ∅)))))).
Definition example_devices : devs Bump.bump := Devs (Fs device_store device_memory 0 0 0) 0x1000 0x100 0 0.
Definition two_devices : ktree := KNode 0x2000 0x100 0x3000 [(0x4000, KNode 0x5000 0x140 0x6000 [])].
Definition example_names (v : Z) : list Z := if v =? 0x100 then [97] else [98].

Lemma two_devices_rep : tree_rep (heap device_store) two_devices.
Proof.
  split; [done|]. split; [by exists 0|]. split.
  - split; [done|reflexivity| |by apply (bool_decide_unpack _); vm_compute|by apply (bool_decide_unpack _); vm_compute].
    repeat split; cbn; eexists; repeat split; reflexivity.
  - split; [|done]. split; [done|]. split; [by exists 0x2000|]. split; [|done].
    split; [done|reflexivity|done|constructor|by intros ?%elem_of_nil].
Qed.

Lemma example_dev_tree : dev_tree example_devices two_devices example_names.
Proof.
  split.
  - split; [done|]. by exists 2.
  - apply two_devices_rep.
  - by apply (bool_decide_unpack _); vm_compute.
  - intros v Hv. cbn in Hv. by apply elem_of_cons in Hv as [->|[->|[]%elem_of_nil]%elem_of_cons].
  - intros v Hv. cbn in Hv. apply elem_of_cons in Hv as [->|[->|[]%elem_of_nil]%elem_of_cons]; vm_compute; repeat split; by intros [=].
Qed.

Lemma device_search_finds_witness :
  device_search 0x320 example_devices = Done 0x140 example_devices ∧
  device_search 0x330 example_devices = Fault NullPointer ∧
  device_search_tree_node 0x140 example_devices = Done 0x5000 example_devices.
Proof.
  destruct (device_search_finds example_devices two_devices example_names 0x320 [98] 0x140) as (_ & H1 & H3).
  - apply example_dev_tree.
  - vm_compute; repeat split; by intros [=].
  - destruct (device_search_finds example_devices two_devices example_names 0x330 [99] 0x140) as (_ & H2 & _).
    + apply example_dev_tree.
    + vm_compute; repeat split; by intros [=].
    + split; [exact H1|]. split; [exact H2|exact H3].
Defined.
End device_examples.
