(* ===== verification/PcDevices.v ===== *)
(** * The PC's devices in the running kernel (kernel/arch/x86/drivers/pit.c,
      keyboard.c, serial.c)

    The drivers' records and their registration, and what their interrupts
    do: Interrupts, Ports, Keyboard, Timing and Device put together. Function
    pointers are addresses, told apart by the dispatchers below. *)

From Stdlib Require Import String Ascii.
From S2P Require Import Prelude KHeap CString Ram Lock Printf Ports Console Messages Interrupts Timing Keyboard Fs Device DeviceLife.

Definition IRQ0 : Z := 32.
Definition IRQ1 : Z := 33.
Definition DEVICE_TYPE_HARDWARE : Z := 2.
Definition DEVICE_INTERFACE_IO : Z := 4.

(** What the drivers keep, next to the machine's tables and ports. *)
Record pc (AS : Type) := Pc { pc_fs : fs AS; pc_clock : clock; pc_kb : kb; timer_ticks : Z }.
Arguments Pc {AS}. Arguments pc_fs {AS}. Arguments pc_clock {AS}. Arguments pc_kb {AS}. Arguments timer_ticks {AS}.

#[export] Program Instance pc_has_fs {AS} : Has (fs AS) (machine (pc AS)) := {
  part s := pc_fs (m_rest s);
  set_part x s := Machine (m_log s) (m_tables s) (Pc x (pc_clock (m_rest s)) (pc_kb (m_rest s)) (timer_ticks (m_rest s))) }.
Solve All Obligations with (by intros; repeat match goal with s : machine _ |- _ => destruct s as [? ? []] end).
#[export] Program Instance pc_has_clock {AS} : Has clock (machine (pc AS)) := {
  part s := pc_clock (m_rest s);
  set_part x s := Machine (m_log s) (m_tables s) (Pc (pc_fs (m_rest s)) x (pc_kb (m_rest s)) (timer_ticks (m_rest s))) }.
Solve All Obligations with (by intros; repeat match goal with s : machine _ |- _ => destruct s as [? ? []] end).
#[export] Program Instance pc_has_kb {AS} : Has kb (machine (pc AS)) := {
  part s := pc_kb (m_rest s);
  set_part x s := Machine (m_log s) (m_tables s) (Pc (pc_fs (m_rest s)) (pc_clock (m_rest s)) x (timer_ticks (m_rest s))) }.
Solve All Obligations with (by intros; repeat match goal with s : machine _ |- _ => destruct s as [? ? []] end).

(** Where the linker puts the functions, the records and the names. *)
Class PcImage := {
  fn_pit_start : Z; fn_pit_stop : Z; fn_serial_start : Z; fn_kb_start : Z; fn_kb_stop : Z;
  fn_timer_handler : Z; fn_kb_handler : Z;
  pit_driver : Z; serial_driver : Z; keyboard_driver : Z;
  str_pit : Z; str_serial0 : Z; str_ps2_keyboard : Z
}.

Section drivers.
Context {AS : Type} `{!Allocator AS, !DeviceImage, !PcImage, !Bus, !LogStrings, !DeviceStrings}.
Context (LOG_SERIAL : bool).
(** a timer's handler, called by its address *)
Context (call_timer : Z -> Z -> M (machine (pc AS)) unit).
(** what lies behind the keyboard's tables *)
Context (kbdus_past : Z -> Z).
Local Abbreviation K := (M (machine (pc AS))).

(** *** pit.c *)

Definition timer_handler (r : registers) : K unit :=
  modify (λ s, Machine (m_log s) (m_tables s)
    (Pc (pc_fs (m_rest s)) (pc_clock (m_rest s)) (pc_kb (m_rest s)) (u32 (timer_ticks (m_rest s) + 1))));;
  timer_recieveTick call_timer 0.

Definition pit_start : K Z :=
  within (T := tables) (register_interrupt_handler IRQ0 fn_timer_handler);;
  within (T := ports) (pit_phase 1000);;
  mret 0.
Definition pit_stop : K Z := mret (s32 0xFFFFFFFF).

(** *** keyboard.c: the flag [irq1] of Keyboard is the entry of the table *)

Definition pc_kb_handler (r : registers) : K unit :=
  scancode ← within (T := ports) (inb 0x60);
  within (T := kb) (kb_handler kbdus_past scancode).
Definition pc_kb_start : K Z :=
  within (T := tables) (register_interrupt_handler IRQ1 fn_kb_handler);;
  within (T := kb) kb_start.
Definition pc_kb_stop : K Z :=
  within (T := tables) (deregister_interrupt_handler IRQ1);;
  within (T := kb) kb_stop.

Definition pc_serial_start : K Z := within (T := ports) serial_start.

(** A driver's function at its address. *)
Definition call_driver (f : Z) : K Z :=
  if f =? fn_pit_start then pit_start
  else if f =? fn_pit_stop then pit_stop
  else if f =? fn_serial_start then pc_serial_start
  else if f =? fn_kb_start then pc_kb_start
  else if f =? fn_kb_stop then pc_kb_stop
  else fail (WildPointer f).

(** An interrupt handler at its address. *)
Definition call_handler (h : Z) (r : registers) : K unit :=
  if h =? fn_timer_handler then timer_handler r
  else if h =? fn_kb_handler then pc_kb_handler r
  else fail (WildPointer h).

(** Messages go to the machine's console. *)
Definition pc_klog (mode title fmt : Z) (args : list Z) : K unit :=
  within (T := console * Z) (klog LOG_SERIAL mode title fmt args).

Local Abbreviation infs m := (within (T := fs AS) m).

Definition pit_init : K unit :=
  infs (stf pit_driver DR_start fn_pit_start);;
  infs (stf pit_driver DR_stop fn_pit_stop);;
  infs (stf pit_device DV_name str_pit);;
  infs (stf pit_device DV_type DEVICE_TYPE_HARDWARE);;
  infs (stf pit_device DV_flags 0);;
  infs (stf pit_device DV_interface DEVICE_INTERFACE_IO);;
  infs (stf pit_device DV_driver pit_driver);;
  _ ← device_start call_driver pc_klog pit_device; mret tt.

(** [serial_driver.stop] is not set. *)
Definition serial_init : K unit :=
  infs (stf serial_driver DR_start fn_serial_start);;
  infs (stf serial_device DV_name str_serial0);;
  infs (stf serial_device DV_type DEVICE_TYPE_HARDWARE);;
  infs (stf serial_device DV_flags 0);;
  infs (stf serial_device DV_interface DEVICE_INTERFACE_IO);;
  infs (stf serial_device DV_driver serial_driver);;
  _ ← device_start call_driver pc_klog serial_device; mret tt.

Definition kb_init : K unit :=
  infs (stf keyboard_driver DR_start fn_kb_start);;
  infs (stf keyboard_driver DR_stop fn_kb_stop);;
  infs (stf keyboard_device DV_name str_ps2_keyboard);;
  infs (stf keyboard_device DV_type DEVICE_TYPE_HARDWARE);;
  infs (stf keyboard_device DV_flags 0);;
  infs (stf keyboard_device DV_interface DEVICE_INTERFACE_IO);;
  infs (stf keyboard_device DV_driver keyboard_driver);;
  _ ← device_start call_driver pc_klog keyboard_device; mret tt.
End drivers.

(** ** Registering a driver *)

Section registering.
Context {AS : Type} `{!DeviceImage, !PcImage, !Bus, !LogStrings, !DeviceStrings} (LOG_SERIAL : bool).
Implicit Types s : machine (pc AS).

(** What the three [_init] functions have in common. *)
Definition driver_init (drv dev name fstart : Z) (fstop : option Z) : M (machine (pc AS)) unit :=
  let rest :=
    within (T := fs AS) (stf dev DV_name name);;
    within (T := fs AS) (stf dev DV_type DEVICE_TYPE_HARDWARE);;
    within (T := fs AS) (stf dev DV_flags 0);;
    within (T := fs AS) (stf dev DV_interface DEVICE_INTERFACE_IO);;
    within (T := fs AS) (stf dev DV_driver drv);;
    _ ← device_start call_driver (pc_klog LOG_SERIAL) dev; mret tt in
  within (T := fs AS) (stf drv DR_start fstart);;
  match fstop with Some f => within (T := fs AS) (stf drv DR_stop f);; rest | None => rest end.

Lemma inits_driver :
  serial_init (AS := AS) LOG_SERIAL = driver_init serial_driver serial_device str_serial0 fn_serial_start None ∧
  kb_init (AS := AS) LOG_SERIAL = driver_init keyboard_driver keyboard_device str_ps2_keyboard fn_kb_start (Some fn_kb_stop) ∧
  pit_init (AS := AS) LOG_SERIAL = driver_init pit_driver pit_device str_pit fn_pit_start (Some fn_pit_stop).
Proof. done. Qed.

(** The record as [driver_init] leaves it before the start. *)
Definition device_words (drv dev name fstart : Z) (fstop : option Z) (m : ram) : ram :=
  let m1 := set_word (drv + DR_start) fstart m in
  let m2 := match fstop with Some f => set_word (drv + DR_stop) f m1 | None => m1 end in
  set_word (dev + DV_driver) drv (set_word (dev + DV_interface) DEVICE_INTERFACE_IO (set_word (dev + DV_flags) 0
    (set_word (dev + DV_type) DEVICE_TYPE_HARDWARE (set_word (dev + DV_name) name m2)))).

Definition in_block (a n b : Z) : Prop := a <= b ∧ b + 4 <= a + n.
Definition apart (a n b k : Z) : Prop := a + n <= b ∨ b + k <= a.
Definition placed_at (a n : Z) : Prop := 0 < a ∧ a + n <= 2 ^ 32.

Lemma device_words_out drv dev name fstart fstop m b :
  placed_at drv 8 -> placed_at dev sizeof_device -> 0 <= b -> b + 4 <= 2 ^ 32 ->
  apart b 4 drv 8 -> apart b 4 dev sizeof_device -> word (device_words drv dev name fstart fstop m) b = word m b.
Proof.
  unfold placed_at, apart, sizeof_device, device_words, DR_start, DR_stop, DV_driver, DV_interface, DV_flags, DV_type, DV_name.
  intros. cbv zeta. rewrite !word_set_ne by lia. destruct fstop; by rewrite !word_set_ne by lia.
Qed.

Lemma device_words_in drv dev name fstart fstop m :
  placed_at drv 8 -> placed_at dev sizeof_device -> apart drv 8 dev sizeof_device ->
  let m' := device_words drv dev name fstart fstop m in
  word m' (dev + DV_driver) = drv ∧ word m' (drv + DR_start) = u32 fstart ∧ word m' (dev + DV_status) = word m (dev + DV_status) ∧
  word m' (dev + DV_name) = u32 name.
Proof.
  unfold placed_at, apart, sizeof_device, device_words, DR_start, DR_stop, DV_driver, DV_interface, DV_flags, DV_type, DV_name, DV_status.
  intros. cbv zeta. split; [|split; [|split]].
  - rewrite word_set_eq. apply u32_small. lia.
  - rewrite !(word_set_ne _ (drv + 0)) by lia. destruct fstop; [rewrite word_set_ne by lia|]; apply word_set_eq.
  - rewrite !(word_set_ne _ (dev + 24)) by lia. destruct fstop; by rewrite !word_set_ne by lia.
  - rewrite !(word_set_ne _ (dev + 0)) by lia. apply word_set_eq.
Qed.

Lemma set_dmem_twice m1 m2 s : set_dmem m2 (set_dmem m1 s) = set_dmem m2 s.
Proof. by destruct s as [? ? [[] ? ? ?]]. Qed.

Lemma stf_step p off v m s : 0 < p ->
  within (T := fs AS) (stf p off v) (set_dmem m s) = Done tt (set_dmem (set_word (p + off) v m) s).
Proof.
  intros Hp. pose proof (set_dvf_done (set_dmem m s) p off v ltac:(lia)) as E.
  rewrite dmem_set, set_dmem_twice in E. exact E.
Qed.

Lemma set_dmem_same s : set_dmem (dmem s) s = s.
Proof. by destruct s as [? ? [[] ? ? ?]]. Qed.

Lemma driver_init_words drv dev name fstart fstop s : 0 < drv -> 0 < dev ->
  driver_init drv dev name fstart fstop s
  = (_ ← device_start call_driver (pc_klog LOG_SERIAL) dev; mret tt) (set_dmem (device_words drv dev name fstart fstop (dmem s)) s).
Proof.
  intros Hdrv Hdev. rewrite <- (set_dmem_same s) at 1. unfold driver_init, device_words.
  rewrite (bind_Done _ _ _ _ _ (stf_step drv _ _ _ s Hdrv)).
  destruct fstop; [rewrite (bind_Done _ _ _ _ _ (stf_step drv _ _ _ s Hdrv))|];
    by rewrite !(λ o v m, bind_Done _ _ _ _ _ (stf_step dev o v m s Hdev)).
Qed.

Lemma driver_init_spec drv dev name fstart fstop s s1 s2 :
  placed_at drv 8 -> placed_at dev sizeof_device -> apart drv 8 dev sizeof_device ->
  word (dmem s) (dev + DV_status) ≠ DEVICE_STATUS_ONLINE -> 0 <= fstart < 2 ^ 32 -> 0 <= name < 2 ^ 32 ->
  let m := device_words drv dev name fstart fstop (dmem s) in
  pc_klog LOG_SERIAL LOG_DEBUG str_device_start fm_bringing_up [name] (set_dmem m s) = Done tt s1 -> dmem s1 = m ->
  call_driver fstart s1 = Done 0 s2 -> dmem s2 = m ->
  driver_init drv dev name fstart fstop s = Done tt (set_dmem (set_word (dev + DV_status) DEVICE_STATUS_ONLINE m) s2).
Proof.
  intros Hdrv Hdev Hap Hst Hf Hnm m Hlog M1 Hcall M2.
  destruct (device_words_in drv dev name fstart fstop (dmem s) Hdrv Hdev Hap) as (W1 & W2 & W3 & W4).
  fold m in W1, W2, W3, W4. rewrite u32_small in W2, W4 by done. pose proof Hdrv as [Hdrv0 _]. pose proof Hdev as [Hdev0 _].
  rewrite (driver_init_words drv dev name fstart fstop s Hdrv0 Hdev0). fold m.
  set (d := set_dmem m s) in *. assert (Ed : dmem d = m) by apply dmem_set.
  unfold device_start. rewrite (proj2 (Z.eqb_neq dev 0)) by lia. rewrite !bind_assoc.
  rewrite (dvf_step d dev DV_status _ _ Hdev0 eq_refl), Ed, W3, (proj2 (Z.eqb_neq _ _)) by done. rewrite !bind_assoc.
  rewrite (dvf_step d dev DV_name name) by (done || congruence). rewrite !bind_assoc. mstep Hlog. rewrite !bind_assoc.
  rewrite (dvf_step s1 dev DV_driver drv), (proj2 (Z.eqb_neq drv 0)) by (congruence || lia). rewrite !bind_assoc.
  rewrite (dvf_step s1 drv DR_start fstart) by (congruence || lia). rewrite !bind_assoc.
  mstep Hcall. cbn [Z.eqb]. rewrite !bind_assoc.
  rewrite (bind_Done _ _ _ _ _ (set_dvf_done s2 dev DV_status _ ltac:(lia))), M2.
  by rewrite (bind_Done _ _ _ _ _ (dvf_done _ dev DV_status ltac:(lia))).
Qed.
End registering.

(** ** The message of [device_start] *)

Definition device_names `{!PcImage} : list Z := [str_serial0; str_ps2_keyboard; str_pit].
Definition bringing_format : list item :=
  lit "Bringing up device " ++ [Directive false false 0 [] Cvs] ++ lit "... " ++ [Literal 10].

Section talking.
Context {AS : Type} `{!DeviceImage, !PcImage, !Bus, !LogStrings, !DeviceStrings} (LOG_SERIAL : bool).
Implicit Types (s : machine (pc AS)) (c : console).

(** The console can print the message: it is well formed and the strings are
    in memory, off the screen. *)
Record talking c : Prop := {
  tk_console : ∃ t, shows c t;
  tk_strings : strings_ok c;
  tk_title : cstr (off_screen_mem c) str_device_start (chars "device_start");
  tk_format : cstr (off_screen_mem c) fm_bringing_up (format_chars bringing_format);
  tk_names : ∀ name, name ∈ device_names -> ∃ l, cstr (off_screen_mem c) name l ∧ Z.of_nat (length l) < 2 ^ 31 - 1
}.

Lemma talking_same c c' t : shows c' t -> same_elsewhere (c_mem c) (c_mem c') -> talking c -> talking c'.
Proof.
  intros Ht Hsame [_ Hs Hti Hf Hnm]. split; [by exists t|by eapply strings_off_screen|by eapply cstr_off_screen..|].
  intros name (l & Hl & Hlen)%Hnm. exists l. split; [by eapply cstr_off_screen|done].
Qed.

Lemma talking_ports p c : talking c -> talking (with_ports p c).
Proof. intros [(t & []) Hs Hti Hf Hnm]. split; [exists t; by split|by destruct Hs|done..]. Qed.

Lemma name_word c name : talking c -> name ∈ device_names -> 0 <= name < 2 ^ 32.
Proof. intros [_ _ _ _ Hnm] (l & Hl & _)%Hnm. apply cstr_range in Hl. lia. Qed.
Context (n : nat) (Hd : ∀ q, drains n q) (Hn : Z.of_nat n <= 2 ^ 32).

Definition set_log c s : machine (pc AS) := Machine (c, snd (m_log s)) (m_tables s) (m_rest s).

Lemma talks s name : talking (fst (m_log s)) -> name ∈ device_names ->
  ∃ c, pc_klog LOG_SERIAL LOG_DEBUG str_device_start fm_bringing_up [name] s = Done tt (set_log c s) ∧
    talking c ∧ chatter (machine_ports s) (c_ports c).
Proof.
  intros Hs Hname. pose proof Hs as [(t & Ht) Hstr Hti Hf Hnm]. destruct (Hnm name Hname) as (l & Hl & Hlen).
  destruct (klog_returns LOG_SERIAL n Hd Hn (fst (m_log s)) t (snd (m_log s)) LOG_DEBUG str_device_start
    (chars "device_start") fm_bringing_up bringing_format [name] [AStr l]
    (chars "Bringing up device " ++ show_string false 0 l ++ chars "... " ++ [10]))
    as (c & t' & E & Ht' & Hsame & Hch).
  - exact Ht.
  - exact Hstr.
  - exact Hti.
  - cbn. lia.
  - exact Hf.
  - repeat constructor; cbn; lia.
  - by repeat constructor.
  - reflexivity.
  - exists c. split; [|split; [by eapply talking_same|exact Hch]]. unfold pc_klog.
    rewrite <- surjective_pairing in E. exact (within_done (T := console * Z) _ s tt (c, snd (m_log s)) E).
Qed.
End talking.

(** ** Bringing the devices up *)

Definition serial_commands : list io :=
  [Out 8 0x3f9 0; Out 8 0x3fb 0x80; Out 8 0x3f8 3; Out 8 0x3f9 0; Out 8 0x3fb 3; Out 8 0x3fa 0xC7; Out 8 0x3fc 0x0B].
(** 1193180 / 1000 = 0x4A9 *)
Definition pit_commands : list io := [Out 8 0x43 0x36; Out 8 0x40 0xA9; Out 8 0x40 0x04].

Section online.
Context {AS : Type} `{!DeviceImage, !PcImage, !Bus, !Linkage, !LogStrings, !DeviceStrings} (LOG_SERIAL : bool).
Context (n : nat) (Hd : ∀ q, drains n q) (Hn : Z.of_nat n <= 2 ^ 32).
Implicit Types s : machine (pc AS).

(** The records the linker places, and their sizes. *)
Definition pc_records : list (Z * Z) :=
  [(serial_driver, 8); (serial_device, sizeof_device); (keyboard_driver, 8); (keyboard_device, sizeof_device);
   (pit_driver, 8); (pit_device, sizeof_device)].
Definition pc_functions : list Z :=
  [fn_pit_start; fn_pit_stop; fn_serial_start; fn_kb_start; fn_kb_stop].
Record image_ok : Prop := {
  im_placed : Forall (λ b, placed_at b.1 b.2) pc_records;
  im_apart : ForallOrdPairs (λ b c, apart b.1 b.2 c.1 c.2) pc_records;
  im_functions : NoDup pc_functions;
  im_addresses : Forall (λ f, 0 < f < 2 ^ 32) pc_functions;
  im_handlers : fn_timer_handler ≠ fn_kb_handler ∧ fn_timer_handler ≠ 0 ∧ fn_kb_handler ≠ 0
}.

Lemma serial_runs s : call_driver fn_serial_start s = pc_serial_start s ->
  call_driver fn_serial_start s
  = Done 0 (set_machine_ports (Ports (accesses (machine_ports s) ++ serial_commands)) s).
Proof.
  intros ->. apply (within_io serial_start). unfold serial_start.
  rewrite !(bind_Done _ _ _ _ _ (outb_done _ _ _)). cbn [accesses]. by rewrite <- !app_assoc.
Qed.

Lemma pit_runs s : length (interrupt_handlers (m_tables s)) = 256%nat ->
  pit_start s = Done 0 (set_machine_ports (Ports (accesses (machine_ports s) ++ pit_commands))
    (Machine (m_log s) (set_irqs (aset 32 fn_timer_handler (interrupt_handlers (m_tables s))) (m_tables s)) (m_rest s))).
Proof.
  intros Hl. unfold pit_start, IRQ0. mstep (register_done 32 fn_timer_handler s Hl ltac:(lia)).
  set (s1 := Machine _ _ _). assert (E : pit_phase 1000 (machine_ports s1)
    = Done tt (Ports (accesses (machine_ports s1) ++ pit_commands))).
  { unfold pit_phase. change (1000 =? 0) with false. cbv zeta. cbn [negb].
    rewrite !(bind_Done _ _ _ _ _ (outb_done _ _ _)), outb_done. cbn [accesses]. by rewrite <- !app_assoc. }
  by rewrite (bind_Done _ _ _ _ _ (within_io (pit_phase 1000) s1 _ _ E)).
Qed.

(** [kb_start]'s loop on the machine. *)
Lemma clear_buffer l : length l = BUFFER -> for_up BUFFER 0 (λ i, wr_at i 0) l = Done tt (replicate BUFFER 0).
Proof.
  intros Hl. destruct (for_up_inv (λ i l', length l' = BUFFER ∧ ∀ j, 0 <= j < i -> aget l' j = Some 0)
    BUFFER 0 (λ i, wr_at i 0) l) as (l' & E & Hl' & Hz).
  - intros i l' Hi [Hl' Hz]. rewrite wr_at_done by (rewrite Hl'; unfold BUFFER in *; lia). eexists. split; [done|].
    split; [by rewrite length_aset|]. intros j Hj. destruct (decide (i = j)) as [<-|Hne].
    + apply aget_aset_eq. rewrite Hl'. unfold BUFFER in *. lia.
    + rewrite aget_aset_ne by done. apply Hz. lia.
  - split; [done|]. lia.
  - rewrite E. f_equal. apply list_eq. intros i. destruct (decide (i < BUFFER)%nat) as [Hi|Hi].
    + rewrite lookup_replicate_2 by done. rewrite <- aget_nat. apply Hz. unfold BUFFER in *. lia.
    + rewrite !lookup_ge_None_2 by (rewrite ?length_replicate; lia). done.
Qed.

Lemma kb_runs s :
  length (interrupt_handlers (m_tables s)) = 256%nat -> length (buffer (pc_kb (m_rest s))) = BUFFER ->
  ∃ k, pc_kb_start s = Done 0 (Machine (m_log s)
      (set_irqs (aset 33 fn_kb_handler (interrupt_handlers (m_tables s))) (m_tables s))
      (Pc (pc_fs (m_rest s)) (pc_clock (m_rest s)) k (timer_ticks (m_rest s)))) ∧
    buffer k = replicate BUFFER 0 ∧ buffer_i k = buffer_i (pc_kb (m_rest s)) ∧ irq1 k = true.
Proof.
  intros Hl Hb. unfold pc_kb_start, IRQ1. set (k0 := set_irq1 true (pc_kb (m_rest s))).
  exists (set_buffer (replicate BUFFER 0) (buffer_i k0) k0). split; [|done].
  mstep (register_done 33 fn_kb_handler s Hl ltac:(lia)). set (s1 := Machine _ _ _).
  assert (E : kb_start (part s1) = Done 0 (set_buffer (replicate BUFFER 0) (buffer_i k0) k0)).
  { unfold kb_start. change (part s1) with (pc_kb (m_rest s)). unfold modify at 1. rewrite (bind_Done _ _ _ tt k0) by done.
    by rewrite (bind_Done _ _ _ _ _ (in_buffer_done _ k0 _ _ (clear_buffer _ Hb))). }
  exact (within_done (T := kb) kb_start s1 _ _ E).
Qed.

(** What an [_init] function does to memory: its device is online, and the
    words outside its two records are what they were. *)
Definition up (drv dev : Z) (m m' : ram) : Prop :=
  word m' (dev + DV_status) = DEVICE_STATUS_ONLINE ∧
  ∀ b, 0 <= b -> b + 4 <= 2 ^ 32 -> apart b 4 drv 8 -> apart b 4 dev sizeof_device -> word m' b = word m b.

Definition initial (drv dev name fstart : Z) (fstop : option Z) s : machine (pc AS) :=
  set_dmem (device_words drv dev name fstart fstop (dmem s)) s.

(** The message, then the driver's function on the state after it. *)
Lemma driver_up drv dev name fstart fstop s :
  placed_at drv 8 -> placed_at dev sizeof_device -> apart drv 8 dev sizeof_device ->
  word (dmem s) (dev + DV_status) ≠ DEVICE_STATUS_ONLINE -> 0 <= fstart < 2 ^ 32 ->
  talking (fst (m_log s)) -> name ∈ device_names ->
  let i := initial drv dev name fstart fstop s in
  ∃ c, talking c ∧ chatter (machine_ports s) (c_ports c) ∧
    ∀ s2, call_driver fstart (set_log c i) = Done 0 s2 -> dmem s2 = dmem i ->
      ∃ s', driver_init LOG_SERIAL drv dev name fstart fstop s = Done tt s' ∧ up drv dev (dmem s) (dmem s') ∧
        s' = set_dmem (dmem s') s2.
Proof.
  intros Hdrv Hdev Hap Hst Hf Htalk Hname i. pose proof (name_word _ _ Htalk Hname) as Hnm.
  destruct (talks LOG_SERIAL n Hd Hn i name Htalk Hname) as (c & E & Hc & Hch). exists c. split; [done|]. split; [exact Hch|].
  intros s2 Hcall M2. unfold i, initial in M2. rewrite dmem_set in M2.
  assert (M1 : dmem (set_log c i) = device_words drv dev name fstart fstop (dmem s)) by exact (dmem_set _ s).
  eexists. split; [by apply (driver_init_spec _ _ _ _ _ _ _ (set_log c i) s2)|].
  rewrite dmem_set. split; [|done]. split.
  - rewrite word_set_eq. by apply u32_small.
  - intros b Hb0 Hb Hb1 Hb2. rewrite word_set_ne; [by apply device_words_out|..];
      unfold placed_at, apart, sizeof_device, DV_status in *; lia.
Qed.

Ltac image H :=
  destruct H as [Hplaced Hpairs Hnodup Haddr (Hh1 & Hh2 & Hh3)]; unfold pc_records, pc_functions in *;
  repeat match goal with H : ForallOrdPairs _ (_ :: _) |- _ => inversion_clear H end;
  repeat match goal with H : Forall _ (_ :: _) |- _ => inversion_clear H end;
  repeat match goal with H : Forall _ [] |- _ => clear H | H : ForallOrdPairs _ [] |- _ => clear H end;
  cbn [fst snd] in *;
  rewrite !NoDup_cons, !not_elem_of_cons in Hnodup; destruct_and!.

Lemma driver_calls : image_ok ->
  call_driver (AS := AS) fn_serial_start = pc_serial_start ∧ call_driver (AS := AS) fn_kb_start = pc_kb_start ∧
  call_driver (AS := AS) fn_pit_start = pit_start.
Proof.
  intros Hok. image Hok. unfold call_driver.
  repeat match goal with |- context [?a =? ?b] => destruct (Z.eqb_spec a b); [try congruence|try congruence] end.
  done.
Qed.

(** The message's accesses, then the driver's. *)
Definition talk_then (s s' : machine (pc AS)) (cmds : list io) : Prop :=
  ∃ o, accesses (machine_ports s') = accesses (machine_ports s) ++ o ++ cmds ∧ Forall message_io o.

Lemma talk_then_done s s' p cmds :
  chatter (machine_ports s) p -> accesses (machine_ports s') = accesses p ++ cmds -> talk_then s s' cmds.
Proof. intros (o & E & Ho) E'. exists o. rewrite E', E, <- app_assoc. by split. Qed.

Lemma serial_up s : image_ok -> talking (fst (m_log s)) ->
  word (dmem s) (serial_device + DV_status) ≠ DEVICE_STATUS_ONLINE ->
  ∃ s', serial_init LOG_SERIAL s = Done tt s' ∧ talking (fst (m_log s')) ∧
    up serial_driver serial_device (dmem s) (dmem s') ∧ m_tables s' = m_tables s ∧
    talk_then s s' serial_commands ∧ pc_kb (m_rest s') = pc_kb (m_rest s).
Proof.
  intros Hok Htalk Hst. destruct (driver_calls Hok) as (Hc & _ & _). pose proof Hok as Hok'. image Hok'.
  rewrite (proj1 (inits_driver LOG_SERIAL)).
  destruct (driver_up serial_driver serial_device str_serial0 fn_serial_start None s)
    as (c & Tc & Hch & Hup); [done|done|done|done|lia|done|by left|].
  set (i := initial _ _ _ _ _ s) in Hup.
  destruct (Hup _ (serial_runs (set_log c i) (f_equal (λ f, f (set_log c i)) Hc)) eq_refl) as (s' & E & U & Hs').
  exists s'. split; [exact E|]. rewrite Hs' at 1 3 4 5. split; [by apply (talking_ports _ c)|]. split; [exact U|].
  split; [done|]. split; [|done]. by apply (talk_then_done _ _ (c_ports c)).
Qed.

Lemma kb_up s : image_ok -> talking (fst (m_log s)) ->
  word (dmem s) (keyboard_device + DV_status) ≠ DEVICE_STATUS_ONLINE ->
  length (interrupt_handlers (m_tables s)) = 256%nat -> length (buffer (pc_kb (m_rest s))) = BUFFER ->
  ∃ s', kb_init LOG_SERIAL s = Done tt s' ∧ talking (fst (m_log s')) ∧
    up keyboard_driver keyboard_device (dmem s) (dmem s') ∧
    m_tables s' = set_irqs (aset 33 fn_kb_handler (interrupt_handlers (m_tables s))) (m_tables s) ∧
    talk_then s s' [] ∧ buffer (pc_kb (m_rest s')) = replicate BUFFER 0.
Proof.
  intros Hok Htalk Hst Hl Hb. destruct (driver_calls Hok) as (_ & Hc & _). pose proof Hok as Hok'. image Hok'.
  rewrite (proj1 (proj2 (inits_driver LOG_SERIAL))).
  destruct (driver_up keyboard_driver keyboard_device str_ps2_keyboard fn_kb_start (Some fn_kb_stop) s)
    as (c & Tc & Hch & Hup); [done|done|done|done|lia|done|by right; left|].
  set (i := initial _ _ _ _ _ s) in Hup. destruct (kb_runs (set_log c i) Hl Hb) as (k & Ek & Hk & _).
  rewrite <- (f_equal (λ f, f (set_log c i)) Hc) in Ek.
  destruct (Hup _ Ek eq_refl) as (s' & E & U & Hs').
  exists s'. split; [exact E|]. rewrite Hs' at 1 3 4 5. split; [exact Tc|]. split; [exact U|].
  split; [done|]. split; [|done]. apply (talk_then_done _ _ (c_ports c)); [done|]. by rewrite app_nil_r.
Qed.

Lemma pit_up s : image_ok -> talking (fst (m_log s)) ->
  word (dmem s) (pit_device + DV_status) ≠ DEVICE_STATUS_ONLINE ->
  length (interrupt_handlers (m_tables s)) = 256%nat ->
  ∃ s', pit_init LOG_SERIAL s = Done tt s' ∧ talking (fst (m_log s')) ∧
    up pit_driver pit_device (dmem s) (dmem s') ∧
    m_tables s' = set_irqs (aset 32 fn_timer_handler (interrupt_handlers (m_tables s))) (m_tables s) ∧
    talk_then s s' pit_commands ∧ pc_kb (m_rest s') = pc_kb (m_rest s).
Proof.
  intros Hok Htalk Hst Hl. destruct (driver_calls Hok) as (_ & _ & Hc). pose proof Hok as Hok'. image Hok'.
  rewrite (proj2 (proj2 (inits_driver LOG_SERIAL))).
  destruct (driver_up pit_driver pit_device str_pit fn_pit_start (Some fn_pit_stop) s)
    as (c & Tc & Hch & Hup); [done|done|done|done|lia|done|by right; right; left|].
  set (i := initial _ _ _ _ _ s) in Hup. pose proof (pit_runs (set_log c i) Hl) as Ep.
  rewrite <- (f_equal (λ f, f (set_log c i)) Hc) in Ep.
  destruct (Hup _ Ep eq_refl) as (s' & E & U & Hs').
  exists s'. split; [exact E|]. rewrite Hs' at 1 3 4 5. split; [by apply (talking_ports _ c)|]. split; [exact U|].
  split; [done|]. split; [|done]. by apply (talk_then_done _ _ (c_ports c)).
Qed.

Lemma up_keeps drv dev m m' dev' :
  up drv dev m m' -> placed_at dev' sizeof_device ->
  apart drv 8 dev' sizeof_device ∨ apart dev' sizeof_device drv 8 ->
  apart dev sizeof_device dev' sizeof_device ∨ apart dev' sizeof_device dev sizeof_device ->
  word m' (dev' + DV_status) = word m (dev' + DV_status).
Proof.
  intros [_ Hout] Hp Ha Hb. unfold placed_at, apart, sizeof_device, DV_status in *.
  apply Hout; [lia|lia|clear Hb; lia|clear Ha; lia].
Qed.

(** What the interrupt [k] gets from a table that has [h] for it. *)
Lemma irq_dispatched (call : Z -> registers -> M (machine (pc AS)) unit) k h r s s1 :
  aget (interrupt_handlers (m_tables s)) k = Some h -> h ≠ 0 -> r_int_no r = k -> call h r s = Done tt s1 ->
  irq_handler call r s = Done tt (eoi k s1).
Proof.
  intros Hh Hnz <- Hcall. apply (irq_handler_called call r h); [done|]. by rewrite (proj2 (Z.eqb_neq h 0)).
Qed.

Lemma handler_calls (call_timer : Z -> Z -> M (machine (pc AS)) unit) kbdus_past r : image_ok ->
  call_handler call_timer kbdus_past fn_timer_handler r = timer_handler call_timer r ∧
  call_handler call_timer kbdus_past fn_kb_handler r = pc_kb_handler kbdus_past r.
Proof.
  intros [_ _ _ _ (Hne & _)]. unfold call_handler. rewrite !Z.eqb_refl, (proj2 (Z.eqb_neq fn_kb_handler _)); [done|congruence].
Qed.

(** The three devices that [x86_early] starts. *)
Inductive pc_device := SerialLine | Ps2Keyboard | IntervalTimer.

Definition pc_record (d : pc_device) : Z :=
  match d with SerialLine => serial_device | Ps2Keyboard => keyboard_device | IntervalTimer => pit_device end.
Definition pc_init (d : pc_device) : M (machine (pc AS)) unit :=
  match d with
  | SerialLine => serial_init LOG_SERIAL | Ps2Keyboard => kb_init LOG_SERIAL | IntervalTimer => pit_init LOG_SERIAL
  end.
Definition pc_commands (d : pc_device) : list io :=
  match d with SerialLine => serial_commands | Ps2Keyboard => [] | IntervalTimer => pit_commands end.
(** The interrupt of the device and its handler. *)
Definition pc_irq (d : pc_device) : option (Z * Z) :=
  match d with
  | SerialLine => None | Ps2Keyboard => Some (IRQ1, fn_kb_handler) | IntervalTimer => Some (IRQ0, fn_timer_handler)
  end.
Definition pc_handler call_timer kbdus_past (d : pc_device) (r : registers) : M (machine (pc AS)) unit :=
  match d with
  | SerialLine => mret tt | Ps2Keyboard => pc_kb_handler kbdus_past r | IntervalTimer => timer_handler call_timer r
  end.

(** What starting [d] made of the machine. *)
Record started (d : pc_device) s s' : Prop := {
  st_console : talking (fst (m_log s'));
  st_online : word (dmem s') (pc_record d + DV_status) = DEVICE_STATUS_ONLINE;
  st_others : ∀ d', d' ≠ d -> word (dmem s') (pc_record d' + DV_status) = word (dmem s) (pc_record d' + DV_status);
  st_accesses : talk_then s s' (pc_commands d);
  st_handlers : interrupt_handlers (m_tables s') = match pc_irq d with
    | Some (k, h) => aset k h (interrupt_handlers (m_tables s)) | None => interrupt_handlers (m_tables s) end;
  st_buffer : buffer (pc_kb (m_rest s'))
    = match d with Ps2Keyboard => replicate BUFFER 0 | _ => buffer (pc_kb (m_rest s)) end
}.

Lemma others_kept (d d' : pc_device) drv m m' :
  image_ok -> drv = match d with SerialLine => serial_driver | Ps2Keyboard => keyboard_driver | IntervalTimer => pit_driver end ->
  up drv (pc_record d) m m' -> d' ≠ d -> word m' (pc_record d' + DV_status) = word m (pc_record d' + DV_status).
Proof.
  intros Hok -> U Hne. image Hok. apply (up_keeps _ _ _ _ _ U); destruct d, d'; cbn [pc_record]; auto; done.
Qed.

End online.

(** ** An example *)

Section pc_example.
#[local] Existing Instance Bump.allocator.

#[local] Instance example_devices_at : DeviceImage := {|
  pit_device := 0x1000; serial_device := 0x1100; keyboard_device := 0x1200; str_device_root := 0; str_kernel_ns := 0 |}.
#[local] Instance example_pc : PcImage := {|
  fn_pit_start := 0x100010; fn_pit_stop := 0x100020; fn_serial_start := 0x100030; fn_kb_start := 0x100040;
  fn_kb_stop := 0x100050; fn_timer_handler := 0x100060; fn_kb_handler := 0x100070;
  pit_driver := 0x2000; serial_driver := 0x2008; keyboard_driver := 0x2010;
  str_pit := 0x3000; str_serial0 := 0x3010; str_ps2_keyboard := 0x3020 |}.
#[local] Instance example_linkage : Linkage := {|
  at_idt := 0x105000; at_gdt := 0x106000; isr i := 0x100100 + 8 * i; irq i := 0x100200 + 8 * i |}.
(** The keyboard sends the scan code of "k", and the line is ready. *)
#[local] Instance example_bus : Bus := λ _ _ _, 0x25.
#[local] Instance pc_strings : DeviceStrings := {|
  str_device_start := 2000; str_device_stop := 0; fm_bringing_up := 2100; fm_could_not := 0; fm_shutting_down := 0 |}.

Lemma example_drains q : drains (H := example_bus) 1 q.
Proof. exists 0%nat. split; [lia|]. split; [by vm_compute|]. lia. Qed.

(** The strings of the messages, and the devices' names. *)
Definition pc_memory : ram := Eval vm_compute in
  Ram (poke 2000 (chars "device_start" ++ [0]) (poke 2100 (format_chars bringing_format ++ [0])
    (poke 0x3000 (chars "pit" ++ [0]) (poke 0x3010 (chars "serial0" ++ [0]) (poke 0x3020 (chars "ps2_keyboard" ++ [0])
    (ram_bytes (c_mem demo_log))))))).
Definition pc_console : console := Console pc_memory (Ports []) 0 0 defaultAttribute.
Definition example_machine : machine (pc Bump.bump) :=
  Machine (pc_console, LOG_INFO) tables_boot (Pc (Fs Bump.start (Ram ∅) 0 0 0) clock_boot kb_boot 0).

Definition state_of {A} (o : outcome (machine (pc Bump.bump)) A) : machine (pc Bump.bump) :=
  match o with Done _ s => s | _ => example_machine end.

Lemma example_image_ok : image_ok.
Proof.
  split.
  - repeat constructor; by vm_compute.
  - repeat first [apply FOP_cons | apply FOP_nil | apply Forall_cons_2 | apply Forall_nil_2];
      first [left; by vm_compute | right; by vm_compute].
  - apply (bool_decide_unpack _). by vm_compute.
  - repeat constructor; by vm_compute.
  - by vm_compute.
Qed.

Lemma pc_console_talks : talking pc_console.
Proof.
  split.
  - exists (screen_tape pc_console). apply con_ok_shows. split; [|cbn; lia|cbn; lia|by vm_compute].
    apply ram_ok_bytes. apply (bool_decide_unpack _). by vm_compute.
  - split; in_memory.
  - in_memory.
  - in_memory.
  - intros name [->|[->|[->|[]%elem_of_nil]%elem_of_cons]%elem_of_cons]%elem_of_cons.
    + exists (chars "serial0"). split; [in_memory|by vm_compute].
    + exists (chars "ps2_keyboard"). split; [in_memory|by vm_compute].
    + exists (chars "pit"). split; [in_memory|by vm_compute].
Qed.

End pc_example.
