(* ===== verification/Startup.v ===== *)
(** * Starting the kernel on a PC (arch/x86/x86-early.c, sysinfo.c)

    What [x86_early] does before the kernel's own start-up functions run: it
    identifies the processor, verifies the boot loader, takes over the
    initial ramdisk, sets interrupts up and turns paging on. Composes
    Messages, Initrd, Interrupts, PcDevices and PagingInit. *)

From Stdlib Require Import String Ascii.
From S2P Require Import Prelude KHeap KList CString Ram Printf Ports Console Messages Interrupts Timing Keyboard PageAlloc PagingInit Fs Initrd Device DeviceLife PcDevices.

(** ** Processor identification (sysinfo.c, includes/x86/cpuid.h) *)

(** What the instruction [cpuid] leaves in eax, ebx, ecx and edx. *)
Class Cpuid := cpuid : Z -> Z * Z * Z * Z.

Record cpu := Cpu { cpu_features : Z; cpu_features_extended : Z }.

Section sysinfo.
Context `{!Cpuid}.

Definition get_x86_cpu_info : M cpu unit :=
  let '(_, _, ecx, edx) := cpuid 0x1 in put (Cpu edx ecx).
Definition cpu_feature_avalable (feature : Z) : M cpu Z :=
  c ← get; mret (if truth (Z.land (cpu_features c) feature) then 1 else 0).
Definition cpu_feature_extended_avalable (feature : Z) : M cpu Z :=
  c ← get; mret (if truth (Z.land (cpu_features_extended c) feature) then 1 else 0).
End sysinfo.

(** The enumeration of feature bits; [1 << 31] is passed as a [uint32_t]. *)
Inductive cpuid_feature :=
  | CPUID_FEAT_ECX_SSE3 | CPUID_FEAT_ECX_PCLMUL | CPUID_FEAT_ECX_DTES64 | CPUID_FEAT_ECX_MONITOR
  | CPUID_FEAT_ECX_DS_CPL | CPUID_FEAT_ECX_VMX | CPUID_FEAT_ECX_SMX | CPUID_FEAT_ECX_EST
  | CPUID_FEAT_ECX_TM2 | CPUID_FEAT_ECX_SSSE3 | CPUID_FEAT_ECX_CID | CPUID_FEAT_ECX_FMA
  | CPUID_FEAT_ECX_CX16 | CPUID_FEAT_ECX_ETPRD | CPUID_FEAT_ECX_PDCM | CPUID_FEAT_ECX_DCA
  | CPUID_FEAT_ECX_SSE4_1 | CPUID_FEAT_ECX_SSE4_2 | CPUID_FEAT_ECX_x2APIC | CPUID_FEAT_ECX_MOVBE
  | CPUID_FEAT_ECX_POPCNT | CPUID_FEAT_ECX_AES | CPUID_FEAT_ECX_XSAVE | CPUID_FEAT_ECX_OSXSAVE
  | CPUID_FEAT_ECX_AVX | CPUID_FEAT_EDX_FPU | CPUID_FEAT_EDX_VME | CPUID_FEAT_EDX_DE | CPUID_FEAT_EDX_PSE
  | CPUID_FEAT_EDX_TSC | CPUID_FEAT_EDX_MSR | CPUID_FEAT_EDX_PAE | CPUID_FEAT_EDX_MCE | CPUID_FEAT_EDX_CX8
  | CPUID_FEAT_EDX_APIC | CPUID_FEAT_EDX_SEP | CPUID_FEAT_EDX_MTRR | CPUID_FEAT_EDX_PGE | CPUID_FEAT_EDX_MCA
  | CPUID_FEAT_EDX_CMOV | CPUID_FEAT_EDX_PAT | CPUID_FEAT_EDX_PSE36 | CPUID_FEAT_EDX_PSN
  | CPUID_FEAT_EDX_CLF | CPUID_FEAT_EDX_DTES | CPUID_FEAT_EDX_ACPI | CPUID_FEAT_EDX_MMX
  | CPUID_FEAT_EDX_FXSR | CPUID_FEAT_EDX_SSE | CPUID_FEAT_EDX_SSE2 | CPUID_FEAT_EDX_SS | CPUID_FEAT_EDX_HTT
  | CPUID_FEAT_EDX_TM1 | CPUID_FEAT_EDX_IA64 | CPUID_FEAT_EDX_PBE.
Definition feature_bit (f : cpuid_feature) : Z :=
  match f with
  | CPUID_FEAT_ECX_SSE3 => 0 | CPUID_FEAT_ECX_PCLMUL => 1 | CPUID_FEAT_ECX_DTES64 => 2
  | CPUID_FEAT_ECX_MONITOR => 3 | CPUID_FEAT_ECX_DS_CPL => 4 | CPUID_FEAT_ECX_VMX => 5
  | CPUID_FEAT_ECX_SMX => 6 | CPUID_FEAT_ECX_EST => 7 | CPUID_FEAT_ECX_TM2 => 8 | CPUID_FEAT_ECX_SSSE3 => 9
  | CPUID_FEAT_ECX_CID => 10 | CPUID_FEAT_ECX_FMA => 12 | CPUID_FEAT_ECX_CX16 => 13
  | CPUID_FEAT_ECX_ETPRD => 14 | CPUID_FEAT_ECX_PDCM => 15 | CPUID_FEAT_ECX_DCA => 18
  | CPUID_FEAT_ECX_SSE4_1 => 19 | CPUID_FEAT_ECX_SSE4_2 => 20 | CPUID_FEAT_ECX_x2APIC => 21
  | CPUID_FEAT_ECX_MOVBE => 22 | CPUID_FEAT_ECX_POPCNT => 23 | CPUID_FEAT_ECX_AES => 25
  | CPUID_FEAT_ECX_XSAVE => 26 | CPUID_FEAT_ECX_OSXSAVE => 27 | CPUID_FEAT_ECX_AVX => 28
  | CPUID_FEAT_EDX_FPU => 0 | CPUID_FEAT_EDX_VME => 1 | CPUID_FEAT_EDX_DE => 2 | CPUID_FEAT_EDX_PSE => 3
  | CPUID_FEAT_EDX_TSC => 4 | CPUID_FEAT_EDX_MSR => 5 | CPUID_FEAT_EDX_PAE => 6 | CPUID_FEAT_EDX_MCE => 7
  | CPUID_FEAT_EDX_CX8 => 8 | CPUID_FEAT_EDX_APIC => 9 | CPUID_FEAT_EDX_SEP => 11
  | CPUID_FEAT_EDX_MTRR => 12 | CPUID_FEAT_EDX_PGE => 13 | CPUID_FEAT_EDX_MCA => 14
  | CPUID_FEAT_EDX_CMOV => 15 | CPUID_FEAT_EDX_PAT => 16 | CPUID_FEAT_EDX_PSE36 => 17
  | CPUID_FEAT_EDX_PSN => 18 | CPUID_FEAT_EDX_CLF => 19 | CPUID_FEAT_EDX_DTES => 21
  | CPUID_FEAT_EDX_ACPI => 22 | CPUID_FEAT_EDX_MMX => 23 | CPUID_FEAT_EDX_FXSR => 24
  | CPUID_FEAT_EDX_SSE => 25 | CPUID_FEAT_EDX_SSE2 => 26 | CPUID_FEAT_EDX_SS => 27
  | CPUID_FEAT_EDX_HTT => 28 | CPUID_FEAT_EDX_TM1 => 29 | CPUID_FEAT_EDX_IA64 => 30
  | CPUID_FEAT_EDX_PBE => 31
  end.
Definition feature_value (f : cpuid_feature) : Z := u32 (Z.shiftl 1 (feature_bit f)).

(** ** What the boot loader passes (includes/boot/multiboot.h) *)

Definition MB_mem_upper : Z := 8.
Definition MB_mods_count : Z := 20.
Definition MB_mods_addr : Z := 24.
Definition MB_boot_loader_name : Z := 64.
Definition MOD_start : Z := 0.
Definition MOD_end : Z := 4.

(** Where the strings of x86-early.c are. *)
Class BootStrings := {
  str_x86_early : Z; str_multiboot : Z;
  fm_banner : Z; banner_args : list Z; fm_loading : Z;
  fm_failed : Z; fm_rule : Z; fm_receipt : Z; fm_magic : Z; fm_loader : Z;
  fm_passed : Z; fm_booted : Z; fm_ram : Z;
  (** of paging.c *)
  str_PF : Z; fm_fault : Z; fm_details : Z;
  (** of init/common.c, and the two arguments of its call *)
  fm_dashes : Z; fm_newline : Z; fm_version : Z; version_args : list Z; fm_output : Z; fm_arch : Z; fm_processor : Z;
  str_arch : Z; str_intel : Z; str_i586 : Z
}.

Record boot (AS : Type) := Boot {
  b_machine : machine (pc AS); b_pages : pstate; b_rd : initrd; b_cpu : cpu
}.
Arguments Boot {AS}. Arguments b_machine {AS}. Arguments b_pages {AS}. Arguments b_rd {AS}. Arguments b_cpu {AS}.

#[export] Program Instance boot_has_machine {AS} : Has (machine (pc AS)) (boot AS) := {
  part := b_machine; set_part m b := Boot m (b_pages b) (b_rd b) (b_cpu b) }.
Solve All Obligations with (intros; repeat match goal with b : boot _ |- _ => destruct b end; done).
#[export] Program Instance boot_has_pages {AS} : Has pstate (boot AS) := {
  part := b_pages; set_part p b := Boot (b_machine b) p (b_rd b) (b_cpu b) }.
Solve All Obligations with (intros; repeat match goal with b : boot _ |- _ => destruct b end; done).
#[export] Program Instance boot_has_cpu {AS} : Has cpu (boot AS) := {
  part := b_cpu; set_part c b := Boot (b_machine b) (b_pages b) (b_rd b) c }.
Solve All Obligations with (intros; repeat match goal with b : boot _ |- _ => destruct b end; done).
#[export] Program Instance boot_has_rd {AS} : Has (fs AS * initrd) (boot AS) := {
  part b := (part (b_machine b), b_rd b);
  set_part x b := Boot (set_part (fst x) (b_machine b)) (b_pages b) (snd x) (b_cpu b) }.
Solve All Obligations with (intros; repeat match goal with
  | b : boot _ |- _ => destruct b as [[? ? []] ? ? ?] | x : _ * _ |- _ => destruct x end; done).

Definition MULTIBOOT_MAGIC : Z := 0x2BADB002.

Section start.
Context {AS : Type} `{!DeviceImage, !PcImage, !Bus, !Linkage, !LogStrings, !DeviceStrings, !BootStrings, !Cpuid}.
Context (IS_RELEASE ENABLE_SERIAL LOG_SERIAL : bool).
Local Abbreviation K := (M (boot AS)).

Definition say (m : M (console * Z) unit) : K unit := within (T := machine (pc AS)) (within (T := console * Z) m).
Definition klog_ (mode title fmt : Z) (args : list Z) : K unit := say (klog LOG_SERIAL mode title fmt args).
Definition mb (a : Z) : K Z := within (T := pstate) (ldw a).

(** init/common.c *)
Definition serial_say (fmt : Z) (args : list Z) : M console unit :=
  _ ← serial_printf ld con_serial LOG_SERIAL fmt args; mret tt.
Definition serial_print_header (board cpu_revision : Z) : M console unit :=
  for_up 8 0 (λ _, serial_say fm_dashes []);;
  serial_say fm_newline [];;
  serial_say fm_version version_args;;
  serial_say fm_output [];;
  serial_say fm_arch [str_arch; board];;
  serial_say fm_processor [cpu_revision];;
  for_up 8 0 (λ _, serial_say fm_dashes []);;
  serial_say fm_newline [].

(** The magic number is compared; the receipt names it and the loader. *)
Definition multiboot_verify (magic mboot : Z) : K bool :=
  if negb (magic =? MULTIBOOT_MAGIC) then
    klog_ LOG_PANIC str_multiboot fm_failed [magic];;
    klog_ LOG_PANIC str_multiboot fm_rule [];;
    klog_ LOG_PANIC str_multiboot fm_receipt [];;
    klog_ LOG_PANIC str_multiboot fm_magic [magic];;
    name ← mb (mboot + MB_boot_loader_name);
    klog_ LOG_PANIC str_multiboot fm_loader [name];;
    klog_ LOG_PANIC str_multiboot fm_rule [];;
    mret false
  else
    klog_ LOG_INFO str_multiboot fm_passed [];;
    name ← mb (mboot + MB_boot_loader_name);
    klog_ LOG_INFO str_multiboot fm_booted [name];;
    up ← mb (mboot + MB_mem_upper);
    klog_ LOG_INFO str_multiboot fm_ram [up / 1024];;
    mret true.

(** [memory_set_total] does nothing with its argument. *)
Definition multiboot_modules (mboot : Z) : K unit :=
  count ← mb (mboot + MB_mods_count);
  if truth count then
    mods ← mb (mboot + MB_mods_addr);
    module_start ← mb (mods + MOD_start);
    module_end ← mb (mods + MOD_end);
    within (T := fs AS * initrd) (initrd_set_location module_start module_end);;
    within (T := pstate) (modify (set_placement module_end))
  else mret tt.

Definition x86_interrupts_and_paging : K unit :=
  within (T := machine (pc AS)) (interrupts_setup;; kb_init LOG_SERIAL);;
  within (T := pstate) paging_init.

(** paging.c; [cr2] is the address that faulted. *)
Definition paging_fault (cr2 : Z) (r : registers) : K unit :=
  klog_ LOG_SEVERE str_PF fm_fault [];;
  let present := b2z (negb (truth (Z.land (r_err_code r) 0x1))) in
  let rw := Z.land (r_err_code r) 0x2 in
  let us := Z.land (r_err_code r) 0x4 in
  let reserved := Z.land (r_err_code r) 0x8 in
  let id := Z.land (r_err_code r) 0x10 in
  klog_ LOG_SEVERE str_PF fm_details [cr2; present; rw; us; reserved; id].

(** [x86_early] up to the point where paging is on; false if it returned
    because of the magic number. *)
Definition x86_early (magic mboot : Z) : K bool :=
  say (klog_setmask (if IS_RELEASE then LOG_INFO else LOG_DEBUG));;
  say (within (T := console) terminal_init);;
  (if ENABLE_SERIAL then
     within (T := machine (pc AS)) (serial_init LOG_SERIAL);;
     say (within (T := console) (serial_print_header str_intel str_i586))
   else mret tt);;
  within (T := cpu) get_x86_cpu_info;;
  say (_ ← within (T := console) (con_printf LOG_SERIAL fm_banner banner_args); mret tt);;
  klog_ LOG_INFO str_x86_early fm_loading [];;
  ok ← multiboot_verify magic mboot;
  if negb ok then mret false
  else multiboot_modules mboot;; x86_interrupts_and_paging;; mret true.
End start.

(** ** Features *)

Lemma land_bit v k : 0 <= k -> truth (Z.land v (2 ^ k)) = Z.testbit v k.
Proof.
  intros Hk. rewrite land_pow2 by done. unfold truth. destruct (Z.testbit v k).
  - rewrite (proj2 (Z.eqb_neq _ _)); [done|]. pose proof (Z.pow_pos_nonneg 2 k). lia.
  - done.
Qed.

(** A feature is reported exactly when the processor sets its bit: the ones
    named EDX by [cpu_feature_avalable], the ones named ECX by the other. *)
Theorem cpu_features_reported `{!Cpuid} c f :
  let '(_, _, ecx, edx) := cpuid 0x1 in
  (get_x86_cpu_info;; cpu_feature_avalable (feature_value f)) c
    = Done (b2z (Z.testbit edx (feature_bit f))) (Cpu edx ecx) ∧
  (get_x86_cpu_info;; cpu_feature_extended_avalable (feature_value f)) c
    = Done (b2z (Z.testbit ecx (feature_bit f))) (Cpu edx ecx).
Proof.
  assert (Hb : 0 <= feature_bit f < 32) by (destruct f; cbn; lia).
  assert (Hv : feature_value f = 2 ^ feature_bit f) by (destruct f; reflexivity).
  unfold get_x86_cpu_info. destruct (cpuid 0x1) as [[[a b] ecx] edx].
  unfold cpu_feature_avalable, cpu_feature_extended_avalable. rewrite Hv. split; mrun; cbn [cpu_features cpu_features_extended];
    rewrite land_bit by lia; by destruct (Z.testbit _ _).
Qed.

(** ** Texts *)

Definition multiboot_text : list Z := chars "multiboot".
Definition failed_format : list item := lit "Multiboot magic verfication failed" ++ [Literal 10].
Definition rule_format : list item := lit "+------------------------+" ++ [Literal 10].
Definition receipt_format : list item := lit "|Reciept for: Multiboot  |" ++ [Literal 10].
Definition magic_format : list item := lit "|Magic: 0x" ++ [Directive true true 15 [] CvX] ++ lit "|" ++ [Literal 10].
Definition loader_format : list item := lit "|Bootloader:" ++ [Directive true false 13 [] Cvs] ++ lit "|" ++ [Literal 10].
Definition passed_format : list item := lit "Verification passed" ++ [Literal 10].
Definition booted_format : list item := lit "Booted by " ++ [Directive false false 0 [] Cvs] ++ [Literal 10].
Definition ram_format : list item := lit "System has " ++ [Directive false false 0 [] Cvd] ++ lit " MB of ram avalable" ++ [Literal 10].

Definition fault_format : list item := lit "Page fault!" ++ [Literal 10].
Definition details_format : list item :=
  lit "Addr:0x" ++ [Directive false false 0 [] CvX] ++ lit ". present " ++ [Directive false false 0 [] Cvd] ++
  lit " rw " ++ [Directive false false 0 [] Cvd] ++ lit " us " ++ [Directive false false 0 [] Cvd] ++
  lit " res " ++ [Directive false false 0 [] Cvd] ++ lit " id " ++ [Directive false false 0 [] Cvd] ++ [Literal 10].

(** The lines of the receipt. *)
Definition receipt (magic : Z) (loader : list Z) : list (list Z) :=
  [chars "Multiboot magic verfication failed" ++ [10];
   chars "+------------------------+" ++ [10];
   chars "|Reciept for: Multiboot  |" ++ [10];
   chars "|Magic: 0x" ++ show_number true true 15 CvX magic ++ chars "|" ++ [10];
   chars "|Bootloader:" ++ show_string true 13 loader ++ chars "|" ++ [10];
   chars "+------------------------+" ++ [10]].
Definition greeting (loader : list Z) (mem_upper : Z) : list (list Z) :=
  [chars "Verification passed" ++ [10];
   chars "Booted by " ++ show_string false 0 loader ++ [10];
   chars "System has " ++ show_number false false 0 Cvd (mem_upper / 1024) ++ chars " MB of ram avalable" ++ [10]].
Definition messages (mode : Z) (title : list Z) (outs : list (list Z)) (t : tape) : tape :=
  foldl (λ t out, message mode title out t) t outs.

Section verify.
Context {AS : Type} `{!Bus, !LogStrings, !BootStrings} (LOG_SERIAL : bool).
Context (n : nat) (Hd : ∀ q, drains n q) (Hn : Z.of_nat n <= 2 ^ 32).
(** the state at the start, and its console *)
Context (b0 : boot AS).
Local Abbreviation s0 := (fst (m_log (b_machine b0))).
Local Abbreviation mask := (snd (m_log (b_machine b0))).
Implicit Types (b : boot AS) (t : tape).

Definition set_console (s : console) b : boot AS :=
  Boot (Machine (s, snd (m_log (b_machine b))) (m_tables (b_machine b)) (m_rest (b_machine b))) (b_pages b) (b_rd b) (b_cpu b).

(** Only the console has changed, off the screen not even that. *)
Definition speaking b t : Prop :=
  ∃ s, b = set_console s b0 ∧ shows s t ∧ same_elsewhere (c_mem s0) (c_mem s).

Context (Hstr : strings_ok s0).

Lemma say_step b t mode ti title fm its ar vs out :
  speaking b t -> cstr (off_screen_mem s0) ti title -> Z.of_nat (length title) < 2 ^ 31 - 1 ->
  cstr (off_screen_mem s0) fm (format_chars its) -> Forall item_ok its ->
  Forall2 (passes (off_screen_mem s0)) ar vs -> render its vs = Some out -> mode <= mask ->
  ∃ b', klog_ LOG_SERIAL mode ti fm ar b = Done tt b' ∧ speaking b' (message mode title out t).
Proof.
  intros (s & -> & Hs & Hsame) Hti Hlen Hfm Hok Har Hr Hmode.
  destruct (klog_spec LOG_SERIAL n Hd Hn s t mask mode ti title fm its ar vs out) as (s' & E & Hs' & _ & Hsame' & _);
    [done|by eapply strings_off_screen|by eapply cstr_off_screen|done|by eapply cstr_off_screen|done
    |by eapply passes_off_screen|done|done|].
  exists (set_console s' b0). split.
  - set (mc := Machine (s, mask) (m_tables (b_machine b0)) (m_rest (b_machine b0))).
    pose proof (within_done (T := console * Z) _ mc tt (s', mask) E) as E1.
    exact (within_done (T := machine (pc AS)) _ (set_console s b0) tt _ E1).
  - exists s'. split; [done|]. split; [done|]. by eapply same_trans.
Qed.

(** A page fault is reported with its address and the bits of its error
    code: "present 1" is printed when the page was not present. *)
Lemma paging_fault_reports t cr2 r :
  let bit k := show_number false false 0 Cvd (Z.land (r_err_code r) k) in
  let present := show_number false false 0 Cvd (b2z (negb (truth (Z.land (r_err_code r) 0x1)))) in
  shows s0 t -> LOG_SEVERE <= mask -> cstr (off_screen_mem s0) str_PF (chars "PF") ->
  cstr (off_screen_mem s0) fm_fault (format_chars fault_format) ->
  cstr (off_screen_mem s0) fm_details (format_chars details_format) ->
  ∃ b', paging_fault LOG_SERIAL cr2 r b0 = Done tt b' ∧
    speaking b' (messages LOG_SEVERE (chars "PF")
      [chars "Page fault!" ++ [10];
       chars "Addr:0x" ++ show_number false false 0 CvX cr2 ++ chars ". present " ++ present ++ chars " rw " ++ bit 2 ++
       chars " us " ++ bit 4 ++ chars " res " ++ bit 8 ++ chars " id " ++ bit 16 ++ [10]] t).
Proof.
  intros bit present Hs Hmask Hti Hf Hdt.
  assert (S0 : speaking b0 t) by (exists s0; split; [by destruct b0 as [[[] ? ?] ? ? ?]|split; [done|apply same_refl]]).
  assert (Hlen : Z.of_nat (length (chars "PF")) < 2 ^ 31 - 1) by (cbn; lia).
  destruct (say_step b0 t LOG_SEVERE str_PF (chars "PF") fm_fault fault_format [] [] _ S0 Hti Hlen Hf
    ltac:(repeat constructor; cbn; lia) ltac:(constructor) eq_refl Hmask) as (b1 & E1 & B1).
  unfold paging_fault. mstep E1. cbv zeta.
  set (ar := [cr2; _; _; _; _; _]).
  destruct (say_step b1 _ LOG_SEVERE str_PF (chars "PF") fm_details details_format ar (ANum <$> ar) _ B1 Hti Hlen Hdt
    ltac:(repeat constructor; cbn; lia) ltac:(by repeat constructor) eq_refl Hmask) as (b2 & E2 & B2).
  exists b2. split; [exact E2|]. exact B2.
Qed.

(** What [multiboot_verify] prints with. *)
Record boot_strings_ok : Prop := {
  bs_title : cstr (off_screen_mem s0) str_multiboot multiboot_text;
  bs_failed : cstr (off_screen_mem s0) fm_failed (format_chars failed_format);
  bs_rule : cstr (off_screen_mem s0) fm_rule (format_chars rule_format);
  bs_receipt : cstr (off_screen_mem s0) fm_receipt (format_chars receipt_format);
  bs_magic : cstr (off_screen_mem s0) fm_magic (format_chars magic_format);
  bs_loader : cstr (off_screen_mem s0) fm_loader (format_chars loader_format);
  bs_passed : cstr (off_screen_mem s0) fm_passed (format_chars passed_format);
  bs_booted : cstr (off_screen_mem s0) fm_booted (format_chars booted_format);
  bs_ram : cstr (off_screen_mem s0) fm_ram (format_chars ram_format)
}.
Context (Hbs : boot_strings_ok).

Lemma formats_ok : Forall (Forall item_ok) [failed_format; rule_format; receipt_format; magic_format; loader_format;
  passed_format; booted_format; ram_format].
Proof. repeat constructor; cbn; lia. Qed.

(** One message of "multiboot". *)
Lemma multiboot_says b t mode fm its ar vs out :
  speaking b t -> cstr (off_screen_mem s0) fm (format_chars its) -> Forall item_ok its ->
  Forall2 (passes (off_screen_mem s0)) ar vs -> render its vs = Some out -> mode <= mask ->
  ∃ b', klog_ LOG_SERIAL mode str_multiboot fm ar b = Done tt b' ∧ speaking b' (message mode multiboot_text out t).
Proof. intros. eapply say_step; try done. apply Hbs. Qed.

Lemma mb_done a b t : speaking b t -> mb a b = Done (word (pmem (b_pages b0)) a) b.
Proof.
  intros (s & -> & _). unfold mb. apply (within_read (T := pstate)). apply ldw_done.
Qed.

(** [multiboot_verify] on both branches: a wrong magic number prints the
    receipt with the number and the loader's name and returns; the right one
    prints the greeting and goes on. Nothing but the console changes. *)
Lemma multiboot_verify_spec t magic mboot loader :
  let name := word (pmem (b_pages b0)) (mboot + MB_boot_loader_name) in
  shows s0 t -> cstr (off_screen_mem s0) name loader -> Z.of_nat (length loader) < 2 ^ 31 - 1 -> LOG_INFO <= mask ->
  ∃ b', multiboot_verify LOG_SERIAL magic mboot b0 = Done (magic =? MULTIBOOT_MAGIC) b' ∧
    speaking b' (if magic =? MULTIBOOT_MAGIC
      then messages LOG_INFO multiboot_text (greeting loader (word (pmem (b_pages b0)) (mboot + MB_mem_upper))) t
      else messages LOG_PANIC multiboot_text (receipt magic loader) t).
Proof.
  intros name Hs Hname Hlen Hmask. unfold LOG_INFO in Hmask.
  assert (S0 : speaking b0 t) by (exists s0; split; [by destruct b0 as [[[] ? ?] ? ? ?]|split; [done|apply same_refl]]).
  pose proof formats_ok as Hf. rewrite !Forall_cons in Hf. destruct Hf as (F1 & F2 & F3 & F4 & F5 & F6 & F7 & F8 & _).
  pose proof Hbs as [_ S1 S2 S3 S4 S5 S6 S7 S8].
  assert (Hnum : ∀ z, Forall2 (passes (off_screen_mem s0)) [z] [ANum z]) by (by repeat constructor).
  assert (Hstrp : Forall2 (passes (off_screen_mem s0)) [name] [AStr loader]) by (by repeat constructor).
  unfold multiboot_verify. destruct (magic =? MULTIBOOT_MAGIC); cbn [negb].
  - destruct (multiboot_says b0 t LOG_INFO fm_passed _ [] [] _ S0 S6 F6 ltac:(constructor) eq_refl ltac:(done)) as (b1 & E1 & B1).
    mstep E1. rewrite (bind_Done _ _ _ _ _ (mb_done _ _ _ B1)). fold name.
    destruct (multiboot_says b1 _ LOG_INFO fm_booted _ [name] [AStr loader] _ B1 S7 F7 Hstrp eq_refl ltac:(done)) as (b2 & E2 & B2).
    mstep E2. rewrite (bind_Done _ _ _ _ _ (mb_done _ _ _ B2)).
    destruct (multiboot_says b2 _ LOG_INFO fm_ram _ [_] [ANum _] _ B2 S8 F8 (Hnum (word (pmem (b_pages b0)) (mboot + MB_mem_upper) / 1024)) eq_refl ltac:(done)) as (b3 & E3 & B3).
    mstep E3. exists b3. split; [done|]. exact B3.
  - destruct (multiboot_says b0 _ LOG_PANIC fm_failed _ [magic] [ANum magic] _ S0 S1 F1 (Hnum magic) eq_refl ltac:(unfold LOG_PANIC; lia)) as (b1 & E1 & B1).
    mstep E1.
    destruct (multiboot_says b1 _ LOG_PANIC fm_rule _ [] [] _ B1 S2 F2 ltac:(constructor) eq_refl ltac:(unfold LOG_PANIC; lia)) as (b2 & E2 & B2).
    mstep E2.
    destruct (multiboot_says b2 _ LOG_PANIC fm_receipt _ [] [] _ B2 S3 F3 ltac:(constructor) eq_refl ltac:(unfold LOG_PANIC; lia)) as (b3 & E3 & B3).
    mstep E3.
    destruct (multiboot_says b3 _ LOG_PANIC fm_magic _ [magic] [ANum magic] _ B3 S4 F4 (Hnum magic) eq_refl ltac:(unfold LOG_PANIC; lia)) as (b4 & E4 & B4).
    mstep E4.
    rewrite (bind_Done _ _ _ _ _ (mb_done _ _ _ B4)). fold name.
    destruct (multiboot_says b4 _ LOG_PANIC fm_loader _ [name] [AStr loader] _ B4 S5 F5 Hstrp eq_refl ltac:(unfold LOG_PANIC; lia)) as (b5 & E5 & B5).
    mstep E5.
    destruct (multiboot_says b5 _ LOG_PANIC fm_rule _ [] [] _ B5 S2 F2 ltac:(constructor) eq_refl ltac:(unfold LOG_PANIC; lia)) as (b6 & E6 & B6).
    mstep E6.
    exists b6. split; [done|]. exact B6.
Qed.
End verify.

(** C38: [multiboot_verify] prints the receipt, with the number and the boot
    loader's name, and returns false if the magic number is wrong; otherwise
    it prints the greeting and returns true. Only the console changes. *)
Theorem multiboot_verdict {AS : Type} `{!Bus, !LogStrings, !BootStrings} LOG_SERIAL (n : nat)
    (b : boot AS) t magic mboot loader
    (Hd : ∀ q, drains n q) (Hn : Z.of_nat n <= 2 ^ 32)
    (Hs : shows (m_log (b_machine b)).1 t) (Hstr : strings_ok (m_log (b_machine b)).1) (Hbs : boot_strings_ok b)
    (Hname : cstr (off_screen_mem (m_log (b_machine b)).1) (word (pmem (b_pages b)) (mboot + MB_boot_loader_name)) loader)
    (Hlen : Z.of_nat (length loader) < 2 ^ 31 - 1) (Hmask : LOG_INFO <= (m_log (b_machine b)).2) :
  ∃ b', multiboot_verify LOG_SERIAL magic mboot b = Done (magic =? MULTIBOOT_MAGIC) b' ∧
    shows (m_log (b_machine b')).1 (if magic =? MULTIBOOT_MAGIC
      then messages LOG_INFO multiboot_text (greeting loader (word (pmem (b_pages b)) (mboot + MB_mem_upper))) t
      else messages LOG_PANIC multiboot_text (receipt magic loader) t) ∧
    b' = set_console (m_log (b_machine b')).1 b.
Proof.
  destruct (multiboot_verify_spec LOG_SERIAL n Hd Hn b Hstr Hbs t magic mboot loader Hs Hname Hlen Hmask)
    as (b' & E & s & -> & Hs' & _).
  by exists (set_console s b).
Qed.

(** ** The initial ramdisk survives *)

Section protect.
Context {AS : Type} `{!DeviceImage, !PcImage, !Bus, !Linkage, !LogStrings, !DeviceStrings} (LOG_SERIAL : bool).
Implicit Types b : boot AS.

Lemma mb_read a b : mb a b = Done (word (pmem (b_pages b)) a) b.
Proof. unfold mb. apply (within_read (T := pstate)). apply ldw_done. Qed.

Lemma paging_within b pg : paging_init (b_pages b) = Done tt pg ->
  within (T := pstate) paging_init b = Done tt (Boot (b_machine b) pg (b_rd b) (b_cpu b)).
Proof. generalize paging_init. intros k E. exact (within_done (T := pstate) k b tt pg E). Qed.

Lemma multiboot_modules_spec b mboot :
  let m := pmem (b_pages b) in
  let mods := word m (mboot + MB_mods_addr) in
  word m (mboot + MB_mods_count) ≠ 0 ->
  ∃ rd, multiboot_modules mboot b = Done tt (Boot (b_machine b) (set_placement (word m (mods + MOD_end)) (b_pages b)) rd (b_cpu b)) ∧
    initrd_exists rd = 1 ∧ initrd_startaddr rd = word m (mods + MOD_start) ∧ initrd_endaddr rd = word m (mods + MOD_end).
Proof.
  intros m mods Hcount. eexists. split; [|split; [|split]].
  - unfold multiboot_modules. rewrite (bind_Done _ _ _ _ _ (mb_read _ b)). unfold truth. rewrite (proj2 (Z.eqb_neq _ _)) by done.
    cbn [negb]. rewrite !(λ a f, bind_Done _ f b _ _ (mb_read a b)). fold m mods.
    set (x := (part (T := fs AS) (b_machine b), b_rd b)).
    assert (E1 : within (T := fs AS * initrd) (initrd_set_location (word m (mods + MOD_start)) (word m (mods + MOD_end))) b
      = Done tt (set_part (fst x, InitrdState 1 (word m (mods + MOD_start)) (word m (mods + MOD_end)) (initfs_header (snd x))
          (initfs_fileheaders (snd x)) (initrd_mountpoint (snd x)) (initrd_nodes (snd x))) b)) by done.
    mstep E1. destruct b as [[? ? []] ? ? ?]. reflexivity.
  - reflexivity.
  - reflexivity.
  - reflexivity.
Qed.

(** C12: When paging is on, the ramdisk the boot loader passed is where the kernel
    will look for it: its location has been recorded, its bytes (and all
    others below its end) are what they were, their addresses still lead to
    them, and no memory handed out so far or later overlaps it. The keyboard
    is online meanwhile, its message printed on a console whose strings are
    in place and whose serial line drains. *)
Theorem boot_protects_initrd n b mboot
    (Hd : ∀ q, drains n q) (Hn : Z.of_nat n <= 2 ^ 32)
    (Himg : image_ok) (Htalk : talking (m_log (b_machine b)).1)
    (Hidt : length (idt (m_tables (b_machine b))) = 256%nat) (Hgdt : length (gdt (m_tables (b_machine b))) = 3%nat)
    (Hirq : length (interrupt_handlers (m_tables (b_machine b))) = 256%nat)
    (Hbuf : length (buffer (pc_kb (m_rest (b_machine b)))) = BUFFER)
    (Hst : word (dmem (b_machine b)) (keyboard_device + DV_status) ≠ DEVICE_STATUS_ONLINE)
    (Hok : ram_ok (pmem (b_pages b))) (Hcount : word (pmem (b_pages b)) (mboot + MB_mods_count) ≠ 0)
    (Hroom : enough (set_placement (word (pmem (b_pages b)) (word (pmem (b_pages b)) (mboot + MB_mods_addr) + MOD_end)) (b_pages b))) :
  let m := pmem (b_pages b) in
  let mods := word m (mboot + MB_mods_addr) in
  let module_end := word m (mods + MOD_end) in
  ∃ b', (multiboot_modules mboot;; x86_interrupts_and_paging LOG_SERIAL) b = Done tt b' ∧
    initrd_exists (b_rd b') = 1 ∧ initrd_startaddr (b_rd b') = word m (mods + MOD_start) ∧ initrd_endaddr (b_rd b') = module_end ∧
    (∀ a, 0 <= a -> a + 4 <= module_end -> word (pmem (b_pages b')) a = word m a) ∧
    (∀ v, 0 <= v < module_end -> translate (b_pages b') v = Some v) ∧
    module_end <= placement_address (b_pages b') ∧
    word (dmem (b_machine b')) (keyboard_device + DV_status) = DEVICE_STATUS_ONLINE ∧
    aget (interrupt_handlers (m_tables (b_machine b'))) IRQ1 = Some fn_kb_handler.
Proof.
  intros m mods module_end. destruct (multiboot_modules_spec b mboot Hcount) as (rd & E1 & R1 & R2 & R3).
  fold m in Hroom. fold mods in Hroom. fold module_end in Hroom. fold m mods module_end in E1, R2, R3. set (b1 := Boot _ _ _ _) in E1.
  destruct (interrupts_setup_spec (b_machine b)) as (mc & Em & _ & _ & _ & _ & _ & _ & Rb & Ib & Lb); [done|done|].
  assert (Md : dmem mc = dmem (b_machine b)) by (unfold dmem; cbn; by rewrite Rb).
  assert (Tc : talking (m_log mc).1) by (rewrite Lb; by apply talking_ports).
  destruct (kb_up LOG_SERIAL n Hd Hn mc Himg Tc) as (md & Ek & _ & [Uk _] & Tk & _ & _); [by rewrite Md|by rewrite Ib|by rewrite Rb|].
  destruct (paging_init_spec (set_placement module_end (b_pages b)) Hok Hroom) as (pg & top & Ep & Hdir & Htop & Htr & _ & _ & Hlow).
  cbn [placement_address set_placement pmem] in Hdir, Hlow.
  assert (0 <= bitmap_bytes (set_placement module_end (b_pages b))).
  { destruct Hroom as (_ & Hend & _). unfold bitmap_bytes. cbn [mem_end set_placement] in *. zdm. }
  exists (Boot md pg rd (b_cpu b)). split; [|split; [exact R1|split; [exact R2|split; [exact R3|split; [exact Hlow|split; [|split; [|split]]]]]]].
  - mstep E1. unfold x86_interrupts_and_paging.
    assert (E2 : within (T := machine (pc AS)) (interrupts_setup;; kb_init LOG_SERIAL) b1 = Done tt (Boot md (b_pages b1) rd (b_cpu b))).
    { assert (E0 : (interrupts_setup;; kb_init LOG_SERIAL) (b_machine b1) = Done tt md) by (cbn [b_machine b1]; mstep Em; exact Ek).
      exact (within_done (T := machine (pc AS)) _ b1 tt md E0). }
    mstep E2. cbn [b_pages b1]. exact (paging_within (Boot md _ rd (b_cpu b)) pg Ep).
  - intros v Hv. rewrite Htr; [by rewrite (proj2 (Z.ltb_lt _ _)) by lia|].
    destruct Hroom as (_ & _ & Hmax & _). cbn [placement_address set_placement] in Hmax. lia.
  - cbn [b_pages]. lia.
  - exact Uk.
  - cbn [b_machine]. rewrite Tk. cbn [interrupt_handlers set_irqs]. apply aget_aset_eq. rewrite Ib, Hirq. done.
Qed.
End protect.

(** ** Modules (modules.c); the message is left out *)

Section modules.
Context {AS : Type} `{!Allocator AS}.
(** [modules] beside the store *)
Local Abbreviation K := (M (kstate AS * Z)).

Definition modloader_init : K unit := l ← within (T := kstate AS) list_create; modify (λ s, (fst s, l)).
Definition module_add_raw (m : Z) : K unit :=
  l ← gets snd; _ ← within (T := kstate AS) (list_insert l m); mret tt.

(** The list starts empty and each module is added at its end. *)
Lemma modules_listed (s : kstate AS) p a :
  kst_ok s -> am_malloc 12 (astate s) = Done p a -> p ≠ 0 ->
  ∃ s', modloader_init (s, 0) = Done tt (s', p) ∧ list_rep (heap s') p [] ∧ kst_ok s' ∧ astate s' = a.
Proof.
  intros Hok Hm Hp. destruct (list_create_spec s p a Hok Hm Hp) as (E & Hr & Hok' & _).
  eexists. split; [|split; [exact Hr|split; [exact Hok'|done]]].
  unfold modloader_init. by rewrite (bind_Done _ _ _ _ _ (within_done (Has0 := has_fst) list_create (s, 0) _ _ E)).
Qed.

Lemma module_added (s : kstate AS) modules ns m p a :
  kst_ok s -> list_rep (heap s) modules ns -> am_malloc 12 (astate s) = Done p a -> p ≠ 0 ->
  ∃ s', module_add_raw m (s, modules) = Done tt (s', modules) ∧ list_rep (heap s') modules (ns ++ [(p, m)]) ∧
    kst_ok s' ∧ astate s' = a.
Proof.
  intros Hok Hr Hm Hp. destruct (list_insert_spec s modules ns m p a Hok Hr Hm Hp) as (h' & E & Hr' & Hok' & _).
  exists (KState h' a (KHeap.console s)). split; [|split; [exact Hr'|split; [exact Hok'|done]]]. unfold module_add_raw. mrun. cbn [snd].
  by rewrite (bind_Done _ _ _ _ _ (within_done (Has0 := has_fst) (list_insert modules m) (s, modules) _ _ E)).
Qed.
End modules.

(** ** Examples *)

Section start_examples.
#[local] Existing Instance Bump.allocator.
#[local] Existing Instance example_devices_at.
#[local] Existing Instance example_pc.
#[local] Existing Instance example_linkage.
#[local] Existing Instance pc_strings.
#[local] Existing Instance slow_line.

#[local] Instance example_boot_strings : BootStrings := {|
  str_x86_early := 0; str_multiboot := 3000; fm_banner := 0; banner_args := []; fm_loading := 0;
  fm_failed := 3100; fm_rule := 3200; fm_receipt := 3300; fm_magic := 3400; fm_loader := 3500;
  fm_passed := 3600; fm_booted := 3700; fm_ram := 3800; str_PF := 0; fm_fault := 0; fm_details := 0;
  fm_dashes := 0; fm_newline := 0; fm_version := 0; version_args := []; fm_output := 0; fm_arch := 0;
  fm_processor := 0; str_arch := 0; str_intel := 0; str_i586 := 0 |}.
(** "GRUB" at 3900 *)
Definition boot_memory : ram := Eval vm_compute in
  Ram (poke 3000 (multiboot_text ++ [0]) (poke 3100 (format_chars failed_format ++ [0])
    (poke 3200 (format_chars rule_format ++ [0]) (poke 3300 (format_chars receipt_format ++ [0])
    (poke 3400 (format_chars magic_format ++ [0]) (poke 3500 (format_chars loader_format ++ [0])
    (poke 3600 (format_chars passed_format ++ [0]) (poke 3700 (format_chars booted_format ++ [0])
    (poke 3800 (format_chars ram_format ++ [0]) (poke 3900 [71; 82; 85; 66; 0] (ram_bytes pc_memory))))))))))).
Definition boot_console : console := Console boot_memory (Ports []) 0 0 defaultAttribute.
(** The loader's structure at 0x9000, one module at 0x140000. *)
Definition example_mboot : ram :=
  set_word (0x9000 + MB_boot_loader_name) 3900 (set_word (0x9000 + MB_mem_upper) 65536 (set_word (0x9000 + MB_mods_count) 1
    (set_word (0x9000 + MB_mods_addr) 0x9100 (set_word 0x9100 0x140000 (set_word 0x9104 0x150000
    (set_word 0x140000 0x54494E49 (Ram ∅))))))).
Definition example_boot : boot Bump.bump :=
  Boot (Machine (boot_console, LOG_DEBUG) tables_boot (Pc (Fs Bump.start (Ram ∅) 0 0 0) clock_boot kb_boot 0))
    (set_pmem example_mboot boot_pages) initrd_boot (Cpu 0 0).

Lemma boot_console_ok : con_ok boot_console.
Proof. split; [|cbn; lia|cbn; lia|by vm_compute]. apply ram_ok_bytes. apply (bool_decide_unpack _). by vm_compute. Qed.

Lemma boot_console_strings : strings_ok boot_console ∧ boot_strings_ok example_boot.
Proof. split; split; in_memory. Qed.

Lemma boot_console_talks : talking boot_console.
Proof.
  split; [by exists (screen_tape boot_console); apply con_ok_shows, boot_console_ok|split; in_memory|in_memory|in_memory|].
  intros name [->|[->|[->|[]%elem_of_nil]%elem_of_cons]%elem_of_cons]%elem_of_cons.
  - exists (chars "serial0"). split; [in_memory|by vm_compute].
  - exists (chars "ps2_keyboard"). split; [in_memory|by vm_compute].
  - exists (chars "pit"). split; [in_memory|by vm_compute].
Qed.

Lemma wrong_magic : (0x12345678 =? MULTIBOOT_MAGIC) = false.
Proof. reflexivity. Qed.

Lemma multiboot_verdict_witness :
  ∃ b', multiboot_verify true 0x12345678 0x9000 example_boot = Done false b' ∧
    shows (fst (m_log (b_machine b')))
      (messages LOG_PANIC multiboot_text (receipt 0x12345678 [71; 82; 85; 66]) (screen_tape boot_console)).
Proof.
  destruct (multiboot_verdict true 3 example_boot (screen_tape boot_console) 0x12345678 0x9000 [71; 82; 85; 66])
    as (b' & E & Hs & _).
  - exact slow_line_drains.
  - lia.
  - exact (con_ok_shows _ boot_console_ok).
  - exact (proj1 boot_console_strings).
  - exact (proj2 boot_console_strings).
  - in_memory.
  - cbn. lia.
  - unfold LOG_INFO. cbn. unfold LOG_DEBUG. lia.
  - rewrite wrong_magic in E, Hs. exists b'. split; [exact E|exact Hs].
Defined.

Lemma boot_protects_initrd_witness :
  ∃ b', (multiboot_modules 0x9000;; x86_interrupts_and_paging true) example_boot = Done tt b' ∧
    initrd_startaddr (b_rd b') = 0x140000 ∧ word (pmem (b_pages b')) 0x140000 = 0x54494E49 ∧
    translate (b_pages b') 0x140000 = Some 0x140000.
Proof.
  destruct (boot_protects_initrd true 3 example_boot 0x9000) as (b' & E & _ & Hstart & _ & Hbytes & Ht & _).
  - exact slow_line_drains.
  - lia.
  - exact example_image_ok.
  - exact boot_console_talks.
  - reflexivity.
  - reflexivity.
  - reflexivity.
  - reflexivity.
  - vm_compute. discriminate.
  - apply ram_ok_bytes. apply (bool_decide_unpack _). by vm_compute.
  - vm_compute. discriminate.
  - vm_compute. repeat split; discriminate.
  - exists b'. split; [exact E|]. split; [exact Hstart|]. split.
    + rewrite Hbytes; [by vm_compute|lia|vm_compute; discriminate].
    + apply Ht. split; [lia|by vm_compute].
Defined.
End start_examples.
