(* ===== verification/VTerm.v ===== *)
(** * Virtual terminals (kernel/vterm.c)

    A terminal is a structure and a block of characters, row after row. Text
    is stored by position, whatever the rows; [term_blt] copies the block to
    the x86 text screen. *)

From S2P Require Import Prelude KHeap CString Ram Fs Ports Console.

(** ** The structure (includes/beryllium/vterm.h) *)

Definition T_height : Z := 0.
Definition T_width : Z := 4.
Definition T_isInit : Z := 16.
Definition T_isPhysical : Z := 20.
Definition T_data : Z := 24.
Definition sizeof_term : Z := 28.

(** [malloc] may return the null pointer: the stores through it are errors. *)
Definition term_create {AS : Type} `{!Allocator AS} (width height isPhysical : Z) : M (fs AS) Z :=
  build ← fmalloc sizeof_term;
  stf build T_height height;;
  stf build T_width width;;
  stf build T_isPhysical isPhysical;;
  stf build T_isInit 1;;
  data ← fmalloc (u32 (height * width));
  stf build T_data data;;
  mret build.

Section vterm.
Local Abbreviation K := (M ram).

(** [&term->data[(term->width * y) + x]], an [int] index *)
Definition term_place (term x y : Z) : K Z :=
  d ← load32 (term + T_data);
  w ← load32 (term + T_width);
  mret (u32 (d + s32 (w * y + x))).

Definition term_write (term x y c : Z) : K unit := a ← term_place term x y; store8 a c.

Definition writes_step (term y c : Z) : Z * Z -> K (Z * Z + unit) := λ '(x, i),
  v ← load8 (c + i);
  if v =? 0 then mret (inr tt)
  else
    a ← term_place term x y;
    v ← load8 (c + i);
    store8 a v;;
    mret (inl (s32 (x + 1), s32 (i + 1))).
Definition term_writes (term x y c : Z) : K unit := while word_fuel (writes_step term y c) (x, 0).

Definition term_read (term x y : Z) : K Z := a ← term_place term x y; load8 a.

(** Both bounds are read again on every turn. *)
Definition blt_cell (term x iy : Z) : Z * Z -> M console (Z * Z + Z) := λ '(ix, i),
  w ← within (T := ram) (load32 (term + T_width));
  if ix =? s32 (w + x) then mret (inr i)
  else
    d ← within (T := ram) (load32 (term + T_data));
    c ← ld (u32 (d + i));
    video_printchar ix iy c;;
    mret (inl (s32 (ix + 1), s32 (i + 1))).
Definition blt_row (term x y : Z) : Z * Z -> M console (Z * Z + unit) := λ '(iy, i),
  h ← within (T := ram) (load32 (term + T_height));
  if iy =? s32 (h + y) then mret (inr tt)
  else
    i ← while word_fuel (blt_cell term x iy) (x, i);
    mret (inl (s32 (iy + 1), i)).
Definition term_blt (X86 : bool) (term x y : Z) : M console unit :=
  if X86 then while word_fuel (blt_row term x y) (y, 0) else mret tt.
End vterm.

(** ** A terminal in memory *)

Section terminal.
Implicit Types m : ram.

Record term_at m (term w h data : Z) (cs : list Z) : Prop := {
  ta_term : 0 <= term ∧ term + sizeof_term <= 2 ^ 32;
  ta_data : 0 <= data ∧ data + w * h <= 2 ^ 32;
  ta_apart : term + sizeof_term <= data ∨ data + w * h <= term;
  ta_size : 0 <= w ∧ 0 <= h ∧ w * h < 2 ^ 31 ∧ Z.of_nat (length cs) = w * h;
  ta_width : word m (term + T_width) = w;
  ta_height : word m (term + T_height) = h;
  ta_block : word m (term + T_data) = data;
  ta_cells : ∀ j, 0 <= j < w * h -> aget cs j = Some (byte m (data + j))
}.

Lemma load8_byte a m : load8 a m = Done (byte m a) m.
Proof. done. Qed.
Lemma store8_byte a v m : store8 a v m = Done tt (set_byte a v m).
Proof. done. Qed.

Lemma term_place_done m term w h data cs x y :
  term_at m term w h data cs -> 0 <= w * y + x < w * h -> term_place term x y m = Done (data + (w * y + x)) m.
Proof.
  intros [T1 T2 _ [_ [_ [T4 _]]] Tw _ Td _] Hp. unfold term_place.
  rewrite (bind_Done _ _ _ _ _ (load32_word _ _)), Td, (bind_Done _ _ _ _ _ (load32_word _ _)), Tw.
  unfold mret, M_ret. rewrite s32_small, u32_small by lia. done.
Qed.

(** One byte of the block. *)
Lemma term_at_store m term w h data cs p v :
  term_at m term w h data cs -> 0 <= p < w * h -> 0 <= v < 256 ->
  term_at (set_byte (data + p) v m) term w h data (aset p v cs).
Proof.
  intros [T1 T2 T3 [S1 [S2 [S3 S4]]] Tw Th Td Tc] Hp Hv. unfold sizeof_term, T_width, T_height, T_data in *.
  assert (Hword : ∀ off, 0 <= off <= 24 -> word (set_byte (data + p) v m) (term + off) = word m (term + off)).
  { intros off Hoff. unfold word. rewrite !byte_set_ne; [done|apply u32_ne; lia..]. }
  split; unfold sizeof_term, T_width, T_height, T_data; try done; rewrite ?Hword by lia; try done.
  - by rewrite length_aset.
  - intros j Hj. destruct (decide (p = j)) as [<-|Hne].
    + rewrite aget_aset_eq, byte_set_eq, u8_small by lia. done.
    + rewrite aget_aset_ne, byte_set_ne by (done || (apply u32_ne; lia)). by apply Tc.
Qed.

(** Overwriting from a position on. *)
Fixpoint put_text (p : Z) (l : list Z) (cs : list Z) : list Z :=
  match l with [] => cs | c :: l' => put_text (p + 1) l' (aset p c cs) end.

Lemma term_write_spec m term w h data cs x y c :
  term_at m term w h data cs -> 0 <= w * y + x < w * h -> 0 <= c < 256 ->
  ∃ m', term_write term x y c m = Done tt m' ∧ term_at m' term w h data (aset (w * y + x) c cs) ∧
    ∀ b, 0 <= b < 2 ^ 32 -> ¬ data <= b < data + w * h -> byte m' b = byte m b.
Proof.
  intros Ht Hp Hc. exists (set_byte (data + (w * y + x)) c m). unfold term_write.
  rewrite (bind_Done _ _ _ _ _ (term_place_done _ _ _ _ _ _ _ _ Ht Hp)), store8_byte. split; [done|].
  split; [apply (term_at_store _ _ _ _ _ _ _ _ Ht Hp Hc)|]. intros b Hb Hout. apply byte_set_ne, u32_ne; destruct Ht as [_ T2 _ _ _ _ _ _]; lia.
Qed.

Lemma term_read_spec m term w h data cs x y :
  term_at m term w h data cs -> 0 <= w * y + x < w * h ->
  ∃ v, aget cs (w * y + x) = Some v ∧ term_read term x y m = Done v m.
Proof.
  intros Ht Hp. eexists. split; [by apply Ht|]. unfold term_read.
  by rewrite (bind_Done _ _ _ _ _ (term_place_done _ _ _ _ _ _ _ _ Ht Hp)), load8_byte.
Qed.

(** A string outside the block. *)
Fixpoint text_at m (data size a : Z) (l : list Z) : Prop :=
  (0 <= a < 2 ^ 32 ∧ ¬ data <= a < data + size) ∧
  match l with
  | [] => byte m a = 0
  | c :: l' => byte m a = c ∧ 0 < c < 256 ∧ text_at m data size (a + 1) l'
  end.

Lemma text_at_same m m' data size l : ∀ a,
  (∀ b, 0 <= b < 2 ^ 32 -> ¬ data <= b < data + size -> byte m' b = byte m b) ->
  text_at m data size a l -> text_at m' data size a l.
Proof.
  induction l as [|c l IH]; intros a Hsame; cbn [text_at].
  - intros [Ha H0]. split; [done|]. rewrite Hsame by tauto. done.
  - intros [Ha (Hc & ? & Hl)]. split; [done|]. rewrite Hsame by tauto. split; [done|]. split; [done|]. by apply IH.
Qed.

Lemma writes_next m term w h data cs y c x i v m1 :
  term_at m term w h data cs -> byte m (c + i) = v -> 0 < v < 256 -> 0 <= w * y + x < w * h ->
  term_write term x y v m = Done tt m1 ->
  writes_step term y c (x, i) m = Done (inl (s32 (x + 1), s32 (i + 1))) m1.
Proof.
  intros Ht Hv Hv2 Hp E. unfold term_write in E.
  rewrite (bind_Done _ _ _ _ _ (term_place_done _ _ _ _ _ _ _ _ Ht Hp)) in E.
  unfold writes_step. rewrite (bind_Done _ _ _ _ _ (load8_byte _ _)), Hv, (proj2 (Z.eqb_neq v 0)) by lia.
  rewrite (bind_Done _ _ _ _ _ (term_place_done _ _ _ _ _ _ _ _ Ht Hp)).
  by rewrite (bind_Done _ _ _ _ _ (load8_byte _ _)), Hv, (bind_Done _ _ _ _ _ E).
Qed.

Lemma writes_loop term w h data y c l : ∀ m cs x i n,
  term_at m term w h data cs -> text_at m data (w * h) (c + i) l -> (length l < n)%nat ->
  0 <= w * y + x -> w * y + x + Z.of_nat (length l) <= w * h -> 0 <= i -> i + Z.of_nat (length l) < 2 ^ 31 ->
  - 2 ^ 31 <= x -> x + Z.of_nat (length l) < 2 ^ 31 ->
  ∃ m', loop n (writes_step term y c) (x, i) m = Done tt m' ∧ term_at m' term w h data (put_text (w * y + x) l cs) ∧
    ∀ b, 0 <= b < 2 ^ 32 -> ¬ data <= b < data + w * h -> byte m' b = byte m b.
Proof.
  induction l as [|v l IH]; intros m cs x i n Ht Hl Hn Hp Hend Hi Hi2 Hx Hx2; destruct n as [|n]; try (cbn in Hn; lia).
  - destruct Hl as [_ H0]. exists m. split; [|by split]. cbn [loop].
    assert (E : writes_step term y c (x, i) m = Done (inr tt) m).
    { unfold writes_step. by rewrite (bind_Done _ _ _ _ _ (load8_byte _ _)), H0. }
    by rewrite (bind_Done _ _ _ _ _ E).
  - destruct Hl as [_ (Hv & Hv2 & Hl)]. cbn [length] in *.
    assert (Hp1 : 0 <= w * y + x < w * h) by lia.
    destruct (term_write_spec m term w h data cs x y v Ht Hp1 ltac:(lia)) as (m1 & E1 & T1 & O1).
    destruct (IH m1 _ (x + 1) (i + 1) n T1) as (m' & E & T & O); try lia.
    + replace (c + (i + 1)) with (c + i + 1) by lia. by eapply text_at_same.
    + exists m'. split; [|split].
      * cbn [loop]. rewrite (bind_Done _ _ _ _ _ (writes_next _ _ _ _ _ _ _ _ _ _ _ _ Ht Hv Hv2 Hp1 E1)).
        rewrite !s32_small by lia. exact E.
      * cbn [put_text]. replace (w * y + x + 1) with (w * y + (x + 1)) by lia. exact T.
      * intros b Hb Ho. by rewrite O, O1.
Qed.

(** *** Programs on a terminal *)

Inductive term_cmd := TWrite (x y c : Z) | TWrites (x y str : Z) (l : list Z) | TRead (x y : Z).

Definition term_exec (term : Z) (cmd : term_cmd) : M ram (list Z) :=
  match cmd with
  | TWrite x y c => term_write term x y c;; mret []
  | TWrites x y str _ => term_writes term x y str;; mret []
  | TRead x y => v ← term_read term x y; mret [v]
  end.
Fixpoint term_run (term : Z) (cmds : list term_cmd) : M ram (list Z) :=
  match cmds with
  | [] => mret []
  | cmd :: cmds' => v ← term_exec term cmd; vs ← term_run term cmds'; mret (v ++ vs)
  end.

(** On a plain sequence of characters. *)
Definition cmd_meaning (w : Z) (cmd : term_cmd) (cs : list Z) : list Z * list Z :=
  match cmd with
  | TWrite x y c => ([], aset (w * y + x) c cs)
  | TWrites x y _ l => ([], put_text (w * y + x) l cs)
  | TRead x y => ([default 0 (aget cs (w * y + x))], cs)
  end.
Fixpoint term_meaning (w : Z) (cmds : list term_cmd) (cs : list Z) : list Z * list Z :=
  match cmds with
  | [] => ([], cs)
  | cmd :: cmds' =>
      let '(v, cs1) := cmd_meaning w cmd cs in let '(vs, cs2) := term_meaning w cmds' cs1 in (v ++ vs, cs2)
  end.

(** What a command may ask: positions in the block, characters, and strings
    that lie outside the block. *)
Definition cmd_ok m (w h data : Z) (cmd : term_cmd) : Prop :=
  match cmd with
  | TWrite x y c => 0 <= w * y + x < w * h ∧ 0 <= c < 256
  | TWrites x y str l => 0 <= w * y + x ∧ w * y + x + Z.of_nat (length l) <= w * h ∧
      - 2 ^ 31 <= x ∧ x + Z.of_nat (length l) < 2 ^ 31 ∧ text_at m data (w * h) str l
  | TRead x y => 0 <= w * y + x < w * h
  end.

Lemma cmd_spec m term w h data cs cmd :
  term_at m term w h data cs -> cmd_ok m w h data cmd ->
  ∃ m', term_exec term cmd m = Done (cmd_meaning w cmd cs).1 m' ∧ term_at m' term w h data (cmd_meaning w cmd cs).2 ∧
    ∀ b, 0 <= b < 2 ^ 32 -> ¬ data <= b < data + w * h -> byte m' b = byte m b.
Proof.
  intros Ht Hc. destruct cmd as [x y c|x y str l|x y]; cbn [term_exec cmd_meaning cmd_ok fst snd] in *.
  - destruct Hc as [Hp Hc]. destruct (term_write_spec _ _ _ _ _ _ x y c Ht Hp Hc) as (m' & E & H). exists m'. split; [by mstep E|done].
  - destruct Hc as (H1 & H2 & H3 & H4 & Hl).
    assert (Hlen : Z.of_nat (length l) < 2 ^ 31) by (destruct Ht as [_ _ _ [_ [_ [? _]]] _ _ _ _]; lia).
    destruct (writes_loop term w h data y str l m cs x 0 (Pos.to_nat word_fuel) Ht) as (m' & E & H).
    + by rewrite Z.add_0_r.
    + pose proof word_fuel_Z. lia.
    + done.
    + done.
    + done.
    + lia.
    + done.
    + done.
    + exists m'. split; [|exact H]. unfold term_writes.
      assert (E' : while word_fuel (writes_step term y str) (x, 0) m = Done tt m') by (by rewrite while_loop). by mstep E'.
  - destruct (term_read_spec _ _ _ _ _ _ x y Ht Hc) as (v & Hv & E). exists m. rewrite Hv. split; [by mstep E|by split].
Qed.

(** A terminal refines a sequence of characters: whatever is written inside
    the block, by character or by string, is what later reads return, and
    memory outside the block does not change. A string that is longer than
    the rest of its row goes on in the next. *)
Theorem term_program_refines cmds m term w h data cs
    (Ht : term_at m term w h data cs) (Hok : Forall (cmd_ok m w h data) cmds) :
  ∃ m', term_run term cmds m = Done (term_meaning w cmds cs).1 m' ∧
    term_at m' term w h data (term_meaning w cmds cs).2 ∧
    ∀ b, 0 <= b < 2 ^ 32 -> ¬ data <= b < data + w * h -> byte m' b = byte m b.
Proof.
  revert m cs Ht Hok. induction cmds as [|cmd cmds IH]; intros m cs Ht Hok; [by exists m|].
  apply Forall_cons in Hok as [Hc Hok]. destruct (cmd_spec m term w h data cs cmd Ht Hc) as (m1 & E1 & T1 & O1).
  cbn [term_run term_meaning]. destruct (cmd_meaning w cmd cs) as [v cs1]. cbn [fst snd] in *.
  destruct (IH m1 cs1 T1) as (m' & E & T & O).
  { eapply Forall_impl; [exact Hok|]. intros [x y c|x y str l|x y]; cbn [cmd_ok]; [done| |done].
    intros (? & ? & ? & ? & Hl). repeat (split; [done|]). by eapply text_at_same. }
  destruct (term_meaning w cmds cs1) as [vs cs2]. exists m'. mstep E1. mstep E. split; [done|]. split; [done|].
  intros b Hb Ho. by rewrite O, O1.
Qed.
End terminal.

(** ** On the screen *)

Section blt.
Context (term w h data : Z) (cs : list Z) (x y : Z) (s0 : console).
Implicit Types (m : ram) (s : console).

Definition off_video (a n : Z) : Prop := a + n <= video_memory ∨ video_memory + 2 * shown <= a.

(** The screen with the first [k] characters drawn at [(x, y)]. *)
Definition drawn (k : Z) m : Prop :=
  ∀ j, 0 <= j < shown -> cell m j =
    let r := j / 80 - y in let q := j mod 80 - x in
    if (0 <=? r) && (r <? h) && (0 <=? q) && (q <? w) && (r * w + q <? k)
    then cell_of (attributeByte s0) (default 0 (aget cs (r * w + q))) else cell (c_mem s0) j.
Definition drawing (k : Z) s : Prop :=
  ∃ m, s = with_mem m s0 ∧ ram_ok m ∧ same_elsewhere (c_mem s0) m ∧ drawn k m.

Context (Hterm : term_at (c_mem s0) term w h data cs) (Hattr : 0 <= attributeByte s0 < 256).
Context (Hoff1 : off_video term sizeof_term) (Hoff2 : off_video data (w * h)).
Context (Hx : 0 <= x ∧ x + w <= 80) (Hy : 0 <= y ∧ y + h <= 25).

Lemma byte_off m a : same_elsewhere (c_mem s0) m -> 0 <= a < 2 ^ 32 -> off_screen a -> byte m a = byte (c_mem s0) a.
Proof.
  intros Hs Ha Ho. specialize (Hs a Ha Ho). unfold byte. rewrite u32_small by done.
  change (Some (default 0 (ram_bytes m !! a)) = Some (default 0 (ram_bytes (c_mem s0) !! a))) in Hs. congruence.
Qed.

Lemma term_field m off : same_elsewhere (c_mem s0) m -> 0 <= off <= 24 -> word m (term + off) = word (c_mem s0) (term + off).
Proof.
  intros Hs Hoff. destruct Hterm as [T1 _ _ _ _ _ _ _]. unfold off_video, sizeof_term in *.
  unfold word. rewrite !(byte_off m) by (done || lia || (unfold off_screen; lia)). done.
Qed.

Lemma printchar_done m ix iy c : 0 <= ix < 80 -> 0 <= iy < 25 -> 0 <= c < 256 ->
  video_printchar ix iy c (with_mem m s0)
  = Done tt (with_mem (set_cell (iy * 80 + ix) (cell_of (attributeByte s0) c) m) s0).
Proof.
  intros Hix Hiy Hc. unfold video_printchar, textmode_write.
  rewrite (bind_Done _ _ _ _ _ (eq_refl : gets attributeByte (with_mem m s0) = Done _ _)).
  change (attributeByte (with_mem m s0)) with (attributeByte s0).
  rewrite (within_mem _ (with_mem m s0) tt (set_cell (iy * 80 + ix) (cell_of (attributeByte s0) c) m)); [done|].
  unfold textmode_write_color. rewrite store16_word.
  rewrite (u16_small (Z.shiftl _ _)) by (rewrite Z.shiftl_mul_pow2; lia).
  rewrite lor_shiftl by lia. unfold set_cell, cell_of. do 3 f_equal. lia.
Qed.

Lemma draw_next m r q : ram_ok m -> same_elsewhere (c_mem s0) m -> drawn (r * w + q) m -> 0 <= r < h -> 0 <= q < w ->
  let c := byte m (data + (r * w + q)) in
  let m' := set_cell ((y + r) * 80 + (x + q)) (cell_of (attributeByte s0) c) m in
  video_printchar (x + q) (y + r) c (with_mem m s0) = Done tt (with_mem m' s0) ∧
  ram_ok m' ∧ same_elsewhere (c_mem s0) m' ∧ drawn (r * w + q + 1) m'.
Proof.
  intros Hm Hs Hdr Hr Hq c m'. assert (Hc : 0 <= c < 256) by apply Hm.
  set (j0 := (y + r) * 80 + (x + q)) in *. assert (Hj0 : 0 <= j0 < shown) by (unfold j0, shown; lia).
  assert (Hk : 0 <= r * w + q < w * h) by nia.
  assert (Hcs : default 0 (aget cs (r * w + q)) = c).
  { destruct Hterm as [_ D _ _ _ _ _ C]. rewrite C by done. cbn. unfold c. symmetry.
    apply byte_off; [done|lia|unfold off_screen, off_video in *; lia]. }
  split; [apply printchar_done; lia|]. split; [by apply set_word16_ok|].
  split; [eapply same_trans; [exact Hs|by apply set_cell_same]|].
  intros j Hj. destruct (decide (j0 = j)) as [<-|Hne].
  - unfold m'. rewrite cell_set_eq by (unfold cell_of; lia).
    replace (j0 / 80 - y) with r by (unfold j0; zdm). replace (j0 mod 80 - x) with q by (unfold j0; zdm). cbv zeta.
    rewrite (proj2 (Z.leb_le 0 r)), (proj2 (Z.ltb_lt r h)), (proj2 (Z.leb_le 0 q)), (proj2 (Z.ltb_lt q w)),
      (proj2 (Z.ltb_lt (r * w + q) _)) by lia. cbn [andb]. by rewrite Hcs.
  - unfold m'. rewrite cell_set_ne, Hdr by done. cbv zeta. set (r' := j / 80 - y). set (q' := j mod 80 - x).
    destruct (Z.leb_spec 0 r'), (Z.ltb_spec r' h), (Z.leb_spec 0 q'), (Z.ltb_spec q' w); try done. cbn [andb].
    assert (r' * w + q' ≠ r * w + q).
    { intros Heq. destruct (Z.div_mod_unique w r' r q' q) as [Er Eq]; [lia|lia|lia|].
      clear -Er Eq Hne. apply Hne. unfold j0, r', q' in *. zdm. }
    destruct (Z.ltb_spec (r' * w + q') (r * w + q)), (Z.ltb_spec (r' * w + q') (r * w + q + 1)); done || lia.
Qed.

Lemma drawing_field k s off : drawing k s -> 0 <= off <= 24 ->
  within (T := ram) (load32 (term + off)) s = Done (word (c_mem s0) (term + off)) s.
Proof.
  intros (m & -> & _ & Hs & _) Ho. rewrite <- (term_field m off Hs Ho).
  by apply (within_read (T := ram)), load32_word.
Qed.

Lemma cell_turn r q s : drawing (r * w + q) s -> 0 <= r < h -> 0 <= q <= w ->
  if q =? w then blt_cell term x (y + r) (x + q, r * w + q) s = Done (inr (r * w + q)) s
  else ∃ s', blt_cell term x (y + r) (x + q, r * w + q) s = Done (inl (x + (q + 1), r * w + (q + 1))) s' ∧
    drawing (r * w + (q + 1)) s'.
Proof.
  intros Hdr Hr Hq. destruct Hterm as [_ D _ (S1 & S2 & S3 & _) Tw _ Td _]. unfold off_video, shown, video_memory in Hoff2.
  assert (E1 : ∀ B (f : Z -> M console B), (within (T := ram) (load32 (term + T_width)) ≫= f) s = f w s).
  { intros B f. rewrite (bind_Done _ f _ _ _ (drawing_field _ _ T_width Hdr ltac:(unfold T_width; lia))). by rewrite Tw. }
  unfold blt_cell. rewrite E1, (s32_small (w + x)) by lia. destruct (Z.eqb_spec q w) as [->|Hne].
  - by rewrite (proj2 (Z.eqb_eq _ _)) by lia.
  - rewrite (proj2 (Z.eqb_neq _ _)) by lia.
    rewrite (bind_Done _ _ _ _ _ (drawing_field _ _ T_data Hdr ltac:(unfold T_data; lia))), Td.
    assert (Hk : 0 <= r * w + q < w * h) by nia. destruct Hdr as (m & -> & Hm & Hs & Hd).
    destruct (draw_next m r q Hm Hs Hd Hr ltac:(lia)) as (E & Hm' & Hs' & Hd').
    set (m' := set_cell _ _ _) in *. exists (with_mem m' s0).
    assert (El : ld (u32 (data + (r * w + q))) (with_mem m s0) = Done (byte m (data + (r * w + q))) (with_mem m s0)).
    { rewrite u32_small by lia. by apply (within_read (T := ram)), load8_byte. }
    mstep El. mstep E. rewrite !s32_small by lia. replace (x + q + 1) with (x + (q + 1)) by lia.
    replace (r * w + q + 1) with (r * w + (q + 1)) in * by lia. split; [done|]. by exists m'.
Qed.

Lemma row_loop r : 0 <= r < h -> ∀ n q s,
  drawing (r * w + q) s -> 0 <= q <= w -> (Z.to_nat (w - q) < n)%nat ->
  ∃ s', loop n (blt_cell term x (y + r)) (x + q, r * w + q) s = Done (r * w + w) s' ∧ drawing (r * w + w) s'.
Proof.
  intros Hr. induction n as [|n IH]; intros q s Hdr Hq Hn; [lia|]. cbn [loop].
  pose proof (cell_turn r q s Hdr Hr Hq) as Hturn. destruct (Z.eqb_spec q w) as [->|Hne].
  - mstep Hturn. by exists s.
  - destruct Hturn as (s1 & E & D1). mstep E. apply IH; [done|lia|lia].
Qed.

Lemma row_turn r s : drawing (r * w) s -> 0 <= r <= h ->
  if r =? h then blt_row term x y (y + r, r * w) s = Done (inr tt) s
  else ∃ s', blt_row term x y (y + r, r * w) s = Done (inl (y + (r + 1), (r + 1) * w)) s' ∧ drawing ((r + 1) * w) s'.
Proof.
  intros Hdr Hr. destruct Hterm as [_ _ _ (S1 & S2 & _ & _) _ Th _ _].
  unfold blt_row. rewrite (bind_Done _ _ _ _ _ (drawing_field _ _ T_height Hdr ltac:(unfold T_height; lia))), Th.
  rewrite (s32_small (h + y)) by lia. destruct (Z.eqb_spec r h) as [->|Hne].
  - by rewrite (proj2 (Z.eqb_eq _ _)) by lia.
  - rewrite (proj2 (Z.eqb_neq _ _)) by lia.
    destruct (row_loop r ltac:(lia) (Pos.to_nat word_fuel) 0 s) as (s1 & E1 & D1).
    { by rewrite Z.add_0_r. }
    { lia. }
    { pose proof word_fuel_Z. lia. }
    rewrite !Z.add_0_r in E1. rewrite <- while_loop in E1. mstep E1. rewrite s32_small by lia.
    replace (r * w + w) with ((r + 1) * w) in * by lia. replace (y + r + 1) with (y + (r + 1)) by lia. by exists s1.
Qed.

Lemma rows_loop : ∀ n r s, drawing (r * w) s -> 0 <= r <= h -> (Z.to_nat (h - r) < n)%nat ->
  ∃ s', loop n (blt_row term x y) (y + r, r * w) s = Done tt s' ∧ drawing (h * w) s'.
Proof.
  induction n as [|n IH]; intros r s Hdr Hr Hn; [lia|]. cbn [loop].
  pose proof (row_turn r s Hdr Hr) as Hturn. destruct (Z.eqb_spec r h) as [->|Hne].
  - mstep Hturn. by exists s.
  - destruct Hturn as (s1 & E & D1). mstep E. apply IH; [done|lia|lia].
Qed.

(** [term_blt] draws the terminal's characters in their rows with its upper
    left corner at [(x, y)], in the console's colours, and changes nothing
    else on the screen or in memory. *)
Theorem term_blt_draws (Hram : ram_ok (c_mem s0)) :
  ∃ m, term_blt true term x y s0 = Done tt (with_mem m s0) ∧ same_elsewhere (c_mem s0) m ∧
    ∀ j, 0 <= j < shown -> cell m j =
      let r := j / 80 - y in let q := j mod 80 - x in
      if (0 <=? r) && (r <? h) && (0 <=? q) && (q <? w)
      then cell_of (attributeByte s0) (default 0 (aget cs (r * w + q))) else cell (c_mem s0) j.
Proof.
  assert (D0 : drawing (0 * w) s0).
  { exists (c_mem s0). split; [by destruct s0|]. split; [done|]. split; [apply same_refl|]. intros j Hj. cbv zeta.
    destruct (Z.leb_spec 0 (j / 80 - y)), (Z.ltb_spec (j / 80 - y) h), (Z.leb_spec 0 (j mod 80 - x)),
      (Z.ltb_spec (j mod 80 - x) w), (Z.ltb_spec ((j / 80 - y) * w + (j mod 80 - x)) (0 * w)); cbn [andb]; done || nia. }
  destruct Hterm as [_ _ _ (S1 & S2 & _ & _) _ _ _ _].
  destruct (rows_loop (Pos.to_nat word_fuel) 0 s0 D0) as (s' & E & m & -> & _ & Hs & Hd); [lia|pose proof word_fuel_Z; lia|].
  rewrite Z.add_0_r, <- while_loop in E. exists m. split; [exact E|]. split; [exact Hs|].
  intros j Hj. rewrite Hd by done. cbv zeta. set (r := j / 80 - y). set (q := j mod 80 - x).
  destruct (Z.leb_spec 0 r), (Z.ltb_spec r h), (Z.leb_spec 0 q), (Z.ltb_spec q w); cbn [andb]; try done.
  by rewrite (proj2 (Z.ltb_lt _ _)) by nia.
Qed.
End blt.
